(** * WebRTC-Stream-Router: the signalling core, embedded and verified

    The repository holds several iterations of one router:
    - [FirstRouter]  : src/index.ts, the first socket prototype (commands);
    - [AdminRouter]  : the socket router whose operator is the client "admin";
    - [SocketRouter] : the socket router with the two roles InboundClient and
                       OutboundClient, a management socket and the bootstrap
                       through the directory store;
    - [RelayRouter]  : the router that signals through the directory store.

    Every class and function below is a transcription of the TypeScript
    function of the same name.  The JavaScript values that the program reads
    out of [JSON.parse] are first-class here ([JS.value]); the media engine,
    the sockets and the directory store are external: a call to one of them
    is an [effect] in the trace of the handler that makes it. *)

From Stdlib Require Import String Ascii List ZArith NArith Bool Lia Arith.
Import ListNotations.
Local Open Scope string_scope.

(* ================================================================== *)
(** * JavaScript values and the JSON codec *)
(* ================================================================== *)

Set Warnings "-register-all".

Module JS.

(** A number as the program holds it, a binary64 other than NaN, which
    [JSON.parse] never gives: plus or minus [mantissa * 2 ^ exponent], or an
    infinity.  The mantissa is odd, or it is zero and so is the exponent:
    every binary64 is written in one way. *)
Inductive double : Type :=
| Finite (negative : bool) (mantissa : N) (exponent : Z)
| Infinite (negative : bool).

(** What a variable of type [any] can hold in this program: the results of
    [JSON.parse], plus [undefined].  A string is its UTF-8 text. *)
Inductive value : Type :=
| VUndefined
| VNull
| VBool (b : bool)
| VNumber (n : double)
| VString (s : string)
| VArray (elems : list value)
| VObject (props : list (string * value)).

(** The exceptions the program can meet; the last is the promise of an
    async method that rejects with nothing to catch it, which ends the
    process. *)
Inductive exn : Type :=
| TypeError (msg : string)
| SyntaxError (msg : string)
| UnhandledRejection.

(** ** Property access, [??], truthiness *)

Fixpoint assoc (k : string) (props : list (string * value)) : option value :=
  match props with
  | [] => None
  | (k', v) :: rest => if String.eqb k k' then Some v else assoc k rest
  end.

Definition is_nullish (v : value) : bool :=
  match v with
  | VUndefined | VNull => true
  | _ => false
  end.

(** [v.k] for the property names the program reads ([action], [data], [id],
    [token], [command], [candidate], [answer], ...): none of them is a member
    of a prototype, so only an object's own properties can answer.  Reading a
    property of [undefined] or [null] throws.  [None] is the TypeError. *)
Definition own (props : list (string * value)) (k : string) : value :=
  match assoc k props with
  | Some x => x
  | None => VUndefined
  end.

Definition get (v : value) (k : string) : option value :=
  match v with
  | VUndefined | VNull => None
  | VObject props => Some (own props k)
  | _ => Some VUndefined
  end.

(** [a ?? b] *)
Definition nullish_or (a b : value) : value :=
  if is_nullish a then b else a.

(** [obj.k ?? d] on the properties of an object. *)
Definition field (props : list (string * value)) (k : string) (d : value) : value :=
  nullish_or (own props k) d.

(** [if (v)] *)
Definition truthy (v : value) : bool :=
  match v with
  | VUndefined | VNull => false
  | VBool b => b
  | VNumber (Finite _ 0%N _) => false
  | VNumber _ => true
  | VString s => negb (String.eqb s "")
  | VArray _ | VObject _ => true
  end.

(** [v === "lit"]: strict equality with a string never coerces. *)
Definition is_string (v : value) (lit : string) : bool :=
  match v with
  | VString s => String.eqb s lit
  | _ => false
  end.

(** [a == b] where it needs no coercion: two strings, two booleans, nullish
    operands.  The coercions of [==] between kinds (string to number, object
    to primitive, which may itself throw) and the comparison of binary64
    numbers are not modelled: [None]. *)
Definition loose_eq (a b : value) : option bool :=
  match a, b with
  | (VUndefined | VNull), _ => Some (is_nullish b)
  | _, (VUndefined | VNull) => Some false
  | VString x, VString y => Some (String.eqb x y)
  | VBool x, VBool y => Some (Bool.eqb x y)
  | _, _ => None
  end.

(** [a === b] for two values that were read out of two different texts:
    operands of different kinds are different, and so are two objects or two
    arrays, which are never the same object.  The comparison of two binary64
    numbers is not modelled: [None]. *)
Definition strict_eq (a b : value) : option bool :=
  match a, b with
  | VUndefined, VUndefined | VNull, VNull => Some true
  | VBool x, VBool y => Some (Bool.eqb x y)
  | VString x, VString y => Some (String.eqb x y)
  | VNumber _, VNumber _ => None
  | _, _ => Some false
  end.

(** [`${v}`] and ["text" + v]: the string conversion, where it needs no number
    formatting and calls no method of an object. *)
Definition to_text (v : value) : option string :=
  match v with
  | VUndefined => Some "undefined"
  | VNull => Some "null"
  | VBool true => Some "true"
  | VBool false => Some "false"
  | VString s => Some s
  | _ => None
  end.

(** ** Numbers: from a decimal to the nearest binary64 *)

(** A mantissa without the zeros that end it, each one more in the exponent. *)
Fixpoint odd_part (m : positive) (e : Z) : positive * Z :=
  match m with
  | xO m' => odd_part m' (e + 1)
  | _ => (m, e)
  end.

(** The binary64 [m * 2 ^ e], written in its one way. *)
Definition finite (negative : bool) (m : N) (e : Z) : double :=
  match m with
  | N0 => Finite negative 0 0
  | Npos p => let '(p', e') := odd_part p e in Finite negative (Npos p') e'
  end.

(** The integer nearest to [num / den]; of two that are as near, the even. *)
Definition nearest_even (num den : Z) : Z :=
  (let q := num / den in
   let r := num mod den in
   if 2 * r <? den then q
   else if den <? 2 * r then q + 1
   else if Z.even q then q else q + 1)%Z.

(** [num / den >= base ^ k] *)
Definition reaches (base num den k : Z) : bool :=
  (if 0 <=? k then den * base ^ k <=? num else den <=? num * base ^ (- k))%Z.

(** The binary64 nearest to [num / den], both positive: 53 bits of mantissa,
    fewer below [2 ^ -1022], ties to the even mantissa, an infinity from
    [2 ^ 1024 - 2 ^ 970] on. *)
Definition round_binary64 (negative : bool) (num den : Z) : double :=
  (let e0 := Z.log2 num - Z.log2 den in
   let l := if reaches 2 num den e0 then e0 else e0 - 1 in
   let e := Z.max (l - 52) (-1074) in
   let m := if 0 <=? e then nearest_even num (den * 2 ^ e)
            else nearest_even (num * 2 ^ (- e)) den in
   if (971 <? e) || ((e =? 971) && (m =? 2 ^ 53)) then Infinite negative
   else finite negative (Z.to_N m) e)%Z.

Fixpoint count_digits (fuel : nat) (n : Z) : Z :=
  match fuel with
  | O => 1
  | S f => if (n <? 10)%Z then 1 else (1 + count_digits f (n / 10))%Z
  end.

(** How many decimal digits [n] has. *)
Definition digits10 (n : Z) : Z := count_digits (Z.to_nat (Z.log2 n)) n.

(** The binary64 nearest to [s * 10 ^ e].  An integer below [2 ^ 53] is a
    binary64 as it is; a decimal of more than 400 digits before the point is
    an infinity, one with more than 400 zeros after it is zero. *)
Definition decimal_to_binary64 (negative : bool) (s e : Z) : double :=
  (if s =? 0 then Finite negative 0 0
   else if (e =? 0) && (s <? 2 ^ 53) then finite negative (Z.to_N s) 0
   else
     let size := digits10 s + e in
     if 400 <? size then Infinite negative
     else if size <? -400 then Finite negative 0 0
     else if 0 <=? e then round_binary64 negative (s * 10 ^ e) 1
     else round_binary64 negative s (10 ^ (- e)))%Z.

Definition number_eqb (a b : double) : bool :=
  match a, b with
  | Finite s m e, Finite s' m' e' => Bool.eqb s s' && (m =? m')%N && (e =? e')%Z
  | Infinite s, Infinite s' => Bool.eqb s s'
  | _, _ => false
  end.

(** ** [JSON.parse] *)

Local Open Scope char_scope.

Definition is_ws (c : ascii) : bool :=
  match c with
  | " " | "009" | "010" | "013" => true
  | _ => false
  end.

Fixpoint skip_ws (s : string) : string :=
  match s with
  | String c rest => if is_ws c then skip_ws rest else s
  | EmptyString => s
  end.

Definition digit (c : ascii) : option N :=
  let n := N_of_ascii c in
  if ((48 <=? n) && (n <=? 57))%N then Some (n - 48)%N else None.

Definition hex_digit (c : ascii) : option N :=
  let n := N_of_ascii c in
  if ((48 <=? n) && (n <=? 57))%N then Some (n - 48)%N
  else if ((97 <=? n) && (n <=? 102))%N then Some (n - 87)%N
  else if ((65 <=? n) && (n <=? 70))%N then Some (n - 55)%N
  else None.

(** The digits at the head of [s]: their value continuing [acc], how many
    there are, and what follows them. *)
Fixpoint digits (acc : N) (count : nat) (s : string) : N * nat * string :=
  match s with
  | String c rest =>
      match digit c with
      | Some d => digits (acc * 10 + d)%N (S count) rest
      | None => (acc, count, s)
      end
  | EmptyString => (acc, count, s)
  end.

Definition byte (n : N) : ascii := ascii_of_N n.

(** The UTF-8 text of the code point [cp] (the generalised form for a lone
    surrogate). *)
Definition utf8 (cp : N) : string :=
  (if cp <? 128 then String (byte cp) EmptyString
   else if cp <? 2048 then
     String (byte (192 + cp / 64)) (String (byte (128 + cp mod 64)) EmptyString)
   else if cp <? 65536 then
     String (byte (224 + cp / 4096))
       (String (byte (128 + (cp / 64) mod 64))
          (String (byte (128 + cp mod 64)) EmptyString))
   else
     String (byte (240 + cp / 262144))
       (String (byte (128 + (cp / 4096) mod 64))
          (String (byte (128 + (cp / 64) mod 64))
             (String (byte (128 + cp mod 64)) EmptyString))))%N.

Definition hex4 (a b c d : ascii) : option N :=
  match hex_digit a, hex_digit b, hex_digit c, hex_digit d with
  | Some x, Some y, Some z, Some w => Some (((x * 16 + y) * 16 + z) * 16 + w)%N
  | _, _, _, _ => None
  end.

Definition is_high_surrogate (u : N) : bool := ((55296 <=? u) && (u <=? 56319))%N.
Definition is_low_surrogate (u : N) : bool := ((56320 <=? u) && (u <=? 57343))%N.

(** The characters of a string literal after its opening quote, up to the
    closing quote: the text they denote and what follows the literal. *)
Fixpoint string_chars (s : string) : option (string * string) :=
  match s with
  | EmptyString => None
  | String "034" rest => Some (EmptyString, rest)
  | String "\" (String e rest) =>
      let simple (c : ascii) :=
        match string_chars rest with
        | Some (t, r) => Some (String c t, r)
        | None => None
        end in
      match e with
      | "034" => simple "034"
      | "\" => simple "\"
      | "/" => simple "/"
      | "b" => simple "008"
      | "f" => simple "012"
      | "n" => simple "010"
      | "r" => simple "013"
      | "t" => simple "009"
      | "u" =>
          match rest with
          | String a (String b (String c (String d rest1))) =>
              match hex4 a b c d with
              | Some hi =>
                  let alone :=
                    match string_chars rest1 with
                    | Some (t, r) => Some (utf8 hi ++ t, r)%string
                    | None => None
                    end in
                  if is_high_surrogate hi then
                    match rest1 with
                    | String "\" (String "u"
                        (String a' (String b' (String c' (String d' rest2))))) =>
                        match hex4 a' b' c' d' with
                        | Some lo =>
                            if is_low_surrogate lo then
                              match string_chars rest2 with
                              | Some (t, r) =>
                                  Some (utf8 (65536 + (hi - 55296) * 1024
                                                + (lo - 56320))%N ++ t, r)%string
                              | None => None
                              end
                            else alone
                        | None => None
                        end
                    | _ => alone
                    end
                  else alone
              | None => None
              end
          | _ => None
          end
      | _ => None
      end
  | String "\" EmptyString => None
  | String c rest =>
      if (N_of_ascii c <? 32)%N then None
      else
        match string_chars rest with
        | Some (t, r) => Some (String c t, r)
        | None => None
        end
  end.

(** The digits at the head of [s], and what follows them. *)
Fixpoint span_digits (s : string) : string * string :=
  match s with
  | String c rest =>
      match digit c with
      | Some _ => let '(d, r) := span_digits rest in (String c d, r)
      | None => (EmptyString, s)
      end
  | EmptyString => (EmptyString, EmptyString)
  end.

(** The parts of a number literal at the head of a text: [-? int frac? exp?],
    where [int] has no leading zero.  Each part is taken with what follows
    it; [None] where a part is begun and not finished. *)
Definition sign (s : string) : string * string :=
  match s with
  | String "-" r => (String "-" EmptyString, r)
  | _ => (EmptyString, s)
  end.

Definition fraction (s : string) : option (string * string) :=
  match s with
  | String "." r =>
      let '(f, r') := span_digits r in
      match f with
      | EmptyString => None
      | _ => Some (String "." f, r')
      end
  | _ => Some (EmptyString, s)
  end.

Definition exponent_sign (s : string) : string * string :=
  match s with
  | String "-" r => (String "-" EmptyString, r)
  | String "+" r => (String "+" EmptyString, r)
  | _ => (EmptyString, s)
  end.

Definition exponent (s : string) : option (string * string) :=
  match s with
  | String c r =>
      if Ascii.eqb c "e" || Ascii.eqb c "E" then
        let '(sg, r1) := exponent_sign r in
        let '(ex, r2) := span_digits r1 in
        match ex with
        | EmptyString => None
        | _ => Some (String c (sg ++ ex), r2)
        end
      else Some (EmptyString, s)
  | EmptyString => Some (EmptyString, s)
  end%string.

(** The value of the digits of [s]. *)
Definition digits_value (s : string) : Z :=
  let '(n, _, _) := digits 0 0 s in Z.of_N n.

(** The number that the literal of the parts [sg], [int], [fr] and [ex]
    denotes: the binary64 nearest to it. *)
Definition literal_value (sg int fr ex : string) : double :=
  let negative := match sg with EmptyString => false | _ => true end in
  let decimals := match fr with String _ f => f | EmptyString => EmptyString end in
  let e := match ex with
           | String _ (String "-" d) => (- digits_value d)%Z
           | String _ (String "+" d) => digits_value d
           | String _ d => digits_value d
           | EmptyString => 0%Z
           end in
  decimal_to_binary64 negative (digits_value (int ++ decimals)%string)
    (e - Z.of_nat (String.length decimals))%Z.

Definition number (s : string) : option (value * string) :=
  let '(sg, s1) := sign s in
  let '(int, s2) := span_digits s1 in
  match int with
  | EmptyString => None
  | String "0" (String _ _) => None
  | _ =>
      match fraction s2 with
      | None => None
      | Some (fr, s3) =>
          match exponent s3 with
          | None => None
          | Some (ex, s4) => Some (VNumber (literal_value sg int fr ex), s4)
          end
      end
  end%string.

(** An array index as a property name: ["0"], or digits without a leading
    zero, below [2^32 - 1]. *)
Definition array_index (k : string) : option N :=
  match k with
  | EmptyString => None
  | String c rest =>
      let '(n, cnt, r) := digits 0 0 k in
      match r with
      | EmptyString =>
          if (Nat.ltb 1 cnt && Ascii.eqb c "0") then None
          else if (n <? 4294967295)%N then Some n else None
      | _ => None
      end
  end.

(** [obj[k] = v] on a fresh data property: an existing key keeps its place;
    a new index key goes among the index keys, in ascending order, before
    every other key; any other new key goes last. *)
Definition has_key (k : string) (props : list (string * value)) : bool :=
  existsb (fun p => String.eqb k (fst p)) props.

(** Whether the new key [k] goes before the key [k'] that is there. *)
Definition goes_before (k k' : string) : bool :=
  match array_index k, array_index k' with
  | Some n, Some n' => (n <? n')%N
  | Some _, None => true
  | None, _ => false
  end.

Fixpoint set_prop (k : string) (v : value) (props : list (string * value))
  : list (string * value) :=
  match props with
  | [] => [(k, v)]
  | (k', v') :: rest =>
      if String.eqb k k' then (k, v) :: rest
      else if goes_before k k' && negb (has_key k rest)
      then (k, v) :: props
      else (k', v') :: set_prop k v rest
  end.

(** [s] without the prefix [prefix], when it begins with it. *)
Fixpoint strip (prefix s : string) : option string :=
  match prefix with
  | EmptyString => Some s
  | String p prefix' =>
      match s with
      | String c s' => if Ascii.eqb p c then strip prefix' s' else None
      | EmptyString => None
      end
  end.

(** The literals [null], [true] and [false] at the head of a text. *)
Definition keyword (s : string) : option (value * string) :=
  match strip "null" s with
  | Some r => Some (VNull, r)
  | None =>
      match strip "true" s with
      | Some r => Some (VBool true, r)
      | None =>
          match strip "false" s with
          | Some r => Some (VBool false, r)
          | None => None
          end
      end
  end%string.

(** The recursive descent.  Every call reads at least one character before
    it calls again, so [fuel] above the length of the text never runs out. *)
Fixpoint parse_value (fuel : nat) (s : string) {struct fuel}
  : option (value * string) :=
  match fuel with
  | O => None
  | S fuel' =>
      match keyword (skip_ws s) with
      | Some found => Some found
      | None =>
          match skip_ws s with
          | String "034" r =>
              match string_chars r with
              | Some (t, r') => Some (VString t, r')
              | None => None
              end
          | String "[" r =>
              match skip_ws r with
              | String "]" r' => Some (VArray [], r')
              | _ =>
                  match parse_elements fuel' r with
                  | Some (vs, r') => Some (VArray vs, r')
                  | None => None
                  end
              end
          | String "{" r =>
              match skip_ws r with
              | String "}" r' => Some (VObject [], r')
              | _ =>
                  match parse_members fuel' r [] with
                  | Some (ps, r') => Some (VObject ps, r')
                  | None => None
                  end
              end
          | rest => number rest
          end
      end
  end
with parse_elements (fuel : nat) (s : string) {struct fuel}
  : option (list value * string) :=
  match fuel with
  | O => None
  | S fuel' =>
      match parse_value fuel' s with
      | Some (v, r) =>
          match skip_ws r with
          | String "," r' =>
              match parse_elements fuel' r' with
              | Some (vs, r'') => Some (v :: vs, r'')
              | None => None
              end
          | String "]" r' => Some ([v], r')
          | _ => None
          end
      | None => None
      end
  end
with parse_members (fuel : nat) (s : string) (acc : list (string * value))
  {struct fuel} : option (list (string * value) * string) :=
  match fuel with
  | O => None
  | S fuel' =>
      match skip_ws s with
      | String "034" r =>
          match string_chars r with
          | Some (k, r1) =>
              match skip_ws r1 with
              | String ":" r2 =>
                  match parse_value fuel' r2 with
                  | Some (v, r3) =>
                      let acc' := set_prop k v acc in
                      match skip_ws r3 with
                      | String "," r4 => parse_members fuel' r4 acc'
                      | String "}" r4 => Some (acc', r4)
                      | _ => None
                      end
                  | None => None
                  end
              | _ => None
              end
          | None => None
          end
      | _ => None
      end
  end.

(** [JSON.parse(text)]: [None] is the SyntaxError. *)
Definition JSON_parse (text : string) : option value :=
  match parse_value (2 * String.length text + 2) text with
  | Some (v, rest) =>
      match skip_ws rest with
      | EmptyString => Some v
      | _ => None
      end
  | None => None
  end.

(** The text is a JSON object with a property [k]. *)
Definition carries (text : string) (k : string) : bool :=
  match JSON_parse text with
  | Some (VObject props) => has_key k props
  | _ => false
  end.

(** ** [JSON.stringify] *)

Definition hex_char (n : N) : ascii :=
  if (n <? 10)%N then byte (48 + n) else byte (87 + n).

(** A string literal: the quote, the backslash and the control characters
    are escaped, everything else stands for itself.  (A lone surrogate, which
    [JSON.stringify] writes as an escape, stands for itself too, in its
    generalised form: another text that is read as the same string.) *)
Fixpoint escape (s : string) : string :=
  match s with
  | EmptyString => EmptyString
  | String c rest =>
      let n := N_of_ascii c in
      let two (e : ascii) := String "\" (String e (escape rest)) in
      match c with
      | "034" => two "034"
      | "\" => two "\"
      | "008" => two "b"
      | "012" => two "f"
      | "010" => two "n"
      | "013" => two "r"
      | "009" => two "t"
      | _ =>
          if (n <? 32)%N then
            String "\" (String "u" (String "0" (String "0"
              (String (hex_char (n / 16)) (String (hex_char (n mod 16))
                 (escape rest))))))
          else String c (escape rest)
      end
  end.

Definition quote (s : string) : string :=
  String "034" (escape s ++ String "034" EmptyString).

Local Close Scope char_scope.

(** The elements of an array and the members of an object, given the text
    of a value.  Inside an array [undefined] is written [null]; inside an
    object a property whose value is [undefined] is left out. *)
Definition items (text : value -> string) : list value -> string :=
  fix items (l : list value) : string :=
    match l with
    | [] => ""
    | [x] => text x
    | x :: rest => text x ++ "," ++ items rest
    end.

Definition members (text : value -> string) : bool -> list (string * value) -> string :=
  fix members (first : bool) (l : list (string * value)) : string :=
    match l with
    | [] => ""
    | (_, VUndefined) :: rest => members first rest
    | (k, x) :: rest =>
        (if first then "" else ",") ++ quote k ++ ":" ++ text x
        ++ members false rest
    end.

(** ** Numbers: the shortest decimal that reads back *)

Definition digit_char (d : Z) : ascii := byte (48 + Z.to_N d).

Fixpoint decimal_digits (fuel : nat) (n : Z) (acc : string) : string :=
  match fuel with
  | O => acc
  | S f =>
      let acc' := String (digit_char (n mod 10)) acc in
      if (n <? 10)%Z then acc' else decimal_digits f (n / 10) acc'
  end.

(** The digits of [n]. *)
Definition decimal (n : Z) : string :=
  decimal_digits (S (Z.to_nat (Z.log2 n))) n "".

(** The decimal of [k] digits nearest to [num / den], which is between
    [10 ^ (n - 1)] and [10 ^ n], when it reads back as [d]: its digits [s]
    and its exponent, for [s * 10 ^ (exponent - k)]. *)
Definition candidate (d : double) (num den n k : Z) : option (Z * Z) :=
  (let tn := if 0 <=? k - n then num * 10 ^ (k - n) else num in
   let td := if 0 <=? k - n then den else den * 10 ^ (n - k) in
   let lo := tn / td in
   let r := tn mod td in
   let hi := if lo + 1 =? 10 ^ k then (10 ^ (k - 1), n + 1) else (lo + 1, n) in
   let reads (c : Z * Z) :=
     number_eqb (decimal_to_binary64 false (fst c) (snd c - k)) d in
   if r =? 0 then Some (lo, n)
   else
     match reads (lo, n), reads hi with
     | true, true =>
         if 2 * r <? td then Some (lo, n)
         else if td <? 2 * r then Some hi
         else if Z.even lo then Some (lo, n) else Some hi
     | true, false => Some (lo, n)
     | false, true => Some hi
     | false, false => None
     end)%Z.

(** The fewest digits that read back as [d], from [k] digits on: the digits,
    how many they are, and the exponent. *)
Fixpoint shortest (fuel : nat) (d : double) (num den n k : Z) : Z * Z * Z :=
  match fuel with
  | O => ((num / den)%Z, k, n)
  | S f =>
      match candidate d num den n k with
      | Some (s, n') => (s, k, n')
      | None => shortest f d num den n (k + 1)%Z
      end
  end.

Fixpoint zeros (n : nat) : string :=
  match n with
  | O => ""
  | S n' => String "0"%char (zeros n')
  end.

(** The digits [s], [k] of them, as the number [s * 10 ^ (n - k)] is
    written: in full up to 21 digits before the point and 6 zeros after it,
    with an exponent beyond. *)
Definition format (s k n : Z) : string :=
  (let ds := decimal s in
   let take (i : Z) := substring 0 (Z.to_nat i) ds in
   let drop (i : Z) := substring (Z.to_nat i) (String.length ds - Z.to_nat i) ds in
   if (k <=? n) && (n <=? 21) then ds ++ zeros (Z.to_nat (n - k))
   else if (0 <? n) && (n <=? 21) then take n ++ "." ++ drop n
   else if (-6 <? n) && (n <=? 0) then "0." ++ zeros (Z.to_nat (- n)) ++ ds
   else
     let e := n - 1 in
     let et := (if e <? 0 then "-" else "+") ++ decimal (Z.abs e) in
     if k =? 1 then ds ++ "e" ++ et
     else take 1 ++ "." ++ drop 1 ++ "e" ++ et)%Z.

(** [Number.prototype.toString]: the fewest digits that read back as the
    number, and of these the nearest to it.  An integer below [2 ^ 53] is
    written with all its digits. *)
Definition number_text (d : double) : string :=
  match d with
  | Infinite true => "-Infinity"
  | Infinite false => "Infinity"
  | Finite _ N0 _ => "0"
  | Finite negative (Npos m) e =>
      (let num := if 0 <=? e then Zpos m * 2 ^ e else Zpos m in
       let den := if 0 <=? e then 1 else 2 ^ (- e) in
       (if negative then "-" else "") ++
       (if (0 <=? e) && (num <? 2 ^ 53) then decimal num
        else
          let n0 := digits10 num - digits10 den in
          let n := if reaches 10 num den n0 then n0 + 1 else n0 in
          let '(s, k, n') := shortest 17 (Finite false (Npos m) e) num den n 1 in
          format s k n'))%Z
  end.

(** The text of a value: a number that is not finite is written [null]. *)
Fixpoint to_json (v : value) : string :=
  match v with
  | VUndefined | VNull => "null"
  | VBool true => "true"
  | VBool false => "false"
  | VNumber (Infinite _) => "null"
  | VNumber n => number_text n
  | VString s => quote s
  | VArray elems => "[" ++ items to_json elems ++ "]"
  | VObject props => "{" ++ members to_json true props ++ "}"
  end.

(** [JSON.stringify(v)], for the objects the program passes to it. *)
Definition JSON_stringify (v : value) : string := to_json v.

End JS.

(* ================================================================== *)
(** * Handlers: state, trace, exceptions *)
(* ================================================================== *)

(** A media stream as the engine hands it over: its tracks. *)
Record MediaStream : Type := { stream_id : nat; getTracks : list nat }.

(** The calls on a peer connection that return a promise the program awaits. *)
Inductive engine_call : Type :=
| SetRemoteDescription (description : JS.value)
| CreateAnswer
| CreateOffer
| SetLocalDescription (description : JS.value).

(** What a handler does to the world outside the program. *)
Inductive effect : Type :=
| Log (msg : string) (level : nat)                (* Debug.log(msg, level) *)
| SocketSend (data : string)                      (* socket.send(data) *)
| SocketClose                                     (* socket.close() *)
| PeerClose                                       (* peerConnection.close() *)
| PeerCall (promise : nat) (call : engine_call)   (* an awaited engine call *)
| PeerAddIceCandidate (candidate : JS.value)      (* peerConnection.addIceCandidate *)
| PeerAddTrack (track : nat) (stream : MediaStream) (* peerConnection.addTrack *)
| DocAdd (collection : string) (data : JS.value). (* dbRef.doc().set(data) *)

(** What the node does outside its sessions. *)
Inductive node_effect : Type :=
| OfClient (index : nat) (e : effect)   (* an effect of clients[index] *)
| NodeLog (msg : string) (level : nat)  (* Debug.log(msg, level) *)
| SocketOpen (address : JS.value)          (* new Socket(address) *)
| ServerListen (port : N)               (* new Socket.Server({port}) *)
| DocSet (data : JS.value)                (* docRef.set(data) *)
| DocDelete                             (* docRef.delete() *)
| Subscribe (target : string)           (* ref.onSnapshot(callback) *)
| Unsubscribe.                          (* unsub() *)

(** How a handler ends: it returns, it throws, or it reaches an operation on
    values that [JS] does not model. *)
Inductive outcome (A : Type) : Type :=
| Returned (a : A)
| Threw (e : JS.exn)
| Unmodelled.
Arguments Returned {A} a.
Arguments Threw {A} e.
Arguments Unmodelled {A}.

(** A handler over a state [St] emitting effects [Ev]: what was done before a
    throw stays done. *)
Definition M (St Ev A : Type) : Type := St -> outcome A * St * list Ev.

Definition ret {St Ev A} (a : A) : M St Ev A := fun s => (Returned a, s, []).

Definition bind {St Ev A B} (m : M St Ev A) (k : A -> M St Ev B) : M St Ev B :=
  fun s =>
    match m s with
    | (Returned a, s1, t1) =>
        match k a s1 with
        | (r, s2, t2) => (r, s2, (t1 ++ t2)%list)
        end
    | (Threw e, s1, t1) => (Threw e, s1, t1)
    | (Unmodelled, s1, t1) => (Unmodelled, s1, t1)
    end.

Declare Scope handler_scope.
Delimit Scope handler_scope with handler.
Notation "x <- m ;; k" := (bind m (fun x => k))
  (at level 61, m at next level, right associativity) : handler_scope.
Notation "m ;; k" := (bind m (fun _ => k))
  (at level 61, right associativity) : handler_scope.
Local Open Scope handler_scope.

Definition this {St Ev} : M St Ev St := fun s => (Returned s, s, []).
Definition update {St Ev} (f : St -> St) : M St Ev unit :=
  fun s => (Returned tt, f s, []).
Definition emit {St Ev} (e : Ev) : M St Ev unit := fun s => (Returned tt, s, [e]).
Definition throw {St Ev A} (e : JS.exn) : M St Ev A := fun s => (Threw e, s, []).
Definition unmodelled {St Ev A} : M St Ev A := fun s => (Unmodelled, s, []).

(** An operation of [JS] that may be outside the model. *)
Definition modelled {St Ev A} (o : option A) : M St Ev A :=
  match o with
  | Some a => ret a
  | None => unmodelled
  end.

(** [v.k], throwing on [undefined] and [null]. *)
Definition prop {St Ev} (v : JS.value) (k : string) : M St Ev JS.value :=
  match JS.get v k with
  | Some x => ret x
  | None =>
      throw (JS.TypeError ("Cannot read properties of " ++
                           (match v with JS.VNull => "null" | _ => "undefined" end)
                           ++ " (reading '" ++ k ++ "')"))
  end.

Fixpoint for_each {St Ev A} (l : list A) (body : A -> M St Ev unit) : M St Ev unit :=
  match l with
  | [] => ret tt
  | x :: rest => body x ;; for_each rest body
  end.

(** The three components of a run. *)
Definition result {A St Ev} (r : outcome A * St * list Ev) : outcome A := fst (fst r).
Definition final {A St Ev} (r : outcome A * St * list Ev) : St := snd (fst r).
Definition trace {A St Ev} (r : outcome A * St * list Ev) : list Ev := snd r.

Fixpoint replace {A} (i : nat) (x : A) (l : list A) : list A :=
  match l, i with
  | [], _ => []
  | _ :: rest, O => x :: rest
  | y :: rest, S j => y :: replace j x rest
  end.

(** A method of the client at position [index] of the node's list, called
    from the node: it runs on that client, and its effects are that client's. *)
Definition on_nth {St C A} (get : St -> list C) (set : list C -> St -> St)
  (index : nat) (method : M C effect A) : M St node_effect A :=
  fun s =>
    match nth_error (get s) index with
    | None => (Unmodelled, s, [])
    | Some c =>
        match method c with
        | (out, c', tr) =>
            (out, set (replace index c' (get s)) s, map (OfClient index) tr)
        end
    end.

(** A constructor or a codec that only logs, run from the node. *)
Definition at_node {St A} (m : M St effect A) : M St node_effect A :=
  fun s =>
    match m s with
    | (out, s', tr) =>
        (out, s', map (fun e => match e with
                                | Log msg level => NodeLog msg level
                                | other => OfClient 0 other
                                end) tr)
    end.

(** [data[i]] and [data.length] for the payload of a route command, an
    array.  On [null] and [undefined] the read throws; a payload of another
    kind is outside the model. *)
Definition element {St Ev} (data : JS.value) (i : nat) : M St Ev JS.value :=
  match data with
  | JS.VArray l => ret (nth i l JS.VUndefined)
  | JS.VNull =>
      throw (JS.TypeError ("Cannot read properties of null (reading '"
                           ++ JS.decimal (Z.of_nat i) ++ "')"))
  | JS.VUndefined =>
      throw (JS.TypeError ("Cannot read properties of undefined (reading '"
                           ++ JS.decimal (Z.of_nat i) ++ "')"))
  | _ => unmodelled
  end.

Definition length_of {St Ev} (data : JS.value) : M St Ev nat :=
  match data with
  | JS.VArray l => ret (List.length l)
  | JS.VNull => throw (JS.TypeError "Cannot read properties of null (reading 'length')")
  | JS.VUndefined =>
      throw (JS.TypeError "Cannot read properties of undefined (reading 'length')")
  | _ => unmodelled
  end.

(** Text with apostrophes for the double quotes of JSON. *)
Fixpoint dq (s : string) : string :=
  match s with
  | EmptyString => EmptyString
  | String c rest => String (if Ascii.eqb c "'"%char then "034"%char else c) (dq rest)
  end.

(* ================================================================== *)
(** * SocketRouter: accepting and initiating sessions over sockets *)
(* ================================================================== *)

Module SocketRouter.
Import JS.

(** The globals that [setGlobals] fills in at start-up. *)
Record Globals : Type := {
  NODE_INSTANCE_NAME : string;
  NODE_AUTH : string
}.

(** ** class SockRequest *)
Module SockRequest.

Record t : Type := {
  parseError : bool;
  action : value;
  data : value;
  id : value;
  token : value
}.

(** [new SockRequest(msg)].  When [JSON.parse] throws, the catch block sets
    [parseError] and leaves [parsed] undefined; the four property reads that
    follow the try statement then run on [undefined]. *)
Definition new {St} (msg_data : string) : M St effect t :=
  emit (Log ("Socket message: " ++ msg_data) 9) ;;
  parsed <- match JSON_parse msg_data with
            | Some v => ret (v, false)
            | None => emit (Log "Could not parse message" 3) ;; ret (VUndefined, true)
            end ;;
  a <- prop (fst parsed) "action" ;;
  d <- prop (fst parsed) "data" ;;
  i <- prop (fst parsed) "id" ;;
  k <- prop (fst parsed) "token" ;;
  ret {| parseError := snd parsed;
         action := nullish_or a (VString "");
         data := nullish_or d VNull;
         id := nullish_or i (VString "");
         token := nullish_or k (VString "") |}.

End SockRequest.

(** ** class SockResponse *)
Module SockResponse.

Definition generateGenericMessage (action : string) (data : value)
  (id token : string) (useAuth : bool) : string :=
  if useAuth then
    JSON_stringify (VObject [("action", VString action); ("data", data);
                             ("id", VString id); ("token", VString token)])
  else
    JSON_stringify (VObject [("action", VString action); ("data", data)]).

Definition RESP_OFFER (node : Globals) (offer : value) : string :=
  generateGenericMessage "offer" offer (NODE_INSTANCE_NAME node) (NODE_AUTH node) true.

Definition RESP_ANSWER (node : Globals) (ans : value) : string :=
  generateGenericMessage "answer" ans (NODE_INSTANCE_NAME node) (NODE_AUTH node) false.

Definition RESP_RENEG (node : Globals) : string :=
  generateGenericMessage "renegotiate" VNull (NODE_INSTANCE_NAME node) (NODE_AUTH node) false.

Definition RESP_ICE (node : Globals) (ice : value) (auth : bool) : string :=
  generateGenericMessage "addICE" ice (NODE_INSTANCE_NAME node) (NODE_AUTH node) auth.

End SockResponse.

(** An async method of a session, suspended at an [await] on an engine
    promise: what it does when the promise fulfils. *)
Inductive task : Type :=
| AnswerAfterRemote                 (* getRtcAnswer, at setRemoteDescription *)
| AnswerAfterCreate                 (* getRtcAnswer, at createAnswer *)
| AnswerAfterLocal (answer : value) (* getRtcAnswer, at setLocalDescription *)
| OfferAfterCreate                  (* sendOffer, at createOffer *)
| OfferAfterLocal (offer : value)   (* sendOffer, at setLocalDescription *)
| AnswerApplied.                    (* processAnswer, at setRemoteDescription *)

(** ** abstract class ClientConnection *)
Module ClientConnection.

Record t : Type := {
  _id : value;                                (* string | null *)
  clientStreams : list (option MediaStream);  (* an entry may be undefined *)
  promises : nat;                             (* engine promises made so far *)
  awaiting : list (nat * task)                (* suspended async methods *)
}.

(** The fields as the constructor leaves them. *)
Definition new : t :=
  {| _id := VNull; clientStreams := []; promises := 0; awaiting := [] |}.

Definition set_id (v : value) (c : t) : t :=
  {| _id := v; clientStreams := clientStreams c;
     promises := promises c; awaiting := awaiting c |}.

Definition push_stream (s : option MediaStream) (c : t) : t :=
  {| _id := _id c; clientStreams := clientStreams c ++ [s];
     promises := promises c; awaiting := awaiting c |}.

Definition suspend (k : task) (c : t) : t :=
  {| _id := _id c; clientStreams := clientStreams c;
     promises := S (promises c); awaiting := awaiting c ++ [(promises c, k)] |}.

Definition forget (p : nat) (c : t) : t :=
  {| _id := _id c; clientStreams := clientStreams c; promises := promises c;
     awaiting := filter (fun e => negb (Nat.eqb (fst e) p)) (awaiting c) |}.

Fixpoint waiting_on (p : nat) (l : list (nat * task)) : option task :=
  match l with
  | [] => None
  | (q, k) :: rest => if Nat.eqb q p then Some k else waiting_on p rest
  end.

(** [get id()] *)
Definition id (c : t) : value := nullish_or (_id c) (VString "").

(** [await this.peerConnection.<call>]: the call is made, the method is
    suspended until the promise settles. *)
Definition await (call : engine_call) (k : task) : M t effect unit :=
  c <- this ;;
  emit (PeerCall (promises c) call) ;;
  update (suspend k).

Definition authenticateRequest (req : SockRequest.t) : M t effect bool :=
  c <- this ;;
  mismatch <-
    (if is_nullish (_id c) then
       update (set_id (SockRequest.id req)) ;; ret false
     else
       same <- modelled (loose_eq (_id c) (SockRequest.id req)) ;;
       ret (negb same)) ;;
  if mismatch : bool then ret false
  else
    good <- modelled (loose_eq (SockRequest.token req) (VString "testauth")) ;;
    if good : bool then
      c' <- this ;;
      who <- modelled (to_text (_id c')) ;;
      emit (Log ("Authenticated user" ++ who) 4) ;;
      ret true
    else ret false.

Definition send (data : string) : M t effect unit := emit (SocketSend data).

Definition close : M t effect unit := emit PeerClose ;; emit SocketClose.

Definition addMediaStream (stream : option MediaStream) : M t effect unit :=
  match stream with
  | None => throw (TypeError "Cannot read properties of undefined (reading 'getTracks')")
  | Some s =>
      for_each (getTracks s) (fun track =>
        c <- this ;;
        who <- modelled (to_text (id c)) ;;
        emit (Log ("Adding media track to user" ++ who) 4) ;;
        emit (PeerAddTrack track s))
  end.

(** [peerConnection.onconnectionstatechange] *)
Definition onconnectionstatechange (connectionState : string) : M t effect unit :=
  if String.eqb connectionState "connected" then
    emit (Log "WebRTC connection established" 4)
  else if String.eqb connectionState "disconnected" then
    emit (Log "WebRTC connection lost" 4)
  else ret tt.

(** [peerConnection.ontrack] *)
Definition ontrack (streams : list MediaStream) : M t effect unit :=
  emit (Log "Got track" 6) ;;
  update (push_stream (hd_error streams)).

(** [req.data.candidate] guarding [addIceCandidate(req.data)], as both roles
    write it. *)
Definition addICE (req : SockRequest.t) : M t effect unit :=
  c <- this ;;
  who <- modelled (to_text (id c)) ;;
  emit (Log ("Got ICE from '" ++ who ++ "'") 5) ;;
  candidate <- prop (SockRequest.data req) "candidate" ;;
  if truthy candidate then emit (PeerAddIceCandidate (SockRequest.data req))
  else ret tt.

Definition unknownCommand (req : SockRequest.t) : M t effect unit :=
  c <- this ;;
  what <- modelled (to_text (SockRequest.action req)) ;;
  who <- modelled (to_text (id c)) ;;
  emit (Log ("Unknown command '" ++ what ++ "' from client " ++ who) 5).

End ClientConnection.

(** ** class InboundClient: the accepting role *)
Module InboundClient.
Import ClientConnection.

Definition getRtcAnswer (offer : value) : M t effect unit :=
  await (SetRemoteDescription offer) AnswerAfterRemote.

Definition onClientMessage (node : Globals) (msg_data : string) : M t effect unit :=
  req <- SockRequest.new msg_data ;;
  if SockRequest.parseError req then
    emit (Log "Could not parse message from client" 4)
  else
    ok <- authenticateRequest req ;;
    if negb ok then
      emit (Log "Auth failed" 4) ;;
      close
    else if is_string (SockRequest.action req) "offer" then
      c <- this ;;
      who <- modelled (to_text (id c)) ;;
      emit (Log ("Got offer from '" ++ who ++ "'") 5) ;;
      getRtcAnswer (SockRequest.data req)
    else if is_string (SockRequest.action req) "addICE" then
      addICE req
    else
      unknownCommand req.

Definition renegotiateWebRTC (node : Globals) : M t effect unit :=
  send (SockResponse.RESP_RENEG node).

Definition sendIce (node : Globals) (candidate : value) : M t effect unit :=
  send (SockResponse.RESP_ICE node candidate false).

(** [getRtcAnswer] going on after an await, and the [then] callback of
    [onClientMessage] once it has returned the answer. *)
Definition resume (node : Globals) (k : task) (v : value) : M t effect unit :=
  match k with
  | AnswerAfterRemote => await CreateAnswer AnswerAfterCreate
  | AnswerAfterCreate => await (SetLocalDescription v) (AnswerAfterLocal v)
  | AnswerAfterLocal answer => send (SockResponse.RESP_ANSWER node answer)
  | _ => ret tt
  end.

End InboundClient.

(** ** class OutboundClient: the initiating role *)
Module OutboundClient.
Import ClientConnection.

Definition processAnswer (answer : value) : M t effect unit :=
  await (SetRemoteDescription answer) AnswerApplied.

Definition sendOffer : M t effect unit :=
  await CreateOffer OfferAfterCreate.

Definition renegotiateWebRTC : M t effect unit := sendOffer.

Definition onClientMessage (node : Globals) (msg_data : string) : M t effect unit :=
  req <- SockRequest.new msg_data ;;
  if SockRequest.parseError req then
    emit (Log "Could not parse message from client" 4)
  else if is_string (SockRequest.action req) "answer" then
    processAnswer (SockRequest.data req)
  else if is_string (SockRequest.action req) "renegotiate" then
    renegotiateWebRTC
  else if is_string (SockRequest.action req) "addICE" then
    addICE req
  else
    unknownCommand req.

Definition sendIce (node : Globals) (candidate : value) : M t effect unit :=
  send (SockResponse.RESP_ICE node candidate true).

(** [sendOffer] and [processAnswer] going on after an await. *)
Definition resume (node : Globals) (k : task) (v : value) : M t effect unit :=
  match k with
  | OfferAfterCreate => await (SetLocalDescription v) (OfferAfterLocal v)
  | OfferAfterLocal offer => send (SockResponse.RESP_OFFER node offer)
  | _ => ret tt
  end.

End OutboundClient.

(** ** A session in the event loop *)

Inductive role : Type := Inbound | Outbound.

(** What the event loop delivers to one session. *)
Inductive event : Type :=
| OnMessage (data : string)              (* socket.onmessage *)
| OnConnectionStateChange (state : string)
| OnTrack (streams : list MediaStream)   (* peerConnection.ontrack *)
| OnIceCandidate (candidate : value)     (* peerConnection.onicecandidate *)
| Fulfilled (promise : nat) (v : value)  (* an engine promise fulfils *)
| Rejected (promise : nat)               (* an engine promise rejects *)
| Renegotiate.                           (* renegotiateWebRTC(), from the manager *)

Definition settle (node : Globals) (r : role) (p : nat) (v : option value)
  : M ClientConnection.t effect unit :=
  c <- this ;;
  match ClientConnection.waiting_on p (ClientConnection.awaiting c) with
  | None => ret tt
  | Some k =>
      update (ClientConnection.forget p) ;;
      match v with
      | None => throw JS.UnhandledRejection
      | Some x =>
          match r with
          | Inbound => InboundClient.resume node k x
          | Outbound => OutboundClient.resume node k x
          end
      end
  end.

Definition handle (node : Globals) (r : role) (e : event)
  : M ClientConnection.t effect unit :=
  match e with
  | OnMessage d =>
      match r with
      | Inbound => InboundClient.onClientMessage node d
      | Outbound => OutboundClient.onClientMessage node d
      end
  | OnConnectionStateChange s => ClientConnection.onconnectionstatechange s
  | OnTrack streams => ClientConnection.ontrack streams
  | OnIceCandidate candidate =>
      if truthy candidate then
        emit (Log "Sending ICE" 5) ;;
        match r with
        | Inbound => InboundClient.sendIce node candidate
        | Outbound => OutboundClient.sendIce node candidate
        end
      else ret tt
  | Fulfilled p v => settle node r p (Some v)
  | Rejected p => settle node r p None
  | Renegotiate =>
      match r with
      | Inbound => InboundClient.renegotiateWebRTC node
      | Outbound => OutboundClient.renegotiateWebRTC
      end
  end.

(** The events of a session one after the other.  Nothing in the program
    catches what a handler throws: the first handler that throws ends the run. *)
Definition run (node : Globals) (r : role) (events : list event)
  : M ClientConnection.t effect unit :=
  for_each events (handle node r).

(** ** [new Socket(address)], of the library [ws]

    The constructor throws on an address that it does not take for the URL
    of a socket.  The library is not part of the program: [socket_error]
    says which addresses it refuses, and what it throws. *)
Definition new_Socket {St} (socket_error : value -> option exn) (address : value)
  : M St node_effect unit :=
  match socket_error address with
  | Some e => throw e
  | None => emit (SocketOpen address)
  end.

(** ** class Management *)
Module Management.

Record t : Type := {
  NODE_ID : value;
  clients : list (role * ClientConnection.t)
}.

Definition set_clients (l : list (role * ClientConnection.t)) (m : t) : t :=
  {| NODE_ID := NODE_ID m; clients := l |}.

Definition set_NODE_ID (v : value) (m : t) : t :=
  {| NODE_ID := v; clients := clients m |}.

(** A method of [clients[index]] called from the manager. *)
Definition on_client {A} (index : nat)
  (method : role -> M ClientConnection.t effect A) : M t node_effect A :=
  on_nth clients set_clients index
    (fun rc => match method (fst rc) (snd rc) with
               | (out, c', tr) => (out, (fst rc, c'), tr)
               end).

(** [getClientById(id)]: [forEach] keeps the last client whose id is
    strictly equal to [id].  The position of the client stands for it. *)
Fixpoint last_with_id (id : value) (l : list (role * ClientConnection.t))
  (index : nat) (result : option nat) : option (option nat) :=
  match l with
  | [] => Some result
  | (_, c) :: rest =>
      match strict_eq (ClientConnection.id c) id with
      | Some true => last_with_id id rest (S index) (Some index)
      | Some false => last_with_id id rest (S index) result
      | None => None
      end
  end.

Definition getClientById (id : value) : M t node_effect (option nat) :=
  m <- this ;;
  modelled (last_with_id id (clients m) 0 None).

Definition addClient (r : role) (client : ClientConnection.t) : M t node_effect unit :=
  update (fun m => set_clients (clients m ++ [(r, client)]) m).

Definition renegotiate (node : Globals) (r : role) : M ClientConnection.t effect unit :=
  match r with
  | Inbound => InboundClient.renegotiateWebRTC node
  | Outbound => OutboundClient.renegotiateWebRTC
  end.

(** [case "addRoute"] *)
Definition addRoute (node : Globals) (data : value) : M t node_effect unit :=
  emit (NodeLog "Routing streams" 4) ;;
  source <- element data 0 ;;
  client <- getClientById source ;;
  match client with
  | None =>
      who <- modelled (to_text source) ;;
      emit (NodeLog ("Routing error: Source client with id " ++ who
                     ++ " does not exist") 1)
  | Some src =>
      m <- this ;;
      let srcStream :=
        match nth_error (clients m) src with
        | Some (_, c) => nth 0 (ClientConnection.clientStreams c) None
        | None => None
        end in
      n <- length_of data ;;
      for_each (seq 1 (n - 1)) (fun i =>
        dest <- element data i ;;
        user <- getClientById dest ;;
        match user with
        | None =>
            who <- modelled (to_text dest) ;;
            emit (NodeLog ("Routing error: Destination client with id " ++ who
                           ++ " does not exist") 1)
        | Some u =>
            on_client u (fun _ => ClientConnection.addMediaStream srcStream) ;;
            on_client u (renegotiate node)
        end)
  end.

Definition onManagementMessage (socket_error : value -> option exn)
  (node : Globals) (msg_data : string) : M t node_effect unit :=
  req <- at_node (SockRequest.new msg_data) ;;
  if SockRequest.parseError req then
    emit (NodeLog "Could not parse message from management server" 1)
  else if is_string (SockRequest.action req) "setId" then
    update (set_NODE_ID (SockRequest.data req)) ;;
    who <- modelled (to_text (SockRequest.data req)) ;;
    emit (NodeLog ("Node id set by management server. ID: " ++ who) 3)
  else if is_string (SockRequest.action req) "addRoute" then
    addRoute node (SockRequest.data req)
  else if is_string (SockRequest.action req) "connect" then
    new_Socket socket_error (SockRequest.data req) ;;
    addClient Outbound ClientConnection.new
  else ret tt.

End Management.

(** ** init: registration and handoff to the management server *)
Module Bootstrap.

Record t : Type := {
  db_read : bool;            (* used to stop the event firing multiple times *)
  resuming : list value;     (* callbacks suspended at await snapshot.data() *)
  deleting : nat             (* callbacks suspended at await docRef.delete() *)
}.

Definition new : t := {| db_read := false; resuming := []; deleting := 0 |}.

Definition set_db_read (b : t) : t :=
  {| db_read := true; resuming := resuming b; deleting := deleting b |}.

Definition set_resuming (l : list value) (b : t) : t :=
  {| db_read := db_read b; resuming := l; deleting := deleting b |}.

Definition set_deleting (n : nat) (b : t) : t :=
  {| db_read := db_read b; resuming := resuming b; deleting := n |}.

(** The registration document. *)
Definition registration (node : Globals) (address port group : string) : value :=
  VObject [("instance_name", VString (NODE_INSTANCE_NAME node));
           ("instance_group_name", VString group);
           ("management_socket", VNull);
           ("socket_address", VString address);
           ("socket_port", VString port)].

(** [init], up to the subscription: the document is written, and once the
    write is acknowledged the callback is registered. *)
Definition init (node : Globals) (address port group : string)
  : M t node_effect unit :=
  emit (DocSet (registration node address port group)) ;;
  emit (Subscribe "new-instances/instance-name-test").

(** The callback down to [await snapshot.data()]: the guard is read here. *)
Definition snapshot (snapshot_data : value) : M t node_effect unit :=
  emit (NodeLog "Got firebase snapshot" 9) ;;
  b <- this ;;
  if db_read b then ret tt
  else update (set_resuming (resuming b ++ [snapshot_data])).

(** The callback after [await snapshot.data()], down to
    [await docRef.delete()]: the guard is set here, before the socket is
    made. *)
Definition resumed (socket_error : value -> option exn) (snapshot_data : value)
  : M t node_effect unit :=
  socket <- prop snapshot_data "management_socket" ;;
  if truthy socket then
    update set_db_read ;;
    address <- modelled (to_text socket) ;;
    emit (NodeLog ("Got management socket from firestore: " ++ address) 2) ;;
    new_Socket socket_error socket ;;
    emit (ServerListen 8081%N) ;;
    emit DocDelete ;;
    update (fun b => set_deleting (S (deleting b)) b)
  else ret tt.

(** The callback after [await docRef.delete()]. *)
Definition deleted : M t node_effect unit :=
  b <- this ;;
  match deleting b with
  | O => ret tt
  | S n =>
      update (set_deleting n) ;;
      emit Unsubscribe ;;
      emit (NodeLog "Connection document deleted" 2)
  end.

(** What the event loop runs. *)
Inductive event : Type :=
| Snapshot (data : value)   (* the store calls the callback; data is snapshot.data() *)
| Resumed                   (* the oldest callback at await snapshot.data() goes on *)
| Deleted.                  (* the delete is acknowledged *)

Definition handle (socket_error : value -> option exn) (e : event)
  : M t node_effect unit :=
  match e with
  | Snapshot data => snapshot data
  | Resumed =>
      b <- this ;;
      match resuming b with
      | [] => ret tt
      | data :: rest => update (set_resuming rest) ;; resumed socket_error data
      end
  | Deleted => deleted
  end.

Definition run (socket_error : value -> option exn) (events : list event)
  : M t node_effect unit :=
  for_each events (handle socket_error).

(** The store delivering one notification per turn of the event loop:
    [snapshot.data()] is a plain value, so the callback that awaits it goes on
    in the microtasks of the same turn, before the next notification. *)
Inductive delivery : Type :=
| Notified (data : value)
| DeleteAcknowledged.

Definition turn (d : delivery) : list event :=
  match d with
  | Notified data => [Snapshot data; Resumed]
  | DeleteAcknowledged => [Deleted]
  end.

Definition turns (l : list delivery) : list event := flat_map turn l.

End Bootstrap.

End SocketRouter.

(* ================================================================== *)
(** * AdminRouter: one class of client, the operator is the client admin *)
(* ================================================================== *)

Module AdminRouter.
Import JS.

(** ** class Request *)
Module Request.

Record t : Type := {
  parseError : bool;
  action : value;
  data : value;
  id : value;
  token : value
}.

(** [new Request(msg)]: as in [SocketRouter.SockRequest], the four reads
    come after the try statement. *)
Definition new {St} (msg_data : string) : M St effect t :=
  emit (Log msg_data 4) ;;
  parsed <- match JSON_parse msg_data with
            | Some v => ret (v, false)
            | None => ret (VUndefined, true)
            end ;;
  a <- prop (fst parsed) "action" ;;
  d <- prop (fst parsed) "data" ;;
  i <- prop (fst parsed) "id" ;;
  k <- prop (fst parsed) "token" ;;
  ret {| parseError := snd parsed;
         action := nullish_or a (VString "");
         data := nullish_or d VNull;
         id := nullish_or i (VString "");
         token := nullish_or k (VString "") |}.

End Request.

(** ** class Response.  [NODE_ID] and [NODE_AUTH] are the globals, read when
    the message is made. *)
Module Response.

Definition generateGenericMessage (action : value) (data : value)
  (id token : value) : string :=
  JSON_stringify (VObject [("action", action); ("data", data);
                           ("id", id); ("token", token)]).

Definition generateOfferMessage (NODE_ID NODE_AUTH offer : value) : string :=
  generateGenericMessage (VString "offer") offer NODE_ID NODE_AUTH.

Definition generateAnswerMessage (NODE_ID NODE_AUTH answer : value) : string :=
  generateGenericMessage (VString "answer") answer NODE_ID NODE_AUTH.

Definition generateRenegotiateMessage (NODE_ID NODE_AUTH : value) : string :=
  generateGenericMessage (VString "renegotiate") VNull NODE_ID NODE_AUTH.

Definition generateIceMessage (NODE_ID NODE_AUTH candidate : value) : string :=
  generateGenericMessage (VString "addICE") candidate NODE_ID NODE_AUTH.

End Response.

Definition NODE_AUTH : value := VString "testauth".

(** An async method of a client suspended at an await. *)
Inductive task : Type :=
| AnswerAfterRemote                 (* sendAnswer, at setRemoteDescription *)
| AnswerAfterCreate                 (* sendAnswer, at createAnswer *)
| AnswerAfterLocal (answer : value) (* sendAnswer, at setLocalDescription *)
| OfferAfterCreate                  (* sendOffer, at createOffer *)
| OfferAfterLocal (offer : value)   (* sendOffer, at setLocalDescription *)
| AnswerApplied.                    (* processAnswer, at setRemoteDescription *)

(** ** class Client *)
Module Client.

(** What [clientStream] holds: null, as the class sets it, or what [ontrack]
    takes out of [event.streams], a stream or undefined. *)
Inductive slot : Type :=
| Null
| Undefined
| Stream (s : MediaStream).

Record t : Type := {
  id_ : value;                          (* string | null *)
  clientStream : slot;                  (* MediaStream | null *)
  isAdmin : bool;
  isInitiator : bool;
  promises : nat;
  awaiting : list (nat * task)
}.

Definition new : t :=
  {| id_ := VNull; clientStream := Null; isAdmin := false; isInitiator := false;
     promises := 0; awaiting := [] |}.

Definition set_id (v : value) (c : t) : t :=
  {| id_ := v; clientStream := clientStream c; isAdmin := isAdmin c;
     isInitiator := isInitiator c; promises := promises c; awaiting := awaiting c |}.

Definition set_isAdmin (c : t) : t :=
  {| id_ := id_ c; clientStream := clientStream c; isAdmin := true;
     isInitiator := isInitiator c; promises := promises c; awaiting := awaiting c |}.

Definition set_isInitiator (c : t) : t :=
  {| id_ := id_ c; clientStream := clientStream c; isAdmin := isAdmin c;
     isInitiator := true; promises := promises c; awaiting := awaiting c |}.

Definition set_clientStream (s : slot) (c : t) : t :=
  {| id_ := id_ c; clientStream := s; isAdmin := isAdmin c;
     isInitiator := isInitiator c; promises := promises c; awaiting := awaiting c |}.

Definition suspend (k : task) (c : t) : t :=
  {| id_ := id_ c; clientStream := clientStream c; isAdmin := isAdmin c;
     isInitiator := isInitiator c; promises := S (promises c);
     awaiting := awaiting c ++ [(promises c, k)] |}.

Definition forget (p : nat) (c : t) : t :=
  {| id_ := id_ c; clientStream := clientStream c; isAdmin := isAdmin c;
     isInitiator := isInitiator c; promises := promises c;
     awaiting := filter (fun e => negb (Nat.eqb (fst e) p)) (awaiting c) |}.

Fixpoint waiting_on (p : nat) (l : list (nat * task)) : option task :=
  match l with
  | [] => None
  | (q, k) :: rest => if Nat.eqb q p then Some k else waiting_on p rest
  end.

Definition await (call : engine_call) (k : task) : M t effect unit :=
  c <- this ;;
  emit (PeerCall (promises c) call) ;;
  update (suspend k).

Definition socketSend (data : string) : M t effect unit := emit (SocketSend data).

Definition addMediaStream (stream : slot) : M t effect unit :=
  match stream with
  | Null => throw (TypeError "Cannot read properties of null (reading 'getTracks')")
  | Undefined =>
      throw (TypeError "Cannot read properties of undefined (reading 'getTracks')")
  | Stream s =>
      for_each (getTracks s) (fun track =>
        c <- this ;;
        who <- modelled (to_text (id_ c)) ;;
        emit (Log ("Adding media track to user" ++ who) 4) ;;
        emit (PeerAddTrack track s))
  end.

Definition sendOffer : M t effect unit :=
  update set_isInitiator ;;
  await CreateOffer OfferAfterCreate.

Definition renegotiateWebRTC (NODE_ID : value) : M t effect unit :=
  c <- this ;;
  if isInitiator c then sendOffer
  else emit (SocketSend (Response.generateRenegotiateMessage NODE_ID NODE_AUTH)).

Definition getAuthentication (req : Request.t) : M t effect bool :=
  c <- this ;;
  mismatch <-
    (if is_nullish (id_ c) then
       update (set_id (Request.id req)) ;; ret false
     else
       same <- modelled (loose_eq (id_ c) (Request.id req)) ;;
       ret (negb same)) ;;
  if mismatch : bool then ret false
  else
    (if is_string (Request.id req) "admin" then update set_isAdmin else ret tt) ;;
    good <- modelled (loose_eq (Request.token req) (VString "testauth")) ;;
    if good : bool then
      c' <- this ;;
      who <- modelled (to_text (id_ c')) ;;
      emit (Log ("Authenticated user" ++ who) 4) ;;
      ret true
    else ret false.

Definition processAnswer (answer : value) : M t effect unit :=
  await (SetRemoteDescription answer) AnswerApplied.

Definition sendAnswer (offer : value) : M t effect unit :=
  await (SetRemoteDescription offer) AnswerAfterRemote.

Definition sendIce (NODE_ID candidate : value) : M t effect unit :=
  socketSend (Response.generateIceMessage NODE_ID NODE_AUTH candidate).

(** The async methods going on after an await. *)
Definition resume (NODE_ID : value) (k : task) (v : value) : M t effect unit :=
  match k with
  | AnswerAfterRemote => await CreateAnswer AnswerAfterCreate
  | AnswerAfterCreate => await (SetLocalDescription v) (AnswerAfterLocal v)
  | AnswerAfterLocal answer =>
      socketSend (Response.generateAnswerMessage NODE_ID NODE_AUTH answer)
  | OfferAfterCreate => await (SetLocalDescription v) (OfferAfterLocal v)
  | OfferAfterLocal offer =>
      socketSend (Response.generateOfferMessage NODE_ID NODE_AUTH offer)
  | AnswerApplied => ret tt
  end.

(** The part of [socketMessage] of a client that is not an operator. *)
Definition commands (req : Request.t) : M t effect unit :=
  if is_string (Request.action req) "offer" then
    emit (Log "Offer" 5) ;;
    sendAnswer (Request.data req)
  else if is_string (Request.action req) "answer" then
    processAnswer (Request.data req)
  else if is_string (Request.action req) "renegotiate" then
    sendOffer
  else if is_string (Request.action req) "addICE" then
    emit (Log "ICE" 5) ;;
    candidate <- prop (Request.data req) "candidate" ;;
    if truthy candidate then emit (PeerAddIceCandidate (Request.data req))
    else ret tt
  else ret tt.

End Client.

(** ** The node: the global [NODE_ID] and the global list [clients] *)

Record t : Type := {
  NODE_ID : value;
  clients : list Client.t
}.

Definition new : t := {| NODE_ID := VString "default"; clients := [] |}.

Definition set_clients (l : list Client.t) (n : t) : t :=
  {| NODE_ID := NODE_ID n; clients := l |}.

Definition set_NODE_ID (v : value) (n : t) : t :=
  {| NODE_ID := v; clients := clients n |}.

Definition on_client {A} (index : nat) (method : M Client.t effect A)
  : M t node_effect A :=
  on_nth clients set_clients index method.

(** [getClientById(id)]: [forEach] keeps the last client whose [id] getter,
    the raw [id_], is strictly equal to [id]. *)
Fixpoint last_with_id (id : value) (l : list Client.t)
  (index : nat) (result : option nat) : option (option nat) :=
  match l with
  | [] => Some result
  | c :: rest =>
      match strict_eq (Client.id_ c) id with
      | Some true => last_with_id id rest (S index) (Some index)
      | Some false => last_with_id id rest (S index) result
      | None => None
      end
  end.

Definition getClientById (id : value) : M t node_effect (option nat) :=
  n <- this ;;
  modelled (last_with_id id (clients n) 0 None).

(** [case "addRoute"] of [adminCommands] *)
Definition addRoute (data : value) : M t node_effect unit :=
  emit (NodeLog "Routing streams" 4) ;;
  source <- element data 0 ;;
  client <- getClientById source ;;
  srcStream <-
    match client with
    | None => throw (TypeError "Cannot read properties of null (reading 'mediaStream')")
    | Some src =>
        n <- this ;;
        ret (match nth_error (clients n) src with
             | Some c => Client.clientStream c
             | None => Client.Null
             end)
    end ;;
  count <- length_of data ;;
  for_each (seq 1 (count - 1)) (fun i =>
    dest <- element data i ;;
    user <- getClientById dest ;;
    match user with
    | None =>
        who <- modelled (to_text dest) ;;
        emit (NodeLog ("No such user " ++ who) 3) ;;
        throw (TypeError "Cannot read properties of null (reading 'addMediaStream')")
    | Some u =>
        on_client u (Client.addMediaStream srcStream) ;;
        n <- this ;;
        on_client u (Client.renegotiateWebRTC (NODE_ID n))
    end).

Definition adminCommands (req : Request.t) : M t node_effect unit :=
  emit (NodeLog "Admin command" 5) ;;
  n <- this ;;
  if negb (truthy (NODE_ID n)) then ret tt
  else if is_string (Request.action req) "setId" then
    update (set_NODE_ID (Request.data req))
  else if is_string (Request.action req) "addRoute" then
    addRoute (Request.data req)
  else ret tt.

(** [socketMessage] of [clients[self]] *)
Definition socketMessage (self : nat) (msg_data : string) : M t node_effect unit :=
  req <- on_client self (Request.new msg_data) ;;
  if Request.parseError req then ret tt
  else
    ok <- on_client self (Client.getAuthentication req) ;;
    if negb ok then
      on_client self (emit (Log "Auth failed" 4) ;; emit SocketClose ;; emit PeerClose)
    else
      n <- this ;;
      match nth_error (clients n) self with
      | Some c =>
          if Client.isAdmin c then adminCommands req
          else on_client self (Client.commands req)
      | None => unmodelled
      end.

(** What the event loop delivers to the node. *)
Inductive event : Type :=
| OnConnection                                (* server.on('connection') *)
| OnMessage (client : nat) (data : string)    (* socket.onmessage *)
| OnTrack (client : nat) (streams : list MediaStream)
| OnIceCandidate (client : nat) (candidate : value)
| Fulfilled (client : nat) (promise : nat) (v : value).

Definition handle (e : event) : M t node_effect unit :=
  match e with
  | OnConnection =>
      emit (NodeLog "Got connection" 3) ;;
      update (fun n => set_clients (clients n ++ [Client.new]) n)
  | OnMessage self d => socketMessage self d
  | OnTrack self streams =>
      on_client self (emit (Log "Got track" 5) ;;
                      update (Client.set_clientStream
                                (match streams with
                                 | s :: _ => Client.Stream s
                                 | [] => Client.Undefined
                                 end)))
  | OnIceCandidate self candidate =>
      if truthy candidate then
        n <- this ;;
        on_client self (emit (Log "Sending ICE" 5) ;;
                        Client.sendIce (NODE_ID n) candidate)
      else ret tt
  | Fulfilled self p v =>
      n <- this ;;
      on_client self
        (c <- this ;;
         match Client.waiting_on p (Client.awaiting c) with
         | None => ret tt
         | Some k => update (Client.forget p) ;; Client.resume (NODE_ID n) k v
         end)
  end.

Definition run (events : list event) : M t node_effect unit :=
  for_each events handle.

End AdminRouter.

(* ================================================================== *)
(** * RelayRouter: signalling through the directory store *)
(* ================================================================== *)

Module RelayRouter.
Import JS.

(** The globals that [setGlobals] fills in at start-up. *)
Record Globals : Type := {
  NODE_INSTANCE_NAME : string;
  NODE_INSTANCE_GROUP_NAME : string
}.

(** An async method of a client suspended at an await. *)
Inductive task : Type :=
| AnswerAfterRemote                 (* getRtcAnswer, at setRemoteDescription *)
| AnswerAfterCreate                 (* getRtcAnswer, at createAnswer *)
| AnswerAfterLocal (answer : value) (* getRtcAnswer, at setLocalDescription *)
| OfferAfterCreate                  (* sendOffer, at createOffer *)
| OfferAfterLocal (offer : value).  (* sendOffer, at setLocalDescription *)

(** ** class ClientConnection *)
Module ClientConnection.

Record t : Type := {
  id : value;                                 (* declared string *)
  isInitiator : bool;
  clientStreams : list (option MediaStream);
  offerRef : string;
  answerRef : string;
  iceRef : string;
  commandRef : string;
  promises : nat;
  awaiting : list (nat * task)
}.

Definition with_streams (l : list (option MediaStream)) (c : t) : t :=
  {| id := id c; isInitiator := isInitiator c; clientStreams := l;
     offerRef := offerRef c; answerRef := answerRef c; iceRef := iceRef c;
     commandRef := commandRef c; promises := promises c; awaiting := awaiting c |}.

Definition with_promises (n : nat) (l : list (nat * task)) (c : t) : t :=
  {| id := id c; isInitiator := isInitiator c; clientStreams := clientStreams c;
     offerRef := offerRef c; answerRef := answerRef c; iceRef := iceRef c;
     commandRef := commandRef c; promises := n; awaiting := l |}.

Fixpoint waiting_on (p : nat) (l : list (nat * task)) : option task :=
  match l with
  | [] => None
  | (q, k) :: rest => if Nat.eqb q p then Some k else waiting_on p rest
  end.

(** [new ClientConnection(id, initiator)] *)
Definition new {St} (node : Globals) (id : value) (initiator : bool) : M St effect t :=
  who <- modelled (to_text id) ;;
  let ref (kind : string) :=
    "meetings/" ++ NODE_INSTANCE_GROUP_NAME node ++ "/clients/" ++ who ++ "/" ++ kind in
  ret {| id := id; isInitiator := initiator; clientStreams := [];
         offerRef := ref "receivedOffers"; answerRef := ref "receivedAnswers";
         iceRef := ref "receivedIce"; commandRef := ref "commands";
         promises := 0; awaiting := [] |}.

(** [await this.peerConnection.<call>] *)
Definition await (call : engine_call) (k : task) : M t effect unit :=
  c <- this ;;
  emit (PeerCall (promises c) call) ;;
  update (with_promises (S (promises c)) (awaiting c ++ [(promises c, k)])).

(** [this.peerConnection.<call>] whose promise nobody keeps. *)
Definition call (what : engine_call) : M t effect unit :=
  c <- this ;;
  emit (PeerCall (promises c) what) ;;
  update (with_promises (S (promises c)) (awaiting c)).

Definition send (dbRef : string) (data : value) : M t effect unit :=
  emit (DocAdd dbRef data).

Definition handleIce (candidate : value) : M t effect unit :=
  c <- this ;;
  who <- modelled (to_text (id c)) ;;
  emit (Log ("Got ICE from '" ++ who ++ "'") 5) ;;
  emit (PeerAddIceCandidate candidate).

Definition handleAnswer (answer : value) : M t effect unit :=
  c <- this ;;
  who <- modelled (to_text (id c)) ;;
  emit (Log ("Got answer from '" ++ who ++ "'") 5) ;;
  call (SetRemoteDescription answer).

Definition getRtcAnswer (offer : value) : M t effect unit :=
  await (SetRemoteDescription offer) AnswerAfterRemote.

Definition handleOffer (offer : value) : M t effect unit :=
  c <- this ;;
  who <- modelled (to_text (id c)) ;;
  emit (Log ("Got offer from '" ++ who ++ "'") 5) ;;
  getRtcAnswer offer.

Definition sendIce (NODE_ID candidate : value) : M t effect unit :=
  c <- this ;;
  send (iceRef c) (VObject [("src_id", NODE_ID);
                            ("candidate", VString (JSON_stringify candidate))]).

Definition sendOffer : M t effect unit :=
  await CreateOffer OfferAfterCreate.

Definition close : M t effect unit := emit PeerClose.

Definition renegotiateWebRTC (NODE_ID : value) : M t effect unit :=
  c <- this ;;
  if isInitiator c then sendOffer
  else send (commandRef c) (VObject [("id", NODE_ID);
                                     ("command", VString "renegotiate")]).

Definition addMediaStream (stream : option MediaStream) : M t effect unit :=
  match stream with
  | None => throw (TypeError "Cannot read properties of undefined (reading 'getTracks')")
  | Some s =>
      for_each (getTracks s) (fun track =>
        c <- this ;;
        who <- modelled (to_text (id c)) ;;
        emit (Log ("Adding media track to user" ++ who) 4) ;;
        emit (PeerAddTrack track s))
  end.

(** The async methods going on after an await, with the [then] callback of
    [handleOffer]. *)
Definition resume (NODE_ID : value) (k : task) (v : value) : M t effect unit :=
  c <- this ;;
  match k with
  | AnswerAfterRemote => await CreateAnswer AnswerAfterCreate
  | AnswerAfterCreate => await (SetLocalDescription v) (AnswerAfterLocal v)
  | AnswerAfterLocal answer =>
      send (answerRef c) (VObject [("id", NODE_ID); ("answer", answer)])
  | OfferAfterCreate => await (SetLocalDescription v) (OfferAfterLocal v)
  | OfferAfterLocal offer =>
      send (offerRef c) (VObject [("id", NODE_ID); ("offer", offer)])
  end.

End ClientConnection.

(** A change of a snapshot: [change.type] and [change.doc.data()]. *)
Record change : Type := { type : string; doc : value }.

(** [init], suspended at an await on the store, with the changes its loop
    has still to visit. *)
Inductive continuation : Type :=
| AfterSet (changes : list change)      (* at await docRef.set(data) *)
| AfterDelete (changes : list change).  (* at await docRef.delete() *)

(** ** The node: [NODE_ID], the singleton [Clients], the callbacks of [init] *)
Record t : Type := {
  NODE_ID : value;
  clients : list ClientConnection.t;
  writes : nat;                            (* store promises of init so far *)
  suspended : list (nat * continuation)
}.

Definition new : t :=
  {| NODE_ID := VUndefined; clients := []; writes := 0; suspended := [] |}.

Definition set_clients (l : list ClientConnection.t) (n : t) : t :=
  {| NODE_ID := NODE_ID n; clients := l; writes := writes n; suspended := suspended n |}.

Definition set_NODE_ID (v : value) (n : t) : t :=
  {| NODE_ID := v; clients := clients n; writes := writes n; suspended := suspended n |}.

Definition suspend (k : continuation) (n : t) : t :=
  {| NODE_ID := NODE_ID n; clients := clients n; writes := S (writes n);
     suspended := suspended n ++ [(writes n, k)] |}.

Definition forget (p : nat) (n : t) : t :=
  {| NODE_ID := NODE_ID n; clients := clients n; writes := writes n;
     suspended := filter (fun e => negb (Nat.eqb (fst e) p)) (suspended n) |}.

Fixpoint suspended_on (p : nat) (l : list (nat * continuation)) : option continuation :=
  match l with
  | [] => None
  | (q, k) :: rest => if Nat.eqb q p then Some k else suspended_on p rest
  end.

Definition on_client {A} (index : nat) (method : M ClientConnection.t effect A)
  : M t node_effect A :=
  on_nth clients set_clients index method.

(** ** class ClientManager *)
Module ClientManager.

(** [getClientById(id)]: the first client whose id is loosely equal to [id]. *)
Fixpoint first_with_id (id : value) (l : list ClientConnection.t) (index : nat)
  : option (option nat) :=
  match l with
  | [] => Some None
  | c :: rest =>
      match loose_eq (ClientConnection.id c) id with
      | Some true => Some (Some index)
      | Some false => first_with_id id rest (S index)
      | None => None
      end
  end.

Definition getClientById (id : value) : M t node_effect (option nat) :=
  n <- this ;;
  modelled (first_with_id id (clients n) 0).

Definition addClient (node : Globals) (id : value) (initiator : bool)
  : M t node_effect unit :=
  client <- at_node (ClientConnection.new node id initiator) ;;
  n <- this ;;
  let index := List.length (clients n) in
  update (fun n => set_clients (clients n ++ [client]) n) ;;
  if initiator then on_client index ClientConnection.sendOffer else ret tt.

Definition removeClient (id : value) : M t node_effect bool :=
  client <- getClientById id ;;
  match client with
  | Some i => on_client i ClientConnection.close ;; ret true
  | None => ret false
  end.

End ClientManager.

(** ** class ConnectionManager *)
Module ConnectionManager.

Definition connectClients (srcClientId destClientIds : value) : M t node_effect unit :=
  emit (NodeLog "Routing streams" 4) ;;
  srcClient <- ClientManager.getClientById srcClientId ;;
  match srcClient with
  | None =>
      who <- modelled (to_text srcClientId) ;;
      emit (NodeLog ("Routing error: Source client with id " ++ who
                     ++ " does not exist") 1)
  | Some src =>
      n <- this ;;
      let srcStream :=
        match nth_error (clients n) src with
        | Some c => nth 0 (ClientConnection.clientStreams c) None
        | None => None
        end in
      count <- length_of destClientIds ;;
      for_each (seq 1 (count - 1)) (fun i =>
        dest <- element destClientIds i ;;
        destClient <- ClientManager.getClientById dest ;;
        match destClient with
        | None =>
            who <- modelled (to_text dest) ;;
            emit (NodeLog ("Routing error: Destination client with id " ++ who
                           ++ " does not exist") 1)
        | Some d =>
            on_client d (ClientConnection.addMediaStream srcStream) ;;
            n' <- this ;;
            on_client d (ClientConnection.renegotiateWebRTC (NODE_ID n'))
        end)
  end.

End ConnectionManager.

(** ** class SignalManager: the callbacks of the four subscriptions *)
Module SignalManager.

Definition handleOffer (snapshot : list change) : M t node_effect unit :=
  for_each snapshot (fun change =>
    if String.eqb (type change) "added" then
      who <- prop (doc change) "id" ;;
      client <- ClientManager.getClientById who ;;
      match client with
      | None =>
          name <- modelled (to_text who) ;;
          emit (NodeLog ("Got offer from client id " ++ name
                         ++ " which was not initialized") 1)
      | Some c =>
          offer <- prop (doc change) "offer" ;;
          if truthy offer then on_client c (ClientConnection.handleOffer offer)
          else
            name <- modelled (to_text who) ;;
            emit (NodeLog ("Got null offer from client id " ++ name) 1)
      end
    else ret tt).

Definition handleAnswer (snapshot : list change) : M t node_effect unit :=
  for_each snapshot (fun change =>
    if String.eqb (type change) "added" then
      who <- prop (doc change) "id" ;;
      client <- ClientManager.getClientById who ;;
      match client with
      | None =>
          name <- modelled (to_text who) ;;
          emit (NodeLog ("Got answer from client id " ++ name
                         ++ " which was not initialized") 1)
      | Some c =>
          answer <- prop (doc change) "answer" ;;
          (if truthy answer then
             offer <- prop (doc change) "offer" ;;
             on_client c (ClientConnection.handleAnswer offer)
           else ret tt) ;;
          name <- modelled (to_text who) ;;
          emit (NodeLog ("Got null answer from client id " ++ name) 1)
      end
    else ret tt).

Definition handleICE (snapshot : list change) : M t node_effect unit :=
  for_each snapshot (fun change =>
    if String.eqb (type change) "added" then
      who <- prop (doc change) "id" ;;
      client <- ClientManager.getClientById who ;;
      match client with
      | None =>
          name <- modelled (to_text who) ;;
          emit (NodeLog ("Got ICE from client id " ++ name
                         ++ " which was not initialized") 1)
      | Some c =>
          ice <- prop (doc change) "ice" ;;
          (if truthy ice then
             offer <- prop (doc change) "offer" ;;
             on_client c (ClientConnection.handleIce offer)
           else ret tt) ;;
          name <- modelled (to_text who) ;;
          emit (NodeLog ("Got null ICE from client id " ++ name) 1)
      end
    else ret tt).

Definition handleCommand (node : Globals) (snapshot : list change)
  : M t node_effect unit :=
  for_each snapshot (fun change =>
    emit (NodeLog "Got command snapshot" 9) ;;
    if String.eqb (type change) "added" then
      command <- prop (doc change) "command" ;;
      if truthy command then
        if is_string command "registerClient" then
          client_id <- prop (doc change) "client_id" ;;
          name <- modelled (to_text client_id) ;;
          emit (NodeLog ("Register client id: " ++ name) 4) ;;
          ClientManager.addClient node client_id false
        else if is_string command "addRoute" then
          src_client <- prop (doc change) "src_client" ;;
          dest_clients <- prop (doc change) "dest_clients" ;;
          ConnectionManager.connectClients src_client dest_clients
        else if is_string command "renegotiate" then
          who <- prop (doc change) "id" ;;
          client <- ClientManager.getClientById who ;;
          match client with
          | None =>
              name <- modelled (to_text who) ;;
              emit (NodeLog ("Got renegotiation for client id " ++ name
                             ++ " which was not initialized") 1)
          | Some c =>
              n <- this ;;
              on_client c (ClientConnection.renegotiateWebRTC (NODE_ID n))
          end
        else
          emit (NodeLog "Got invalid command" 1) ;;
          emit (NodeLog (JSON_stringify (doc change)) 3)
      else ret tt
    else ret tt).

(** [new SignalManager()]: the four subscriptions. *)
Definition new (node : Globals) : M t node_effect unit :=
  n <- this ;;
  who <- modelled (to_text (NODE_ID n)) ;;
  let ref (kind : string) :=
    "meetings/" ++ NODE_INSTANCE_GROUP_NAME node ++ "/clients/" ++ who ++ "/" ++ kind in
  emit (Subscribe (ref "receivedOffers")) ;;
  emit (Subscribe (ref "receivedAnswers")) ;;
  emit (Subscribe (ref "receivedIce")) ;;
  emit (Subscribe (ref "commands")).

End SignalManager.

(** ** startRouter and init *)

Definition startRouter (node : Globals) : M t node_effect unit :=
  emit (NodeLog "Starting..." 3) ;;
  update (set_NODE_ID (VString (NODE_INSTANCE_NAME node))) ;;
  SignalManager.new node.

Definition registration (node : Globals) : value :=
  VObject [("instance_name", VString (NODE_INSTANCE_NAME node));
           ("instance_group_name", VString (NODE_INSTANCE_GROUP_NAME node));
           ("registered", VBool false)].

(** [init]: the subscription to the registration of this instance. *)
Definition init (node : Globals) : M t node_effect unit :=
  emit (Subscribe ("new-instances where instance_name == " ++ NODE_INSTANCE_NAME node)).

(** The callback of [init] when a snapshot arrives: it writes the
    registration and waits for the write. *)
Definition snapshot (node : Globals) (changes : list change) : M t node_effect unit :=
  emit (DocSet (registration node)) ;;
  update (suspend (AfterSet changes)).

(** The loop of the callback over the changes, down to its next await on
    the store.  The two awaits on plain values, of [registered] and of the
    promise of [startRouter], go on in the same turn. *)
Fixpoint visit (changes : list change) : M t node_effect unit :=
  match changes with
  | [] => ret tt
  | c :: rest =>
      emit (NodeLog "Got firebase snapshot" 9) ;;
      registered <-
        (if String.eqb (type c) "modified" then
           r <- prop (doc c) "registered" ;; ret (truthy r)
         else ret false) ;;
      if registered : bool then
        emit Unsubscribe ;;
        emit DocDelete ;;
        update (suspend (AfterDelete rest))
      else visit rest
  end.

(** A promise of the store fulfils: the callback that waits for it goes on. *)
Definition acknowledged (node : Globals) (p : nat) : M t node_effect unit :=
  n <- this ;;
  match suspended_on p (suspended n) with
  | None => ret tt
  | Some k =>
      update (forget p) ;;
      match k with
      | AfterSet changes => visit changes
      | AfterDelete rest => startRouter node ;; visit rest
      end
  end.

(** What the event loop delivers to the node. *)
Inductive event : Type :=
| Snapshot (changes : list change)        (* the registration query changed *)
| Acknowledged (promise : nat)            (* a write or delete of init is done *)
| Offers (changes : list change)          (* receivedOffers changed *)
| Answers (changes : list change)         (* receivedAnswers changed *)
| Ices (changes : list change)            (* receivedIce changed *)
| Commands (changes : list change)        (* commands changed *)
| OnTrack (client : nat) (streams : list MediaStream)
| OnIceCandidate (client : nat) (candidate : value)
| Fulfilled (client : nat) (promise : nat) (v : value).

Definition handle (node : Globals) (e : event) : M t node_effect unit :=
  match e with
  | Snapshot changes => snapshot node changes
  | Acknowledged p => acknowledged node p
  | Offers changes => SignalManager.handleOffer changes
  | Answers changes => SignalManager.handleAnswer changes
  | Ices changes => SignalManager.handleICE changes
  | Commands changes => SignalManager.handleCommand node changes
  | OnTrack client streams =>
      on_client client
        (emit (Log "Got track" 6) ;;
         update (fun c => ClientConnection.with_streams
                            (ClientConnection.clientStreams c ++ [hd_error streams]) c))
  | OnIceCandidate client candidate =>
      if truthy candidate then
        n <- this ;;
        on_client client (emit (Log "Sending ICE" 5) ;;
                          ClientConnection.sendIce (NODE_ID n) candidate)
      else ret tt
  | Fulfilled client p v =>
      n <- this ;;
      on_client client
        (c <- this ;;
         match ClientConnection.waiting_on p (ClientConnection.awaiting c) with
         | None => ret tt
         | Some k =>
             update (fun c => ClientConnection.with_promises
                                (ClientConnection.promises c)
                                (filter (fun e => negb (Nat.eqb (fst e) p))
                                        (ClientConnection.awaiting c)) c) ;;
             ClientConnection.resume (NODE_ID n) k v
         end)
  end.

Definition run (node : Globals) (events : list event) : M t node_effect unit :=
  for_each events (handle node).

End RelayRouter.

(* ================================================================== *)
(** * FirstRouter: src/index.ts, the first socket prototype *)
(* ================================================================== *)

Module FirstRouter.
Import JS.

(** ** class Request: the fields are assigned inside the try statement, and
    a field the message does not carry stays [undefined]. *)
Module Request.

Record t : Type := {
  parseError : bool;
  command : value;
  data : value;
  id : value;
  token : value
}.

Definition new {St} (msg_data : string) : M St effect t :=
  emit (Log msg_data 4) ;;
  ret match JSON_parse msg_data with
      | None =>
          {| parseError := true; command := VUndefined; data := VNull;
             id := VUndefined; token := VUndefined |}
      | Some parsed =>
          match get parsed "command", get parsed "data",
                get parsed "id", get parsed "token" with
          | Some c, Some d, Some i, Some k =>
              {| parseError := false; command := c; data := d; id := i; token := k |}
          | _, _, _, _ =>
              (* parsed is null: the first read throws, nothing is assigned *)
              {| parseError := true; command := VUndefined; data := VNull;
                 id := VUndefined; token := VUndefined |}
          end
      end.

End Request.

(** ** class Response *)
Module Response.

Definition INVALID_REQUEST : string :=
  JSON_stringify (VObject [("command", VString ""); ("error", VBool true)]).

Definition AUTH_FAILED : string :=
  JSON_stringify (VObject [("message", VString "Invalid auth"); ("error", VBool true)]).

Definition RENEGOTIATE_RTC : string :=
  JSON_stringify (VObject [("message", VString "renegotiate");
                           ("renegotiate", VBool true); ("error", VBool false)]).

Definition generateAnswerResponse (answer : value) : string :=
  JSON_stringify (VObject [("message", VString "SDP answer"); ("sdp", answer);
                           ("error", VBool false)]).

Definition generateIceMessage (candidate : value) : string :=
  JSON_stringify (VObject [("message", VString "New ICE Candidate");
                           ("candidate", candidate); ("error", VBool false)]).

End Response.

(** [processOffer] suspended at an await. *)
Inductive task : Type :=
| AnswerAfterRemote
| AnswerAfterCreate
| AnswerAfterLocal (answer : value).

(** ** class Client *)
Module Client.

Record t : Type := {
  id_ : value;                          (* string | null *)
  clientStream : option MediaStream;
  isAdmin : bool;
  promises : nat;
  awaiting : list (nat * task)
}.

Definition new : t :=
  {| id_ := VNull; clientStream := None; isAdmin := false;
     promises := 0; awaiting := [] |}.

Definition set_id (v : value) (c : t) : t :=
  {| id_ := v; clientStream := clientStream c; isAdmin := isAdmin c;
     promises := promises c; awaiting := awaiting c |}.

Definition set_isAdmin (c : t) : t :=
  {| id_ := id_ c; clientStream := clientStream c; isAdmin := true;
     promises := promises c; awaiting := awaiting c |}.

Definition set_clientStream (s : option MediaStream) (c : t) : t :=
  {| id_ := id_ c; clientStream := s; isAdmin := isAdmin c;
     promises := promises c; awaiting := awaiting c |}.

Definition with_promises (n : nat) (l : list (nat * task)) (c : t) : t :=
  {| id_ := id_ c; clientStream := clientStream c; isAdmin := isAdmin c;
     promises := n; awaiting := l |}.

Fixpoint waiting_on (p : nat) (l : list (nat * task)) : option task :=
  match l with
  | [] => None
  | (q, k) :: rest => if Nat.eqb q p then Some k else waiting_on p rest
  end.

Definition await (call : engine_call) (k : task) : M t effect unit :=
  c <- this ;;
  emit (PeerCall (promises c) call) ;;
  update (with_promises (S (promises c)) (awaiting c ++ [(promises c, k)])).

Definition socketSend (data : string) : M t effect unit := emit (SocketSend data).

Definition addMediaStream (stream : option MediaStream) : M t effect unit :=
  match stream with
  | None => throw (TypeError "Cannot read properties of undefined (reading 'getTracks')")
  | Some s =>
      for_each (getTracks s) (fun track =>
        c <- this ;;
        who <- modelled (to_text (id_ c)) ;;
        emit (Log ("Adding media track to user" ++ who) 4) ;;
        emit (PeerAddTrack track s))
  end.

Definition renegotiateWebRTC : M t effect unit :=
  emit (SocketSend Response.RENEGOTIATE_RTC).

Definition getAuthentication (req : Request.t) : M t effect bool :=
  c <- this ;;
  mismatch <-
    (if is_nullish (id_ c) then
       update (set_id (Request.id req)) ;; ret false
     else
       same <- modelled (loose_eq (id_ c) (Request.id req)) ;;
       ret (negb same)) ;;
  if mismatch : bool then ret false
  else
    (if is_string (Request.id req) "admin" then update set_isAdmin else ret tt) ;;
    good <- modelled (loose_eq (Request.token req) (VString "testauth")) ;;
    if good : bool then
      c' <- this ;;
      who <- modelled (to_text (id_ c')) ;;
      emit (Log ("Authenticated user" ++ who) 4) ;;
      ret true
    else ret false.

Definition processOffer (offer : value) : M t effect unit :=
  await (SetRemoteDescription offer) AnswerAfterRemote.

Definition sendIce (candidate : value) : M t effect unit :=
  socketSend (Response.generateIceMessage candidate).

Definition resume (k : task) (v : value) : M t effect unit :=
  match k with
  | AnswerAfterRemote => await CreateAnswer AnswerAfterCreate
  | AnswerAfterCreate => await (SetLocalDescription v) (AnswerAfterLocal v)
  | AnswerAfterLocal answer => socketSend (Response.generateAnswerResponse answer)
  end.

(** The part of [socketMessage] of a client that is not an operator. *)
Definition commands (req : Request.t) : M t effect unit :=
  if is_string (Request.command req) "offer" then
    emit (Log "Offer" 5) ;;
    processOffer (Request.data req)
  else if is_string (Request.command req) "iceCandidate" then
    emit (Log "ICE" 5) ;;
    candidate <- prop (Request.data req) "candidate" ;;
    if truthy candidate then emit (PeerAddIceCandidate (Request.data req))
    else ret tt
  else ret tt.

End Client.

(** ** The node: the global list [clients] *)

Definition on_client {A} (index : nat) (method : M Client.t effect A)
  : M (list Client.t) node_effect A :=
  on_nth (fun l => l) (fun l _ => l) index method.

Fixpoint last_with_id (id : value) (l : list Client.t)
  (index : nat) (result : option nat) : option (option nat) :=
  match l with
  | [] => Some result
  | c :: rest =>
      match strict_eq (Client.id_ c) id with
      | Some true => last_with_id id rest (S index) (Some index)
      | Some false => last_with_id id rest (S index) result
      | None => None
      end
  end.

Definition getClientById (id : value) : M (list Client.t) node_effect (option nat) :=
  l <- this ;;
  modelled (last_with_id id l 0 None).

(** [case "connect"] of [adminCommands] *)
Definition connect (data : value) : M (list Client.t) node_effect unit :=
  emit (NodeLog "Connecting streams" 4) ;;
  source <- element data 0 ;;
  client <- getClientById source ;;
  srcStream <-
    match client with
    | None => throw (TypeError "Cannot read properties of null (reading 'mediaStream')")
    | Some src =>
        l <- this ;;
        ret (match nth_error l src with
             | Some c => Client.clientStream c
             | None => None
             end)
    end ;;
  count <- length_of data ;;
  for_each (seq 1 (count - 1)) (fun i =>
    dest <- element data i ;;
    user <- getClientById dest ;;
    match user with
    | None =>
        who <- modelled (to_text dest) ;;
        emit (NodeLog ("No such user " ++ who) 3) ;;
        throw (TypeError "Cannot read properties of null (reading 'addMediaStream')")
    | Some u =>
        on_client u (Client.addMediaStream srcStream) ;;
        on_client u Client.renegotiateWebRTC
    end).

Definition adminCommands (req : Request.t) : M (list Client.t) node_effect unit :=
  emit (NodeLog "Admin command" 5) ;;
  if is_string (Request.command req) "connect" then connect (Request.data req)
  else ret tt.

(** [socketMessage] of [clients[self]] *)
Definition socketMessage (self : nat) (msg_data : string)
  : M (list Client.t) node_effect unit :=
  req <- on_client self (Request.new msg_data) ;;
  if Request.parseError req then
    on_client self (Client.socketSend Response.INVALID_REQUEST)
  else
    ok <- on_client self (Client.getAuthentication req) ;;
    if negb ok then
      on_client self (emit (Log "Auth failed" 4) ;;
                      Client.socketSend Response.AUTH_FAILED ;;
                      emit SocketClose ;; emit PeerClose)
    else
      l <- this ;;
      match nth_error l self with
      | Some c =>
          if Client.isAdmin c then adminCommands req
          else on_client self (Client.commands req)
      | None => unmodelled
      end.

End FirstRouter.

(* ================================================================== *)
(** * Registry: the list of sessions of part_000 and index.ts *)
(* ================================================================== *)

(** The global [clients] as the list of objects it is.  A [Client] is stood
    for by the number of the connection that made it: two clients are the
    same object when they were made by the same connection, which is what
    [indexOf] compares with [===]. *)
Module Registry.

(** [arr.indexOf(value)]: the first position of [value], [None] for -1. *)
Fixpoint indexOf (arr : list nat) (value : nat) : option nat :=
  match arr with
  | [] => None
  | x :: rest =>
      if Nat.eqb x value then Some 0
      else match indexOf rest value with
           | Some index => Some (S index)
           | None => None
           end
  end.

(** [arr.splice(index, count)], the array it leaves. *)
Definition splice (index count : nat) (arr : list nat) : list nat :=
  (firstn index arr ++ skipn (index + count) arr)%list.

Definition removeItem (arr : list nat) (value : nat) : list nat :=
  match indexOf arr value with
  | Some index => splice index 1 arr
  | None => arr
  end.

Record t : Type := {
  clients : list nat;
  connections : nat        (* connections accepted so far *)
}.

Definition new : t := {| clients := []; connections := 0 |}.

(** What the event loop delivers. *)
Inductive event : Type :=
| OnConnection              (* server.on('connection') *)
| OnClose (client : nat).   (* socket.onclose of the socket of that client *)

Definition handle (e : event) : M t node_effect unit :=
  match e with
  | OnConnection =>
      emit (NodeLog "Got connection" 3) ;;
      update (fun r => {| clients := clients r ++ [connections r];
                          connections := S (connections r) |})
  | OnClose client =>
      update (fun r => {| clients := removeItem (clients r) client;
                          connections := connections r |})
  end.

Definition run (events : list event) : M t node_effect unit :=
  for_each events handle.

End Registry.

(* ================================================================== *)
(** * Scenarios *)
(* ================================================================== *)

Module Scenario.
Import JS.

(** A stream with two tracks, as a camera gives. *)
Definition camera : MediaStream := {| stream_id := 7; getTracks := [1; 2] |}.

(** A socket library for the scenarios: it takes an address of the scheme
    ws or wss and refuses every other one. *)
Definition socket_error (address : value) : option exn :=
  match address with
  | VString a =>
      if String.prefix "ws://" a || String.prefix "wss://" a then None
      else Some (SyntaxError ("Invalid URL: " ++ a))
  | _ => Some (SyntaxError "Invalid URL")
  end.

(** The route command of the specification: alice to bob, ghost and carol,
    where no session is called ghost. *)
Definition destinations : value :=
  VArray [VString "bob"; VString "ghost"; VString "carol"].

(** ** On the relay router *)

Definition relay_node : RelayRouter.Globals :=
  {| RelayRouter.NODE_INSTANCE_NAME := "router-1";
     RelayRouter.NODE_INSTANCE_GROUP_NAME := "devgroup" |}.

Definition registered : RelayRouter.change :=
  {| RelayRouter.type := "modified";
     RelayRouter.doc := VObject [("instance_name", VString "router-1");
                                 ("instance_group_name", VString "devgroup");
                                 ("registered", VBool true)] |}.

Definition registerClient (id : string) : RelayRouter.change :=
  {| RelayRouter.type := "added";
     RelayRouter.doc := VObject [("command", VString "registerClient");
                                 ("client_id", VString id)] |}.

(** The relay router after its handoff, with alice, bob and carol registered
    and the camera of alice received. *)
Definition relay_ready : RelayRouter.t :=
  final (RelayRouter.run relay_node
           [RelayRouter.Snapshot [registered];
            RelayRouter.Acknowledged 0;
            RelayRouter.Acknowledged 1;
            RelayRouter.Commands [registerClient "alice"; registerClient "bob";
                                  registerClient "carol"];
            RelayRouter.OnTrack 0 [camera]]
           RelayRouter.new).

Definition route_command : RelayRouter.change :=
  {| RelayRouter.type := "added";
     RelayRouter.doc := VObject [("command", VString "addRoute");
                                 ("src_client", VString "alice");
                                 ("dest_clients", destinations)] |}.

(** An answer document as the specification describes it: the payload is in
    the field answer, and there is no field offer. *)
Definition answer_document : RelayRouter.change :=
  {| RelayRouter.type := "added";
     RelayRouter.doc := VObject [("id", VString "alice");
                                 ("answer", VObject [("type", VString "answer");
                                                     ("sdp", VString "v=0")])] |}.

Definition ice_document : RelayRouter.change :=
  {| RelayRouter.type := "added";
     RelayRouter.doc := VObject [("id", VString "alice");
                                 ("ice", VObject [("candidate", VString "candidate:1")])] |}.

(** ** On the admin router *)

Definition hello (id : string) : string :=
  JSON_stringify (VObject [("action", VString "hello"); ("id", VString id);
                           ("token", VString "testauth")]).

Definition admin_route : string :=
  dq "{'action':'addRoute','data':['alice','bob','ghost','carol'],'id':'admin','token':'testauth'}".

(** Four connections: alice, bob and carol, bound by their first message,
    the camera of alice received, and the operator. *)
Definition admin_ready : AdminRouter.t :=
  final (AdminRouter.run
           [AdminRouter.OnConnection; AdminRouter.OnConnection;
            AdminRouter.OnConnection; AdminRouter.OnConnection;
            AdminRouter.OnMessage 0 (hello "alice");
            AdminRouter.OnMessage 1 (hello "bob");
            AdminRouter.OnMessage 2 (hello "carol");
            AdminRouter.OnTrack 0 [camera]]
           AdminRouter.new).

Definition sdp (kind text : string) : value :=
  VObject [("type", VString kind); ("sdp", VString text)].

Definition admin_offer : string :=
  dq "{'action':'offer','data':{'type':'offer','sdp':'v=0'},'id':'dave','token':'testauth'}".

(** ** On the socket router *)

Definition dev_node : SocketRouter.Globals :=
  {| SocketRouter.NODE_INSTANCE_NAME := "default-dev-id";
     SocketRouter.NODE_AUTH := "" |}.

Definition offer_1 : string :=
  dq "{'action':'offer','data':{'type':'offer','sdp':'first'},'id':'alice','token':'testauth'}".

Definition offer_2 : string :=
  dq "{'action':'offer','data':{'type':'offer','sdp':'second'},'id':'alice','token':'testauth'}".

Definition bad_token : string :=
  dq "{'action':'offer','data':null,'id':'mallory','token':'guess'}".

(** The manager with the accepting sessions of alice, bob and carol. *)
Definition bound (id : string) : SocketRouter.role * SocketRouter.ClientConnection.t :=
  (SocketRouter.Inbound,
   final (SocketRouter.handle dev_node SocketRouter.Inbound
            (SocketRouter.OnMessage (hello id)) SocketRouter.ClientConnection.new)).

Definition manager_ready : SocketRouter.Management.t :=
  {| SocketRouter.Management.NODE_ID := VUndefined;
     SocketRouter.Management.clients :=
       [(SocketRouter.Inbound,
         final (SocketRouter.handle dev_node SocketRouter.Inbound
                  (SocketRouter.OnTrack [camera]) (snd (bound "alice"))));
        bound "bob"; bound "carol"] |}.

Definition manager_route : string :=
  dq "{'action':'addRoute','data':['alice','bob','ghost','carol']}".

(** ** On the first router: a message without an id, then one with *)

Definition anonymous : string :=
  dq "{'command':'ping','data':null,'token':'testauth'}".

Definition mallory : string :=
  dq "{'command':'ping','data':null,'id':'mallory','token':'testauth'}".

(** ** A negotiation, for either router *)

(** A candidate as the engine hands it over. *)
Definition local_candidate : JS.value :=
  JS.VObject [("candidate", JS.VString "candidate:1 1 udp 2122260223 10.0.0.7 9 typ host");
              ("sdpMid", JS.VString "0");
              ("sdpMLineIndex", JS.VNumber (JS.Finite false 0 0))].

(** The events of a session of [part_003] that negotiates, in either role:
    the manager asks for a renegotiation, a message comes in, three promises
    of the engine fulfil one after the other, then the engine finds a
    candidate.  The accepting role answers the offer that came in; the
    initiating role, which takes the message for an unknown command, sends
    the offer that the engine made. *)
Definition negotiation : list SocketRouter.event :=
  [SocketRouter.Renegotiate;
   SocketRouter.OnMessage offer_1;
   SocketRouter.Fulfilled 0 (sdp "offer" "v=2");
   SocketRouter.Fulfilled 1 (sdp "answer" "v=1");
   SocketRouter.Fulfilled 2 JS.VUndefined;
   SocketRouter.OnIceCandidate local_candidate].

(** A client of the router of [part_000] connects and negotiates. *)
Definition admin_negotiation : list AdminRouter.event :=
  [AdminRouter.OnConnection;
   AdminRouter.OnMessage 0 admin_offer;
   AdminRouter.Fulfilled 0 0 JS.VUndefined;
   AdminRouter.Fulfilled 0 1 (sdp "answer" "v=1");
   AdminRouter.Fulfilled 0 2 JS.VUndefined;
   AdminRouter.OnIceCandidate 0 local_candidate].

End Scenario.

(* ================================================================== *)
(** * The vocabulary of the properties *)
(* ================================================================== *)

(** [emits_only Q m]: whatever the state, every effect of [m] satisfies [Q]. *)
Definition emits_only {St Ev A} (Q : Ev -> Prop) (m : M St Ev A) : Prop :=
  forall s, Forall Q (trace (m s)).

(** The engine calls of a trace, in order. *)
Definition engine_calls (tr : list effect) : list engine_call :=
  flat_map (fun e => match e with PeerCall _ c => [c] | _ => [] end) tr.

(** The calls of negotiations that never overlap: set-remote-description,
    create-answer, set-local-description, over and over, the last round
    possibly unfinished. *)
Fixpoint serial (calls : list engine_call) : bool :=
  match calls with
  | [] => true
  | SetRemoteDescription _ :: rest =>
      match rest with
      | [] => true
      | CreateAnswer :: rest' =>
          match rest' with
          | [] => true
          | SetLocalDescription _ :: rest'' => serial rest''
          | _ => false
          end
      | _ => false
      end
  | _ => false
  end.

(** What the session of a client sends satisfies [Q]. *)
Definition client_sends (Q : string -> Prop) (e : node_effect) : Prop :=
  match e with
  | OfClient _ (SocketSend data) => Q data
  | _ => True
  end.

(** What decoding makes of the field [k] of a message: the value the message
    has there when it has one, the default when the field is absent (or
    null, which [??] treats alike). *)
Definition decodes_to (props : list (string * JS.value)) (k : string)
  (default x : JS.value) : Prop :=
  (forall v, JS.assoc k props = Some v -> JS.is_nullish v = false -> x = v)
  /\ (JS.assoc k props = None -> x = default)
  /\ (JS.assoc k props = Some JS.VNull -> x = default).

(** A decoded message encoded again, with [generateGenericMessage]. *)
Definition encode (req : AdminRouter.Request.t) : string :=
  AdminRouter.Response.generateGenericMessage
    (AdminRouter.Request.action req) (AdminRouter.Request.data req)
    (AdminRouter.Request.id req) (AdminRouter.Request.token req).

(** A change of kind modified whose document has [registered: true]: the
    management server has taken the registration. *)
Definition assigned (more : list (string * JS.value)) : RelayRouter.change :=
  {| RelayRouter.type := "modified";
     RelayRouter.doc := JS.VObject (("registered", JS.VBool true) :: more) |}.

(** How many times a trace deletes the registration document. *)
Definition handoffs (tr : list node_effect) : nat :=
  List.length (filter (fun e => match e with DocDelete => true | _ => false end) tr).

(** A change of kind added with the document [props]. *)
Definition added (props : list (string * JS.value)) : RelayRouter.change :=
  {| RelayRouter.type := "added"; RelayRouter.doc := JS.VObject props |}.

(** The effects of the handoff of [part_003] in a trace: the channel to the
    manager, the server of the node, the deletion of the registration. *)
Definition handoff_effects (tr : list node_effect) : list node_effect :=
  filter (fun e => match e with
                   | SocketOpen _ | ServerListen _ | DocDelete | Unsubscribe => true
                   | _ => false
                   end) tr.

(** A notification whose document carries no assignment. *)
Definition unassigned (props : list (string * JS.value)) : Prop :=
  JS.truthy (JS.own props "management_socket") = false.

(** The bootstrap with no callback waiting for its snapshot. *)
Definition bootstrap_state (read : bool) (n : nat) : SocketRouter.Bootstrap.t :=
  {| SocketRouter.Bootstrap.db_read := read; SocketRouter.Bootstrap.resuming := []; SocketRouter.Bootstrap.deleting := n |}.

(** How many deliveries acknowledge the deletion. *)
Definition acknowledgements (l : list SocketRouter.Bootstrap.delivery) : nat :=
  List.length (filter (fun d => match d with
                                | SocketRouter.Bootstrap.DeleteAcknowledged => true
                                | _ => false
                                end) l).

(** Attaching the tracks of [stream] to the session of [who]. *)
Definition attach (who : string) (stream : MediaStream) : list effect :=
  flat_map (fun track => [Log ("Adding media track to user" ++ who) 4;
                          PeerAddTrack track stream])
           (getTracks stream).

(** What a route command of the manager of [part_003] does for the
    destination [d]: the stream attached and a renegotiation asked of the
    session with that id, or one failure recorded. *)
Definition routed (node : SocketRouter.Globals)
  (clients : list (SocketRouter.role * SocketRouter.ClientConnection.t))
  (stream : MediaStream) (d : string) : list node_effect :=
  match SocketRouter.Management.last_with_id (JS.VString d) clients 0 None with
  | Some (Some u) =>
      map (OfClient u)
          (attach d stream ++ [SocketSend (SocketRouter.SockResponse.RESP_RENEG node)])
  | _ =>
      [NodeLog ("Routing error: Destination client with id " ++ d ++ " does not exist") 1]
  end.

(** [preserves P m]: from a state where [P] holds, [m] ends in one where it
    holds, however [m] ends. *)
Definition preserves {St Ev A} (P : St -> Prop) (m : M St Ev A) : Prop :=
  forall s, P s -> P (final (m s)).

(** The session is bound to the identity [i]. *)
Definition bound_to (i : string) (c : SocketRouter.ClientConnection.t) : Prop :=
  SocketRouter.ClientConnection._id c = JS.VString i.

(** A call of [Debug.log]. *)
Definition is_log (e : effect) : Prop :=
  match e with
  | Log _ _ => True
  | _ => False
  end.

(** An effect that carries out the action of a message. *)
Definition acts (e : effect) : Prop :=
  match e with
  | PeerCall _ _ | PeerAddIceCandidate _ | PeerAddTrack _ _ | SocketSend _ => True
  | _ => False
  end.

(** An effect that tears the session down. *)
Definition closes (e : effect) : Prop :=
  match e with
  | PeerClose | SocketClose => True
  | _ => False
  end.

(** The offer of dave with the index of a media line in its payload. *)
Definition indexed_offer : string :=
  dq "{'action':'offer','data':{'sdp':'v=0','index':3},'id':'dave','token':'testauth'}".

(** ** The vocabulary of the codec *)

(** The decimal digits. *)
Definition is_digit (c : ascii) : bool :=
  match JS.digit c with Some _ => true | None => false end.

Fixpoint all_digits (s : string) : bool :=
  match s with
  | EmptyString => true
  | String c rest => is_digit c && all_digits rest
  end.

(** The text does not go on with a digit. *)
Definition no_digit_head (s : string) : bool :=
  match s with
  | EmptyString => true
  | String c _ => negb (is_digit c)
  end.

(** What follows a value inside a text that [to_json] wrote: nothing, a
    comma, or a closing bracket or brace. *)
Definition delimited (s : string) : bool :=
  match s with
  | EmptyString => true
  | String c _ => Ascii.eqb c "," || Ascii.eqb c "]" || Ascii.eqb c "}"
  end.

(** The integer part of a number literal: digits, at least one, and no
    zero in front of another digit. *)
Definition int_ok (i : string) : bool :=
  all_digits i
  && match i with
     | EmptyString => false
     | String "0"%char (String _ _) => false
     | _ => true
     end.

Definition nonempty (s : string) : bool :=
  match s with EmptyString => false | _ => true end.

(** The grammar of a number literal, by its parts: sign, integer, fraction,
    exponent. *)
Definition literal_parts (sg i fr ex : string) : Prop :=
  (sg = "" \/ sg = "-")
  /\ int_ok i = true
  /\ (fr = "" \/ (exists f, fr = String "."%char f
                            /\ all_digits f = true /\ nonempty f = true))
  /\ (ex = "" \/ (exists c s e, ex = String c (s ++ e)
                                /\ (c = "e"%char \/ c = "E"%char)
                                /\ (s = "" \/ s = "-" \/ s = "+")
                                /\ all_digits e = true /\ nonempty e = true)).

(** A number that is read back from the text written for it.  The negative
    zero is not, it is written [0]; nor is an infinity, which is written
    [null]. *)
Definition read_back (n : JS.double) : Prop :=
  JS.number (JS.number_text n) = Some (JS.VNumber n, "").

(** The properties of an object in the order in which [set_prop] keeps them:
    no key twice, and no key that would go before an earlier one. *)
Inductive ordered : list (string * JS.value) -> Prop :=
| ordered_nil : ordered []
| ordered_cons k v l :
    Forall (fun p => JS.goes_before (fst p) k = false) l ->
    JS.has_key k l = false ->
    ordered l ->
    ordered ((k, v) :: l).

(** The values that [JSON.stringify] and [JSON.parse] carry over as they
    are: no [undefined], numbers that are read back from their text, the
    properties of every object in order. *)
Inductive document : JS.value -> Prop :=
| document_null : document JS.VNull
| document_bool b : document (JS.VBool b)
| document_number n : read_back n -> document (JS.VNumber n)
| document_string s : document (JS.VString s)
| document_array l : Forall document l -> document (JS.VArray l)
| document_object ps :
    ordered ps -> Forall (fun p => document (snd p)) ps -> document (JS.VObject ps).

(** Every number in the value is read back from the text written for it. *)
Fixpoint numbers_read_back (v : JS.value) : Prop :=
  match v with
  | JS.VNumber n => read_back n
  | JS.VArray l =>
      (fix all (l : list JS.value) : Prop :=
         match l with
         | [] => True
         | x :: rest => numbers_read_back x /\ all rest
         end) l
  | JS.VObject ps =>
      (fix all (ps : list (string * JS.value)) : Prop :=
         match ps with
         | [] => True
         | (_, x) :: rest => numbers_read_back x /\ all rest
         end) ps
  | _ => True
  end.

(** The values that [JSON.parse] gives, whatever their numbers: no
    [undefined], the properties of every object in order. *)
Inductive parsed : JS.value -> Prop :=
| parsed_null : parsed JS.VNull
| parsed_bool b : parsed (JS.VBool b)
| parsed_number n : parsed (JS.VNumber n)
| parsed_string s : parsed (JS.VString s)
| parsed_array l : Forall parsed l -> parsed (JS.VArray l)
| parsed_object ps :
    ordered ps -> Forall (fun p => parsed (snd p)) ps -> parsed (JS.VObject ps).

(** What the engine hands over, a description or a candidate: a document, or
    nothing at all. *)
Definition engine_value (v : JS.value) : Prop := v = JS.VUndefined \/ document v.

(** An event of a session of [part_003]: what the engine hands over with it
    is an engine value. *)
Definition engine_event (e : SocketRouter.event) : Prop :=
  match e with
  | SocketRouter.OnIceCandidate candidate => engine_value candidate
  | SocketRouter.Fulfilled _ v => engine_value v
  | _ => True
  end.

(** The description that a suspended method of [part_003] holds is one of
    the engine. *)
Definition holds_engine_value (k : SocketRouter.task) : Prop :=
  match k with
  | SocketRouter.AnswerAfterLocal v | SocketRouter.OfferAfterLocal v => engine_value v
  | _ => True
  end.

(** A session of [part_003] whose suspended methods hold engine values. *)
Definition described (c : SocketRouter.ClientConnection.t) : Prop :=
  Forall (fun e => holds_engine_value (snd e))
         (SocketRouter.ClientConnection.awaiting c).

(** Read as JSON, the text is an object with an action, and with neither an
    id nor a token. *)
Definition reads_without_credentials (data : string) : Prop :=
  exists props,
    JS.JSON_parse data = Some (JS.VObject props)
    /\ JS.has_key "action" props = true
    /\ JS.has_key "id" props = false
    /\ JS.has_key "token" props = false.

(** Read as JSON, the text is an object with an action, the id [id] and
    the token [token]. *)
Definition reads_with_credentials (id token : JS.value) (data : string) : Prop :=
  exists props,
    JS.JSON_parse data = Some (JS.VObject props)
    /\ JS.has_key "action" props = true
    /\ JS.has_key "id" props = true /\ JS.own props "id" = id
    /\ JS.has_key "token" props = true /\ JS.own props "token" = token.

(** Read as JSON, the text is an object with an action, an id, and the
    token [token]. *)
Definition reads_with_id_and_token (token : JS.value) (data : string) : Prop :=
  exists id, reads_with_credentials id token data.

(** What a session sends satisfies [Q]. *)
Definition sends (Q : string -> Prop) (e : effect) : Prop :=
  match e with
  | SocketSend data => Q data
  | _ => True
  end.

(** The data of a message of [part_000], which the operator can make the id
    of the node: every number in it is read back. *)
Definition readable_data (raw : string) : Prop :=
  match JS.JSON_parse raw with
  | Some (JS.VObject props) => numbers_read_back (JS.field props "data" JS.VNull)
  | _ => True
  end.

(** An event of the router of [part_000], likewise. *)
Definition admin_event (e : AdminRouter.event) : Prop :=
  match e with
  | AdminRouter.OnMessage _ raw => readable_data raw
  | AdminRouter.OnIceCandidate _ candidate => engine_value candidate
  | AdminRouter.Fulfilled _ _ v => engine_value v
  | _ => True
  end.

Definition admin_holds_engine_value (k : AdminRouter.task) : Prop :=
  match k with
  | AdminRouter.AnswerAfterLocal v | AdminRouter.OfferAfterLocal v => engine_value v
  | _ => True
  end.

Definition admin_client_described (c : AdminRouter.Client.t) : Prop :=
  Forall (fun e => admin_holds_engine_value (snd e))
         (AdminRouter.Client.awaiting c).

(** The router of [part_000] with a document for the id of the node. *)
Definition admin_described (n : AdminRouter.t) : Prop :=
  document (AdminRouter.NODE_ID n)
  /\ Forall admin_client_described (AdminRouter.clients n).

(** The fuel that reading a value back takes. *)
Definition sizes (size : JS.value -> nat) : list JS.value -> nat :=
  fix sizes (l : list JS.value) : nat :=
    match l with
    | [] => 0
    | x :: rest => S (size x + sizes rest)
    end.

Definition member_sizes (size : JS.value -> nat) : list (string * JS.value) -> nat :=
  fix sizes (l : list (string * JS.value)) : nat :=
    match l with
    | [] => 0
    | (_, x) :: rest => S (size x + sizes rest)
    end.

Fixpoint size (v : JS.value) : nat :=
  match v with
  | JS.VArray l => S (sizes size l)
  | JS.VObject ps => S (member_sizes size ps)
  | _ => 1
  end.

(** The character a value can begin with. *)
Definition starts_value (c : ascii) : bool :=
  is_digit c
  || existsb (Ascii.eqb c)
       ["-"; "n"; "t"; "f"; "034"; "["; "{"]%char.

(** What the round trip says of one value. *)
Definition reads_back (v : JS.value) : Prop :=
  forall fuel rest,
    size v <= fuel -> delimited rest = true ->
    JS.parse_value fuel (JS.to_json v ++ rest) = Some (v, rest).

(** The text of one member, and of the members after the first. *)
Definition member_text (p : string * JS.value) : string :=
  JS.quote (fst p) ++ String ":"%char (JS.to_json (snd p)).

(** ** The vocabulary of the properties of runs *)

(** [keeps P Q m]: from a state where [P] holds, [m] ends in one where it
    holds and every effect it has made satisfies [Q]. *)
Definition keeps {St Ev A} (P : St -> Prop) (Q : Ev -> Prop) (m : M St Ev A) : Prop :=
  forall s, P s -> P (final (m s)) /\ Forall Q (trace (m s)).

(** A change that does not add a document: [modified], [removed]. *)
Definition not_added (c : RelayRouter.change) : Prop :=
  String.eqb (RelayRouter.type c) "added" = false.

(** The node starts an offer: it asks the engine for one, or it writes a
    document that carries one. *)
Definition starts_offer (e : node_effect) : bool :=
  match e with
  | OfClient _ (PeerCall _ CreateOffer) => true
  | OfClient _ (DocAdd _ (JS.VObject props)) => JS.has_key "offer" props
  | _ => false
  end.

(** A task of [getRtcAnswer], not of [sendOffer]. *)
Definition answers (k : RelayRouter.task) : bool :=
  match k with
  | RelayRouter.OfferAfterCreate | RelayRouter.OfferAfterLocal _ => false
  | _ => true
  end.

(** A client that answers only: it is no initiator and none of its awaits
    is one of [sendOffer]. *)
Definition answering (c : RelayRouter.ClientConnection.t) : Prop :=
  RelayRouter.ClientConnection.isInitiator c = false
  /\ Forall (fun e => answers (snd e) = true) (RelayRouter.ClientConnection.awaiting c).

(** An effect that starts no offer. *)
Definition quiet (e : node_effect) : Prop := starts_offer e = false.

(** Every client of the node answers only. *)
Definition all_answering (n : RelayRouter.t) : Prop :=
  Forall answering (RelayRouter.clients n).

(** The client [c] of the node, with its awaits moved on. *)
Definition negotiating (n : RelayRouter.t) (i : nat) (c : RelayRouter.ClientConnection.t)
  (made : nat) (l : list (nat * RelayRouter.task)) : RelayRouter.t :=
  RelayRouter.set_clients
    (replace i (RelayRouter.ClientConnection.with_promises
                  (made + RelayRouter.ClientConnection.promises c) l c)
       (RelayRouter.clients n)) n.

(** The client that [new ClientConnection(id, false)] makes. *)
Definition registered_as (node : RelayRouter.Globals) (id : JS.value) (who : string)
  : RelayRouter.ClientConnection.t :=
  let ref (kind : string) :=
    "meetings/" ++ RelayRouter.NODE_INSTANCE_GROUP_NAME node ++ "/clients/" ++ who
    ++ "/" ++ kind in
  {| RelayRouter.ClientConnection.id := id;
     RelayRouter.ClientConnection.isInitiator := false;
     RelayRouter.ClientConnection.clientStreams := [];
     RelayRouter.ClientConnection.offerRef := ref "receivedOffers";
     RelayRouter.ClientConnection.answerRef := ref "receivedAnswers";
     RelayRouter.ClientConnection.iceRef := ref "receivedIce";
     RelayRouter.ClientConnection.commandRef := ref "commands";
     RelayRouter.ClientConnection.promises := 0;
     RelayRouter.ClientConnection.awaiting := [] |}.

(** The session has no identity. *)
Definition unbound (c : SocketRouter.ClientConnection.t) : Prop :=
  SocketRouter.ClientConnection._id c = JS.VNull.

(** The session [c] after [made] more engine calls, with [l] to wait for. *)
Definition moved_on (c : SocketRouter.ClientConnection.t) (made : nat)
  (l : list (nat * SocketRouter.task)) : SocketRouter.ClientConnection.t :=
  {| SocketRouter.ClientConnection._id := SocketRouter.ClientConnection._id c;
     SocketRouter.ClientConnection.clientStreams := SocketRouter.ClientConnection.clientStreams c;
     SocketRouter.ClientConnection.promises := made + SocketRouter.ClientConnection.promises c;
     SocketRouter.ClientConnection.awaiting := l |}.

(** A track is attached to the engine of a session. *)
Definition attaches (e : node_effect) : bool :=
  match e with
  | OfClient _ (PeerAddTrack _ _) => true
  | _ => false
  end.

(** The node whose id is [v]. *)
Definition named (v : JS.value) (n : AdminRouter.t) : Prop := AdminRouter.NODE_ID n = v.

(** The operator sets the id of the node and gives none. *)
Definition set_id_without_data : string :=
  dq "{'action':'setId','id':'admin','token':'testauth'}".

Definition admin_unset : AdminRouter.t :=
  final (AdminRouter.run
           [AdminRouter.OnConnection; AdminRouter.OnMessage 0 set_id_without_data]
           AdminRouter.new).

(** A client of the admin router bound to [s], and no operator. *)
Definition plain_client (s : string) (c : AdminRouter.Client.t) : Prop :=
  AdminRouter.Client.id_ c = JS.VString s /\ AdminRouter.Client.isAdmin c = false.

(** The node as [n] but for the session at [self], a plain client of [s]. *)
Definition but_for (self : nat) (s : string) (n n' : AdminRouter.t) : Prop :=
  AdminRouter.NODE_ID n' = AdminRouter.NODE_ID n
  /\ (forall j, j <> self ->
        nth_error (AdminRouter.clients n') j = nth_error (AdminRouter.clients n) j)
  /\ exists c, nth_error (AdminRouter.clients n') self = Some c /\ plain_client s c.

(** An effect of the session at [self]. *)
Definition of_session (self : nat) (e : node_effect) : Prop :=
  match e with
  | OfClient i _ => i = self
  | _ => False
  end.

(** The sessions of a registry are distinct, and each was made by a
    connection that was accepted. *)
Definition distinct_sessions (r : Registry.t) : Prop :=
  NoDup (Registry.clients r)
  /\ Forall (fun c => c < Registry.connections r) (Registry.clients r).

(* ================================================================== *)
(** * Reasoning about handlers *)
(* ================================================================== *)

(** Comparisons of promise numbers, settled by arithmetic. *)
Ltac decide_eqb :=
  repeat match goal with
         | |- context [Nat.eqb ?a ?b] =>
             first [ replace (Nat.eqb a b) with true by (symmetry; apply Nat.eqb_eq; lia)
                   | replace (Nat.eqb a b) with false by (symmetry; apply Nat.eqb_neq; lia) ]
         end.

Ltac handler :=
  unfold bind, ret, this, update, emit, throw, unmodelled, modelled, prop,
    result, final, trace in *.

Section EmitsOnly.
Context {St Ev : Type} (Q : Ev -> Prop).

Lemma emits_ret {A} (a : A) : emits_only Q (ret (St := St) a).
Proof. intros s. constructor. Qed.

Lemma emits_this : emits_only Q (this (St := St)).
Proof. intros s. constructor. Qed.

Lemma emits_update (f : St -> St) : emits_only Q (update f).
Proof. intros s. constructor. Qed.

Lemma emits_throw {A} e : emits_only Q (throw (St := St) (A := A) e).
Proof. intros s. constructor. Qed.

Lemma emits_unmodelled {A} : emits_only Q (unmodelled (St := St) (A := A)).
Proof. intros s. constructor. Qed.

Lemma emits_modelled {A} (o : option A) : emits_only Q (modelled (St := St) o).
Proof. destruct o; intros ?; constructor. Qed.

Lemma emits_prop v k : emits_only Q (prop (St := St) v k).
Proof. unfold prop. destruct (JS.get v k); intros ?; constructor. Qed.

Lemma emits_element v i : emits_only Q (element (St := St) v i).
Proof. destruct v; intros ?; constructor. Qed.

Lemma emits_length_of v : emits_only Q (length_of (St := St) v).
Proof. destruct v; intros ?; constructor. Qed.

Lemma emits_emit e : Q e -> emits_only Q (emit (St := St) e).
Proof. intros H s. repeat constructor. exact H. Qed.

Lemma emits_bind {A B} (m : M St Ev A) (k : A -> M St Ev B) :
  emits_only Q m -> (forall a, emits_only Q (k a)) -> emits_only Q (bind m k).
Proof.
  intros Hm Hk s. unfold bind, trace. specialize (Hm s). unfold trace in Hm.
  destruct (m s) as [[[a| e |] s1] t1]; cbn in *; try assumption.
  specialize (Hk a s1). unfold trace in Hk.
  destruct (k a s1) as [[r s2] t2]. cbn in *.
  apply Forall_app. split; assumption.
Qed.

Lemma emits_for_each {A} (l : list A) (body : A -> M St Ev unit) :
  (forall x, emits_only Q (body x)) -> emits_only Q (for_each l body).
Proof.
  intros H. induction l as [|x l IH]; cbn.
  - apply emits_ret.
  - apply emits_bind; [apply H | intros _; exact IH].
Qed.

End EmitsOnly.

Lemma emits_on_nth {St C A} (Q : node_effect -> Prop)
  (get : St -> list C) (set : list C -> St -> St) (i : nat) (m : M C effect A) :
  emits_only (fun e => Q (OfClient i e)) m -> emits_only Q (on_nth get set i m).
Proof.
  intros H s. unfold on_nth, trace.
  destruct (nth_error (get s) i) as [c|]; [|constructor].
  specialize (H c). unfold trace in H.
  destruct (m c) as [[out c'] tr]. cbn in *.
  apply Forall_map. exact H.
Qed.

(** The structure of a handler, taken apart. *)
Ltac emits_step :=
  first
    [ apply emits_ret | apply emits_this | apply emits_update | apply emits_throw
    | apply emits_unmodelled | apply emits_modelled | apply emits_prop
    | apply emits_element | apply emits_length_of
    | apply emits_bind; [| intros ?]
    | apply emits_for_each; intros ?
    | apply emits_emit
    | match goal with
      | |- emits_only _ (if ?b then _ else _) => destruct b
      | |- emits_only _ (match ?x with _ => _ end) => destruct x
      end ].

Ltac emits := repeat emits_step.

(** A run that returns, split at a bind. *)
Lemma bind_returned {St Ev A B} (m : M St Ev A) (k : A -> M St Ev B) s a s1 t1 :
  m s = (Returned a, s1, t1) ->
  bind m k s = (result (k a s1), final (k a s1), (t1 ++ trace (k a s1))%list).
Proof.
  intros H. unfold bind, result, final, trace. rewrite H.
  destruct (k a s1) as [[r s2] t2]. reflexivity.
Qed.

Lemma for_each_cons {St Ev A} (x : A) (l : list A) (body : A -> M St Ev unit) :
  for_each (x :: l) body = bind (body x) (fun _ => for_each l body).
Proof. reflexivity. Qed.

Lemma on_nth_run {St C A} (get : St -> list C) (set : list C -> St -> St)
  (i : nat) (m : M C effect A) (s : St) (c : C) :
  nth_error (get s) i = Some c ->
  on_nth get set i m s =
    (result (m c), set (replace i (final (m c)) (get s)) s,
     map (OfClient i) (trace (m c))).
Proof.
  intros H. unfold on_nth, result, final, trace. rewrite H.
  destruct (m c) as [[out c'] tr]. reflexivity.
Qed.

Lemma replace_same {A} (i : nat) (x : A) (l : list A) :
  nth_error l i = Some x -> replace i x l = l.
Proof.
  revert i. induction l as [|y l IH]; intros [|i] H; cbn in *; try discriminate.
  - congruence.
  - f_equal. apply IH. exact H.
Qed.

Lemma nth_error_replace {A} (i : nat) (x : A) (l : list A) :
  i < List.length l -> nth_error (replace i x l) i = Some x.
Proof.
  revert i. induction l as [|y l IH]; intros [|i] H; cbn in *; try lia.
  - reflexivity.
  - apply IH. lia.
Qed.

(* ================================================================== *)
(** * Invariants of a run and of its trace *)
(* ================================================================== *)

Section Keeps.
Context {St Ev : Type} (P : St -> Prop) (Q : Ev -> Prop).

Lemma keeps_ret {A} (a : A) : keeps P Q (ret (St := St) (Ev := Ev) a).
Proof. intros s H. split; [exact H|constructor]. Qed.

Lemma keeps_read : keeps P Q (this (St := St) (Ev := Ev)).
Proof. intros s H. split; [exact H|constructor]. Qed.

Lemma keeps_emit e : Q e -> keeps P Q (emit (St := St) e).
Proof. intros He s H. split; [exact H|repeat constructor; exact He]. Qed.

Lemma keeps_throw {A} e : keeps P Q (throw (St := St) (Ev := Ev) (A := A) e).
Proof. intros s H. split; [exact H|constructor]. Qed.

Lemma keeps_unmodelled {A} : keeps P Q (unmodelled (St := St) (Ev := Ev) (A := A)).
Proof. intros s H. split; [exact H|constructor]. Qed.

Lemma keeps_modelled {A} (o : option A) : keeps P Q (modelled (St := St) (Ev := Ev) o).
Proof. destruct o; intros ? H; (split; [exact H|constructor]). Qed.

Lemma keeps_prop v k : keeps P Q (prop (St := St) (Ev := Ev) v k).
Proof. unfold prop. destruct (JS.get v k); intros ? H; (split; [exact H|constructor]). Qed.

Lemma keeps_element v i : keeps P Q (element (St := St) (Ev := Ev) v i).
Proof. destruct v; intros ? H; (split; [exact H|constructor]). Qed.

Lemma keeps_length_of v : keeps P Q (length_of (St := St) (Ev := Ev) v).
Proof. destruct v; intros ? H; (split; [exact H|constructor]). Qed.

Lemma keeps_update (f : St -> St) :
  (forall s, P s -> P (f s)) -> keeps P Q (update (Ev := Ev) f).
Proof. intros Hf s H. split; [apply Hf; exact H|constructor]. Qed.

Lemma keeps_bind {A B} (m : M St Ev A) (k : A -> M St Ev B) :
  keeps P Q m -> (forall a, keeps P Q (k a)) -> keeps P Q (bind m k).
Proof.
  intros Hm Hk s H. unfold bind, final, trace. destruct (Hm s H) as [H1 H2].
  unfold final, trace in H1, H2.
  destruct (m s) as [[[a| e |] s1] t1]; cbn in *; try (split; assumption).
  destruct (Hk a s1 H1) as [H3 H4]. unfold final, trace in H3, H4.
  destruct (k a s1) as [[r s2] t2]. cbn in *.
  split; [exact H3|apply Forall_app; split; assumption].
Qed.

(** A method that reads the state: what follows may rely on [P] of it. *)
Lemma keeps_this {B} (k : St -> M St Ev B) :
  (forall s, P s -> keeps P Q (k s)) -> keeps P Q (bind this k).
Proof.
  intros Hk s H. unfold bind, this, final, trace.
  destruct (Hk s H s H) as [H1 H2]. unfold final, trace in H1, H2.
  destruct (k s s) as [[r s2] t2]. cbn in *. split; assumption.
Qed.

Lemma keeps_for_each {A} (l : list A) (body : A -> M St Ev unit) :
  (forall x, keeps P Q (body x)) -> keeps P Q (for_each l body).
Proof.
  intros H. induction l as [|x l IH]; cbn.
  - apply keeps_ret.
  - apply keeps_bind; [apply H | intros _; exact IH].
Qed.

End Keeps.

Lemma nth_error_replace_Forall {A} (R : A -> Prop) i x (l : list A) :
  Forall R l -> R x -> Forall R (replace i x l).
Proof.
  intros Hl Hx. revert i. induction Hl as [|y l Hy Hl IH]; intros [|i]; cbn;
    constructor; auto.
Qed.

(** A method of one client, called from the node: it keeps what holds of
    every client when it keeps it of the one. *)
Lemma keeps_on_nth {St C A} (R : C -> Prop) (Q : node_effect -> Prop)
  (get : St -> list C) (set : list C -> St -> St) (i : nat) (m : M C effect A) :
  (forall l s, get (set l s) = l) ->
  keeps R (fun e => Q (OfClient i e)) m ->
  keeps (fun s => Forall R (get s)) Q (on_nth get set i m).
Proof.
  intros Hget Hm s H. unfold on_nth, final, trace.
  destruct (nth_error (get s) i) as [c|] eqn:Hc; [|split; [exact H|constructor]].
  assert (Rc : R c) by (rewrite Forall_forall in H; apply H; eapply nth_error_In; exact Hc).
  destruct (Hm c Rc) as [H1 H2]. unfold final, trace in H1, H2.
  destruct (m c) as [[out c'] tr]. cbn in *. split.
  - rewrite Hget. apply nth_error_replace_Forall; assumption.
  - apply Forall_map. exact H2.
Qed.

Ltac keeps_step :=
  first
    [ apply keeps_ret | apply keeps_read | apply keeps_throw | apply keeps_unmodelled
    | apply keeps_modelled | apply keeps_prop | apply keeps_element
    | apply keeps_length_of
    | apply keeps_bind; [| intros ?]
    | apply keeps_for_each; intros ?
    | match goal with
      | |- keeps _ _ (if ?b then _ else _) => destruct b eqn:?
      | |- keeps _ _ (match ?x with _ => _ end) => destruct x eqn:?
      end ].

(** A method of one client, called from the node: it keeps what the list of
    clients has no part in. *)
Lemma keeps_on_nth_frame {St C A} (P : St -> Prop) (Q : node_effect -> Prop)
  (get : St -> list C) (set : list C -> St -> St) (i : nat) (m : M C effect A) :
  (forall l s, P s -> P (set l s)) ->
  emits_only (fun e => Q (OfClient i e)) m ->
  keeps P Q (on_nth get set i m).
Proof.
  intros Hset Hm s H. unfold on_nth, final, trace.
  destruct (nth_error (get s) i) as [c|]; [|split; [exact H|constructor]].
  specialize (Hm c). unfold trace in Hm.
  destruct (m c) as [[out c'] tr]. cbn in *. split.
  - apply Hset. exact H.
  - apply Forall_map. exact Hm.
Qed.

(** A bind whose first part returns a value that [R] holds of. *)
Lemma keeps_bind_with {St Ev A B} (P : St -> Prop) (Q : Ev -> Prop) (R : A -> Prop)
  (m : M St Ev A) (k : A -> M St Ev B) :
  keeps P Q m -> (forall s a, result (m s) = Returned a -> R a) ->
  (forall a, R a -> keeps P Q (k a)) -> keeps P Q (bind m k).
Proof.
  intros Hm HR Hk s H. unfold bind, final, trace. destruct (Hm s H) as [H1 H2].
  specialize (HR s). unfold final, trace, result in H1, H2, HR.
  destruct (m s) as [[[a| e |] s1] t1]; cbn in *; try (split; assumption).
  destruct (Hk a (HR a eq_refl) s1 H1) as [H3 H4]. unfold final, trace in H3, H4.
  destruct (k a s1) as [[r s2] t2]. cbn in *.
  split; [exact H3|apply Forall_app; split; assumption].
Qed.

(* ================================================================== *)
(** * The JSON codec: what is written is read back *)
(* ================================================================== *)

(** ** Strings: what [escape] writes, [string_chars] reads back *)

Lemma string_chars_escape (s rest : string) :
  JS.string_chars (JS.escape s ++ String "034"%char rest) = Some (s, rest).
Proof.
  induction s as [|c s IH]; [reflexivity|].
  destruct c as [[] [] [] [] [] [] [] []];
    cbn -[JS.string_chars]; cbn [JS.string_chars]; rewrite ?IH; try reflexivity.
Qed.

(** ** Numbers: a literal of the grammar is read whole *)

Lemma append_assoc (a b c : string) : (a ++ b) ++ c = a ++ (b ++ c).
Proof. induction a as [|x a IH]; [reflexivity|]. cbn. rewrite IH. reflexivity. Qed.

Lemma append_empty (a : string) : a ++ "" = a.
Proof. induction a as [|x a IH]; [reflexivity|]. cbn. rewrite IH. reflexivity. Qed.

Lemma span_digits_spec s :
  let '(d, r) := JS.span_digits s in
  s = d ++ r /\ all_digits d = true /\ no_digit_head r = true.
Proof.
  induction s as [|c s IH]; cbn; [repeat split|].
  destruct (JS.digit c) as [n|] eqn:Hc.
  - destruct (JS.span_digits s) as [d r]. destruct IH as [-> [Hd Hr]].
    cbn. unfold is_digit. rewrite Hc. repeat split; assumption.
  - cbn. unfold is_digit. rewrite Hc. repeat split.
Qed.

Lemma span_digits_app d rest :
  all_digits d = true -> no_digit_head rest = true ->
  JS.span_digits (d ++ rest) = (d, rest).
Proof.
  intros Hd Hr. induction d as [|c d IH]; cbn in *.
  - destruct rest as [|c r]; [reflexivity|]. cbn in *. unfold is_digit in Hr.
    destruct (JS.digit c); [discriminate|reflexivity].
  - apply andb_true_iff in Hd. destruct Hd as [Hc Hd]. unfold is_digit in Hc.
    destruct (JS.digit c); [|discriminate]. rewrite (IH Hd). reflexivity.
Qed.

Lemma sign_spec s :
  fst (JS.sign s) = "" \/ fst (JS.sign s) = "-".
Proof.
  destruct s as [|c s]; [left; reflexivity|].
  destruct c as [[] [] [] [] [] [] [] []]; cbn; auto.
Qed.

Lemma sign_text s : s = fst (JS.sign s) ++ snd (JS.sign s).
Proof.
  destruct s as [|c s]; [reflexivity|].
  destruct c as [[] [] [] [] [] [] [] []]; reflexivity.
Qed.

Lemma fraction_text s fr r : JS.fraction s = Some (fr, r) -> s = fr ++ r.
Proof.
  destruct s as [|c s]; [intros H; inversion H; reflexivity|].
  destruct c as [[] [] [] [] [] [] [] []]; cbn;
    try (intros H; inversion H; reflexivity).
  pose proof (span_digits_spec s) as Hf.
  destruct (JS.span_digits s) as [f r']. destruct Hf as [-> _].
  destruct f; [discriminate|]. intros H. inversion H; subst. reflexivity.
Qed.

Lemma exponent_sign_text s :
  s = fst (JS.exponent_sign s) ++ snd (JS.exponent_sign s).
Proof.
  destruct s as [|c s]; [reflexivity|].
  destruct c as [[] [] [] [] [] [] [] []]; reflexivity.
Qed.

Lemma exponent_text s ex r : JS.exponent s = Some (ex, r) -> s = ex ++ r.
Proof.
  destruct s as [|c s]; [intros H; inversion H; reflexivity|].
  unfold JS.exponent.
  destruct (Ascii.eqb c "e" || Ascii.eqb c "E")%bool;
    [|intros H; inversion H; reflexivity].
  pose proof (exponent_sign_text s) as Hsg.
  destruct (JS.exponent_sign s) as [sg r1]. cbn [fst snd] in Hsg.
  pose proof (span_digits_spec r1) as He.
  destruct (JS.span_digits r1) as [e r2]. destruct He as [-> _].
  destruct e as [|a e]; [discriminate|]. intros H. inversion H; subst.
  cbn [append]. rewrite append_assoc. reflexivity.
Qed.

Lemma fraction_spec s fr r :
  JS.fraction s = Some (fr, r) ->
  fr = "" \/ (exists f, fr = String "."%char f /\ all_digits f = true /\ nonempty f = true).
Proof.
  destruct s as [|c s]; [intros H; inversion H; auto|].
  destruct c as [[] [] [] [] [] [] [] []]; cbn; try (intros H; inversion H; auto; fail).
  pose proof (span_digits_spec s) as Hf.
  destruct (JS.span_digits s) as [f r']. destruct Hf as [_ [Hf _]].
  destruct f; [discriminate|]. intros H. inversion H; subst.
  right. eexists. repeat split. exact Hf.
Qed.

Lemma exponent_sign_spec s :
  fst (JS.exponent_sign s) = "" \/ fst (JS.exponent_sign s) = "-"
  \/ fst (JS.exponent_sign s) = "+".
Proof.
  destruct s as [|c s]; [left; reflexivity|].
  destruct c as [[] [] [] [] [] [] [] []]; cbn; auto.
Qed.

Lemma exponent_spec s ex r :
  JS.exponent s = Some (ex, r) ->
  ex = "" \/ (exists c sg e, ex = String c (sg ++ e)
                             /\ (c = "e"%char \/ c = "E"%char)
                             /\ (sg = "" \/ sg = "-" \/ sg = "+")
                             /\ all_digits e = true /\ nonempty e = true).
Proof.
  destruct s as [|c s]; [intros H; inversion H; auto|].
  unfold JS.exponent.
  destruct (Ascii.eqb c "e" || Ascii.eqb c "E")%bool eqn:Hc;
    [|intros H; inversion H; auto].
  pose proof (exponent_sign_spec s) as Hsg.
  destruct (JS.exponent_sign s) as [sg r1]. cbn in Hsg.
  pose proof (span_digits_spec r1) as He.
  destruct (JS.span_digits r1) as [e r2]. destruct He as [_ [He _]].
  destruct e as [|a e]; [discriminate|]. intros H. inversion H; subst.
  right. exists c, sg, (String a e). repeat split; try assumption.
  apply orb_true_iff in Hc. destruct Hc as [Hc|Hc]; apply Ascii.eqb_eq in Hc; auto.
Qed.

Lemma int_shape (A : Type) (i : string) (none body : A) :
  int_ok i = true ->
  match i with
  | EmptyString => none
  | String "0"%char (String _ _) => none
  | _ => body
  end = body.
Proof.
  unfold int_ok. intros H. apply andb_true_iff in H. destruct H as [_ H].
  destruct i as [|c [|t u]]; [discriminate| |];
    destruct c as [[] [] [] [] [] [] [] []]; try reflexivity; discriminate.
Qed.

Lemma int_shape_inv (A : Type) (i : string) (none body x : A) :
  all_digits i = true ->
  match i with
  | EmptyString => none
  | String "0"%char (String _ _) => none
  | _ => body
  end = x ->
  x <> none -> int_ok i = true /\ body = x.
Proof.
  intros Hd H Hx. unfold int_ok. rewrite Hd.
  destruct i as [|c [|t u]]; [congruence| |];
    destruct c as [[] [] [] [] [] [] [] []]; cbn; try (split; [reflexivity|exact H]);
    congruence.
Qed.

(** What [number] reads is a literal of the grammar at the head of the
    text, and the number is the one that the literal denotes. *)
Lemma number_reads_parts s v r :
  JS.number s = Some (v, r) ->
  exists sg i fr ex,
    v = JS.VNumber (JS.literal_value sg i fr ex)
    /\ s = (sg ++ i ++ fr ++ ex) ++ r
    /\ literal_parts sg i fr ex.
Proof.
  unfold JS.number. intros H.
  pose proof (sign_spec s) as Hsg. pose proof (sign_text s) as Hst.
  destruct (JS.sign s) as [sg s1]. cbn [fst snd] in Hsg, Hst.
  pose proof (span_digits_spec s1) as Hi.
  destruct (JS.span_digits s1) as [i s2]. destruct Hi as [Hit [Hi _]].
  apply (int_shape_inv _ i None _ _ Hi) in H; [|discriminate].
  destruct H as [Hint H].
  destruct (JS.fraction s2) as [[fr s3]|] eqn:Hfr; [|discriminate].
  destruct (JS.exponent s3) as [[ex s4]|] eqn:Hex; [|discriminate].
  inversion H; subst v r. exists sg, i, fr, ex.
  split; [reflexivity|]. split.
  - rewrite Hst, Hit, (fraction_text _ _ _ Hfr), (exponent_text _ _ _ Hex).
    rewrite !append_assoc. reflexivity.
  - split; [exact Hsg|]. split; [exact Hint|].
    split; [eapply fraction_spec; eassumption|eapply exponent_spec; eassumption].
Qed.

Lemma delimited_no_digit rest : delimited rest = true -> no_digit_head rest = true.
Proof.
  destruct rest as [|c r]; [reflexivity|]. cbn.
  destruct c as [[] [] [] [] [] [] [] []]; cbn; intros H; try discriminate; reflexivity.
Qed.

Lemma sign_of_digit c r : is_digit c = true -> JS.sign (String c r) = ("", String c r).
Proof.
  destruct c as [[] [] [] [] [] [] [] []]; cbn; intros H; try discriminate; reflexivity.
Qed.

Lemma exponent_sign_of_digit c r :
  is_digit c = true -> JS.exponent_sign (String c r) = ("", String c r).
Proof.
  destruct c as [[] [] [] [] [] [] [] []]; cbn; intros H; try discriminate; reflexivity.
Qed.

Lemma fraction_written f rest :
  all_digits f = true -> nonempty f = true -> no_digit_head rest = true ->
  JS.fraction (String "."%char (f ++ rest)) = Some (String "."%char f, rest).
Proof.
  intros Hf Hn Hr. cbn. rewrite (span_digits_app f rest Hf Hr).
  destruct f; [discriminate|reflexivity].
Qed.

Lemma fraction_absent_delimited rest :
  delimited rest = true -> JS.fraction rest = Some ("", rest).
Proof.
  destruct rest as [|c r]; [reflexivity|]. cbn.
  destruct c as [[] [] [] [] [] [] [] []]; cbn; intros H; try discriminate; reflexivity.
Qed.

Lemma fraction_absent_exponent c r :
  c = "e"%char \/ c = "E"%char -> JS.fraction (String c r) = Some ("", String c r).
Proof. intros [->| ->]; reflexivity. Qed.

Lemma exponent_absent rest :
  delimited rest = true -> JS.exponent rest = Some ("", rest).
Proof.
  destruct rest as [|c r]; [reflexivity|]. cbn.
  destruct c as [[] [] [] [] [] [] [] []]; cbn; intros H; try discriminate; reflexivity.
Qed.

Lemma exponent_written c sg e rest :
  c = "e"%char \/ c = "E"%char ->
  sg = "" \/ sg = "-" \/ sg = "+" ->
  all_digits e = true -> nonempty e = true -> no_digit_head rest = true ->
  JS.exponent (String c ((sg ++ e) ++ rest)) = Some (String c (sg ++ e), rest).
Proof.
  intros Hc Hsg He Hn Hr.
  assert (Hsign : JS.exponent_sign ((sg ++ e) ++ rest) = (sg, e ++ rest)).
  { destruct Hsg as [->|[->| ->]]; try reflexivity.
    destruct e as [|a e]; [discriminate|]. cbn in He.
    apply andb_true_iff in He. apply exponent_sign_of_digit. exact (proj1 He). }
  unfold JS.exponent.
  replace (Ascii.eqb c "e" || Ascii.eqb c "E")%bool with true
    by (destruct Hc as [->| ->]; reflexivity).
  rewrite Hsign, (span_digits_app e rest He Hr).
  destruct e; [discriminate|reflexivity].
Qed.

(** A literal of the grammar, followed by a delimiter, is read whole. *)
Lemma literal_parts_read sg i fr ex rest :
  literal_parts sg i fr ex -> delimited rest = true ->
  JS.number ((sg ++ i ++ fr ++ ex) ++ rest)
  = Some (JS.VNumber (JS.literal_value sg i fr ex), rest).
Proof.
  intros [Hsg [Hint [Hfr Hex]]] Hrest.
  pose proof (delimited_no_digit rest Hrest) as Hnd.
  assert (Hi : all_digits i = true /\ exists c i', i = String c i' /\ is_digit c = true).
  { unfold int_ok in Hint. apply andb_true_iff in Hint. destruct Hint as [Hd Hs].
    split; [exact Hd|]. destruct i as [|c i']; [discriminate|].
    exists c, i'. split; [reflexivity|]. cbn in Hd. apply andb_true_iff in Hd. tauto. }
  destruct Hi as [Hd [c [i' [Hi Hc]]]].
  (* what follows the exponent, the fraction, the integer *)
  assert (Hexp : JS.exponent (ex ++ rest) = Some (ex, rest)).
  { destruct Hex as [->|[c0 [s [e [-> [Hc0 [Hs [He Hn]]]]]]]].
    - apply exponent_absent. exact Hrest.
    - cbn [append]. apply exponent_written; assumption. }
  assert (Hex_head : no_digit_head (ex ++ rest) = true).
  { destruct Hex as [->|[c0 [s [e [-> [[->| ->] _]]]]]]; [exact Hnd|reflexivity|reflexivity]. }
  assert (Hfrac : JS.fraction (fr ++ ex ++ rest) = Some (fr, ex ++ rest)).
  { destruct Hfr as [->|[f [-> [Hf Hn]]]].
    - cbn [append].
      destruct Hex as [->|[c0 [s [e [-> [Hc0 _]]]]]].
      + apply fraction_absent_delimited. exact Hrest.
      + cbn [append]. apply fraction_absent_exponent. exact Hc0.
    - cbn [append]. apply fraction_written; assumption. }
  assert (Hfr_head : no_digit_head (fr ++ ex ++ rest) = true).
  { destruct Hfr as [->|[f [-> _]]]; [exact Hex_head|reflexivity]. }
  assert (Hsign : JS.sign ((sg ++ i ++ fr ++ ex) ++ rest) = (sg, i ++ fr ++ ex ++ rest)).
  { rewrite !append_assoc. destruct Hsg as [->| ->]; [|reflexivity].
    cbn [append]. subst i. cbn [append]. apply sign_of_digit. exact Hc. }
  unfold JS.number. rewrite Hsign.
  rewrite (span_digits_app i _ Hd Hfr_head).
  rewrite (int_shape _ i None _ Hint).
  rewrite Hfrac, Hexp. reflexivity.
Qed.

(** ** Objects: the order of the properties *)

Lemma goes_before_asym k k' : JS.goes_before k k' = true -> JS.goes_before k' k = false.
Proof.
  unfold JS.goes_before.
  destruct (JS.array_index k) as [n|], (JS.array_index k') as [n'|]; try discriminate;
    try reflexivity.
  intros H. apply N.ltb_lt in H. apply N.ltb_ge. lia.
Qed.

Lemma goes_before_trans k k' b :
  JS.goes_before k k' = true -> JS.goes_before b k' = false -> JS.goes_before b k = false.
Proof.
  unfold JS.goes_before.
  destruct (JS.array_index k) as [n|], (JS.array_index k') as [n'|],
           (JS.array_index b) as [m|]; try discriminate; try reflexivity.
  intros H1 H2. apply N.ltb_lt in H1. apply N.ltb_ge in H2. apply N.ltb_ge. lia.
Qed.

Lemma has_key_app k l1 l2 :
  JS.has_key k (l1 ++ l2)%list = JS.has_key k l1 || JS.has_key k l2.
Proof. unfold JS.has_key. apply existsb_app. Qed.

Lemma has_key_set_prop k' k v l :
  JS.has_key k' (JS.set_prop k v l) = JS.has_key k' l || String.eqb k' k.
Proof.
  induction l as [|[k0 v0] l IH]; cbn.
  - rewrite orb_false_r. reflexivity.
  - destruct (String.eqb k k0) eqn:E.
    + apply String.eqb_eq in E. subst. cbn.
      destruct (String.eqb k' k0); cbn; [reflexivity|]. rewrite orb_false_r. reflexivity.
    + destruct (JS.goes_before k k0 && negb (JS.has_key k l)); cbn.
      * destruct (String.eqb k' k), (String.eqb k' k0); cbn;
          rewrite ?orb_true_r, ?orb_false_r; reflexivity.
      * fold (JS.has_key k' (JS.set_prop k v l)). rewrite IH.
        fold (JS.has_key k' l). rewrite orb_assoc. reflexivity.
Qed.

Lemma Forall_set_prop (P : string -> Prop) k v l :
  P k -> Forall (fun p => P (fst p)) l -> Forall (fun p => P (fst p)) (JS.set_prop k v l).
Proof.
  intros Hk. induction l as [|[k0 v0] l IH]; intros Hl; cbn.
  - constructor; [exact Hk|constructor].
  - inversion Hl as [|? ? H0 Hl']; subst.
    destruct (String.eqb k k0); [constructor; assumption|].
    destruct (JS.goes_before k k0 && negb (JS.has_key k l)).
    + constructor; [exact Hk|exact Hl].
    + constructor; [exact H0|apply IH; exact Hl'].
Qed.

Lemma has_key_Forall (P : string -> Prop) k l :
  JS.has_key k l = true -> Forall (fun p => P (fst p)) l -> P k.
Proof.
  unfold JS.has_key. intros H Hl. apply existsb_exists in H.
  destruct H as [p [Hin Hp]]. apply String.eqb_eq in Hp. subst k.
  rewrite Forall_forall in Hl. apply Hl. exact Hin.
Qed.

(** [set_prop] keeps the order. *)
Lemma set_prop_ordered k v l : ordered l -> ordered (JS.set_prop k v l).
Proof.
  intros H. induction H as [|k0 v0 l Hall Hno Hord IH]; cbn.
  - constructor; [constructor|reflexivity|constructor].
  - destruct (String.eqb k k0) eqn:E.
    + apply String.eqb_eq in E. subst. constructor; assumption.
    + destruct (JS.goes_before k k0) eqn:Hb; cbn [andb].
      * destruct (JS.has_key k l) eqn:Hk; cbn [negb].
        -- pose proof (has_key_Forall (fun x => JS.goes_before x k0 = false) k l Hk Hall).
           congruence.
        -- constructor.
           ++ constructor; [apply goes_before_asym; exact Hb|].
              eapply Forall_impl; [|exact Hall]. intros p Hp. cbn in *.
              eapply goes_before_trans; eassumption.
           ++ unfold JS.has_key in *. cbn. rewrite E. exact Hk.
           ++ constructor; assumption.
      * constructor.
        -- apply (Forall_set_prop (fun x => JS.goes_before x k0 = false)); assumption.
        -- rewrite has_key_set_prop, Hno. cbn. rewrite String.eqb_sym. exact E.
        -- exact IH.
Qed.

(** Setting, on an ordered list, the property that comes next in the order
    appends it. *)
Lemma set_prop_last acc k v :
  ordered (acc ++ [(k, v)])%list -> JS.set_prop k v acc = (acc ++ [(k, v)])%list.
Proof.
  induction acc as [|[k0 v0] acc IH]; intros H; [reflexivity|].
  cbn in *. inversion H as [|? ? ? Hall Hno Hord]; subst.
  rewrite has_key_app in Hno. apply orb_false_iff in Hno. destruct Hno as [_ Hno].
  cbn in Hno. rewrite orb_false_r in Hno. rewrite String.eqb_sym, Hno.
  apply Forall_app in Hall. destruct Hall as [_ Hall]. inversion Hall; subst. cbn in *.
  match goal with Hg : JS.goes_before k k0 = false |- _ => rewrite Hg end.
  cbn. rewrite IH; [reflexivity|exact Hord].
Qed.

Lemma ordered_app_l l1 l2 : ordered (l1 ++ l2)%list -> ordered l1.
Proof.
  induction l1 as [|[k v] l1 IH]; intros H; [constructor|].
  cbn in H. inversion H as [|? ? ? Hall Hno Hord]; subst.
  apply Forall_app in Hall. rewrite has_key_app in Hno. apply orb_false_iff in Hno.
  constructor; [tauto|tauto|apply IH; exact Hord].
Qed.

(** Induction on a document, with the hypothesis for every element and
    every property. *)
Lemma document_induction (P : JS.value -> Prop) :
  P JS.VNull ->
  (forall b, P (JS.VBool b)) ->
  (forall n, read_back n -> P (JS.VNumber n)) ->
  (forall s, P (JS.VString s)) ->
  (forall l, Forall document l -> Forall P l -> P (JS.VArray l)) ->
  (forall ps, ordered ps -> Forall (fun p => document (snd p)) ps ->
              Forall (fun p => P (snd p)) ps -> P (JS.VObject ps)) ->
  forall v, document v -> P v.
Proof.
  intros HN HB Hn HS HA HO. fix IH 2. intros v H.
  destruct H as [|b|n Hread|s|l Hl|ps Hord Hps].
  - exact HN.
  - apply HB.
  - apply Hn. exact Hread.
  - apply HS.
  - apply HA; [exact Hl|].
    induction Hl as [|x l Hx Hl IHl]; [constructor|].
    constructor; [apply IH; exact Hx|exact IHl].
  - apply HO; [exact Hord|exact Hps|].
    clear Hord. induction Hps as [|p ps Hp Hps IHps]; [constructor|].
    constructor; [apply IH; exact Hp|exact IHps].
Qed.

Lemma literal_parts_head sg i fr ex :
  literal_parts sg i fr ex ->
  exists c t, sg ++ i ++ fr ++ ex = String c t /\ (c = "-"%char \/ is_digit c = true).
Proof.
  intros [Hsg [Hint _]].
  destruct Hsg as [->| ->]; cbn [append].
  - unfold int_ok in Hint. apply andb_true_iff in Hint. destruct Hint as [Hd Hs].
    destruct i as [|c i]; [discriminate Hs|]. cbn in Hd. apply andb_true_iff in Hd.
    exists c. eexists. split; [reflexivity|]. right. tauto.
  - eexists _, _. split; [reflexivity|]. left. reflexivity.
Qed.

(** A number that is read back: its text is a literal of the grammar, it is
    the text [to_json] writes, and followed by a delimiter it is read whole. *)
Lemma read_back_text n :
  read_back n ->
  JS.to_json (JS.VNumber n) = JS.number_text n
  /\ (exists c t, JS.number_text n = String c t
                  /\ (c = "-"%char \/ is_digit c = true))
  /\ (forall rest, delimited rest = true ->
                   JS.number (JS.number_text n ++ rest) = Some (JS.VNumber n, rest)).
Proof.
  unfold read_back. intros H.
  destruct (number_reads_parts _ _ _ H) as [sg [i [fr [ex [Hv [Ht Hp]]]]]].
  rewrite append_empty in Ht. split; [|split].
  - destruct n as [neg m e|[|]]; [destruct m; reflexivity| |]; discriminate H.
  - rewrite Ht. apply literal_parts_head. exact Hp.
  - intros rest Hrest. rewrite Ht, Hv. apply literal_parts_read; assumption.
Qed.

Lemma to_json_head v :
  document v -> exists c t, JS.to_json v = String c t /\ starts_value c = true.
Proof.
  intros H. destruct H as [|[]|n Hread|s|l Hl|ps Hord Hps];
    try (eexists _, _; split; [reflexivity|reflexivity]).
  destruct (read_back_text n Hread) as [E [[c [t [Et Hc]]] _]].
  exists c, t. split; [rewrite E; exact Et|]. unfold starts_value.
  destruct Hc as [->|Hc]; [reflexivity|]. rewrite Hc. reflexivity.
Qed.

Lemma length_append (a b : string) :
  String.length (a ++ b) = String.length a + String.length b.
Proof. induction a as [|c a IH]; [reflexivity|]. cbn. rewrite IH. reflexivity. Qed.

(** A number literal at the head of the text is read by [number]. *)
Lemma parse_value_number fuel c t :
  c = "-"%char \/ is_digit c = true ->
  JS.parse_value (S fuel) (String c t) = JS.number (String c t).
Proof.
  intros [->|H]; [reflexivity|].
  destruct c as [[] [] [] [] [] [] [] []]; try discriminate H; reflexivity.
Qed.

Lemma parse_value_scalar v fuel rest :
  match v with JS.VArray _ | JS.VObject _ => False | _ => True end ->
  document v -> delimited rest = true ->
  JS.parse_value (S fuel) (JS.to_json v ++ rest) = Some (v, rest).
Proof.
  intros Hv H Hrest. destruct H as [|[]|n Hread|s|l Hl|ps Hord Hps];
    try contradiction; try reflexivity.
  - destruct (read_back_text n Hread) as [E [[c [t [Et Hc]]] Hn]].
    specialize (Hn rest Hrest). rewrite E.
    rewrite Et in *. cbn [append] in *. rewrite parse_value_number; assumption.
  - cbn [JS.to_json]. unfold JS.quote. cbn [append]. rewrite append_assoc. cbn [append].
    cbn [JS.parse_value JS.skip_ws JS.is_ws]. rewrite string_chars_escape. reflexivity.
Qed.

(** ** Arrays *)

Lemma parse_value_array fuel r :
  JS.parse_value (S fuel) (String "["%char r)
  = match JS.skip_ws r with
    | String "]"%char r' => Some (JS.VArray [], r')
    | _ =>
        match JS.parse_elements fuel r with
        | Some (vs, r') => Some (JS.VArray vs, r')
        | None => None
        end
    end.
Proof. reflexivity. Qed.

Lemma parse_value_elements fuel c t :
  starts_value c = true ->
  JS.parse_value (S fuel) (String "["%char (String c t))
  = match JS.parse_elements fuel (String c t) with
    | Some (vs, r') => Some (JS.VArray vs, r')
    | None => None
    end.
Proof.
  intros H. rewrite parse_value_array.
  destruct c as [[] [] [] [] [] [] [] []]; try discriminate H; reflexivity.
Qed.

Lemma parse_elements_step fuel s :
  JS.parse_elements (S fuel) s
  = match JS.parse_value fuel s with
    | Some (v, r) =>
        match JS.skip_ws r with
        | String ","%char r' =>
            match JS.parse_elements fuel r' with
            | Some (vs, r'') => Some (v :: vs, r'')
            | None => None
            end
        | String "]"%char r' => Some ([v], r')
        | _ => None
        end
    | None => None
    end.
Proof. reflexivity. Qed.

Lemma parse_elements_items l :
  l <> [] -> Forall reads_back l ->
  forall fuel rest,
    sizes size l <= fuel ->
    JS.parse_elements fuel (JS.items JS.to_json l ++ String "]"%char rest) = Some (l, rest).
Proof.
  induction l as [|x l IH]; intros Hne Hall fuel rest Hfuel; [congruence|].
  inversion Hall as [|? ? Hx Hl]; subst.
  cbn [sizes] in Hfuel. destruct fuel as [|fuel]; [lia|].
  rewrite parse_elements_step.
  destruct l as [|y l].
  - cbn [JS.items]. rewrite (Hx fuel (String "]"%char rest)); [|lia|reflexivity].
    reflexivity.
  - change (JS.items JS.to_json (x :: y :: l))
      with (JS.to_json x ++ String ","%char (JS.items JS.to_json (y :: l))).
    rewrite append_assoc. cbn [append].
    rewrite (Hx fuel); [|lia|reflexivity].
    cbn [JS.skip_ws JS.is_ws].
    rewrite (IH ltac:(discriminate) Hl fuel rest); [reflexivity|].
    cbn [sizes] in *. lia.
Qed.

(** ** Objects *)

Lemma parse_value_object fuel r :
  JS.parse_value (S fuel) (String "{"%char r)
  = match JS.skip_ws r with
    | String "}"%char r' => Some (JS.VObject [], r')
    | _ =>
        match JS.parse_members fuel r [] with
        | Some (ps, r') => Some (JS.VObject ps, r')
        | None => None
        end
    end.
Proof. reflexivity. Qed.

Lemma parse_members_step fuel s acc :
  JS.parse_members (S fuel) s acc
  = match JS.skip_ws s with
    | String "034"%char r =>
        match JS.string_chars r with
        | Some (k, r1) =>
            match JS.skip_ws r1 with
            | String ":"%char r2 =>
                match JS.parse_value fuel r2 with
                | Some (v, r3) =>
                    match JS.skip_ws r3 with
                    | String ","%char r4 => JS.parse_members fuel r4 (JS.set_prop k v acc)
                    | String "}"%char r4 => Some (JS.set_prop k v acc, r4)
                    | _ => None
                    end
                | None => None
                end
            | _ => None
            end
        | None => None
        end
    | _ => None
    end.
Proof. reflexivity. Qed.

Lemma members_cons first k x l :
  document x ->
  JS.members JS.to_json first ((k, x) :: l)
  = (if first then "" else ",") ++ member_text (k, x) ++ JS.members JS.to_json false l.
Proof.
  intros Hx. unfold member_text. cbn [fst snd].
  destruct Hx; cbn [JS.members]; rewrite ?append_assoc; cbn [append];
    rewrite ?append_assoc; reflexivity.
Qed.

Lemma parse_members_text l :
  Forall (fun p => document (snd p) /\ reads_back (snd p)) l ->
  forall p acc fuel rest,
    document (snd p) -> reads_back (snd p) ->
    ordered (acc ++ p :: l)%list ->
    member_sizes size (p :: l) <= fuel ->
    JS.parse_members fuel
      (member_text p ++ JS.members JS.to_json false l ++ String "}"%char rest) acc
    = Some ((acc ++ p :: l)%list, rest).
Proof.
  intros Hall. induction Hall as [|[k' x'] l [Hd' Hx'] Hall IH];
    intros [k x] acc fuel rest Hd Hx Hord Hfuel; cbn [fst snd] in *.
  - cbn [member_sizes] in Hfuel. destruct fuel as [|fuel]; [lia|].
    rewrite parse_members_step. unfold member_text, JS.quote.
    cbn [fst snd append JS.members].
    rewrite !append_assoc. cbn [append JS.skip_ws JS.is_ws].
    rewrite string_chars_escape. cbn [JS.skip_ws JS.is_ws].
    rewrite (Hx fuel (String "}"%char rest)); [|lia|reflexivity].
    cbn [JS.skip_ws JS.is_ws]. rewrite (set_prop_last acc k x Hord). reflexivity.
  - cbn [member_sizes] in Hfuel. destruct fuel as [|fuel]; [lia|].
    rewrite parse_members_step. unfold member_text at 1, JS.quote. cbn [fst snd append].
    rewrite !append_assoc. cbn [append JS.skip_ws JS.is_ws].
    rewrite string_chars_escape. cbn [JS.skip_ws JS.is_ws].
    rewrite (members_cons false k' x' l Hd'). cbn [append]. rewrite !append_assoc.
    cbn [append].
    rewrite (Hx fuel); [|lia|reflexivity].
    cbn [JS.skip_ws JS.is_ws].
    assert (Hacc : ordered ((acc ++ [(k, x)]) ++ (k', x') :: l)%list)
      by (rewrite <- app_assoc; exact Hord).
    rewrite (set_prop_last acc k x (ordered_app_l _ _ Hacc)).
    rewrite (IH (k', x') (acc ++ [(k, x)])%list fuel rest Hd' Hx' Hacc).
    + rewrite <- app_assoc. reflexivity.
    + cbn [member_sizes] in *. lia.
Qed.

(** ** The round trip *)

Lemma items_head x l rest :
  document x ->
  exists c t,
    JS.items JS.to_json (x :: l) ++ String "]"%char rest = String c t
    /\ starts_value c = true.
Proof.
  intros Hx. destruct (to_json_head x Hx) as [c [t [E Hc]]].
  destruct l as [|y l].
  - cbn [JS.items]. rewrite E. cbn [append]. eexists _, _. split; [reflexivity|exact Hc].
  - change (JS.items JS.to_json (x :: y :: l))
      with (JS.to_json x ++ String ","%char (JS.items JS.to_json (y :: l))).
    rewrite E. cbn [append]. eexists _, _. split; [reflexivity|exact Hc].
Qed.

Lemma to_json_reads_back v : document v -> reads_back v.
Proof.
  intros H. induction H using document_induction; intros fuel rest Hfuel Hrest.
  - destruct fuel as [|fuel]; [cbn in Hfuel; lia|].
    apply parse_value_scalar; [exact I|constructor|exact Hrest].
  - destruct fuel as [|fuel]; [cbn in Hfuel; lia|].
    apply parse_value_scalar; [exact I|constructor|exact Hrest].
  - destruct fuel as [|fuel]; [cbn in Hfuel; lia|].
    apply parse_value_scalar; [exact I|constructor; assumption|exact Hrest].
  - destruct fuel as [|fuel]; [cbn in Hfuel; lia|].
    apply parse_value_scalar; [exact I|constructor|exact Hrest].
  - cbn [size] in Hfuel. destruct fuel as [|fuel]; [lia|].
    cbn [JS.to_json append]. rewrite append_assoc. cbn [append].
    destruct l as [|x l]; [reflexivity|].
    match goal with Hd : Forall document (x :: l) |- _ =>
      inversion Hd as [|? ? Hx Hl]; subst end.
    destruct (items_head x l rest Hx) as [c [t [E Hc]]].
    rewrite E, (parse_value_elements fuel c t Hc), <- E.
    rewrite parse_elements_items; [reflexivity|discriminate|assumption|lia].
  - cbn [size] in Hfuel. destruct fuel as [|fuel]; [lia|].
    cbn [JS.to_json append]. rewrite append_assoc. cbn [append].
    destruct ps as [|[k x] ps]; [reflexivity|].
    match goal with
    | Hd : Forall (fun p => document (snd p)) ((k, x) :: ps),
      Hr : Forall (fun p => reads_back (snd p)) ((k, x) :: ps) |- _ =>
        inversion Hd as [|? ? Hx Hl]; inversion Hr as [|? ? Hrx Hrl]; subst
    end.
    cbn [snd] in *.
    rewrite (members_cons true k x ps Hx). cbn [append].
    rewrite parse_value_object.
    assert (Hall : Forall (fun p => document (snd p) /\ reads_back (snd p)) ps).
    { clear - Hl Hrl. induction Hl as [|p ps Hp Hl IH]; [constructor|].
      inversion Hrl; subst. constructor; [split; assumption|apply IH; assumption]. }
    pose proof (parse_members_text ps Hall (k, x) [] fuel rest Hx Hrx) as Hm.
    cbn [app fst snd] in Hm.
    unfold member_text, JS.quote in *. cbn [fst snd append] in *.
    rewrite !append_assoc in Hm. cbn [append] in Hm.
    rewrite !append_assoc. cbn [append JS.skip_ws JS.is_ws].
    rewrite Hm; [reflexivity|assumption|lia].
Qed.

(** ** The fuel of [JSON_parse] is enough *)

Lemma sizes_bound l :
  Forall (fun x => size x <= 2 * String.length (JS.to_json x)) l ->
  sizes size l <= 2 * String.length (JS.items JS.to_json l) + 2.
Proof.
  induction l as [|x l IH]; intros H; [cbn; lia|].
  inversion H as [|? ? Hx Hl]; subst. specialize (IH Hl).
  destruct l as [|y l].
  - cbn [sizes JS.items]. lia.
  - change (JS.items JS.to_json (x :: y :: l))
      with (JS.to_json x ++ String ","%char (JS.items JS.to_json (y :: l))).
    rewrite length_append. cbn [String.length]. cbn [sizes] in *. lia.
Qed.

Lemma member_sizes_bound first ps :
  Forall (fun p => document (snd p)) ps ->
  Forall (fun p => size (snd p) <= 2 * String.length (JS.to_json (snd p))) ps ->
  member_sizes size ps <= 2 * String.length (JS.members JS.to_json first ps) + 2.
Proof.
  intros Hd. revert first. induction Hd as [|[k x] ps Hx Hd IH]; intros first H;
    [cbn; lia|].
  inversion H as [|? ? Hs Hl]; subst. specialize (IH false Hl). cbn [snd] in *.
  rewrite (members_cons first k x ps Hx). unfold member_text, JS.quote. cbn [fst snd].
  rewrite !length_append. cbn [String.length]. rewrite !length_append.
  cbn [String.length member_sizes]. lia.
Qed.

Lemma size_bound v : document v -> size v <= 2 * String.length (JS.to_json v).
Proof.
  intros H. induction H using document_induction.
  - cbn. lia.
  - destruct b; cbn; lia.
  - match goal with Hl : read_back _ |- _ =>
      destruct (read_back_text _ Hl) as [E [[c [t [Et _]]] _]] end.
    rewrite E, Et. cbn. lia.
  - cbn [size JS.to_json]. unfold JS.quote. cbn [String.length]. lia.
  - cbn [size JS.to_json]. cbn [append String.length]. rewrite length_append.
    cbn [String.length].
    match goal with Hs : Forall (fun x => size x <= _) _ |- _ =>
      pose proof (sizes_bound _ Hs) end.
    lia.
  - cbn [size JS.to_json]. cbn [append String.length]. rewrite length_append.
    cbn [String.length].
    match goal with
    | Hd : Forall (fun p => document (snd p)) _,
      Hs : Forall (fun p => size (snd p) <= _) _ |- _ =>
        pose proof (member_sizes_bound true _ Hd Hs)
    end.
    lia.
Qed.

(** [JSON.parse] reads a document back from the text [JSON.stringify] writes. *)
Lemma JSON_parse_stringify v :
  document v -> JS.JSON_parse (JS.JSON_stringify v) = Some v.
Proof.
  intros H. unfold JS.JSON_parse, JS.JSON_stringify.
  pose proof (to_json_reads_back v H (2 * String.length (JS.to_json v) + 2) "") as Hr.
  rewrite append_empty in Hr. rewrite Hr; [reflexivity| |reflexivity].
  pose proof (size_bound v H). lia.
Qed.

(** ** Numbers: an integer below [2 ^ 53] is read back *)

Lemma odd_part_value p e :
  (Zpos (fst (JS.odd_part p e)) * 2 ^ (snd (JS.odd_part p e) - e) = Zpos p
   /\ e <= snd (JS.odd_part p e))%Z.
Proof.
  revert e. induction p as [p IH|p IH|]; intros e; cbn [JS.odd_part fst snd].
  - rewrite Z.sub_diag. split; lia.
  - destruct (IH (e + 1)%Z) as [H1 H2]. split; [|lia].
    replace (snd (JS.odd_part p (e + 1)) - e)%Z
      with (1 + (snd (JS.odd_part p (e + 1)) - (e + 1)))%Z by lia.
    rewrite Z.pow_add_r by lia. change (2 ^ 1)%Z with 2%Z. lia.
  - rewrite Z.sub_diag. split; lia.
Qed.

Lemma number_text_integer negative p :
  (Zpos p < 2 ^ 53)%Z ->
  JS.number_text (JS.finite negative (Npos p) 0)
  = (if negative then "-" else "") ++ JS.decimal (Zpos p).
Proof.
  intros Hp. unfold JS.finite.
  pose proof (odd_part_value p 0) as [Hv He].
  destruct (JS.odd_part p 0) as [p' e']. cbn [fst snd] in Hv, He.
  rewrite Z.sub_0_r in Hv. unfold JS.number_text.
  replace (0 <=? e')%Z with true by (symmetry; apply Z.leb_le; exact He).
  rewrite Hv. replace (Zpos p <? 2 ^ 53)%Z with true by (symmetry; apply Z.ltb_lt; exact Hp).
  reflexivity.
Qed.

Lemma digit_of_digit_char d :
  (0 <= d < 10)%Z -> JS.digit (JS.digit_char d) = Some (Z.to_N d).
Proof.
  intros H.
  assert (E : (d = 0 \/ d = 1 \/ d = 2 \/ d = 3 \/ d = 4 \/ d = 5 \/ d = 6
               \/ d = 7 \/ d = 8 \/ d = 9)%Z) by lia.
  repeat (destruct E as [->|E]; [reflexivity|]). subst. reflexivity.
Qed.

Lemma decimal_digits_step fuel n acc :
  JS.decimal_digits (S fuel) n acc
  = if (n <? 10)%Z then String (JS.digit_char (n mod 10)) acc
    else JS.decimal_digits fuel (n / 10) (String (JS.digit_char (n mod 10)) acc).
Proof. reflexivity. Qed.

(** The digits that [decimal_digits] puts before [acc]: they are digits, the
    first is no zero unless the number is zero, and they are read as [n]. *)
Lemma decimal_digits_read fuel n acc :
  (0 <= n < 10 ^ Z.of_nat (S fuel))%Z ->
  exists c ds,
    JS.decimal_digits (S fuel) n acc = String c ds ++ acc
    /\ all_digits (String c ds) = true
    /\ (0 < n -> c <> "0"%char)%Z
    /\ (n = 0 -> ds = "")%Z
    /\ forall a k rest,
         JS.digits a k (String c ds ++ rest)
         = JS.digits (a * 10 ^ N.of_nat (String.length (String c ds)) + Z.to_N n)%N
             (k + String.length (String c ds)) rest.
Proof.
  revert n acc. induction fuel as [|fuel IH]; intros n acc Hn;
    rewrite decimal_digits_step.
  all: assert (Hd : (0 <= n mod 10 < 10)%Z) by (apply Z.mod_pos_bound; lia).
  all: pose proof (digit_of_digit_char _ Hd) as Hdigit.
  all: destruct (n <? 10)%Z eqn:Hlt.
  all: try (apply Z.ltb_ge in Hlt; change (10 ^ Z.of_nat 1)%Z with 10%Z in Hn; lia).
  1,2: apply Z.ltb_lt in Hlt; rewrite Z.mod_small in * by lia;
    exists (JS.digit_char n), "";
    (split; [reflexivity|]);
    (split; [cbn; unfold is_digit; rewrite Hdigit; reflexivity|]);
    (split;
     [intros Hpos Hc;
      assert (E : JS.digit (JS.digit_char n) = JS.digit "0"%char) by (rewrite Hc; reflexivity);
      rewrite Hdigit in E; cbn in E; inversion E; lia|]);
    (split; [reflexivity|]);
    intros a k rest; cbn [append JS.digits String.length]; rewrite Hdigit;
    change (10 ^ N.of_nat 1)%N with 10%N; f_equal; lia.
  - apply Z.ltb_ge in Hlt.
    assert (Hq : (0 <= n / 10 < 10 ^ Z.of_nat (S fuel))%Z).
    { split; [apply Z.div_pos; lia|].
      apply Z.div_lt_upper_bound; [lia|].
      rewrite (Nat2Z.inj_succ (S fuel)), Z.pow_succ_r in Hn by lia. lia. }
    destruct (IH (n / 10)%Z (String (JS.digit_char (n mod 10)) acc) Hq)
      as [c [ds [Heq [Hall [Hhead [_ Hread]]]]]].
    exists c, (ds ++ String (JS.digit_char (n mod 10)) "").
    split.
    { rewrite Heq. cbn [append]. f_equal.
      rewrite append_assoc. reflexivity. }
    assert (Hlen : String.length (String c (ds ++ String (JS.digit_char (n mod 10)) ""))
                   = S (String.length (String c ds))).
    { cbn [String.length]. f_equal. clear. induction ds as [|x ds IHd]; cbn; [reflexivity|].
      f_equal. exact IHd. }
    split.
    { clear - Hall Hdigit. cbn [all_digits] in *. apply andb_true_iff in Hall.
      destruct Hall as [Hc Hds]. apply andb_true_iff. split; [exact Hc|].
      induction ds as [|x ds IHd]; cbn.
      - unfold is_digit. rewrite Hdigit. reflexivity.
      - cbn in Hds. apply andb_true_iff in Hds. destruct Hds as [Hx Hds].
        rewrite Hx. cbn. apply IHd. exact Hds. }
    split.
    { intros _. apply Hhead. assert (1 <= n / 10)%Z; [|lia].
      apply Z.div_le_lower_bound; lia. }
    split; [lia|].
    intros a k rest. rewrite Hlen.
    replace (String c (ds ++ String (JS.digit_char (n mod 10)) "") ++ rest)
      with (String c ds ++ String (JS.digit_char (n mod 10)) rest)
      by (cbn [append]; f_equal; rewrite append_assoc; reflexivity).
    rewrite Hread. cbn [JS.digits]. rewrite Hdigit.
    f_equal; [|lia].
    rewrite Nat2N.inj_succ, N.pow_succ_r by lia.
    assert (En : n = (10 * (n / 10) + n mod 10)%Z) by (apply Z.div_mod; lia).
    assert (H : (Z.to_N n = 10 * Z.to_N (n / 10) + Z.to_N (n mod 10))%N).
    { rewrite En at 1. rewrite Z2N.inj_add, Z2N.inj_mul by lia. reflexivity. }
    rewrite H. ring.
Qed.

Lemma decimal_read n :
  (0 <= n)%Z ->
  int_ok (JS.decimal n) = true /\ JS.digits_value (JS.decimal n) = n.
Proof.
  intros Hn. unfold JS.decimal.
  assert (Hb : (0 <= n < 10 ^ Z.of_nat (S (Z.to_nat (Z.log2 n))))%Z).
  { split; [exact Hn|].
    destruct (Z.eq_dec n 0) as [->|Hz]; [cbn; lia|].
    rewrite Nat2Z.inj_succ, Z2Nat.id by apply Z.log2_nonneg.
    apply Z.lt_le_trans with (2 ^ Z.succ (Z.log2 n))%Z.
    - apply Z.log2_spec. lia.
    - apply Z.pow_le_mono_l. pose proof (Z.log2_nonneg n). lia. }
  destruct (decimal_digits_read _ n "" Hb) as [c [ds [Heq [Hall [Hhead [Hzero Hread]]]]]].
  rewrite Heq, append_empty. split.
  - unfold int_ok. rewrite Hall. cbn [andb].
    destruct ds as [|c' ds']; [destruct c as [[] [] [] [] [] [] [] []]; reflexivity|].
    destruct (Z.eq_dec n 0) as [Hz|Hz]; [specialize (Hzero Hz); discriminate|].
    assert (Hc : c <> "0"%char) by (apply Hhead; lia).
    destruct c as [[] [] [] [] [] [] [] []]; try reflexivity. contradiction Hc. reflexivity.
  - unfold JS.digits_value.
    specialize (Hread 0%N 0 ""). rewrite append_empty in Hread. rewrite Hread.
    cbn [JS.digits]. rewrite N.mul_0_l, N.add_0_l. apply Z2N.id. exact Hn.
Qed.

(** An integer below [2 ^ 53], positive, negative or zero, is read back from
    the text written for it; the negative zero is not, it is written [0]. *)
Lemma safe_integer_reads_back negative z :
  (0 <= z < 2 ^ 53)%Z -> (negative = true -> 0 < z)%Z ->
  read_back (JS.finite negative (Z.to_N z) 0).
Proof.
  intros Hz Hneg. unfold read_back.
  destruct (decimal_read z (proj1 Hz)) as [Hint Hval].
  assert (Htext : JS.number_text (JS.finite negative (Z.to_N z) 0)
                  = (if negative then "-" else "") ++ JS.decimal z).
  { destruct (Z.eq_dec z 0) as [->|Hnz].
    - destruct negative; [specialize (Hneg eq_refl); lia|reflexivity].
    - destruct z as [|p|p]; try lia. cbn [Z.to_N]. apply number_text_integer. lia. }
  rewrite Htext.
  assert (Hparts : literal_parts (if negative then "-" else "") (JS.decimal z) "" "").
  { split; [destruct negative; auto|]. split; [exact Hint|]. split; left; reflexivity. }
  pose proof (literal_parts_read _ _ _ _ "" Hparts eq_refl) as Hread.
  rewrite !append_empty in Hread. rewrite Hread. f_equal. f_equal.
  unfold JS.literal_value. rewrite append_empty, Hval. cbn [String.length Z.of_nat Z.sub].
  unfold JS.decimal_to_binary64.
  destruct (Z.eq_dec z 0) as [->|Hnz].
  - destruct negative; [specialize (Hneg eq_refl); lia|reflexivity].
  - replace (z =? 0)%Z with false by (symmetry; apply Z.eqb_neq; exact Hnz).
    replace (z <? 2 ^ 53)%Z with true by (symmetry; apply Z.ltb_lt; lia).
    destruct negative; reflexivity.
Qed.

(** ** What the parser gives is a document, when its numbers are read back *)

Lemma numbers_read_back_array l :
  numbers_read_back (JS.VArray l) <-> Forall numbers_read_back l.
Proof.
  induction l as [|x l IH]; cbn.
  - split; [constructor|exact (fun _ => I)].
  - split.
    + intros [Hx Hl]. constructor; [exact Hx|apply IH; exact Hl].
    + intros H. inversion H; subst. split; [assumption|apply IH; assumption].
Qed.

Lemma numbers_read_back_object ps :
  numbers_read_back (JS.VObject ps) <-> Forall (fun p => numbers_read_back (snd p)) ps.
Proof.
  induction ps as [|[k x] ps IH]; cbn.
  - split; [constructor|exact (fun _ => I)].
  - split.
    + intros [Hx Hl]. constructor; [exact Hx|apply IH; exact Hl].
    + intros H. inversion H; subst. split; [assumption|apply IH; assumption].
Qed.

Lemma parsed_document v : parsed v -> numbers_read_back v -> document v.
Proof.
  revert v. fix IH 2. intros v H.
  destruct H as [|b|n|s|l Hl|ps Hord Hps]; intros Hn.
  - constructor.
  - constructor.
  - constructor. exact Hn.
  - constructor.
  - constructor. apply numbers_read_back_array in Hn.
    induction Hl as [|x l Hx Hl IHl]; [constructor|].
    inversion Hn; subst. constructor; [apply IH; assumption|apply IHl; assumption].
  - constructor; [exact Hord|]. apply numbers_read_back_object in Hn. clear Hord.
    induction Hps as [|p ps Hp Hps IHps]; [constructor|].
    inversion Hn; subst. constructor; [apply IH; assumption|apply IHps; assumption].
Qed.

Lemma document_numbers_read_back v : document v -> numbers_read_back v.
Proof.
  intros H. induction H using document_induction; try exact I.
  - assumption.
  - apply numbers_read_back_array. assumption.
  - apply numbers_read_back_object. assumption.
Qed.

Lemma keyword_parsed s v r : JS.keyword s = Some (v, r) -> parsed v.
Proof.
  unfold JS.keyword. intros H.
  destruct (JS.strip "null" s); [inversion H; constructor|].
  destruct (JS.strip "true" s); [inversion H; constructor|].
  destruct (JS.strip "false" s); [inversion H; constructor|discriminate].
Qed.

Lemma number_parsed s v r : JS.number s = Some (v, r) -> parsed v.
Proof.
  intros H. destruct (number_reads_parts s v r H) as [sg [i [fr [ex [-> _]]]]].
  constructor.
Qed.

Lemma Forall_set_prop_pairs (Q : string * JS.value -> Prop) k v l :
  Q (k, v) -> Forall Q l -> Forall Q (JS.set_prop k v l).
Proof.
  intros Hk. induction l as [|[k0 v0] l IH]; intros Hl; cbn.
  - constructor; [exact Hk|constructor].
  - inversion Hl as [|? ? H0 Hl']; subst.
    destruct (String.eqb k k0); [constructor; assumption|].
    destruct (JS.goes_before k k0 && negb (JS.has_key k l)).
    + constructor; [exact Hk|exact Hl].
    + constructor; [exact H0|apply IH; exact Hl'].
Qed.

Lemma array_read fuel t v r :
  match JS.skip_ws t with
  | String "]"%char r' => Some (JS.VArray [], r')
  | _ =>
      match JS.parse_elements fuel t with
      | Some (vs, r') => Some (JS.VArray vs, r')
      | None => None
      end
  end = Some (v, r) ->
  v = JS.VArray []
  \/ exists vs r', JS.parse_elements fuel t = Some (vs, r') /\ v = JS.VArray vs.
Proof.
  intros H. destruct (JS.skip_ws t) as [|c2 t2].
  - destruct (JS.parse_elements fuel t) as [[vs r']|]; [|discriminate].
    right. exists vs, r'. split; [reflexivity|]. inversion H. reflexivity.
  - destruct c2 as [[] [] [] [] [] [] [] []];
      try (destruct (JS.parse_elements fuel t) as [[vs r']|]; [|discriminate];
           right; exists vs, r'; split; [reflexivity|]; inversion H; reflexivity).
    left. inversion H. reflexivity.
Qed.

Lemma object_read fuel t v r :
  match JS.skip_ws t with
  | String "}"%char r' => Some (JS.VObject [], r')
  | _ =>
      match JS.parse_members fuel t [] with
      | Some (ps, r') => Some (JS.VObject ps, r')
      | None => None
      end
  end = Some (v, r) ->
  v = JS.VObject []
  \/ exists ps r', JS.parse_members fuel t [] = Some (ps, r') /\ v = JS.VObject ps.
Proof.
  intros H. destruct (JS.skip_ws t) as [|c2 t2].
  - destruct (JS.parse_members fuel t []) as [[ps r']|]; [|discriminate].
    right. exists ps, r'. split; [reflexivity|]. inversion H. reflexivity.
  - destruct c2 as [[] [] [] [] [] [] [] []];
      try (destruct (JS.parse_members fuel t []) as [[ps r']|]; [|discriminate];
           right; exists ps, r'; split; [reflexivity|]; inversion H; reflexivity).
    left. inversion H. reflexivity.
Qed.

Lemma string_read t v r :
  match JS.string_chars t with
  | Some (x, r') => Some (JS.VString x, r')
  | None => None
  end = Some (v, r) -> exists x, v = JS.VString x.
Proof.
  destruct (JS.string_chars t) as [[x r']|]; [|discriminate].
  intros H. inversion H. exists x. reflexivity.
Qed.

Lemma parser_gives_parsed fuel :
  (forall s v r, JS.parse_value fuel s = Some (v, r) -> parsed v)
  /\ (forall s vs r, JS.parse_elements fuel s = Some (vs, r) -> Forall parsed vs)
  /\ (forall s acc ps r,
        JS.parse_members fuel s acc = Some (ps, r) ->
        ordered acc -> Forall (fun p => parsed (snd p)) acc ->
        ordered ps /\ Forall (fun p => parsed (snd p)) ps).
Proof.
  induction fuel as [|fuel [IHv [IHe IHm]]];
    [split; [|split]; intros; discriminate|].
  split; [|split].
  - intros s v r H. cbn [JS.parse_value] in H.
    destruct (JS.keyword (JS.skip_ws s)) as [[v' r']|] eqn:Hk.
    { inversion H; subst. eapply keyword_parsed. exact Hk. }
    destruct (JS.skip_ws s) as [|c t]; [eapply number_parsed; exact H|].
    destruct c as [[] [] [] [] [] [] [] []];
      first
        [ eapply number_parsed; exact H
        | apply string_read in H; destruct H as [x ->]; constructor
        | apply array_read in H;
          destruct H as [->|[vs [r' [He ->]]]];
          [constructor; constructor|constructor; eapply IHe; exact He]
        | apply object_read in H;
          destruct H as [->|[ps [r' [Hm ->]]]];
          [constructor; constructor
          |destruct (IHm _ _ _ _ Hm ordered_nil (Forall_nil _)) as [Ho Hd];
           constructor; assumption] ].
  - intros s vs r H. rewrite parse_elements_step in H.
    destruct (JS.parse_value fuel s) as [[v r1]|] eqn:Hv; [|discriminate].
    apply IHv in Hv.
    destruct (JS.skip_ws r1) as [|c t]; [discriminate|].
    destruct c as [[] [] [] [] [] [] [] []];
      first
        [ discriminate
        | inversion H; subst; constructor; [exact Hv|constructor]
        | destruct (JS.parse_elements fuel t) as [[vs' r'']|] eqn:He; [|discriminate];
          inversion H; subst; constructor; [exact Hv|]; eapply IHe; exact He ].
  - intros s acc ps r H Hord Hacc. rewrite parse_members_step in H.
    destruct (JS.skip_ws s) as [|c t]; [discriminate|].
    destruct c as [[] [] [] [] [] [] [] []]; try discriminate.
    destruct (JS.string_chars t) as [[k r1]|]; [|discriminate].
    destruct (JS.skip_ws r1) as [|c1 r2]; [discriminate|].
    destruct c1 as [[] [] [] [] [] [] [] []]; try discriminate.
    destruct (JS.parse_value fuel r2) as [[v r3]|] eqn:Hv; [|discriminate].
    apply IHv in Hv.
    assert (Hord' : ordered (JS.set_prop k v acc)) by (apply set_prop_ordered; exact Hord).
    assert (Hacc' : Forall (fun p => parsed (snd p)) (JS.set_prop k v acc))
      by (apply Forall_set_prop_pairs; assumption).
    destruct (JS.skip_ws r3) as [|c3 r4]; [discriminate|].
    destruct c3 as [[] [] [] [] [] [] [] []];
      first
        [ discriminate
        | inversion H; subst; split; assumption
        | eapply IHm; eassumption ].
Qed.

Lemma JSON_parse_parsed raw v : JS.JSON_parse raw = Some v -> parsed v.
Proof.
  unfold JS.JSON_parse. intros H.
  destruct (JS.parse_value _ raw) as [[v' r]|] eqn:Hv; [|discriminate].
  destruct (JS.skip_ws r); [|discriminate]. inversion H; subst.
  eapply (proj1 (parser_gives_parsed _)). exact Hv.
Qed.

(** What [JSON.parse] gives is a document when every number in it is read
    back. *)
Lemma JSON_parse_document raw v :
  JS.JSON_parse raw = Some v -> numbers_read_back v -> document v.
Proof. intros H. apply parsed_document. apply (JSON_parse_parsed raw). exact H. Qed.

Lemma field_parsed props k d :
  Forall (fun p => parsed (snd p)) props -> parsed d -> parsed (JS.field props k d).
Proof.
  intros Hp Hd. unfold JS.field, JS.own, JS.nullish_or.
  induction Hp as [|[k' x] props Hx Hp IH]; cbn; [exact Hd|].
  destruct (String.eqb k k'); [|exact IH].
  cbn in Hx. destruct Hx; cbn; try exact Hd; constructor; assumption.
Qed.

(** A field of a message that was read, or its default, is a document when
    every number in it is read back. *)
Lemma field_of_parsed_document raw props k d :
  JS.JSON_parse raw = Some (JS.VObject props) -> parsed d ->
  numbers_read_back (JS.field props k d) -> document (JS.field props k d).
Proof.
  intros Hraw Hd. apply parsed_document.
  apply JSON_parse_parsed in Hraw. inversion Hraw; subst.
  apply field_parsed; assumption.
Qed.

(** The object of a message with credentials is in order. *)
Lemma four_fields_ordered a d i t :
  ordered [("action", a); ("data", d); ("id", i); ("token", t)].
Proof.
  repeat (constructor; [repeat (constructor; [reflexivity|]); constructor|reflexivity|]).
  constructor.
Qed.

(* ================================================================== *)
(** * The message codec *)
(* ================================================================== *)

Lemma SockRequest_new_object {St} raw props (s : St) :
  JS.JSON_parse raw = Some (JS.VObject props) ->
  SocketRouter.SockRequest.new raw s =
    (Returned {| SocketRouter.SockRequest.parseError := false;
                 SocketRouter.SockRequest.action := JS.field props "action" (JS.VString "");
                 SocketRouter.SockRequest.data := JS.field props "data" JS.VNull;
                 SocketRouter.SockRequest.id := JS.field props "id" (JS.VString "");
                 SocketRouter.SockRequest.token := JS.field props "token" (JS.VString "") |},
     s, [Log ("Socket message: " ++ raw) 9]).
Proof.
  intros H. unfold SocketRouter.SockRequest.new. handler. rewrite H. reflexivity.
Qed.

Lemma SockRequest_new_malformed {St} raw (s : St) :
  JS.JSON_parse raw = None ->
  SocketRouter.SockRequest.new raw s =
    (Threw (JS.TypeError "Cannot read properties of undefined (reading 'action')"), s,
     [Log ("Socket message: " ++ raw) 9; Log "Could not parse message" 3]).
Proof.
  intros H. unfold SocketRouter.SockRequest.new. handler. rewrite H. reflexivity.
Qed.

Lemma Request_new_object {St} raw props (s : St) :
  JS.JSON_parse raw = Some (JS.VObject props) ->
  AdminRouter.Request.new raw s =
    (Returned {| AdminRouter.Request.parseError := false;
                 AdminRouter.Request.action := JS.field props "action" (JS.VString "");
                 AdminRouter.Request.data := JS.field props "data" JS.VNull;
                 AdminRouter.Request.id := JS.field props "id" (JS.VString "");
                 AdminRouter.Request.token := JS.field props "token" (JS.VString "") |},
     s, [Log raw 4]).
Proof.
  intros H. unfold AdminRouter.Request.new. handler. rewrite H. reflexivity.
Qed.

Lemma Request_new_malformed {St} raw (s : St) :
  JS.JSON_parse raw = None ->
  AdminRouter.Request.new raw s =
    (Threw (JS.TypeError "Cannot read properties of undefined (reading 'action')"), s,
     [Log raw 4]).
Proof.
  intros H. unfold AdminRouter.Request.new. handler. rewrite H. reflexivity.
Qed.

(** A request that the constructor returns has no parse error, and its id
    and token are never null: the constructor has filled them in. *)
Lemma SockRequest_new_returned {St} raw (s s' : St) req tr :
  SocketRouter.SockRequest.new raw s = (Returned req, s', tr) ->
  s' = s /\ tr = [Log ("Socket message: " ++ raw) 9]
  /\ SocketRouter.SockRequest.parseError req = false
  /\ JS.is_nullish (SocketRouter.SockRequest.id req) = false
  /\ JS.is_nullish (SocketRouter.SockRequest.token req) = false.
Proof.
  unfold SocketRouter.SockRequest.new. handler.
  destruct (JS.JSON_parse raw) as [v|]; cbn; [|discriminate].
  destruct v; cbn; try discriminate; intros H; inversion H; subst; cbn;
    repeat split; unfold JS.nullish_or;
    match goal with
    | |- JS.is_nullish (if JS.is_nullish ?x then _ else _) = false =>
        destruct (JS.is_nullish x) eqn:E; auto
    end.
Qed.

(** C4, where the code departs from the claim: a text that [JSON.parse]
    rejects never becomes a message flagged [parseError].  The constructor
    reads [parsed.action] on [undefined] and throws; the handler of either
    role never reaches its test of [parseError], and nothing catches the
    TypeError.  The same holds in the router of the operator admin. *)
Theorem malformed_message_throws :
  forall (node : SocketRouter.Globals) (raw : string)
         (c : SocketRouter.ClientConnection.t)
         (n : AdminRouter.t) (self : nat) (a : AdminRouter.Client.t),
    JS.JSON_parse raw = None ->
    nth_error (AdminRouter.clients n) self = Some a ->
    let thrown := JS.TypeError "Cannot read properties of undefined (reading 'action')" in
    let logged := [Log ("Socket message: " ++ raw) 9; Log "Could not parse message" 3] in
    SocketRouter.SockRequest.new raw c = (Threw thrown, c, logged)
    /\ SocketRouter.InboundClient.onClientMessage node raw c = (Threw thrown, c, logged)
    /\ SocketRouter.OutboundClient.onClientMessage node raw c = (Threw thrown, c, logged)
    /\ SocketRouter.run node SocketRouter.Inbound
         [SocketRouter.OnMessage raw; SocketRouter.OnMessage Scenario.offer_1] c
       = (Threw thrown, c, logged)
    /\ AdminRouter.socketMessage self raw n
       = (Threw thrown, n, [OfClient self (Log raw 4)]).
Proof.
  intros node raw c n self a Hraw Hself thrown logged.
  assert (Hnew : forall St (s : St), SocketRouter.SockRequest.new raw s = (Threw thrown, s, logged))
    by (intros; apply SockRequest_new_malformed; exact Hraw).
  repeat split.
  - apply Hnew.
  - unfold SocketRouter.InboundClient.onClientMessage, bind. rewrite Hnew. reflexivity.
  - unfold SocketRouter.OutboundClient.onClientMessage, bind. rewrite Hnew. reflexivity.
  - unfold SocketRouter.run. rewrite for_each_cons. unfold bind at 1.
    cbn [SocketRouter.handle].
    unfold SocketRouter.InboundClient.onClientMessage, bind. rewrite Hnew. reflexivity.
  - unfold AdminRouter.socketMessage, bind, AdminRouter.on_client.
    rewrite (on_nth_run _ _ _ _ _ _ Hself).
    rewrite (Request_new_malformed _ _ Hraw). cbn.
    rewrite (replace_same _ _ _ Hself). destruct n; reflexivity.
Qed.

(** C4 at the text [hello]. *)
Lemma malformed_message_throws_witness :
  SocketRouter.InboundClient.onClientMessage Scenario.dev_node "hello"
    SocketRouter.ClientConnection.new
  = (Threw (JS.TypeError "Cannot read properties of undefined (reading 'action')"),
     SocketRouter.ClientConnection.new,
     [Log "Socket message: hello" 9; Log "Could not parse message" 3]).
Proof.
  refine (proj1 (proj2 (malformed_message_throws Scenario.dev_node "hello"
                          SocketRouter.ClientConnection.new
                          {| AdminRouter.NODE_ID := JS.VNull;
                             AdminRouter.clients := [AdminRouter.Client.new] |}
                          0 AdminRouter.Client.new _ _))).
  - vm_compute. reflexivity.
  - reflexivity.
Defined.

(* ================================================================== *)
(** * The authentication gate and the two roles *)
(* ================================================================== *)

Lemma authenticateRequest_logs req :
  emits_only is_log (SocketRouter.ClientConnection.authenticateRequest req).
Proof.
  unfold SocketRouter.ClientConnection.authenticateRequest. emits; exact I.
Qed.

Lemma logs_do_not_act tr : Forall is_log tr -> ~ Exists acts tr /\ ~ Exists closes tr.
Proof.
  intros H. split; intros E; apply Exists_exists in E; destruct E as [e [Hin He]];
    rewrite Forall_forall in H; specialize (H e Hin); destruct e; contradiction.
Qed.

Lemma authenticateRequest_identity req c :
  SocketRouter.ClientConnection._id
    (final (SocketRouter.ClientConnection.authenticateRequest req c))
  = if JS.is_nullish (SocketRouter.ClientConnection._id c)
    then SocketRouter.SockRequest.id req
    else SocketRouter.ClientConnection._id c.
Proof.
  unfold SocketRouter.ClientConnection.authenticateRequest. handler.
  destruct (JS.is_nullish (SocketRouter.ClientConnection._id c)) eqn:Hc; cbn.
  - destruct (JS.loose_eq (SocketRouter.SockRequest.token req) _) as [[|]|]; cbn;
      try reflexivity.
    destruct (JS.to_text _); reflexivity.
  - destruct (JS.loose_eq _ (SocketRouter.SockRequest.id req)) as [[|]|]; cbn;
      try reflexivity.
    destruct (JS.loose_eq (SocketRouter.SockRequest.token req) _) as [[|]|]; cbn;
      try reflexivity.
    destruct (JS.to_text _); reflexivity.
Qed.

(** The switch of the accepting role never closes and keeps the identity. *)
Lemma inbound_switch req (c : SocketRouter.ClientConnection.t) :
  let switch :=
    (if JS.is_string (SocketRouter.SockRequest.action req) "offer" then
       c <- this ;;
       who <- modelled (JS.to_text (SocketRouter.ClientConnection.id c)) ;;
       emit (Log ("Got offer from '" ++ who ++ "'") 5) ;;
       SocketRouter.InboundClient.getRtcAnswer (SocketRouter.SockRequest.data req)
     else if JS.is_string (SocketRouter.SockRequest.action req) "addICE" then
       SocketRouter.ClientConnection.addICE req
     else
       SocketRouter.ClientConnection.unknownCommand req) c in
  Forall (fun e => ~ closes e) (trace switch)
  /\ SocketRouter.ClientConnection._id (final switch) = SocketRouter.ClientConnection._id c.
Proof.
  cbv zeta. split.
  - revert c. change (emits_only (fun e => ~ closes e)
       (if JS.is_string (SocketRouter.SockRequest.action req) "offer" then
       c <- this ;;
       who <- modelled (JS.to_text (SocketRouter.ClientConnection.id c)) ;;
       emit (Log ("Got offer from '" ++ who ++ "'") 5) ;;
       SocketRouter.InboundClient.getRtcAnswer (SocketRouter.SockRequest.data req)
     else if JS.is_string (SocketRouter.SockRequest.action req) "addICE" then
       SocketRouter.ClientConnection.addICE req
     else
       SocketRouter.ClientConnection.unknownCommand req)).
    unfold SocketRouter.InboundClient.getRtcAnswer, SocketRouter.ClientConnection.await,
      SocketRouter.ClientConnection.addICE, SocketRouter.ClientConnection.unknownCommand.
    emits; intros [].
  - unfold SocketRouter.InboundClient.getRtcAnswer, SocketRouter.ClientConnection.await,
      SocketRouter.ClientConnection.addICE, SocketRouter.ClientConnection.unknownCommand.
    handler.
    destruct (JS.is_string (SocketRouter.SockRequest.action req) "offer").
    + destruct (JS.to_text (SocketRouter.ClientConnection.id c)); reflexivity.
    + destruct (JS.is_string (SocketRouter.SockRequest.action req) "addICE").
      * destruct (JS.to_text (SocketRouter.ClientConnection.id c)); cbn; [|reflexivity].
        destruct (JS.get (SocketRouter.SockRequest.data req) "candidate"); cbn; [|reflexivity].
        destruct (JS.truthy v); reflexivity.
      * destruct (JS.to_text (SocketRouter.SockRequest.action req)); cbn; [|reflexivity].
        destruct (JS.to_text (SocketRouter.ClientConnection.id c)); reflexivity.
Qed.


(** The switch of the initiating role: it reads the action and the payload
    of the request, nothing else. *)
Lemma outbound_after_decode node raw req c :
  result (SocketRouter.SockRequest.new raw c) = Returned req ->
  let switch :=
    (if JS.is_string (SocketRouter.SockRequest.action req) "answer" then
       SocketRouter.OutboundClient.processAnswer (SocketRouter.SockRequest.data req)
     else if JS.is_string (SocketRouter.SockRequest.action req) "renegotiate" then
       SocketRouter.OutboundClient.renegotiateWebRTC
     else if JS.is_string (SocketRouter.SockRequest.action req) "addICE" then
       SocketRouter.ClientConnection.addICE req
     else
       SocketRouter.ClientConnection.unknownCommand req) c in
  SocketRouter.OutboundClient.onClientMessage node raw c
  = (result switch, final switch,
     (Log ("Socket message: " ++ raw) 9 :: trace switch)%list).
Proof.
  intros Hreq.
  destruct (SocketRouter.SockRequest.new raw c) as [[o s'] tr] eqn:Hnew.
  cbn in Hreq. subst o.
  destruct (SockRequest_new_returned _ _ _ _ _ Hnew) as (-> & -> & Hpe & _).
  cbv zeta. unfold SocketRouter.OutboundClient.onClientMessage.
  rewrite (bind_returned _ _ _ _ _ _ Hnew). rewrite Hpe. reflexivity.
Qed.

Lemma outbound_never_gates node raw c :
  SocketRouter.ClientConnection._id
    (final (SocketRouter.OutboundClient.onClientMessage node raw c))
  = SocketRouter.ClientConnection._id c
  /\ Forall (fun e => ~ closes e)
       (trace (SocketRouter.OutboundClient.onClientMessage node raw c)).
Proof.
  split.
  - unfold SocketRouter.OutboundClient.onClientMessage, SocketRouter.SockRequest.new,
      SocketRouter.OutboundClient.processAnswer, SocketRouter.OutboundClient.renegotiateWebRTC,
      SocketRouter.OutboundClient.sendOffer, SocketRouter.ClientConnection.await,
      SocketRouter.ClientConnection.addICE, SocketRouter.ClientConnection.unknownCommand.
    handler.
    destruct (JS.JSON_parse raw) as [v|]; cbn; [|reflexivity].
    destruct v; cbn; try reflexivity;
      repeat match goal with
        | |- context [if ?b then _ else _] => destruct b; cbn
        | |- context [match JS.to_text ?x with _ => _ end] => destruct (JS.to_text x); cbn
        | |- context [match JS.get ?x ?k with _ => _ end] => destruct (JS.get x k); cbn
        end; reflexivity.
  - revert c. change (emits_only (fun e => ~ closes e)
                        (SocketRouter.OutboundClient.onClientMessage node raw)).
    unfold SocketRouter.OutboundClient.onClientMessage, SocketRouter.SockRequest.new,
      SocketRouter.OutboundClient.processAnswer, SocketRouter.OutboundClient.renegotiateWebRTC,
      SocketRouter.OutboundClient.sendOffer, SocketRouter.ClientConnection.await,
      SocketRouter.ClientConnection.addICE, SocketRouter.ClientConnection.unknownCommand.
    emits; intros [].
Qed.

(** The accepting role: the handler is the gate, then the teardown or the
    switch. *)
Lemma inbound_gates node raw req c :
  result (SocketRouter.SockRequest.new raw c) = Returned req ->
  let gate := SocketRouter.ClientConnection.authenticateRequest req c in
  let inbound := SocketRouter.InboundClient.onClientMessage node raw c in
  (exists rest,
      trace inbound = (Log ("Socket message: " ++ raw) 9 :: trace gate ++ rest)%list)
  /\ JS.is_nullish (SocketRouter.ClientConnection._id (final inbound)) = false
  /\ (result gate = Returned false ->
      inbound = (Returned tt, final gate,
                 (Log ("Socket message: " ++ raw) 9 :: trace gate
                    ++ [Log "Auth failed" 4; PeerClose; SocketClose])%list))
  /\ (Exists acts (trace inbound) -> result gate = Returned true)
  /\ (Exists closes (trace inbound) -> result gate = Returned false).
Proof.
  intros Hreq gate inbound.
  destruct (SocketRouter.SockRequest.new raw c) as [[o s'] tr] eqn:Hnew.
  cbn in Hreq. subst o.
  destruct (SockRequest_new_returned _ _ _ _ _ Hnew) as (-> & -> & Hpe & Hid & _).
  assert (Hin : inbound =
    match gate with
    | (Returned true, c1, t1) =>
        let switch :=
          (if JS.is_string (SocketRouter.SockRequest.action req) "offer" then
             c <- this ;;
             who <- modelled (JS.to_text (SocketRouter.ClientConnection.id c)) ;;
             emit (Log ("Got offer from '" ++ who ++ "'") 5) ;;
             SocketRouter.InboundClient.getRtcAnswer (SocketRouter.SockRequest.data req)
           else if JS.is_string (SocketRouter.SockRequest.action req) "addICE" then
             SocketRouter.ClientConnection.addICE req
           else
             SocketRouter.ClientConnection.unknownCommand req) c1 in
        (result switch, final switch,
         (Log ("Socket message: " ++ raw) 9 :: t1 ++ trace switch)%list)
    | (Returned false, c1, t1) =>
        (Returned tt, c1,
         (Log ("Socket message: " ++ raw) 9 :: t1
            ++ [Log "Auth failed" 4; PeerClose; SocketClose])%list)
    | (Threw e, c1, t1) => (Threw e, c1, (Log ("Socket message: " ++ raw) 9 :: t1)%list)
    | (Unmodelled, c1, t1) => (Unmodelled, c1, (Log ("Socket message: " ++ raw) 9 :: t1)%list)
    end).
  { subst inbound gate. unfold SocketRouter.InboundClient.onClientMessage.
    rewrite (bind_returned _ _ _ _ _ _ Hnew). rewrite Hpe.
    destruct (SocketRouter.ClientConnection.authenticateRequest req c)
      as [[[[|]|e|] c1] t1] eqn:Hg.
    - rewrite (bind_returned _ _ _ _ _ _ Hg). cbn [negb app]. reflexivity.
    - rewrite (bind_returned _ _ _ _ _ _ Hg). cbn [negb]. reflexivity.
    - unfold bind. rewrite Hg. reflexivity.
    - unfold bind. rewrite Hg. reflexivity. }
  pose proof (authenticateRequest_logs req c) as Hlogs.
  pose proof (authenticateRequest_identity req c) as Hident.
  fold gate in Hlogs, Hident.
  destruct gate as [[g c1] t1] eqn:Hgate. unfold trace, final, result in Hlogs, Hident |- *.
  cbn [fst snd] in *.
  assert (Hbound : JS.is_nullish (SocketRouter.ClientConnection._id c1) = false).
  { rewrite Hident. destruct (JS.is_nullish (SocketRouter.ClientConnection._id c)) eqn:E; auto. }
  destruct (logs_do_not_act _ Hlogs) as [Hnoact Hnoclose].
  subst inbound. clear Hgate.
  destruct g as [[|]|e|]; cbv zeta in Hin; rewrite Hin; unfold trace, final, result;
    cbn [fst snd].
  - destruct (inbound_switch req c1) as [Hsw1 Hsw2]. cbv zeta in Hsw1, Hsw2.
    unfold trace, final in Hsw1, Hsw2.
    repeat split; auto.
    + eexists. reflexivity.
    + rewrite Hsw2. exact Hbound.
    + discriminate.
    + intros E. exfalso. inversion E as [? ? He|? ? E']; subst; [exact He|].
      apply Exists_app in E'. destruct E' as [E'|E']; [exact (Hnoclose E')|].
      apply Exists_exists in E'. destruct E' as [x [Hx Hc]].
      rewrite Forall_forall in Hsw1. exact (Hsw1 x Hx Hc).
  - repeat split; auto.
    + eexists. reflexivity.
    + intros E. exfalso. inversion E as [? ? He|? ? E']; subst; [exact He|].
      apply Exists_app in E'. destruct E' as [E'|E']; [exact (Hnoact E')|].
      repeat (inversion E' as [? ? He|? ? E'']; subst; [exact He|]; clear E'; rename E'' into E').
      inversion E'.
  - repeat split; auto.
    + exists []. rewrite app_nil_r. reflexivity.
    + discriminate.
    + intros E. exfalso. inversion E as [? ? He|? ? E']; subst; [exact He|exact (Hnoact E')].
    + intros E. exfalso. inversion E as [? ? He|? ? E']; subst; [exact He|exact (Hnoclose E')].
  - repeat split; auto.
    + exists []. rewrite app_nil_r. reflexivity.
    + discriminate.
    + intros E. exfalso. inversion E as [? ? He|? ? E']; subst; [exact He|exact (Hnoact E')].
    + intros E. exfalso. inversion E as [? ? He|? ? E']; subst; [exact He|exact (Hnoclose E')].
Qed.

Lemma outbound_ignores_credentials node raw req raw' req' c :
  result (SocketRouter.SockRequest.new raw c) = Returned req ->
  result (SocketRouter.SockRequest.new raw' c) = Returned req' ->
  SocketRouter.SockRequest.action req' = SocketRouter.SockRequest.action req ->
  SocketRouter.SockRequest.data req' = SocketRouter.SockRequest.data req ->
  let outbound := SocketRouter.OutboundClient.onClientMessage node raw c in
  let outbound' := SocketRouter.OutboundClient.onClientMessage node raw' c in
  result outbound' = result outbound /\ final outbound' = final outbound
  /\ tl (trace outbound') = tl (trace outbound).
Proof.
  intros Hreq Hreq' Ha Hd. cbv zeta.
  rewrite (outbound_after_decode node raw' req' c Hreq').
  rewrite (outbound_after_decode node raw req c Hreq).
  cbv zeta. unfold SocketRouter.ClientConnection.addICE,
    SocketRouter.ClientConnection.unknownCommand.
  rewrite Ha, Hd. repeat split.
Qed.

(** C5.  On a session of the accepting role every message that the codec
    returns goes through the authentication gate: the run of the gate opens
    the run of the handler and leaves the session with an identity; when the
    gate fails the handler logs, closes the peer connection and the socket,
    and does nothing else; an effect that carries out an action implies that
    the gate passed, a close that it failed.  On a session of the initiating
    role no message goes through the gate: the identity stays as it was, the
    handler never closes the session, and what it does is the same for two
    messages that differ in their id and token only. *)
Theorem accepting_role_authenticates_initiating_role_does_not :
  forall (node : SocketRouter.Globals) (raw : string)
         (req : SocketRouter.SockRequest.t) (c : SocketRouter.ClientConnection.t),
    result (SocketRouter.SockRequest.new raw c) = Returned req ->
    let gate := SocketRouter.ClientConnection.authenticateRequest req c in
    let inbound := SocketRouter.InboundClient.onClientMessage node raw c in
    let outbound := SocketRouter.OutboundClient.onClientMessage node raw c in
    (exists rest,
        trace inbound = (Log ("Socket message: " ++ raw) 9 :: trace gate ++ rest)%list)
    /\ JS.is_nullish (SocketRouter.ClientConnection._id (final inbound)) = false
    /\ (result gate = Returned false ->
        inbound = (Returned tt, final gate,
                   (Log ("Socket message: " ++ raw) 9 :: trace gate
                      ++ [Log "Auth failed" 4; PeerClose; SocketClose])%list))
    /\ (Exists acts (trace inbound) -> result gate = Returned true)
    /\ (Exists closes (trace inbound) -> result gate = Returned false)
    /\ SocketRouter.ClientConnection._id (final outbound)
       = SocketRouter.ClientConnection._id c
    /\ Forall (fun e => ~ closes e) (trace outbound)
    /\ (forall raw' req',
           result (SocketRouter.SockRequest.new raw' c) = Returned req' ->
           SocketRouter.SockRequest.action req' = SocketRouter.SockRequest.action req ->
           SocketRouter.SockRequest.data req' = SocketRouter.SockRequest.data req ->
           let outbound' := SocketRouter.OutboundClient.onClientMessage node raw' c in
           result outbound' = result outbound /\ final outbound' = final outbound
           /\ tl (trace outbound') = tl (trace outbound)).
Proof.
  intros node raw req c Hreq gate inbound outbound.
  destruct (inbound_gates node raw req c Hreq) as (H1 & H2 & H3 & H4 & H5).
  destruct (outbound_never_gates node raw c) as [H6 H7].
  split; [exact H1|]. split; [exact H2|]. split; [exact H3|].
  split; [exact H4|]. split; [exact H5|]. split; [exact H6|]. split; [exact H7|].
  intros raw' req' Hreq' Ha Hd.
  exact (outbound_ignores_credentials node raw req raw' req' c Hreq Hreq' Ha Hd).
Qed.

(** C5 at a message with a wrong token, on a fresh session. *)
Lemma accepting_role_authenticates_witness :
  SocketRouter.InboundClient.onClientMessage Scenario.dev_node Scenario.bad_token
    SocketRouter.ClientConnection.new
  = (Returned tt,
     SocketRouter.ClientConnection.set_id (JS.VString "mallory")
       SocketRouter.ClientConnection.new,
     [Log ("Socket message: " ++ Scenario.bad_token) 9; Log "Auth failed" 4;
      PeerClose; SocketClose])
  /\ SocketRouter.ClientConnection._id
       (final (SocketRouter.OutboundClient.onClientMessage Scenario.dev_node
                 Scenario.bad_token SocketRouter.ClientConnection.new))
     = JS.VNull.
Proof.
  pose (req := {| SocketRouter.SockRequest.parseError := false;
                  SocketRouter.SockRequest.action := JS.VString "offer";
                  SocketRouter.SockRequest.data := JS.VNull;
                  SocketRouter.SockRequest.id := JS.VString "mallory";
                  SocketRouter.SockRequest.token := JS.VString "guess" |}).
  assert (Hreq : result (SocketRouter.SockRequest.new Scenario.bad_token
                           SocketRouter.ClientConnection.new) = Returned req)
    by (vm_compute; reflexivity).
  destruct (accepting_role_authenticates_initiating_role_does_not
              Scenario.dev_node Scenario.bad_token req
              SocketRouter.ClientConnection.new Hreq)
    as (_ & _ & Hfail & _ & _ & Hout & _).
  split.
  - rewrite Hfail; [|vm_compute; reflexivity]. vm_compute. reflexivity.
  - exact Hout.
Defined.

(* ================================================================== *)
(** * The first message of a session *)
(* ================================================================== *)



Lemma AdminRouter_set_same (n : AdminRouter.t) i c :
  nth_error (AdminRouter.clients n) i = Some c ->
  AdminRouter.set_clients (replace i c (AdminRouter.clients n)) n = n.
Proof. intros H. rewrite (replace_same _ _ _ H). destruct n; reflexivity. Qed.

Lemma replace_replace {A} i (x y : A) l : replace i x (replace i y l) = replace i x l.
Proof. revert i; induction l as [|z l IH]; intros [|i]; cbn; try reflexivity. f_equal. apply IH. Qed.





Lemma FirstRouter_on_client_run {A} (l : list FirstRouter.Client.t) (i : nat)
  (m : M FirstRouter.Client.t effect A) (c : FirstRouter.Client.t) :
  nth_error l i = Some c ->
  FirstRouter.on_client i m l =
    (result (m c), replace i (final (m c)) l, map (OfClient i) (trace (m c))).
Proof.
  intros H. unfold FirstRouter.on_client, on_nth, result, final, trace. rewrite H.
  destruct (m c) as [[out c'] tr]. reflexivity.
Qed.








(* ================================================================== *)
(** * Negotiations of one session *)
(* ================================================================== *)

(** C3 as the claim states it, refuted: two offers one after the other, the
    second before the engine has completed anything for the first.  The
    engine is called for the second while the first is outstanding, and
    the calls of the two negotiations interleave. *)
Lemma back_to_back_offers_interleave :
  engine_calls
    (trace (SocketRouter.run Scenario.dev_node SocketRouter.Inbound
              [SocketRouter.OnMessage Scenario.offer_1;
               SocketRouter.OnMessage Scenario.offer_2;
               SocketRouter.Fulfilled 0 JS.VUndefined;
               SocketRouter.Fulfilled 1 JS.VUndefined;
               SocketRouter.Fulfilled 2 (Scenario.sdp "answer" "to the first");
               SocketRouter.Fulfilled 3 (Scenario.sdp "answer" "to the second")]
              SocketRouter.ClientConnection.new))
  = [SetRemoteDescription (Scenario.sdp "offer" "first");
     SetRemoteDescription (Scenario.sdp "offer" "second");
     CreateAnswer; CreateAnswer;
     SetLocalDescription (Scenario.sdp "answer" "to the first");
     SetLocalDescription (Scenario.sdp "answer" "to the second")]
  /\ serial
       (engine_calls
          (trace (SocketRouter.run Scenario.dev_node SocketRouter.Inbound
                    [SocketRouter.OnMessage Scenario.offer_1;
                     SocketRouter.OnMessage Scenario.offer_2]
                    SocketRouter.ClientConnection.new)))
     = false.
Proof. split; vm_compute; reflexivity. Qed.

Lemma waiting_on_forget_other p q l :
  p <> q ->
  SocketRouter.ClientConnection.waiting_on q
    (filter (fun e : nat * SocketRouter.task => negb (Nat.eqb (fst e) p)) l)
  = SocketRouter.ClientConnection.waiting_on q l.
Proof.
  intros Hpq. induction l as [|[r k] l IH]; cbn; [reflexivity|].
  destruct (Nat.eqb r p) eqn:Erp; cbn.
  - apply Nat.eqb_eq in Erp. subst r.
    destruct (Nat.eqb p q) eqn:Epq; [apply Nat.eqb_eq in Epq; contradiction|]. exact IH.
  - destruct (Nat.eqb r q); [reflexivity|exact IH].
Qed.

Lemma settle_step node p v k c :
  SocketRouter.ClientConnection.waiting_on p (SocketRouter.ClientConnection.awaiting c) = Some k ->
  SocketRouter.handle node SocketRouter.Inbound (SocketRouter.Fulfilled p v) c
  = SocketRouter.InboundClient.resume node k v (SocketRouter.ClientConnection.forget p c).
Proof.
  intros H. cbn [SocketRouter.handle]. unfold SocketRouter.settle. handler. rewrite H.
  destruct (SocketRouter.InboundClient.resume node k v _) as [[o s] t]. reflexivity.
Qed.


Lemma waiting_on_app q l k' p' :
  q <> p' ->
  SocketRouter.ClientConnection.waiting_on q (l ++ [(p', k')])
  = SocketRouter.ClientConnection.waiting_on q l.
Proof.
  intros Hq. induction l as [|[r k] l IH]; cbn.
  - destruct (Nat.eqb p' q) eqn:E; [apply Nat.eqb_eq in E; congruence|reflexivity].
  - destruct (Nat.eqb r q); [reflexivity|exact IH].
Qed.

(** A fulfilment leaves the methods that wait for other promises as they are. *)
Lemma settle_keeps_others node p q v s :
  p <> q ->
  q < SocketRouter.ClientConnection.promises s ->
  SocketRouter.ClientConnection.waiting_on q
    (SocketRouter.ClientConnection.awaiting
       (final (SocketRouter.handle node SocketRouter.Inbound (SocketRouter.Fulfilled p v) s)))
  = SocketRouter.ClientConnection.waiting_on q (SocketRouter.ClientConnection.awaiting s).
Proof.
  intros Hpq Hlt.
  assert (Hq : q <> SocketRouter.ClientConnection.promises s) by lia.
  destruct (SocketRouter.ClientConnection.waiting_on p (SocketRouter.ClientConnection.awaiting s))
    as [k|] eqn:Hp.
  - rewrite (settle_step _ _ _ _ _ Hp).
    destruct k; cbn; rewrite ?(waiting_on_app _ _ _ _ Hq);
      apply waiting_on_forget_other; exact Hpq.
  - cbn [SocketRouter.handle]. unfold SocketRouter.settle. handler. rewrite Hp. reflexivity.
Qed.

(** C3 amended.  On a session of the accepting role an offer that passes the
    gate has set-remote-description called on the engine at once, whatever
    the session is waiting for: nothing is queued, nothing is rejected, and
    what was outstanding stays outstanding.  Each negotiation then goes by
    itself: create-answer when its set-remote-description is fulfilled,
    set-local-description with the answer when create-answer is fulfilled,
    the answer message when set-local-description is fulfilled; a fulfilment
    leaves the other negotiations as they are. *)
Theorem an_offer_starts_at_once_and_each_negotiation_keeps_its_order :
  forall (node : SocketRouter.Globals) (raw : string)
         (props : list (string * JS.value)) (i : string)
         (c : SocketRouter.ClientConnection.t),
    JS.JSON_parse raw = Some (JS.VObject props) ->
    JS.own props "action" = JS.VString "offer" ->
    JS.own props "id" = JS.VString i ->
    JS.own props "token" = JS.VString "testauth" ->
    SocketRouter.ClientConnection._id c = JS.VString i ->
    SocketRouter.InboundClient.onClientMessage node raw c
    = (Returned tt, SocketRouter.ClientConnection.suspend SocketRouter.AnswerAfterRemote c,
       [Log ("Socket message: " ++ raw) 9; Log ("Authenticated user" ++ i) 4;
        Log ("Got offer from '" ++ i ++ "'") 5;
        PeerCall (SocketRouter.ClientConnection.promises c)
          (SetRemoteDescription (JS.field props "data" JS.VNull))])
    /\ (forall s p v,
          SocketRouter.ClientConnection.waiting_on p (SocketRouter.ClientConnection.awaiting s)
          = Some SocketRouter.AnswerAfterRemote ->
          SocketRouter.handle node SocketRouter.Inbound (SocketRouter.Fulfilled p v) s
          = (Returned tt,
             SocketRouter.ClientConnection.suspend SocketRouter.AnswerAfterCreate
               (SocketRouter.ClientConnection.forget p s),
             [PeerCall (SocketRouter.ClientConnection.promises s) CreateAnswer]))
    /\ (forall s p answer,
          SocketRouter.ClientConnection.waiting_on p (SocketRouter.ClientConnection.awaiting s)
          = Some SocketRouter.AnswerAfterCreate ->
          SocketRouter.handle node SocketRouter.Inbound (SocketRouter.Fulfilled p answer) s
          = (Returned tt,
             SocketRouter.ClientConnection.suspend (SocketRouter.AnswerAfterLocal answer)
               (SocketRouter.ClientConnection.forget p s),
             [PeerCall (SocketRouter.ClientConnection.promises s)
                (SetLocalDescription answer)]))
    /\ (forall s p answer v,
          SocketRouter.ClientConnection.waiting_on p (SocketRouter.ClientConnection.awaiting s)
          = Some (SocketRouter.AnswerAfterLocal answer) ->
          SocketRouter.handle node SocketRouter.Inbound (SocketRouter.Fulfilled p v) s
          = (Returned tt, SocketRouter.ClientConnection.forget p s,
             [SocketSend (SocketRouter.SockResponse.RESP_ANSWER node answer)]))
    /\ (forall s p q v,
          p <> q ->
          q < SocketRouter.ClientConnection.promises s ->
          SocketRouter.ClientConnection.waiting_on q
            (SocketRouter.ClientConnection.awaiting
               (final (SocketRouter.handle node SocketRouter.Inbound
                         (SocketRouter.Fulfilled p v) s)))
          = SocketRouter.ClientConnection.waiting_on q
              (SocketRouter.ClientConnection.awaiting s)).
Proof.
  intros node raw props i c Hraw Hact Hid Htok Hc.
  split; [|split; [|split; [|split]]].
  - destruct c as [cid streams promises awaiting]. cbn in Hc. subst cid.
    unfold SocketRouter.InboundClient.onClientMessage.
    unfold bind at 1. rewrite (SockRequest_new_object _ _ _ Hraw).
    cbn [SocketRouter.SockRequest.parseError].
    unfold SocketRouter.ClientConnection.authenticateRequest.
    cbn [SocketRouter.SockRequest.id SocketRouter.SockRequest.token
         SocketRouter.SockRequest.action SocketRouter.SockRequest.data].
    unfold JS.field at 1 2 3 4. rewrite Hact, Hid, Htok.
    unfold SocketRouter.InboundClient.getRtcAnswer, SocketRouter.ClientConnection.await,
      SocketRouter.ClientConnection.id.
    handler. cbn. rewrite String.eqb_refl. cbn. reflexivity.
  - intros s p v H. rewrite (settle_step _ _ _ _ _ H). reflexivity.
  - intros s p v H. rewrite (settle_step _ _ _ _ _ H). reflexivity.
  - intros s p answer v H. rewrite (settle_step _ _ _ _ _ H). reflexivity.
  - intros s p q v Hpq Hlt. apply settle_keeps_others; assumption.
Qed.

(** C3 amended, at the second offer of alice while her first is outstanding. *)
Lemma an_offer_starts_at_once_witness :
  let waiting :=
    final (SocketRouter.InboundClient.onClientMessage Scenario.dev_node Scenario.offer_1
             SocketRouter.ClientConnection.new) in
  SocketRouter.ClientConnection.awaiting waiting = [(0, SocketRouter.AnswerAfterRemote)]
  /\ SocketRouter.InboundClient.onClientMessage Scenario.dev_node Scenario.offer_2 waiting
     = (Returned tt,
        SocketRouter.ClientConnection.suspend SocketRouter.AnswerAfterRemote waiting,
        [Log ("Socket message: " ++ Scenario.offer_2) 9; Log "Authenticated useralice" 4;
         Log "Got offer from 'alice'" 5;
         PeerCall 1 (SetRemoteDescription (Scenario.sdp "offer" "second"))]).
Proof.
  cbv zeta. split; [vm_compute; reflexivity|].
  refine (proj1 (an_offer_starts_at_once_and_each_negotiation_keeps_its_order
                   Scenario.dev_node Scenario.offer_2
                   [("action", JS.VString "offer");
                    ("data", Scenario.sdp "offer" "second");
                    ("id", JS.VString "alice"); ("token", JS.VString "testauth")]
                   "alice" _ _ _ _ _ _)).
  - vm_compute. reflexivity.
  - reflexivity.
  - reflexivity.
  - reflexivity.
  - vm_compute. reflexivity.
Defined.

(* ================================================================== *)
(** * What the two roles send *)
(* ================================================================== *)

Lemma keeps_for_each_Forall {St Ev A} (P : St -> Prop) (Q : Ev -> Prop)
  (l : list A) (body : A -> M St Ev unit) :
  Forall (fun x => keeps P Q (body x)) l -> keeps P Q (for_each l body).
Proof.
  induction 1 as [|x l Hx Hl IH]; cbn.
  - apply keeps_ret.
  - apply keeps_bind; [exact Hx | intros _; exact IH].
Qed.

(** The text of an object with an undefined property is the text of the
    object without it. *)
Lemma two_fields_read a payload :
  engine_value payload ->
  exists props,
    JS.JSON_parse (JS.JSON_stringify (JS.VObject [("action", JS.VString a); ("data", payload)]))
    = Some (JS.VObject props)
    /\ JS.has_key "action" props = true
    /\ JS.has_key "id" props = false /\ JS.has_key "token" props = false.
Proof.
  intros [->|Hp].
  - exists [("action", JS.VString a)]. split; [|repeat split].
    change (JS.JSON_stringify (JS.VObject [("action", JS.VString a); ("data", JS.VUndefined)]))
      with (JS.JSON_stringify (JS.VObject [("action", JS.VString a)])).
    apply JSON_parse_stringify. repeat constructor.
  - exists [("action", JS.VString a); ("data", payload)]. split; [|repeat split].
    apply JSON_parse_stringify. constructor.
    + repeat (constructor; [repeat (constructor; [reflexivity|]); constructor|reflexivity|]).
      constructor.
    + repeat (constructor; [first [exact Hp|constructor]|]). constructor.
Qed.

Lemma three_fields_ordered a i t :
  ordered [("action", a); ("id", i); ("token", t)].
Proof.
  repeat (constructor; [repeat (constructor; [reflexivity|]); constructor|reflexivity|]).
  constructor.
Qed.

Lemma four_fields_read a payload i t :
  document a -> engine_value payload -> document i -> document t ->
  reads_with_credentials i t
    (JS.JSON_stringify (JS.VObject [("action", a); ("data", payload);
                                    ("id", i); ("token", t)])).
Proof.
  intros Ha [->|Hp] Hi Ht.
  - exists [("action", a); ("id", i); ("token", t)]. split; [|repeat split].
    change (JS.JSON_stringify (JS.VObject [("action", a); ("data", JS.VUndefined);
                                           ("id", i); ("token", t)]))
      with (JS.JSON_stringify (JS.VObject [("action", a); ("id", i); ("token", t)])).
    apply JSON_parse_stringify. constructor; [apply three_fields_ordered|].
    repeat (constructor; [assumption|]). constructor.
  - exists [("action", a); ("data", payload); ("id", i); ("token", t)].
    split; [|repeat split].
    apply JSON_parse_stringify. constructor; [apply four_fields_ordered|].
    repeat (constructor; [assumption|]). constructor.
Qed.

Lemma two_fields_sent a payload :
  engine_value payload ->
  reads_without_credentials
    (JS.JSON_stringify (JS.VObject [("action", JS.VString a); ("data", payload)])).
Proof. intros H. destruct (two_fields_read a payload H) as [props Hp]. exists props. exact Hp. Qed.

Lemma session_waiting_on_In p l k :
  SocketRouter.ClientConnection.waiting_on p l = Some k -> In (p, k) l.
Proof.
  induction l as [|[q k'] l IH]; cbn; [discriminate|].
  destruct (Nat.eqb q p) eqn:E.
  - intros H. inversion H; subst. apply Nat.eqb_eq in E. subst. left. reflexivity.
  - intros H. right. apply IH. exact H.
Qed.

Lemma described_suspend k c :
  holds_engine_value k -> described c ->
  described (SocketRouter.ClientConnection.suspend k c).
Proof.
  intros Hk Hc. unfold described, SocketRouter.ClientConnection.suspend. cbn.
  apply Forall_app. split; [exact Hc|]. constructor; [exact Hk|constructor].
Qed.

Lemma described_forget p c :
  described c -> described (SocketRouter.ClientConnection.forget p c).
Proof.
  intros Hc. unfold described, SocketRouter.ClientConnection.forget. cbn.
  apply Forall_forall. intros x Hx. apply filter_In in Hx.
  unfold described in Hc. rewrite Forall_forall in Hc. apply Hc. tauto.
Qed.

Lemma await_described Q call k :
  holds_engine_value k -> (forall p, Q (PeerCall p call)) ->
  keeps described Q (SocketRouter.ClientConnection.await call k).
Proof.
  intros Hk HQ. unfold SocketRouter.ClientConnection.await.
  apply keeps_bind; [apply keeps_read|intros c].
  apply keeps_bind; [apply keeps_emit; apply HQ|intros _].
  apply keeps_update. intros s. apply described_suspend. exact Hk.
Qed.

Ltac session_step :=
  first
    [ apply await_described; [exact I| intros ?; exact I]
    | keeps_step
    | apply keeps_emit; exact I
    | apply keeps_update; intros ? ?; assumption ].

Lemma SockRequest_new_keeps {St} (P : St -> Prop) Q msg :
  (forall e, match e with SocketSend _ => False | _ => True end -> Q e) ->
  keeps P Q (SocketRouter.SockRequest.new msg).
Proof.
  intros HQ. unfold SocketRouter.SockRequest.new.
  repeat first [keeps_step | apply keeps_emit; apply HQ; exact I].
Qed.

Lemma authenticateRequest_described Q req :
  (forall e, match e with SocketSend _ => False | _ => True end -> Q e) ->
  keeps described Q (SocketRouter.ClientConnection.authenticateRequest req).
Proof.
  intros HQ. unfold SocketRouter.ClientConnection.authenticateRequest.
  repeat first [keeps_step | apply keeps_emit; apply HQ; exact I
               | apply keeps_update; intros ? H; exact H].
Qed.

Ltac unfold_messages :=
  unfold SocketRouter.InboundClient.onClientMessage, SocketRouter.OutboundClient.onClientMessage,
    SocketRouter.ClientConnection.close, SocketRouter.InboundClient.getRtcAnswer,
    SocketRouter.ClientConnection.addICE, SocketRouter.ClientConnection.unknownCommand,
    SocketRouter.OutboundClient.processAnswer, SocketRouter.OutboundClient.renegotiateWebRTC,
    SocketRouter.OutboundClient.sendOffer,
    SocketRouter.ClientConnection.onconnectionstatechange, SocketRouter.ClientConnection.ontrack,
    SocketRouter.InboundClient.sendIce, SocketRouter.OutboundClient.sendIce,
    SocketRouter.InboundClient.renegotiateWebRTC,
    SocketRouter.ClientConnection.send.

Ltac session_steps X :=
  repeat first
    [ apply SockRequest_new_keeps; intros [] ?; (exact I || contradiction)
    | apply authenticateRequest_described; intros [] ?; (exact I || contradiction)
    | session_step ].

Lemma settle_described X node r p v :
  engine_value v ->
  (forall k x, holds_engine_value k -> engine_value x ->
     keeps described (sends X)
       (match r with
        | SocketRouter.Inbound => SocketRouter.InboundClient.resume node k x
        | SocketRouter.Outbound => SocketRouter.OutboundClient.resume node k x
        end)) ->
  forall o, (o = None \/ o = Some v) ->
  keeps described (sends X) (SocketRouter.settle node r p o).
Proof.
  intros Hv Hresume o Ho. unfold SocketRouter.settle.
  apply keeps_this. intros c Hc.
  destruct (SocketRouter.ClientConnection.waiting_on p (SocketRouter.ClientConnection.awaiting c))
    as [k|] eqn:Hk; [|apply keeps_ret].
  apply session_waiting_on_In in Hk.
  assert (Hheld : holds_engine_value k).
  { unfold described in Hc. rewrite Forall_forall in Hc. apply (Hc _ Hk). }
  apply keeps_bind; [apply keeps_update; intros s; apply described_forget|intros _].
  destruct Ho as [->| ->]; [apply keeps_throw|].
  apply Hresume; assumption.
Qed.

Lemma inbound_handle_keeps node e :
  engine_event e ->
  keeps described (sends reads_without_credentials)
    (SocketRouter.handle node SocketRouter.Inbound e).
Proof.
  destruct e; cbn [SocketRouter.handle engine_event]; intros He.
  - unfold_messages. session_steps reads_without_credentials.
  - unfold_messages. session_steps reads_without_credentials.
  - unfold_messages. session_steps reads_without_credentials.
  - unfold_messages. session_steps reads_without_credentials.
    apply keeps_emit. apply two_fields_sent. exact He.
  - apply (settle_described _ node SocketRouter.Inbound promise v He); [|right; reflexivity].
    intros k x Hk Hx. destruct k; cbn [SocketRouter.InboundClient.resume];
      try apply keeps_ret.
    + apply await_described; [exact I|intros ?; exact I].
    + apply await_described; [exact Hx|intros ?; exact I].
    + apply keeps_emit. apply two_fields_sent. exact Hk.
  - apply (settle_described _ node SocketRouter.Inbound promise JS.VNull);
      [right; constructor| |left; reflexivity].
    intros k x Hk Hx. destruct k; cbn [SocketRouter.InboundClient.resume];
      try apply keeps_ret.
    + apply await_described; [exact I|intros ?; exact I].
    + apply await_described; [exact Hx|intros ?; exact I].
    + apply keeps_emit. apply two_fields_sent. exact Hk.
  - unfold_messages. apply keeps_emit. apply two_fields_sent. right. constructor.
Qed.

Lemma four_fields_sent node a payload :
  engine_value payload ->
  reads_with_credentials (JS.VString (SocketRouter.NODE_INSTANCE_NAME node))
    (JS.VString (SocketRouter.NODE_AUTH node))
    (SocketRouter.SockResponse.generateGenericMessage a payload
       (SocketRouter.NODE_INSTANCE_NAME node) (SocketRouter.NODE_AUTH node) true).
Proof.
  intros H. cbn [SocketRouter.SockResponse.generateGenericMessage].
  apply four_fields_read; [constructor|exact H|constructor|constructor].
Qed.

Lemma outbound_handle_keeps node e :
  engine_event e ->
  keeps described
    (sends (reads_with_credentials (JS.VString (SocketRouter.NODE_INSTANCE_NAME node))
              (JS.VString (SocketRouter.NODE_AUTH node))))
    (SocketRouter.handle node SocketRouter.Outbound e).
Proof.
  destruct e; cbn [SocketRouter.handle engine_event]; intros He.
  - unfold_messages. session_steps tt.
  - unfold_messages. session_steps tt.
  - unfold_messages. session_steps tt.
  - unfold_messages. session_steps tt.
    apply keeps_emit. apply four_fields_sent. exact He.
  - apply (settle_described _ node SocketRouter.Outbound promise v He); [|right; reflexivity].
    intros k x Hk Hx. destruct k; cbn [SocketRouter.OutboundClient.resume];
      try apply keeps_ret.
    + apply await_described; [exact Hx|intros ?; exact I].
    + apply keeps_emit. apply four_fields_sent. exact Hk.
  - apply (settle_described _ node SocketRouter.Outbound promise JS.VNull);
      [right; constructor| |left; reflexivity].
    intros k x Hk Hx. destruct k; cbn [SocketRouter.OutboundClient.resume];
      try apply keeps_ret.
    + apply await_described; [exact Hx|intros ?; exact I].
    + apply keeps_emit. apply four_fields_sent. exact Hk.
  - unfold_messages. session_steps tt.
Qed.

Lemma keeps_run {St Ev A} (P : St -> Prop) (Q : Ev -> Prop) (R : A -> Prop)
  (body : A -> M St Ev unit) (l : list A) :
  (forall x, R x -> keeps P Q (body x)) -> Forall R l -> keeps P Q (for_each l body).
Proof.
  intros H Hl. apply keeps_for_each_Forall.
  apply Forall_forall. intros x Hx. apply H. rewrite Forall_forall in Hl. auto.
Qed.

(** A method of one client, called from the node: it keeps what holds of
    every client when it keeps it of the one, and what the list of clients
    has no part in. *)
Lemma keeps_on_nth_with {St C A} (P0 : St -> Prop) (R : C -> Prop)
  (Q : node_effect -> Prop)
  (get : St -> list C) (set : list C -> St -> St) (i : nat) (m : M C effect A) :
  (forall l s, get (set l s) = l) ->
  (forall l s, P0 s -> P0 (set l s)) ->
  keeps R (fun e => Q (OfClient i e)) m ->
  keeps (fun s => P0 s /\ Forall R (get s)) Q (on_nth get set i m).
Proof.
  intros Hget Hset Hm s [H0 H]. unfold on_nth, final, trace.
  destruct (nth_error (get s) i) as [c|] eqn:Hc; [|split; [split; assumption|constructor]].
  assert (Rc : R c) by (rewrite Forall_forall in H; apply H; eapply nth_error_In; exact Hc).
  destruct (Hm c Rc) as [H1 H2]. unfold final, trace in H1, H2.
  destruct (m c) as [[out c'] tr]. cbn in *. split; [split|].
  - apply Hset. exact H0.
  - rewrite Hget. apply nth_error_replace_Forall; assumption.
  - apply Forall_map. exact H2.
Qed.

Lemma admin_on_client {A} self (m : M AdminRouter.Client.t effect A) :
  keeps admin_client_described (sends (reads_with_id_and_token AdminRouter.NODE_AUTH)) m ->
  keeps admin_described (client_sends (reads_with_id_and_token AdminRouter.NODE_AUTH))
    (AdminRouter.on_client self m).
Proof.
  intros H. unfold AdminRouter.on_client, admin_described.
  apply (keeps_on_nth_with (fun n => document (AdminRouter.NODE_ID n)) admin_client_described
           (client_sends (reads_with_id_and_token AdminRouter.NODE_AUTH))
           AdminRouter.clients AdminRouter.set_clients self m).
  - reflexivity.
  - intros l s Hs. exact Hs.
  - exact H.
Qed.

Lemma admin_waiting_on_In p l k :
  AdminRouter.Client.waiting_on p l = Some k -> In (p, k) l.
Proof.
  induction l as [|[q k'] l IH]; cbn; [discriminate|].
  destruct (Nat.eqb q p) eqn:E.
  - intros H. inversion H; subst. apply Nat.eqb_eq in E. subst. left. reflexivity.
  - intros H. right. apply IH. exact H.
Qed.

Lemma admin_described_suspend k c :
  admin_holds_engine_value k -> admin_client_described c ->
  admin_client_described (AdminRouter.Client.suspend k c).
Proof.
  intros Hk Hc. unfold admin_client_described, AdminRouter.Client.suspend. cbn.
  apply Forall_app. split; [exact Hc|]. constructor; [exact Hk|constructor].
Qed.

Lemma admin_described_forget p c :
  admin_client_described c -> admin_client_described (AdminRouter.Client.forget p c).
Proof.
  intros Hc. unfold admin_client_described, AdminRouter.Client.forget. cbn.
  apply Forall_forall. intros x Hx. apply filter_In in Hx.
  unfold admin_client_described in Hc. rewrite Forall_forall in Hc. apply Hc. tauto.
Qed.

Lemma admin_await_described Q call k :
  admin_holds_engine_value k -> (forall p, Q (PeerCall p call)) ->
  keeps admin_client_described Q (AdminRouter.Client.await call k).
Proof.
  intros Hk HQ. unfold AdminRouter.Client.await.
  apply keeps_bind; [apply keeps_read|intros c].
  apply keeps_bind; [apply keeps_emit; apply HQ|intros _].
  apply keeps_update. intros s. apply admin_described_suspend. exact Hk.
Qed.

Ltac admin_client_step :=
  first
    [ apply admin_await_described; [exact I| intros ?; exact I]
    | keeps_step
    | apply keeps_emit; exact I
    | apply keeps_update; intros ? ?; assumption ].

Lemma admin_message_sent a payload i :
  document a -> engine_value payload -> document i ->
  reads_with_id_and_token AdminRouter.NODE_AUTH
    (AdminRouter.Response.generateGenericMessage a payload i AdminRouter.NODE_AUTH).
Proof.
  intros Ha Hp Hi. exists i. apply four_fields_read; try assumption. constructor.
Qed.

Lemma admin_Request_new_keeps {St} (P : St -> Prop) X msg :
  keeps P (sends X) (AdminRouter.Request.new msg).
Proof.
  unfold AdminRouter.Request.new. repeat admin_client_step.
Qed.

(** The data of a request made of a text with readable data is a document. *)
Lemma request_data_document {St} raw (s : St) req :
  readable_data raw ->
  result (AdminRouter.Request.new raw s) = Returned req ->
  document (AdminRouter.Request.data req).
Proof.
  unfold readable_data, AdminRouter.Request.new. intros Hr.
  destruct (JS.JSON_parse raw) as [v|] eqn:Hraw; handler; cbn.
  - destruct v; cbn; try discriminate;
      intros H; inversion H; subst; cbn; try constructor.
    apply (field_of_parsed_document raw); [exact Hraw|constructor|exact Hr].
  - discriminate.
Qed.

Lemma on_client_result {A} self (m : M AdminRouter.Client.t effect A) n a :
  result (AdminRouter.on_client self m n) = Returned a ->
  exists c, result (m c) = Returned a.
Proof.
  unfold AdminRouter.on_client, on_nth, result.
  destruct (nth_error (AdminRouter.clients n) self) as [c|]; [|discriminate].
  intros H. exists c. destruct (m c) as [[out c'] tr]. exact H.
Qed.

Lemma getAuthentication_described X req :
  keeps admin_client_described (sends X) (AdminRouter.Client.getAuthentication req).
Proof.
  unfold AdminRouter.Client.getAuthentication. repeat admin_client_step.
Qed.

Lemma commands_described X req :
  keeps admin_client_described (sends X) (AdminRouter.Client.commands req).
Proof.
  unfold AdminRouter.Client.commands, AdminRouter.Client.sendAnswer,
    AdminRouter.Client.processAnswer, AdminRouter.Client.sendOffer.
  repeat admin_client_step.
Qed.

Lemma addMediaStream_described X stream :
  keeps admin_client_described (sends X) (AdminRouter.Client.addMediaStream stream).
Proof.
  unfold AdminRouter.Client.addMediaStream. repeat admin_client_step.
Qed.

Lemma renegotiateWebRTC_described node_id :
  document node_id ->
  keeps admin_client_described (sends (reads_with_id_and_token AdminRouter.NODE_AUTH))
    (AdminRouter.Client.renegotiateWebRTC node_id).
Proof.
  intros Hid. unfold AdminRouter.Client.renegotiateWebRTC, AdminRouter.Client.sendOffer.
  repeat admin_client_step.
  apply keeps_emit. apply admin_message_sent; [constructor|right; constructor|exact Hid].
Qed.

Lemma resume_described node_id k v :
  document node_id -> admin_holds_engine_value k -> engine_value v ->
  keeps admin_client_described (sends (reads_with_id_and_token AdminRouter.NODE_AUTH))
    (AdminRouter.Client.resume node_id k v).
Proof.
  intros Hid Hk Hv. destruct k; cbn [AdminRouter.Client.resume].
  - apply admin_await_described; [exact I|intros ?; exact I].
  - apply admin_await_described; [exact Hv|intros ?; exact I].
  - apply keeps_emit. apply admin_message_sent; [constructor|exact Hk|exact Hid].
  - apply admin_await_described; [exact Hv|intros ?; exact I].
  - apply keeps_emit. apply admin_message_sent; [constructor|exact Hk|exact Hid].
  - apply keeps_ret.
Qed.

Lemma addRoute_described data :
  keeps admin_described (client_sends (reads_with_id_and_token AdminRouter.NODE_AUTH))
    (AdminRouter.addRoute data).
Proof.
  unfold AdminRouter.addRoute, AdminRouter.getClientById.
  apply keeps_bind; [apply keeps_emit; exact I|intros _].
  apply keeps_bind; [apply keeps_element|intros source].
  apply keeps_bind; [apply keeps_bind; [apply keeps_read|intros ?; apply keeps_modelled]|intros client].
  apply keeps_bind.
  { destruct client; [|apply keeps_throw].
    apply keeps_bind; [apply keeps_read|intros ?; apply keeps_ret]. }
  intros srcStream.
  apply keeps_bind; [apply keeps_length_of|intros count].
  apply keeps_for_each. intros i.
  apply keeps_bind; [apply keeps_element|intros dest].
  apply keeps_bind; [apply keeps_bind; [apply keeps_read|intros ?; apply keeps_modelled]|intros user].
  destruct user as [u|].
  - apply keeps_bind; [apply admin_on_client; apply addMediaStream_described|intros _].
    apply keeps_this. intros n [Hid _].
    apply admin_on_client. apply renegotiateWebRTC_described. exact Hid.
  - apply keeps_bind; [apply keeps_modelled|intros who].
    apply keeps_bind; [apply keeps_emit; exact I|intros _]. apply keeps_throw.
Qed.

Lemma adminCommands_described req :
  document (AdminRouter.Request.data req) ->
  keeps admin_described (client_sends (reads_with_id_and_token AdminRouter.NODE_AUTH))
    (AdminRouter.adminCommands req).
Proof.
  intros Hd. unfold AdminRouter.adminCommands.
  apply keeps_bind; [apply keeps_emit; exact I|intros _].
  apply keeps_bind; [apply keeps_read|intros n].
  destruct (negb (JS.truthy (AdminRouter.NODE_ID n))); [apply keeps_ret|].
  destruct (JS.is_string (AdminRouter.Request.action req) "setId").
  - apply keeps_update. intros s [_ Hs]. split; [exact Hd|exact Hs].
  - destruct (JS.is_string (AdminRouter.Request.action req) "addRoute");
      [apply addRoute_described|apply keeps_ret].
Qed.

Lemma socketMessage_described self raw :
  readable_data raw ->
  keeps admin_described (client_sends (reads_with_id_and_token AdminRouter.NODE_AUTH))
    (AdminRouter.socketMessage self raw).
Proof.
  intros Hr. unfold AdminRouter.socketMessage.
  apply (keeps_bind_with _ _ (fun req => document (AdminRouter.Request.data req))).
  - apply admin_on_client. apply admin_Request_new_keeps.
  - intros s req H. apply on_client_result in H. destruct H as [c H].
    apply (request_data_document raw c req Hr H).
  - intros req Hd.
    destruct (AdminRouter.Request.parseError req); [apply keeps_ret|].
    apply keeps_bind; [apply admin_on_client; apply getAuthentication_described|intros ok].
    destruct (negb ok).
    + apply admin_on_client. repeat admin_client_step.
    + apply keeps_bind; [apply keeps_read|intros n].
      destruct (nth_error (AdminRouter.clients n) self) as [c|]; [|apply keeps_unmodelled].
      destruct (AdminRouter.Client.isAdmin c).
      * apply adminCommands_described. exact Hd.
      * apply admin_on_client. apply commands_described.
Qed.

Lemma admin_handle_keeps e :
  admin_event e ->
  keeps admin_described (client_sends (reads_with_id_and_token AdminRouter.NODE_AUTH))
    (AdminRouter.handle e).
Proof.
  destruct e; cbn [AdminRouter.handle admin_event]; intros He.
  - apply keeps_bind; [apply keeps_emit; exact I|intros _].
    apply keeps_update. intros s [Hid Hs]. split; [exact Hid|].
    cbn. apply Forall_app. split; [exact Hs|]. repeat constructor.
  - apply socketMessage_described. exact He.
  - apply admin_on_client. repeat admin_client_step.
  - destruct (JS.truthy candidate); [|apply keeps_ret].
    apply keeps_this. intros n [Hid _].
    apply admin_on_client.
    apply keeps_bind; [apply keeps_emit; exact I|intros _].
    apply keeps_emit. apply admin_message_sent; [constructor|exact He|exact Hid].
  - apply keeps_this. intros n [Hid _].
    apply admin_on_client.
    apply keeps_this. intros c Hc.
    destruct (AdminRouter.Client.waiting_on promise (AdminRouter.Client.awaiting c))
      as [k|] eqn:Hk; [|apply keeps_ret].
    apply admin_waiting_on_In in Hk.
    assert (Hheld : admin_holds_engine_value k).
    { unfold admin_client_described in Hc. rewrite Forall_forall in Hc. apply (Hc _ Hk). }
    apply keeps_bind; [apply keeps_update; intros s; apply admin_described_forget|intros _].
    apply resume_described; assumption.
Qed.

(** C6 amended.  Where what the engine hands over, a description or a
    candidate, is JSON data or undefined, and every number in the data of
    what the router of [part_000] is sent is read back from its text: in the
    router of [part_003], over any run of events from any state, every text
    that a session of the accepting role sends reads as an object with an
    action, without an id and without a token, and every text that a session
    of the initiating role sends reads as an object with an action, with
    the name of the node for its id and the token of the node for its token;
    in the router of [part_000], where every session accepts, every text
    sent reads as an object with an action, an id and the token of the
    node. *)
Theorem messages_of_the_two_roles :
  forall (node : SocketRouter.Globals) (events : list SocketRouter.event)
         (c : SocketRouter.ClientConnection.t)
         (admin_events : list AdminRouter.event) (n : AdminRouter.t),
    Forall engine_event events ->
    described c ->
    Forall admin_event admin_events ->
    admin_described n ->
    Forall (sends reads_without_credentials)
      (trace (SocketRouter.run node SocketRouter.Inbound events c))
    /\ Forall (sends (reads_with_credentials
                        (JS.VString (SocketRouter.NODE_INSTANCE_NAME node))
                        (JS.VString (SocketRouter.NODE_AUTH node))))
         (trace (SocketRouter.run node SocketRouter.Outbound events c))
    /\ Forall (client_sends (reads_with_id_and_token AdminRouter.NODE_AUTH))
         (trace (AdminRouter.run admin_events n)).
Proof.
  intros node events c admin_events n Hevents Hc Hadmin Hn. split; [|split].
  - apply (keeps_run described _ engine_event _ events
             (inbound_handle_keeps node) Hevents c Hc).
  - apply (keeps_run described _ engine_event _ events
             (outbound_handle_keeps node) Hevents c Hc).
  - apply (keeps_run admin_described _ admin_event _ admin_events
             admin_handle_keeps Hadmin n Hn).
Qed.

Lemma sdp_document kind text : document (Scenario.sdp kind text).
Proof.
  constructor.
  - repeat (constructor; [repeat (constructor; [reflexivity|]); constructor|reflexivity|]).
    constructor.
  - repeat (constructor; [constructor|]). constructor.
Qed.

Lemma local_candidate_document : document Scenario.local_candidate.
Proof.
  constructor.
  - repeat (constructor; [repeat (constructor; [reflexivity|]); constructor|reflexivity|]).
    constructor.
  - constructor; [constructor|]. constructor; [constructor|].
    constructor; [|constructor]. constructor. reflexivity.
Qed.

(** The negotiation of the scenarios, in either role and on the router of
    [part_000]: what is sent, and that it reads without credentials in the
    accepting role and with them elsewhere. *)
Lemma messages_of_the_two_roles_witness :
  let sent tr := flat_map (fun e => match e with SocketSend d => [d] | _ => [] end) tr in
  sent (trace (SocketRouter.run Scenario.dev_node SocketRouter.Inbound Scenario.negotiation
                 SocketRouter.ClientConnection.new))
  = [dq "{'action':'renegotiate','data':null}";
     dq "{'action':'answer','data':{'type':'answer','sdp':'v=1'}}";
     dq "{'action':'addICE','data':{'candidate':'candidate:1 1 udp 2122260223 10.0.0.7 9 typ host','sdpMid':'0','sdpMLineIndex':0}}"]
  /\ sent (trace (SocketRouter.run Scenario.dev_node SocketRouter.Outbound Scenario.negotiation
                    SocketRouter.ClientConnection.new))
     = [dq "{'action':'offer','data':{'type':'offer','sdp':'v=2'},'id':'default-dev-id','token':''}";
        dq "{'action':'addICE','data':{'candidate':'candidate:1 1 udp 2122260223 10.0.0.7 9 typ host','sdpMid':'0','sdpMLineIndex':0},'id':'default-dev-id','token':''}"]
  /\ Forall (sends reads_without_credentials)
       (trace (SocketRouter.run Scenario.dev_node SocketRouter.Inbound Scenario.negotiation
                 SocketRouter.ClientConnection.new))
  /\ Forall (sends (reads_with_credentials (JS.VString "default-dev-id") (JS.VString "")))
       (trace (SocketRouter.run Scenario.dev_node SocketRouter.Outbound Scenario.negotiation
                 SocketRouter.ClientConnection.new))
  /\ Forall (client_sends (reads_with_id_and_token (JS.VString "testauth")))
       (trace (AdminRouter.run Scenario.admin_negotiation AdminRouter.new)).
Proof.
  cbv zeta. split; [vm_compute; reflexivity|]. split; [vm_compute; reflexivity|].
  apply (messages_of_the_two_roles Scenario.dev_node Scenario.negotiation
           SocketRouter.ClientConnection.new Scenario.admin_negotiation AdminRouter.new).
  - repeat (constructor; [first [exact I | left; reflexivity | right; apply sdp_document
                                | right; apply local_candidate_document]|]).
    constructor.
  - constructor.
  - constructor; [exact I|]. constructor.
    { unfold admin_event, readable_data.
      change (numbers_read_back (Scenario.sdp "offer" "v=0")). cbn. tauto. }
    repeat (constructor; [first [exact I | left; reflexivity | right; apply sdp_document
                                | right; apply local_candidate_document]|]).
    constructor.
  - split; [constructor|constructor].
Defined.

(** C6 as the claim states it, refuted by the other place it cites: the
    router of [part_000] answers the offer of a client, a session that
    accepted the negotiation, with a message that has both an id and a
    token. *)
Lemma admin_router_answers_carry_credentials :
  let r := AdminRouter.run
             [AdminRouter.OnConnection;
              AdminRouter.OnMessage 0 Scenario.admin_offer;
              AdminRouter.Fulfilled 0 0 JS.VUndefined;
              AdminRouter.Fulfilled 0 1 (Scenario.sdp "answer" "v=1");
              AdminRouter.Fulfilled 0 2 JS.VUndefined]
             AdminRouter.new in
  let answer :=
    AdminRouter.Response.generateAnswerMessage (JS.VString "default")
      AdminRouter.NODE_AUTH (Scenario.sdp "answer" "v=1") in
  last (trace r) (NodeLog "" 0) = OfClient 0 (SocketSend answer)
  /\ map AdminRouter.Client.isInitiator (AdminRouter.clients (final r)) = [false]
  /\ JS.carries answer "id" = true
  /\ JS.carries answer "token" = true.
Proof.
  cbv zeta. split; [|split; [|split]].
  - vm_compute. reflexivity.
  - vm_compute. reflexivity.
  - vm_compute. reflexivity.
  - vm_compute. reflexivity.
Qed.

(* ================================================================== *)
(** * Decoding and encoding again *)
(* ================================================================== *)

Lemma field_decodes props k default : decodes_to props k default (JS.field props k default).
Proof.
  unfold decodes_to, JS.field, JS.own, JS.nullish_or.
  split; [|split].
  - intros v Hv Hn. rewrite Hv, Hn. reflexivity.
  - intros Hv. rewrite Hv. reflexivity.
  - intros Hv. rewrite Hv. reflexivity.
Qed.

Lemma field_document props k d :
  Forall (fun p => document (snd p)) props -> document d ->
  document (JS.field props k d).
Proof.
  intros Hp Hd. unfold JS.field, JS.own, JS.nullish_or.
  induction Hp as [|[k' x] props Hx Hp IH]; cbn; [exact Hd|].
  destruct (String.eqb k k'); [|exact IH].
  cbn in Hx. destruct Hx; cbn; try exact Hd; constructor; assumption.
Qed.

Lemma nullish_or_field props k d :
  JS.nullish_or (JS.field props k d) d = JS.field props k d.
Proof.
  unfold JS.field, JS.nullish_or.
  destruct (JS.is_nullish (JS.own props k)) eqn:E.
  - destruct (JS.is_nullish d); reflexivity.
  - rewrite E. reflexivity.
Qed.

Lemma field_of_four a d i t x :
  let four := [("action", a); ("data", d); ("id", i); ("token", t)] in
  JS.field four "action" x = JS.nullish_or a x
  /\ JS.field four "data" x = JS.nullish_or d x
  /\ JS.field four "id" x = JS.nullish_or i x
  /\ JS.field four "token" x = JS.nullish_or t x.
Proof. cbv zeta. repeat split; reflexivity. Qed.

(** C9 amended.  A text that is a JSON object decodes without a parse error;
    each of action, data, id and token is the value the object has for it,
    or the default when the object has none: the empty string for action, id
    and token, null for data.  When every number in the four decoded values
    is read back from the text written for it, encoding the decoded message
    again gives a text that parses to the object of these four values, and
    that decodes to the same message. *)
Theorem decode_then_encode_keeps_fields_and_fills_defaults :
  forall (St : Type) (s : St) (raw : string) (props : list (string * JS.value)),
    JS.JSON_parse raw = Some (JS.VObject props) ->
    exists req,
      AdminRouter.Request.new raw s = (Returned req, s, [Log raw 4])
      /\ AdminRouter.Request.parseError req = false
      /\ decodes_to props "action" (JS.VString "") (AdminRouter.Request.action req)
      /\ decodes_to props "data" JS.VNull (AdminRouter.Request.data req)
      /\ decodes_to props "id" (JS.VString "") (AdminRouter.Request.id req)
      /\ decodes_to props "token" (JS.VString "") (AdminRouter.Request.token req)
      /\ (numbers_read_back (AdminRouter.Request.action req) ->
          numbers_read_back (AdminRouter.Request.data req) ->
          numbers_read_back (AdminRouter.Request.id req) ->
          numbers_read_back (AdminRouter.Request.token req) ->
          JS.JSON_parse (encode req)
          = Some (JS.VObject [("action", AdminRouter.Request.action req);
                              ("data", AdminRouter.Request.data req);
                              ("id", AdminRouter.Request.id req);
                              ("token", AdminRouter.Request.token req)])
          /\ AdminRouter.Request.new (encode req) s
             = (Returned req, s, [Log (encode req) 4])).
Proof.
  intros St s raw props Hraw.
  eexists. split; [apply (Request_new_object _ _ _ Hraw)|].
  cbn [AdminRouter.Request.parseError AdminRouter.Request.action
       AdminRouter.Request.data AdminRouter.Request.id AdminRouter.Request.token].
  split; [reflexivity|].
  split; [apply field_decodes|]. split; [apply field_decodes|].
  split; [apply field_decodes|]. split; [apply field_decodes|].
  intros Ha Hd Hi Ht.
  apply (field_of_parsed_document raw props "action" _ Hraw (parsed_string _)) in Ha.
  apply (field_of_parsed_document raw props "data" _ Hraw parsed_null) in Hd.
  apply (field_of_parsed_document raw props "id" _ Hraw (parsed_string _)) in Hi.
  apply (field_of_parsed_document raw props "token" _ Hraw (parsed_string _)) in Ht.
  assert (Htext : JS.JSON_parse
                    (encode {| AdminRouter.Request.parseError := false;
                               AdminRouter.Request.action := JS.field props "action" (JS.VString "");
                               AdminRouter.Request.data := JS.field props "data" JS.VNull;
                               AdminRouter.Request.id := JS.field props "id" (JS.VString "");
                               AdminRouter.Request.token := JS.field props "token" (JS.VString "") |})
                  = Some (JS.VObject [("action", JS.field props "action" (JS.VString ""));
                                      ("data", JS.field props "data" JS.VNull);
                                      ("id", JS.field props "id" (JS.VString ""));
                                      ("token", JS.field props "token" (JS.VString ""))])).
  { unfold encode, AdminRouter.Response.generateGenericMessage.
    cbn [AdminRouter.Request.action AdminRouter.Request.data AdminRouter.Request.id
         AdminRouter.Request.token].
    apply JSON_parse_stringify. constructor; [apply four_fields_ordered|].
    repeat (constructor; [assumption|]). constructor. }
  split; [exact Htext|].
  rewrite (Request_new_object _ _ s Htext).
  match goal with
  | |- context [JS.field [("action", ?a); ("data", ?d); ("id", ?i); ("token", ?t)]] =>
      destruct (field_of_four a d i t (JS.VString "")) as [Ea [_ [Ei Et]]];
      destruct (field_of_four a d i t JS.VNull) as [_ [Ed _]];
      cbv zeta in Ea, Ed, Ei, Et; rewrite Ea, Ed, Ei, Et
  end.
  rewrite !nullish_or_field. reflexivity.
Qed.

(** C9 amended, at the offer of dave, which has all four fields, with a line
    index in its payload: decoding and encoding again gives the text back,
    and the text decodes to the same message. *)
Lemma decode_then_encode_witness :
  exists req,
    AdminRouter.Request.new indexed_offer tt
    = (Returned req, tt, [Log indexed_offer 4])
    /\ AdminRouter.Request.id req = JS.VString "dave"
    /\ encode req = indexed_offer
    /\ AdminRouter.Request.new (encode req) tt = (Returned req, tt, [Log (encode req) 4]).
Proof.
  assert (Hraw : JS.JSON_parse indexed_offer
                 = Some (JS.VObject [("action", JS.VString "offer");
                                     ("data", JS.VObject
                                                [("sdp", JS.VString "v=0");
                                                 ("index", JS.VNumber (JS.Finite false 3 0))]);
                                     ("id", JS.VString "dave");
                                     ("token", JS.VString "testauth")]))
    by (vm_compute; reflexivity).
  destruct (decode_then_encode_keeps_fields_and_fills_defaults unit tt _ _ Hraw)
    as [req [Hnew [_ [Ha [Hd [Hi [Ht Hagain]]]]]]].
  exists req. split; [exact Hnew|].
  pose proof (proj1 Ha _ eq_refl eq_refl) as Ea.
  pose proof (proj1 Hd _ eq_refl eq_refl) as Ed.
  pose proof (proj1 Hi _ eq_refl eq_refl) as Ei.
  pose proof (proj1 Ht _ eq_refl eq_refl) as Et.
  split; [exact Ei|]. split.
  - unfold encode. rewrite Ea, Ed, Ei, Et. vm_compute. reflexivity.
  - apply Hagain; rewrite ?Ea, ?Ed, ?Ei, ?Et; cbn; repeat split; reflexivity.
Defined.

(** C9 as the claim states it, refuted: a number beyond the range of
    binary64 is a structurally valid payload.  It is decoded as an
    infinity, which is encoded as null; the text encoded decodes to a
    message whose data is null, not the data that was decoded. *)
Lemma a_number_beyond_binary64_is_encoded_as_null :
  let raw := dq "{'action':'offer','data':1e400,'id':'dave','token':'testauth'}" in
  exists req again,
    AdminRouter.Request.new raw tt = (Returned req, tt, [Log raw 4])
    /\ AdminRouter.Request.data req = JS.VNumber (JS.Infinite false)
    /\ encode req = dq "{'action':'offer','data':null,'id':'dave','token':'testauth'}"
    /\ AdminRouter.Request.new (encode req) tt = (Returned again, tt, [Log (encode req) 4])
    /\ AdminRouter.Request.data again = JS.VNull
    /\ AdminRouter.Request.data again <> AdminRouter.Request.data req.
Proof.
  cbv zeta. eexists. eexists.
  split; [vm_compute; reflexivity|].
  split; [reflexivity|]. split; [vm_compute; reflexivity|].
  split; [vm_compute; reflexivity|]. split; [reflexivity|]. discriminate.
Qed.

(* ================================================================== *)
(** * A message made and read *)
(* ================================================================== *)

(** A message of [part_000] made and read: what
    [Response.generateGenericMessage] writes of four fields, the payload
    possibly undefined, [new Request] reads without a parse error, and it
    gives each field as it was written, or its default where the field was
    written null or not at all. *)
Theorem a_message_made_is_read_with_its_fields :
  forall (St : Type) (s : St) (action data id token : JS.value),
    document action -> engine_value data -> document id -> document token ->
    let text := AdminRouter.Response.generateGenericMessage action data id token in
    AdminRouter.Request.new text s
    = (Returned {| AdminRouter.Request.parseError := false;
                   AdminRouter.Request.action := JS.nullish_or action (JS.VString "");
                   AdminRouter.Request.data := JS.nullish_or data JS.VNull;
                   AdminRouter.Request.id := JS.nullish_or id (JS.VString "");
                   AdminRouter.Request.token := JS.nullish_or token (JS.VString "") |},
       s, [Log text 4]).
Proof.
  intros St s action data id token Ha [->|Hd] Hi Ht; cbv zeta;
    unfold AdminRouter.Response.generateGenericMessage.
  - rewrite (Request_new_object _ [("action", action); ("id", id); ("token", token)] s).
    + reflexivity.
    + change (JS.JSON_stringify (JS.VObject [("action", action); ("data", JS.VUndefined);
                                             ("id", id); ("token", token)]))
        with (JS.JSON_stringify (JS.VObject [("action", action); ("id", id); ("token", token)])).
      apply JSON_parse_stringify. constructor; [apply three_fields_ordered|].
      repeat (constructor; [assumption|]). constructor.
  - rewrite (Request_new_object _ [("action", action); ("data", data);
                                     ("id", id); ("token", token)] s).
    + reflexivity.
    + apply JSON_parse_stringify. constructor; [apply four_fields_ordered|].
      repeat (constructor; [assumption|]). constructor.
Qed.

(** The answer of the router to the offer of the scenarios, read by a
    router. *)
Lemma a_message_made_is_read_witness :
  AdminRouter.Request.new
    (AdminRouter.Response.generateAnswerMessage (JS.VString "default")
       AdminRouter.NODE_AUTH (Scenario.sdp "answer" "v=1")) tt
  = (Returned {| AdminRouter.Request.parseError := false;
                 AdminRouter.Request.action := JS.VString "answer";
                 AdminRouter.Request.data := Scenario.sdp "answer" "v=1";
                 AdminRouter.Request.id := JS.VString "default";
                 AdminRouter.Request.token := JS.VString "testauth" |},
     tt,
     [Log (dq "{'action':'answer','data':{'type':'answer','sdp':'v=1'},'id':'default','token':'testauth'}") 4]).
Proof.
  apply (a_message_made_is_read_with_its_fields unit tt (JS.VString "answer")
           (Scenario.sdp "answer" "v=1") (JS.VString "default") AdminRouter.NODE_AUTH).
  - constructor.
  - right. apply sdp_document.
  - constructor.
  - constructor.
Defined.

(* ================================================================== *)
(** * Routing with a destination that is missing *)
(* ================================================================== *)

Lemma bind_ext {St Ev A B} (m : M St Ev A) (k k' : A -> M St Ev B) s :
  (forall a s1, k a s1 = k' a s1) -> bind m k s = bind m k' s.
Proof.
  intros H. unfold bind. destruct (m s) as [[[a| |] s1] t1]; [|reflexivity|reflexivity].
  rewrite H. reflexivity.
Qed.

Lemma for_each_ext {St Ev A} (l : list A) (f g : A -> M St Ev unit) :
  (forall x s, In x l -> f x s = g x s) ->
  forall s, for_each l f s = for_each l g s.
Proof.
  induction l as [|x l IH]; intros H s; [reflexivity|].
  cbn [for_each]. unfold bind. rewrite (H x s (or_introl eq_refl)).
  destruct (g x s) as [[[[]| |] s1] t1]; [|reflexivity|reflexivity].
  rewrite IH; [reflexivity|]. intros y s' Hy. apply H. right. exact Hy.
Qed.

(** The loop of [connectClients] starts at 1: the first of the destination
    ids is never read. *)
Lemma connectClients_skips_first src first first' rest n :
  RelayRouter.ConnectionManager.connectClients src (JS.VArray (first :: rest)) n
  = RelayRouter.ConnectionManager.connectClients src (JS.VArray (first' :: rest)) n.
Proof.
  unfold RelayRouter.ConnectionManager.connectClients.
  apply bind_ext. intros _ s1. apply bind_ext. intros [src_index|] s2; [|reflexivity].
  apply bind_ext. intros n' s3. cbn [length_of List.length].
  apply bind_ext. intros count s4.
  apply for_each_ext. intros i s5 Hi. apply in_seq in Hi.
  destruct i as [|j]; [lia|]. reflexivity.
Qed.

(** C1, where the code departs from it.  In the relay router the first of
    the destination ids is never looked up, whatever it is: the route of the
    specification, alice to bob, ghost and carol, attaches the camera to
    carol only.  In the router of [part_000] the first destination is the
    second element of the payload, and a destination that is absent is
    logged and then dereferenced: the handler throws at ghost, after bob
    and before carol. *)
Theorem route_skips_first_destination_or_stops_at_a_missing_one :
  (forall src first first' rest n,
      RelayRouter.ConnectionManager.connectClients src (JS.VArray (first :: rest)) n
      = RelayRouter.ConnectionManager.connectClients src (JS.VArray (first' :: rest)) n)
  /\ (let r := RelayRouter.handle Scenario.relay_node
                 (RelayRouter.Commands [Scenario.route_command]) Scenario.relay_ready in
      map RelayRouter.ClientConnection.id (RelayRouter.clients Scenario.relay_ready)
      = [JS.VString "alice"; JS.VString "bob"; JS.VString "carol"]
      /\ result r = Returned tt
      /\ trace r
         = [NodeLog "Got command snapshot" 9; NodeLog "Routing streams" 4;
            NodeLog "Routing error: Destination client with id ghost does not exist" 1;
            OfClient 2 (Log "Adding media track to usercarol" 4);
            OfClient 2 (PeerAddTrack 1 Scenario.camera);
            OfClient 2 (Log "Adding media track to usercarol" 4);
            OfClient 2 (PeerAddTrack 2 Scenario.camera);
            OfClient 2 (DocAdd "meetings/devgroup/clients/carol/commands"
                          (JS.VObject [("id", JS.VString "router-1");
                                       ("command", JS.VString "renegotiate")]))])
  /\ (let r := AdminRouter.handle (AdminRouter.OnMessage 3 Scenario.admin_route)
                 Scenario.admin_ready in
      map AdminRouter.Client.id_ (AdminRouter.clients Scenario.admin_ready)
      = [JS.VString "alice"; JS.VString "bob"; JS.VString "carol"; JS.VNull]
      /\ result r
         = Threw (JS.TypeError "Cannot read properties of null (reading 'addMediaStream')")
      /\ trace r
         = [OfClient 3 (Log Scenario.admin_route 4);
            OfClient 3 (Log "Authenticated useradmin" 4);
            NodeLog "Admin command" 5; NodeLog "Routing streams" 4;
            OfClient 1 (Log "Adding media track to userbob" 4);
            OfClient 1 (PeerAddTrack 1 Scenario.camera);
            OfClient 1 (Log "Adding media track to userbob" 4);
            OfClient 1 (PeerAddTrack 2 Scenario.camera);
            OfClient 1 (SocketSend (AdminRouter.Response.generateRenegotiateMessage
                                      (JS.VString "default") AdminRouter.NODE_AUTH));
            NodeLog "No such user ghost" 3]).
Proof.
  split; [|split].
  - intros src first first' rest n. apply connectClients_skips_first.
  - cbv zeta. split; [|split].
    + vm_compute. reflexivity.
    + vm_compute. reflexivity.
    + vm_compute. reflexivity.
  - cbv zeta. split; [|split].
    + vm_compute. reflexivity.
    + vm_compute. reflexivity.
    + vm_compute. reflexivity.
Qed.

(* ================================================================== *)
(** * The identity of a session in the first router *)
(* ================================================================== *)

(** C2, where the code departs from it.  In the first router a message
    without an id leaves the identity of the session unbound although it
    authenticates; the next message binds whatever id it carries, and
    authenticates too. *)
Theorem first_router_rebinds_after_a_message_without_id :
  (forall (command data command' data' : JS.value) (i : string) (f : FirstRouter.Client.t),
      let without_id :=
        {| FirstRouter.Request.parseError := false;
           FirstRouter.Request.command := command; FirstRouter.Request.data := data;
           FirstRouter.Request.id := JS.VUndefined;
           FirstRouter.Request.token := JS.VString "testauth" |} in
      let with_id :=
        {| FirstRouter.Request.parseError := false;
           FirstRouter.Request.command := command'; FirstRouter.Request.data := data';
           FirstRouter.Request.id := JS.VString i;
           FirstRouter.Request.token := JS.VString "testauth" |} in
      let first := FirstRouter.Client.getAuthentication without_id
                     (FirstRouter.Client.set_id JS.VNull f) in
      let second := FirstRouter.Client.getAuthentication with_id (final first) in
      result first = Returned true
      /\ FirstRouter.Client.id_ (final first) = JS.VUndefined
      /\ result second = Returned true
      /\ FirstRouter.Client.id_ (final second) = JS.VString i)
  /\ (let r := (FirstRouter.socketMessage 0 Scenario.anonymous ;;
                FirstRouter.socketMessage 0 Scenario.mallory) [FirstRouter.Client.new] in
      result r = Returned tt
      /\ trace r = [OfClient 0 (Log Scenario.anonymous 4);
                    OfClient 0 (Log "Authenticated userundefined" 4);
                    OfClient 0 (Log Scenario.mallory 4);
                    OfClient 0 (Log "Authenticated usermallory" 4)]
      /\ map FirstRouter.Client.id_ (final r) = [JS.VString "mallory"]).
Proof.
  split.
  - intros command data command' data' i f. cbv zeta.
    unfold FirstRouter.Client.getAuthentication. handler. cbn.
    destruct (String.eqb i "admin"); cbn; repeat split; reflexivity.
  - cbv zeta. split; [|split].
    + vm_compute. reflexivity.
    + vm_compute. reflexivity.
    + vm_compute. reflexivity.
Qed.

(* ================================================================== *)
(** * The handoff of the relay router *)
(* ================================================================== *)

(** C7, where the code departs from it.  In the relay router the callback of
    the subscription keeps no guard: two notifications that carry the
    assignment, the second arriving while the first callback waits for its
    write of the registration, each cancel the subscription, delete the
    registration document and start the router. *)
Theorem relay_handoff_runs_for_each_notification :
  forall (node : RelayRouter.Globals) (more more' : list (string * JS.value))
         (id : JS.value) (cl : list RelayRouter.ClientConnection.t) (w : nat),
    let n := {| RelayRouter.NODE_ID := id; RelayRouter.clients := cl;
                RelayRouter.writes := w; RelayRouter.suspended := [] |} in
    let subscriptions :=
      map (fun kind => Subscribe ("meetings/" ++ RelayRouter.NODE_INSTANCE_GROUP_NAME node
                                  ++ "/clients/" ++ RelayRouter.NODE_INSTANCE_NAME node
                                  ++ "/" ++ kind))
          ["receivedOffers"; "receivedAnswers"; "receivedIce"; "commands"] in
    let r := RelayRouter.run node
               [RelayRouter.Snapshot [assigned more];
                RelayRouter.Snapshot [assigned more'];
                RelayRouter.Acknowledged w;
                RelayRouter.Acknowledged (S w);
                RelayRouter.Acknowledged (S (S w));
                RelayRouter.Acknowledged (S (S (S w)))] n in
    result r = Returned tt
    /\ trace r
       = ([DocSet (RelayRouter.registration node); DocSet (RelayRouter.registration node);
           NodeLog "Got firebase snapshot" 9; Unsubscribe; DocDelete;
           NodeLog "Got firebase snapshot" 9; Unsubscribe; DocDelete;
           NodeLog "Starting..." 3] ++ subscriptions
          ++ [NodeLog "Starting..." 3] ++ subscriptions)%list
    /\ handoffs (trace r) = 2.
Proof.
  intros node more more' id cl w. cbv zeta.
  unfold RelayRouter.run. cbn [for_each RelayRouter.handle].
  unfold RelayRouter.snapshot, RelayRouter.acknowledged, RelayRouter.startRouter,
    RelayRouter.SignalManager.new.
  handler.
  cbn -[Nat.eqb].
  repeat (progress (decide_eqb; cbn -[Nat.eqb])).
  split; [reflexivity|]. split; reflexivity.
Qed.

(* ================================================================== *)
(** * The answer and ICE handlers of the relay router *)
(* ================================================================== *)

Lemma relay_handleAnswer_added n c cc who props :
  JS.own props "id" = JS.VString who ->
  RelayRouter.ClientManager.first_with_id (JS.VString who) (RelayRouter.clients n) 0
  = Some (Some c) ->
  nth_error (RelayRouter.clients n) c = Some cc ->
  RelayRouter.ClientConnection.id cc = JS.VString who ->
  JS.truthy (JS.own props "answer") = true ->
  trace (RelayRouter.SignalManager.handleAnswer [added props] n)
  = [OfClient c (Log ("Got answer from '" ++ who ++ "'") 5);
     OfClient c (PeerCall (RelayRouter.ClientConnection.promises cc)
                   (SetRemoteDescription (JS.own props "offer")));
     NodeLog ("Got null answer from client id " ++ who) 1].
Proof.
  intros Hid Hfind Hnth Hcc Hanswer.
  unfold RelayRouter.SignalManager.handleAnswer, added. cbn [for_each RelayRouter.type RelayRouter.doc].
  unfold RelayRouter.ClientManager.getClientById, RelayRouter.on_client, on_nth,
    RelayRouter.ClientConnection.handleAnswer, RelayRouter.ClientConnection.call.
  handler. cbn [String.eqb Ascii.eqb Bool.eqb JS.get].
  rewrite Hid. handler. cbv beta iota zeta. rewrite Hfind. handler. cbv beta iota zeta.
  rewrite Hanswer. cbv beta iota zeta. rewrite Hnth. cbv beta iota zeta. rewrite Hcc.
  cbn. reflexivity.
Qed.

Lemma relay_handleICE_added n c cc who props :
  JS.own props "id" = JS.VString who ->
  RelayRouter.ClientManager.first_with_id (JS.VString who) (RelayRouter.clients n) 0
  = Some (Some c) ->
  nth_error (RelayRouter.clients n) c = Some cc ->
  RelayRouter.ClientConnection.id cc = JS.VString who ->
  JS.truthy (JS.own props "ice") = true ->
  trace (RelayRouter.SignalManager.handleICE [added props] n)
  = [OfClient c (Log ("Got ICE from '" ++ who ++ "'") 5);
     OfClient c (PeerAddIceCandidate (JS.own props "offer"));
     NodeLog ("Got null ICE from client id " ++ who) 1].
Proof.
  intros Hid Hfind Hnth Hcc Hice.
  unfold RelayRouter.SignalManager.handleICE, added. cbn [for_each RelayRouter.type RelayRouter.doc].
  unfold RelayRouter.ClientManager.getClientById, RelayRouter.on_client, on_nth,
    RelayRouter.ClientConnection.handleIce.
  handler. cbn [String.eqb Ascii.eqb Bool.eqb JS.get].
  rewrite Hid. handler. cbv beta iota zeta. rewrite Hfind. handler. cbv beta iota zeta.
  rewrite Hice. cbv beta iota zeta. rewrite Hnth. cbv beta iota zeta. rewrite Hcc.
  cbn. reflexivity.
Qed.

(** C8, where the code departs from it.  For an added document of a known
    client, with an answer that is not null, set-remote-description is
    called with the field offer of the document; with an ice that is not
    null, add-ice-candidate is called with the field offer of the document.
    Either way the handler then logs that it got a null payload. *)
Theorem relay_answer_and_ice_handlers_pass_the_offer_field :
  forall (n : RelayRouter.t) (c : nat) (cc : RelayRouter.ClientConnection.t)
         (who : string) (props : list (string * JS.value)),
    JS.own props "id" = JS.VString who ->
    RelayRouter.ClientManager.first_with_id (JS.VString who) (RelayRouter.clients n) 0
    = Some (Some c) ->
    nth_error (RelayRouter.clients n) c = Some cc ->
    RelayRouter.ClientConnection.id cc = JS.VString who ->
    (JS.truthy (JS.own props "answer") = true ->
     trace (RelayRouter.SignalManager.handleAnswer [added props] n)
     = [OfClient c (Log ("Got answer from '" ++ who ++ "'") 5);
        OfClient c (PeerCall (RelayRouter.ClientConnection.promises cc)
                      (SetRemoteDescription (JS.own props "offer")));
        NodeLog ("Got null answer from client id " ++ who) 1])
    /\ (JS.truthy (JS.own props "ice") = true ->
        trace (RelayRouter.SignalManager.handleICE [added props] n)
        = [OfClient c (Log ("Got ICE from '" ++ who ++ "'") 5);
           OfClient c (PeerAddIceCandidate (JS.own props "offer"));
           NodeLog ("Got null ICE from client id " ++ who) 1]).
Proof.
  intros n c cc who props Hid Hfind Hnth Hcc. split.
  - intros Hanswer. apply (relay_handleAnswer_added n c cc who props); assumption.
  - intros Hice. apply (relay_handleICE_added n c cc who props); assumption.
Qed.

(** C8 at the documents of the specification, which have their payload in
    the field answer or ice and no field offer: the engine is given
    undefined, and the payload is logged as null. *)
Lemma relay_answer_handler_witness :
  trace (RelayRouter.SignalManager.handleAnswer [Scenario.answer_document]
           Scenario.relay_ready)
  = [OfClient 0 (Log "Got answer from 'alice'" 5);
     OfClient 0 (PeerCall 0 (SetRemoteDescription JS.VUndefined));
     NodeLog "Got null answer from client id alice" 1]
  /\ trace (RelayRouter.SignalManager.handleICE [Scenario.ice_document]
              Scenario.relay_ready)
     = [OfClient 0 (Log "Got ICE from 'alice'" 5);
        OfClient 0 (PeerAddIceCandidate JS.VUndefined);
        NodeLog "Got null ICE from client id alice" 1].
Proof.
  pose (alice := nth 0 (RelayRouter.clients Scenario.relay_ready)
                   {| RelayRouter.ClientConnection.id := JS.VNull;
                      RelayRouter.ClientConnection.isInitiator := false;
                      RelayRouter.ClientConnection.clientStreams := [];
                      RelayRouter.ClientConnection.offerRef := "";
                      RelayRouter.ClientConnection.answerRef := "";
                      RelayRouter.ClientConnection.iceRef := "";
                      RelayRouter.ClientConnection.commandRef := "";
                      RelayRouter.ClientConnection.promises := 0;
                      RelayRouter.ClientConnection.awaiting := [] |}).
  assert (Hfind : RelayRouter.ClientManager.first_with_id (JS.VString "alice")
                    (RelayRouter.clients Scenario.relay_ready) 0 = Some (Some 0))
    by (vm_compute; reflexivity).
  assert (Hnth : nth_error (RelayRouter.clients Scenario.relay_ready) 0 = Some alice)
    by (vm_compute; reflexivity).
  assert (Hid : RelayRouter.ClientConnection.id alice = JS.VString "alice")
    by (vm_compute; reflexivity).
  split.
  - apply (proj1 (relay_answer_and_ice_handlers_pass_the_offer_field
                    Scenario.relay_ready 0 alice "alice"
                    [("id", JS.VString "alice");
                     ("answer", JS.VObject [("type", JS.VString "answer");
                                            ("sdp", JS.VString "v=0")])]
                    eq_refl Hfind Hnth Hid)).
    reflexivity.
  - apply (proj2 (relay_answer_and_ice_handlers_pass_the_offer_field
                    Scenario.relay_ready 0 alice "alice"
                    [("id", JS.VString "alice");
                     ("ice", JS.VObject [("candidate", JS.VString "candidate:1")])]
                    eq_refl Hfind Hnth Hid)).
    reflexivity.
Defined.

(* ================================================================== *)
(** * The manager of part_003: routes *)
(* ================================================================== *)

Lemma for_each_stateless {St Ev A} (l : list A) (body : A -> M St Ev unit)
  (effects : A -> list Ev) s :
  (forall x, In x l -> body x s = (Returned tt, s, effects x)) ->
  for_each l body s = (Returned tt, s, flat_map effects l).
Proof.
  induction l as [|x l IH]; intros H; [reflexivity|].
  cbn [for_each flat_map]. unfold bind. rewrite (H x (or_introl eq_refl)).
  rewrite IH; [reflexivity|]. intros y Hy. apply H. right. exact Hy.
Qed.

Lemma for_each_seq_nth {St Ev A} (d : A) (body : A -> M St Ev unit) (l pre : list A) s :
  for_each (seq (List.length pre) (List.length l)) (fun i => body (nth i (pre ++ l) d)) s
  = for_each l body s.
Proof.
  revert pre s. induction l as [|x l IH]; intros pre s; [reflexivity|].
  cbn [List.length seq for_each]. unfold bind.
  rewrite nth_middle.
  destruct (body x s) as [[[[]| |] s1] t1]; [|reflexivity|reflexivity].
  specialize (IH (pre ++ [x])%list s1).
  rewrite length_app in IH. cbn [List.length] in IH. rewrite Nat.add_1_r in IH.
  rewrite <- app_assoc in IH. cbn [app] in IH. rewrite IH. reflexivity.
Qed.

Lemma last_with_id_string d l :
  forall i r, exists o, SocketRouter.Management.last_with_id (JS.VString d) l i r = Some o.
Proof.
  induction l as [|[role c] l IH]; intros i r; cbn; [eexists; reflexivity|].
  destruct (SocketRouter.ClientConnection.id c); cbn; try apply IH.
  destruct (String.eqb s d); apply IH.
Qed.

Lemma last_with_id_found d l :
  forall i r u,
    SocketRouter.Management.last_with_id (JS.VString d) l i r = Some (Some u) ->
    r = Some u
    \/ (i <= u /\ exists role c, nth_error l (u - i) = Some (role, c)
                                 /\ SocketRouter.ClientConnection.id c = JS.VString d).
Proof.
  induction l as [|[role c] l IH]; intros i r u H; cbn in H.
  - left. congruence.
  - destruct (JS.strict_eq (SocketRouter.ClientConnection.id c) (JS.VString d)) as [[|]|] eqn:E;
      [| |discriminate].
    + destruct (IH _ _ _ H) as [Hr|[Hle [role' [c' [Hn Hc]]]]].
      * right. inversion Hr; subst. split; [lia|]. exists role, c.
        rewrite Nat.sub_diag. split; [reflexivity|].
        destruct (SocketRouter.ClientConnection.id c); cbn in E; try discriminate.
        inversion E as [E']. apply String.eqb_eq in E'. subst. reflexivity.
      * right. split; [lia|]. exists role', c'.
        replace (u - i) with (S (u - S i)) by lia. split; assumption.
    + destruct (IH _ _ _ H) as [Hr|[Hle [role' [c' [Hn Hc]]]]].
      * left. exact Hr.
      * right. split; [lia|]. exists role', c'.
        replace (u - i) with (S (u - S i)) by lia. split; assumption.
Qed.

Lemma Management_set_same (m : SocketRouter.Management.t) :
  SocketRouter.Management.set_clients (SocketRouter.Management.clients m) m = m.
Proof. destruct m. reflexivity. Qed.

Lemma attach_run stream (c : SocketRouter.ClientConnection.t) d :
  SocketRouter.ClientConnection.id c = JS.VString d ->
  SocketRouter.ClientConnection.addMediaStream (Some stream) c = (Returned tt, c, attach d stream).
Proof.
  intros Hid. unfold SocketRouter.ClientConnection.addMediaStream, attach.
  apply for_each_stateless. intros track _. handler. rewrite Hid. reflexivity.
Qed.

(** One turn of the loop of [addRoute] on a manager whose sessions all
    accept: the manager is as before. *)
Lemma addRoute_step node (m : SocketRouter.Management.t) stream d :
  Forall (fun rc => fst rc = SocketRouter.Inbound) (SocketRouter.Management.clients m) ->
  (user <- SocketRouter.Management.getClientById (JS.VString d) ;;
   match user with
   | None =>
       who <- modelled (JS.to_text (JS.VString d)) ;;
       emit (NodeLog ("Routing error: Destination client with id " ++ who
                      ++ " does not exist") 1)
   | Some u =>
       SocketRouter.Management.on_client u (fun _ => SocketRouter.ClientConnection.addMediaStream (Some stream)) ;;
       SocketRouter.Management.on_client u (SocketRouter.Management.renegotiate node)
   end) m
  = (Returned tt, m, routed node (SocketRouter.Management.clients m) stream d).
Proof.
  intros Hroles. unfold routed, SocketRouter.Management.getClientById.
  destruct (last_with_id_string d (SocketRouter.Management.clients m) 0 None) as [o Ho].
  unfold bind at 1. unfold bind at 1. unfold this. rewrite Ho. cbn [modelled ret app].
  destruct o as [u|]; [|reflexivity].
  destruct (last_with_id_found _ _ _ _ _ Ho) as [Hr|[_ [role [c [Hn Hc]]]]];
    [discriminate|].
  rewrite Nat.sub_0_r in Hn.
  assert (Hrole : role = SocketRouter.Inbound).
  { rewrite Forall_forall in Hroles.
    apply (Hroles (role, c)). eapply nth_error_In. exact Hn. }
  subst role.
  unfold SocketRouter.Management.on_client, bind. 
  rewrite (on_nth_run _ _ _ _ _ _ Hn). cbn [fst snd].
  rewrite (attach_run stream c d Hc). unfold result, final, trace. cbn [fst snd].
  rewrite (replace_same _ _ _ Hn), Management_set_same.
  rewrite (on_nth_run _ _ _ _ _ _ Hn). cbn [fst snd SocketRouter.Management.renegotiate].
  unfold SocketRouter.InboundClient.renegotiateWebRTC, SocketRouter.ClientConnection.send, emit.
  unfold result, final, trace. cbn [fst snd].
  rewrite (replace_same _ _ _ Hn), Management_set_same.
  rewrite map_app. reflexivity.
Qed.

Lemma bind_ret_l {St Ev A B} (a : A) (k : A -> M St Ev B) s :
  bind (ret a) k s = k a s.
Proof. unfold bind, ret. destruct (k a s) as [[r s2] t2]. reflexivity. Qed.

Lemma flat_map_map {A B C} (f : B -> list C) (g : A -> B) (l : list A) :
  flat_map f (map g l) = flat_map (fun x => f (g x)) l.
Proof. induction l as [|x l IH]; [reflexivity|]. cbn. rewrite IH. reflexivity. Qed.

(** The route command of the manager of [part_003], on sessions that all
    accept: with the source present and its first stream received, the
    destinations are taken in the order given, every one that is present has
    the stream attached and a renegotiation asked, every one that is absent
    has one failure recorded, and the command returns. *)
Theorem management_route_reaches_every_present_destination :
  forall (node : SocketRouter.Globals) (m : SocketRouter.Management.t) (src : string) (dests : list string)
         (s : nat) (role : SocketRouter.role) (c : SocketRouter.ClientConnection.t)
         (stream : MediaStream),
    Forall (fun rc => fst rc = SocketRouter.Inbound) (SocketRouter.Management.clients m) ->
    SocketRouter.Management.last_with_id (JS.VString src) (SocketRouter.Management.clients m) 0 None
    = Some (Some s) ->
    nth_error (SocketRouter.Management.clients m) s = Some (role, c) ->
    nth 0 (SocketRouter.ClientConnection.clientStreams c) None = Some stream ->
    SocketRouter.Management.addRoute node (JS.VArray (JS.VString src :: map JS.VString dests)) m
    = (Returned tt, m,
       NodeLog "Routing streams" 4
       :: flat_map (routed node (SocketRouter.Management.clients m) stream) dests).
Proof.
  intros node m src dests s role c stream Hroles Hsrc Hnth Hstream.
  unfold SocketRouter.Management.addRoute.
  unfold bind at 1. unfold emit at 1.
  unfold bind at 1. cbn [element nth]. unfold ret at 1.
  unfold bind at 1. unfold SocketRouter.Management.getClientById at 1.
  unfold bind at 1. unfold this at 1. rewrite Hsrc. cbn [modelled]. unfold ret at 1.
  unfold bind at 1. unfold this at 1.
  unfold bind at 1. cbn [length_of List.length]. unfold ret at 1.
  rewrite Hnth, Hstream. rewrite length_map. cbn [Nat.sub]. rewrite Nat.sub_0_r.
  pose (body := fun dest : JS.value =>
                  (user <- SocketRouter.Management.getClientById dest ;;
                   match user with
                   | None =>
                       who <- modelled (JS.to_text dest) ;;
                       emit (NodeLog ("Routing error: Destination client with id " ++ who
                                      ++ " does not exist") 1)
                   | Some u =>
                       SocketRouter.Management.on_client u
                         (fun _ => SocketRouter.ClientConnection.addMediaStream (Some stream)) ;;
                       SocketRouter.Management.on_client u (SocketRouter.Management.renegotiate node)
                   end) : M SocketRouter.Management.t node_effect unit).
  rewrite (for_each_ext _ _
             (fun i => body (nth i ([JS.VString src] ++ map JS.VString dests)%list
                               JS.VUndefined))).
  2:{ intros i s' _. cbn [element app]. rewrite bind_ret_l. reflexivity. }
  rewrite <- (length_map JS.VString dests).
  change 1 with (List.length [JS.VString src]).
  rewrite (for_each_seq_nth JS.VUndefined body (map JS.VString dests) [JS.VString src] m).
  rewrite (for_each_stateless _ _
             (fun v => match v with
                       | JS.VString d => routed node (SocketRouter.Management.clients m) stream d
                       | _ => []
                       end)).
  - rewrite flat_map_map. reflexivity.
  - intros v Hv. apply in_map_iff in Hv. destruct Hv as [d [Hd _]]. subst v.
    unfold body. apply addRoute_step. exact Hroles.
Qed.

(** The route of the specification on the manager of [part_003]: bob and
    carol are reached, one failure is recorded for ghost; the message of the
    management server that carries the route does just this. *)
Lemma management_route_witness :
  SocketRouter.Management.addRoute Scenario.dev_node
    (JS.VArray (JS.VString "alice" :: map JS.VString ["bob"; "ghost"; "carol"]))
    Scenario.manager_ready
  = (Returned tt, Scenario.manager_ready,
     [NodeLog "Routing streams" 4;
      OfClient 1 (Log "Adding media track to userbob" 4);
      OfClient 1 (PeerAddTrack 1 Scenario.camera);
      OfClient 1 (Log "Adding media track to userbob" 4);
      OfClient 1 (PeerAddTrack 2 Scenario.camera);
      OfClient 1 (SocketSend (SocketRouter.SockResponse.RESP_RENEG Scenario.dev_node));
      NodeLog "Routing error: Destination client with id ghost does not exist" 1;
      OfClient 2 (Log "Adding media track to usercarol" 4);
      OfClient 2 (PeerAddTrack 1 Scenario.camera);
      OfClient 2 (Log "Adding media track to usercarol" 4);
      OfClient 2 (PeerAddTrack 2 Scenario.camera);
      OfClient 2 (SocketSend (SocketRouter.SockResponse.RESP_RENEG Scenario.dev_node))])
  /\ SocketRouter.Management.onManagementMessage Scenario.socket_error
       Scenario.dev_node Scenario.manager_route Scenario.manager_ready
     = (Returned tt, Scenario.manager_ready,
        NodeLog ("Socket message: " ++ Scenario.manager_route) 9
        :: trace (SocketRouter.Management.addRoute Scenario.dev_node
                    (JS.VArray (JS.VString "alice"
                                :: map JS.VString ["bob"; "ghost"; "carol"]))
                    Scenario.manager_ready)).
Proof.
  split; [|vm_compute; reflexivity].
  rewrite (management_route_reaches_every_present_destination
             Scenario.dev_node Scenario.manager_ready "alice" ["bob"; "ghost"; "carol"]
             0 SocketRouter.Inbound
             (snd (nth 0 (SocketRouter.Management.clients Scenario.manager_ready)
                     (SocketRouter.Inbound, SocketRouter.ClientConnection.new)))
             Scenario.camera).
  - vm_compute. reflexivity.
  - repeat constructor.
  - vm_compute. reflexivity.
  - vm_compute. reflexivity.
  - vm_compute. reflexivity.
Defined.

(* ================================================================== *)
(** * The gate of part_003: an identity is bound once *)
(* ================================================================== *)

Section Preserves.
Context {St Ev : Type} (P : St -> Prop).

Lemma preserves_ret {A} (a : A) : preserves P (ret (St := St) (Ev := Ev) a).
Proof. intros s H. exact H. Qed.

Lemma preserves_this : preserves P (this (St := St) (Ev := Ev)).
Proof. intros s H. exact H. Qed.

Lemma preserves_emit e : preserves P (emit (St := St) (Ev := Ev) e).
Proof. intros s H. exact H. Qed.

Lemma preserves_throw {A} e : preserves P (throw (St := St) (Ev := Ev) (A := A) e).
Proof. intros s H. exact H. Qed.

Lemma preserves_unmodelled {A} : preserves P (unmodelled (St := St) (Ev := Ev) (A := A)).
Proof. intros s H. exact H. Qed.

Lemma preserves_modelled {A} (o : option A) :
  preserves P (modelled (St := St) (Ev := Ev) o).
Proof. destruct o; intros s H; exact H. Qed.

Lemma preserves_prop v k : preserves P (prop (St := St) (Ev := Ev) v k).
Proof. unfold prop. destruct (JS.get v k); intros s H; exact H. Qed.

Lemma preserves_update (f : St -> St) :
  (forall s, P s -> P (f s)) -> preserves P (update (Ev := Ev) f).
Proof. intros Hf s H. apply Hf. exact H. Qed.

Lemma preserves_bind {A B} (m : M St Ev A) (k : A -> M St Ev B) :
  preserves P m -> (forall a, preserves P (k a)) -> preserves P (bind m k).
Proof.
  intros Hm Hk s H. unfold bind, final. specialize (Hm s H). unfold final in Hm.
  destruct (m s) as [[[a| e |] s1] t1]; cbn in *; try assumption.
  specialize (Hk a s1 Hm). unfold final in Hk.
  destruct (k a s1) as [[r s2] t2]. exact Hk.
Qed.

Lemma preserves_for_each {A} (l : list A) (body : A -> M St Ev unit) :
  (forall x, preserves P (body x)) -> preserves P (for_each l body).
Proof.
  intros H. induction l as [|x l IH]; cbn.
  - apply preserves_ret.
  - apply preserves_bind; [apply H | intros _; exact IH].
Qed.

End Preserves.

Ltac preserves_step :=
  first
    [ apply preserves_ret | apply preserves_this | apply preserves_emit
    | apply preserves_throw | apply preserves_unmodelled | apply preserves_modelled
    | apply preserves_prop
    | apply preserves_bind; [| intros ?]
    | apply preserves_for_each; intros ?
    | apply preserves_update; intros ? ?
    | match goal with
      | |- preserves _ (if ?b then _ else _) => destruct b
      | |- preserves _ (match ?x with _ => _ end) => destruct x
      end ].

(** The gate keeps an identity that is bound. *)
Lemma authenticateRequest_keeps i req :
  preserves (bound_to i) (SocketRouter.ClientConnection.authenticateRequest req).
Proof.
  intros c H. unfold bound_to in *. rewrite authenticateRequest_identity, H. reflexivity.
Qed.

Lemma handle_keeps node r i e : preserves (bound_to i) (SocketRouter.handle node r e).
Proof.
  destruct e, r; cbn [SocketRouter.handle];
    unfold SocketRouter.InboundClient.onClientMessage, SocketRouter.OutboundClient.onClientMessage,
      SocketRouter.SockRequest.new, SocketRouter.settle,
      SocketRouter.InboundClient.getRtcAnswer, SocketRouter.InboundClient.resume, SocketRouter.InboundClient.sendIce,
      SocketRouter.InboundClient.renegotiateWebRTC,
      SocketRouter.OutboundClient.processAnswer, SocketRouter.OutboundClient.renegotiateWebRTC,
      SocketRouter.OutboundClient.sendOffer, SocketRouter.OutboundClient.resume, SocketRouter.OutboundClient.sendIce,
      SocketRouter.ClientConnection.onconnectionstatechange, SocketRouter.ClientConnection.ontrack,
      SocketRouter.ClientConnection.addICE, SocketRouter.ClientConnection.unknownCommand,
      SocketRouter.ClientConnection.close, SocketRouter.ClientConnection.send, SocketRouter.ClientConnection.await;
    repeat first [apply authenticateRequest_keeps | preserves_step]; assumption.
Qed.

Lemma authenticateRequest_other_id req i j c :
  bound_to i c -> SocketRouter.SockRequest.id req = JS.VString j -> j <> i ->
  SocketRouter.ClientConnection.authenticateRequest req c = (Returned false, c, []).
Proof.
  intros Hc Hreq Hij. unfold bound_to in Hc.
  unfold SocketRouter.ClientConnection.authenticateRequest. handler. rewrite Hc, Hreq. cbn.
  destruct (String.eqb i j) eqn:E; [apply String.eqb_eq in E; congruence|].
  reflexivity.
Qed.

(** The gate of [part_003] binds once: a session bound to an identity stays
    bound to it over every run of events, in either role; a message that
    carries another id fails the gate and changes nothing; on the accepting
    role it is answered by the teardown. *)
Theorem bound_identity_is_permanent :
  forall (node : SocketRouter.Globals) (r : SocketRouter.role) (events : list SocketRouter.event)
         (c : SocketRouter.ClientConnection.t) (i : string),
    bound_to i c ->
    bound_to i (final (SocketRouter.run node r events c))
    /\ (forall req j,
          SocketRouter.SockRequest.id req = JS.VString j -> j <> i ->
          SocketRouter.ClientConnection.authenticateRequest req c = (Returned false, c, []))
    /\ (forall raw props j,
          JS.JSON_parse raw = Some (JS.VObject props) ->
          JS.own props "id" = JS.VString j -> j <> i ->
          SocketRouter.InboundClient.onClientMessage node raw c
          = (Returned tt, c,
             [Log ("Socket message: " ++ raw) 9; Log "Auth failed" 4;
              PeerClose; SocketClose])).
Proof.
  intros node r events c i Hc. split; [|split].
  - apply (preserves_for_each (bound_to i) events _ (handle_keeps node r i)). exact Hc.
  - intros req j Hreq Hij. apply (authenticateRequest_other_id req i j c); assumption.
  - intros raw props j Hraw Hid Hij.
    unfold SocketRouter.InboundClient.onClientMessage.
    rewrite (bind_returned _ _ _ _ _ _ (SockRequest_new_object raw props c Hraw)).
    cbn [SocketRouter.SockRequest.parseError].
    match goal with
    | |- context [SocketRouter.ClientConnection.authenticateRequest ?req] =>
        assert (Hreq : SocketRouter.SockRequest.id req = JS.VString j)
          by (cbn [SocketRouter.SockRequest.id]; unfold JS.field; rewrite Hid; reflexivity);
        rewrite (bind_returned _ _ _ _ _ _
                   (authenticateRequest_other_id req i j c Hc Hreq Hij))
    end.
    reflexivity.
Qed.

Lemma bound_identity_witness :
  bound_to "alice"
    (final (SocketRouter.run Scenario.dev_node SocketRouter.Inbound
              [SocketRouter.OnMessage Scenario.offer_1; SocketRouter.OnMessage Scenario.bad_token;
               SocketRouter.OnMessage Scenario.offer_2]
              (snd (Scenario.bound "alice"))))
  /\ SocketRouter.InboundClient.onClientMessage Scenario.dev_node Scenario.bad_token
       (snd (Scenario.bound "alice"))
     = (Returned tt, snd (Scenario.bound "alice"),
        [Log ("Socket message: " ++ Scenario.bad_token) 9; Log "Auth failed" 4;
         PeerClose; SocketClose]).
Proof.
  assert (H : bound_to "alice" (snd (Scenario.bound "alice"))) by (vm_compute; reflexivity).
  destruct (bound_identity_is_permanent Scenario.dev_node SocketRouter.Inbound
              [SocketRouter.OnMessage Scenario.offer_1; SocketRouter.OnMessage Scenario.bad_token;
               SocketRouter.OnMessage Scenario.offer_2]
              _ "alice" H) as [H1 [_ H3]].
  split; [exact H1|].
  apply (H3 Scenario.bad_token
            [("action", JS.VString "offer"); ("data", JS.VNull);
             ("id", JS.VString "mallory"); ("token", JS.VString "guess")] "mallory").
  - vm_compute. reflexivity.
  - reflexivity.
  - discriminate.
Defined.

(* ================================================================== *)
(** * The bootstrap of part_003: one handoff *)
(* ================================================================== *)

Lemma for_each_app {St Ev A} (l1 l2 : list A) (body : A -> M St Ev unit) s s1 t1 :
  for_each l1 body s = (Returned tt, s1, t1) ->
  for_each (l1 ++ l2) body s
  = (result (for_each l2 body s1), final (for_each l2 body s1),
     (t1 ++ trace (for_each l2 body s1))%list).
Proof.
  revert s s1 t1. induction l1 as [|x l1 IH]; intros s s1 t1 H.
  - cbn in H. unfold ret in H. inversion H; subst. cbn.
    destruct (for_each l2 body s1) as [[r s2] t2]. reflexivity.
  - cbn [for_each app] in *. unfold bind in *.
    destruct (body x s) as [[[[]| |] sx] tx]; try discriminate.
    destruct (for_each l1 body sx) as [[r' s'] t'] eqn:E.
    inversion H; subst. rewrite (IH _ _ _ E).
    unfold result, final, trace. cbn. rewrite app_assoc. reflexivity.
Qed.

Lemma run_turns_cons se d l b s1 t1 :
  SocketRouter.Bootstrap.run se (SocketRouter.Bootstrap.turn d) b = (Returned tt, s1, t1) ->
  SocketRouter.Bootstrap.run se (SocketRouter.Bootstrap.turns (d :: l)) b
  = (result (SocketRouter.Bootstrap.run se (SocketRouter.Bootstrap.turns l) s1),
     final (SocketRouter.Bootstrap.run se (SocketRouter.Bootstrap.turns l) s1),
     (t1 ++ trace (SocketRouter.Bootstrap.run se (SocketRouter.Bootstrap.turns l) s1))%list).
Proof.
  intros H. unfold SocketRouter.Bootstrap.run, SocketRouter.Bootstrap.turns in *. cbn [flat_map].
  apply for_each_app. exact H.
Qed.

Lemma turn_unassigned se d n :
  unassigned d ->
  SocketRouter.Bootstrap.run se (SocketRouter.Bootstrap.turn (SocketRouter.Bootstrap.Notified (JS.VObject d))) (bootstrap_state false n)
  = (Returned tt, bootstrap_state false n, [NodeLog "Got firebase snapshot" 9]).
Proof.
  intros Hd. unfold SocketRouter.Bootstrap.run, bootstrap_state. cbn [SocketRouter.Bootstrap.turn for_each].
  unfold SocketRouter.Bootstrap.handle, SocketRouter.Bootstrap.snapshot, SocketRouter.Bootstrap.resumed.
  handler. cbn. unfold unassigned in Hd. rewrite Hd. reflexivity.
Qed.

Lemma turn_assigned se props a n :
  JS.own props "management_socket" = JS.VString a -> a <> "" ->
  se (JS.VString a) = None ->
  SocketRouter.Bootstrap.run se (SocketRouter.Bootstrap.turn (SocketRouter.Bootstrap.Notified (JS.VObject props)))
    (bootstrap_state false n)
  = (Returned tt, bootstrap_state true (S n),
     [NodeLog "Got firebase snapshot" 9;
      NodeLog ("Got management socket from firestore: " ++ a) 2;
      SocketOpen (JS.VString a); ServerListen 8081%N; DocDelete]).
Proof.
  intros Hsock Ha Hse. unfold SocketRouter.Bootstrap.run, bootstrap_state. cbn [SocketRouter.Bootstrap.turn for_each].
  unfold SocketRouter.Bootstrap.handle, SocketRouter.Bootstrap.snapshot, SocketRouter.Bootstrap.resumed,
    SocketRouter.new_Socket.
  handler. cbn. rewrite Hsock. cbn.
  destruct (String.eqb a "") eqn:E; [apply String.eqb_eq in E; contradiction|].
  cbn. rewrite Hse. reflexivity.
Qed.

(** The address refused: the guard is set and the address logged, then the
    constructor throws, and the callback does no more. *)
Lemma turn_refused se props a e n :
  JS.own props "management_socket" = JS.VString a -> a <> "" ->
  se (JS.VString a) = Some e ->
  SocketRouter.Bootstrap.run se (SocketRouter.Bootstrap.turn (SocketRouter.Bootstrap.Notified (JS.VObject props)))
    (bootstrap_state false n)
  = (Threw e, bootstrap_state true n,
     [NodeLog "Got firebase snapshot" 9;
      NodeLog ("Got management socket from firestore: " ++ a) 2]).
Proof.
  intros Hsock Ha Hse. unfold SocketRouter.Bootstrap.run, bootstrap_state. cbn [SocketRouter.Bootstrap.turn for_each].
  unfold SocketRouter.Bootstrap.handle, SocketRouter.Bootstrap.snapshot, SocketRouter.Bootstrap.resumed,
    SocketRouter.new_Socket.
  handler. cbn. rewrite Hsock. cbn.
  destruct (String.eqb a "") eqn:E; [apply String.eqb_eq in E; contradiction|].
  cbn. rewrite Hse. reflexivity.
Qed.

Lemma for_each_app_threw {St Ev A} (l1 l2 : list A) (body : A -> M St Ev unit) s e s1 t1 :
  for_each l1 body s = (Threw e, s1, t1) ->
  for_each (l1 ++ l2) body s = (Threw e, s1, t1).
Proof.
  revert s s1 t1. induction l1 as [|x l1 IH]; intros s s1 t1 H.
  - cbn in H. unfold ret in H. discriminate.
  - cbn [for_each app] in *. unfold bind in *.
    destruct (body x s) as [[[[]| |] sx] tx]; try exact H.
    destruct (for_each l1 body sx) as [[r' s'] t'] eqn:E.
    inversion H; subst. rewrite (IH _ _ _ E). reflexivity.
Qed.

Lemma turn_guarded se data n :
  SocketRouter.Bootstrap.run se (SocketRouter.Bootstrap.turn (SocketRouter.Bootstrap.Notified data)) (bootstrap_state true n)
  = (Returned tt, bootstrap_state true n, [NodeLog "Got firebase snapshot" 9]).
Proof.
  unfold SocketRouter.Bootstrap.run, bootstrap_state. cbn [SocketRouter.Bootstrap.turn for_each].
  unfold SocketRouter.Bootstrap.handle, SocketRouter.Bootstrap.snapshot. handler. reflexivity.
Qed.

Lemma turn_deleted se read n :
  SocketRouter.Bootstrap.run se (SocketRouter.Bootstrap.turn SocketRouter.Bootstrap.DeleteAcknowledged) (bootstrap_state read (S n))
  = (Returned tt, bootstrap_state read n,
     [Unsubscribe; NodeLog "Connection document deleted" 2]).
Proof.
  unfold SocketRouter.Bootstrap.run, bootstrap_state. cbn [SocketRouter.Bootstrap.turn for_each].
  unfold SocketRouter.Bootstrap.handle, SocketRouter.Bootstrap.deleted. handler. reflexivity.
Qed.

Lemma turn_deleted_none se read :
  SocketRouter.Bootstrap.run se (SocketRouter.Bootstrap.turn SocketRouter.Bootstrap.DeleteAcknowledged) (bootstrap_state read 0)
  = (Returned tt, bootstrap_state read 0, []).
Proof.
  unfold SocketRouter.Bootstrap.run, bootstrap_state. cbn [SocketRouter.Bootstrap.turn for_each].
  unfold SocketRouter.Bootstrap.handle, SocketRouter.Bootstrap.deleted. handler. reflexivity.
Qed.

(** Before the assignment: every notification is logged, and that is all. *)
Lemma bootstrap_waits se (before : list (list (string * JS.value))) n :
  Forall unassigned before ->
  SocketRouter.Bootstrap.run se
    (SocketRouter.Bootstrap.turns (map (fun d => SocketRouter.Bootstrap.Notified (JS.VObject d)) before))
    (bootstrap_state false n)
  = (Returned tt, bootstrap_state false n,
     repeat (NodeLog "Got firebase snapshot" 9) (List.length before)).
Proof.
  intros Hall. induction Hall as [|d before Hd Hall IH]; [reflexivity|].
  cbn [map]. rewrite (run_turns_cons _ _ _ _ _ _ (turn_unassigned se d n Hd)).
  rewrite IH. reflexivity.
Qed.

(** After the handoff the guard is set: a notification is logged and nothing
    else, whatever it carries; an acknowledgement of the deletion cancels
    the subscription. *)
Lemma bootstrap_guarded se (after : list SocketRouter.Bootstrap.delivery) n :
  let r := SocketRouter.Bootstrap.run se (SocketRouter.Bootstrap.turns after) (bootstrap_state true n) in
  result r = Returned tt
  /\ handoff_effects (trace r)
     = repeat Unsubscribe (Nat.min n (acknowledgements after)).
Proof.
  revert n. induction after as [|d after IH]; intros n; cbv zeta.
  - cbn. rewrite Nat.min_0_r. split; reflexivity.
  - destruct d as [data|].
    + rewrite (run_turns_cons _ _ _ _ _ _ (turn_guarded se data n)).
      destruct (IH n) as [IH1 IH2]. split; [exact IH1|]. exact IH2.
    + destruct n as [|n].
      * rewrite (run_turns_cons _ _ _ _ _ _ (turn_deleted_none se true)).
        destruct (IH 0) as [IH1 IH2]. split; [exact IH1|]. exact IH2.
      * rewrite (run_turns_cons _ _ _ _ _ _ (turn_deleted se true n)).
        destruct (IH n) as [IH1 IH2]. split; [exact IH1|].
        unfold trace in *. cbn [snd app handoff_effects filter]. 
        fold (handoff_effects (snd (SocketRouter.Bootstrap.run se (SocketRouter.Bootstrap.turns after) (bootstrap_state true n)))).
        rewrite IH2. reflexivity.
Qed.

Lemma handoff_effects_app t1 t2 :
  handoff_effects (t1 ++ t2) = (handoff_effects t1 ++ handoff_effects t2)%list.
Proof. unfold handoff_effects. apply filter_app. Qed.

Lemma handoff_effects_logs k :
  handoff_effects (repeat (NodeLog "Got firebase snapshot" 9) k) = [].
Proof. induction k as [|k IH]; [reflexivity|exact IH]. Qed.

Lemma run_turns_app se l1 l2 b s1 t1 :
  SocketRouter.Bootstrap.run se (SocketRouter.Bootstrap.turns l1) b = (Returned tt, s1, t1) ->
  SocketRouter.Bootstrap.run se (SocketRouter.Bootstrap.turns (l1 ++ l2)) b
  = (result (SocketRouter.Bootstrap.run se (SocketRouter.Bootstrap.turns l2) s1),
     final (SocketRouter.Bootstrap.run se (SocketRouter.Bootstrap.turns l2) s1),
     (t1 ++ trace (SocketRouter.Bootstrap.run se (SocketRouter.Bootstrap.turns l2) s1))%list).
Proof.
  intros H. unfold SocketRouter.Bootstrap.run, SocketRouter.Bootstrap.turns in *. rewrite flat_map_app.
  apply for_each_app. exact H.
Qed.

(** The bootstrap of [part_003], the store delivering one notification per
    turn: after any notifications without an assignment, the first one with
    an assignment sets the guard.  Where the socket library takes the
    assigned address, the channel to it is opened, the server started and
    the registration deleted; whatever notifications follow, with the same
    assignment or another, nothing of this happens again, and the
    subscription is cancelled when the deletion is acknowledged.  Where the
    library refuses the address, what it throws ends the run with the
    guard set: no channel is opened, no server started, the registration
    not deleted and the subscription not cancelled. *)
Theorem bootstrap_hands_off_exactly_once :
  forall (socket_error : JS.value -> option JS.exn)
         (before : list (list (string * JS.value))) (props : list (string * JS.value))
         (a : string) (after : list SocketRouter.Bootstrap.delivery),
    Forall unassigned before ->
    JS.own props "management_socket" = JS.VString a ->
    a <> "" ->
    let r := SocketRouter.Bootstrap.run socket_error
               (SocketRouter.Bootstrap.turns
                  (map (fun d => SocketRouter.Bootstrap.Notified (JS.VObject d)) before
                   ++ SocketRouter.Bootstrap.Notified (JS.VObject props) :: after))
               SocketRouter.Bootstrap.new in
    match socket_error (JS.VString a) with
    | None =>
        result r = Returned tt
        /\ handoff_effects (trace r)
           = ([SocketOpen (JS.VString a); ServerListen 8081%N; DocDelete]
              ++ repeat Unsubscribe (Nat.min 1 (acknowledgements after)))%list
    | Some e =>
        result r = Threw e
        /\ SocketRouter.Bootstrap.db_read (final r) = true
        /\ handoff_effects (trace r) = []
    end.
Proof.
  intros se before props a after Hall Hsock Ha. cbv zeta.
  change SocketRouter.Bootstrap.new with (bootstrap_state false 0).
  rewrite (run_turns_app _ _ _ _ _ _ (bootstrap_waits se before 0 Hall)).
  destruct (se (JS.VString a)) as [e|] eqn:Hse.
  - assert (H : SocketRouter.Bootstrap.run se
                  (SocketRouter.Bootstrap.turns
                     (SocketRouter.Bootstrap.Notified (JS.VObject props) :: after))
                  (bootstrap_state false 0)
                = (Threw e, bootstrap_state true 0,
                   [NodeLog "Got firebase snapshot" 9;
                    NodeLog ("Got management socket from firestore: " ++ a) 2])).
    { unfold SocketRouter.Bootstrap.run, SocketRouter.Bootstrap.turns. cbn [flat_map].
      apply for_each_app_threw. exact (turn_refused se props a e 0 Hsock Ha Hse). }
    rewrite H. unfold result, final, trace. cbn [fst snd].
    split; [reflexivity|]. split; [reflexivity|].
    rewrite handoff_effects_app, handoff_effects_logs. reflexivity.
  - rewrite (run_turns_cons _ _ _ _ _ _ (turn_assigned se props a 0 Hsock Ha Hse)).
    destruct (bootstrap_guarded se after 1) as [H1 H2]. cbv zeta in H1, H2.
    unfold result, final, trace in *. cbn [fst snd].
    split; [exact H1|].
    rewrite !handoff_effects_app, handoff_effects_logs, H2. reflexivity.
Qed.

(** The scenario of the specification: a notification without an assignment,
    then two in a row with the same one, then the acknowledgement of the
    deletion. *)
Lemma bootstrap_hands_off_witness :
  handoff_effects
    (trace
       (SocketRouter.Bootstrap.run Scenario.socket_error
          (SocketRouter.Bootstrap.turns
             [SocketRouter.Bootstrap.Notified
                (JS.VObject [("management_socket", JS.VNull)]);
              SocketRouter.Bootstrap.Notified
                (JS.VObject [("management_socket", JS.VString "ws://manager:9000")]);
              SocketRouter.Bootstrap.Notified
                (JS.VObject [("management_socket", JS.VString "ws://manager:9000")]);
              SocketRouter.Bootstrap.DeleteAcknowledged])
          SocketRouter.Bootstrap.new))
  = [SocketOpen (JS.VString "ws://manager:9000"); ServerListen 8081%N; DocDelete;
     Unsubscribe].
Proof.
  apply (proj2 (bootstrap_hands_off_exactly_once Scenario.socket_error
                  [[("management_socket", JS.VNull)]]
                  [("management_socket", JS.VString "ws://manager:9000")]
                  "ws://manager:9000"
                  [SocketRouter.Bootstrap.Notified
                     (JS.VObject [("management_socket", JS.VString "ws://manager:9000")]);
                   SocketRouter.Bootstrap.DeleteAcknowledged]
                  ltac:(repeat constructor) eq_refl ltac:(discriminate))).
Defined.

(** The same with an address that the library refuses. *)
Lemma bootstrap_refused_address :
  let r := SocketRouter.Bootstrap.run Scenario.socket_error
             (SocketRouter.Bootstrap.turns
                [SocketRouter.Bootstrap.Notified
                   (JS.VObject [("management_socket", JS.VString "not a url")]);
                 SocketRouter.Bootstrap.Notified
                   (JS.VObject [("management_socket", JS.VString "ws://manager:9000")])])
             SocketRouter.Bootstrap.new in
  result r = Threw (JS.SyntaxError "Invalid URL: not a url")
  /\ trace r = [NodeLog "Got firebase snapshot" 9;
                NodeLog "Got management socket from firestore: not a url" 2].
Proof. vm_compute. split; reflexivity. Qed.

(* ================================================================== *)
(** * The decoder of the first router *)
(* ================================================================== *)

Lemma First_Request_new_total {St} raw (s : St) :
  exists req,
    FirstRouter.Request.new raw s = (Returned req, s, [Log raw 4])
    /\ (JS.JSON_parse raw = None -> FirstRouter.Request.parseError req = true).
Proof.
  unfold FirstRouter.Request.new. handler. eexists. split; [reflexivity|].
  intros H. rewrite H. reflexivity.
Qed.

(** The decoder of the first router, which assigns the fields inside the try
    statement: every text decodes to a request, without a throw; a text
    that is not JSON gives a request flagged [parseError], which the
    session answers with the invalid-request message and nothing else,
    staying as it was. *)
Theorem first_router_decoding_is_total :
  forall (raw : string) (l : list FirstRouter.Client.t) (self : nat)
         (f : FirstRouter.Client.t),
    nth_error l self = Some f ->
    (exists req, FirstRouter.Request.new raw f = (Returned req, f, [Log raw 4]))
    /\ (JS.JSON_parse raw = None ->
        FirstRouter.socketMessage self raw l
        = (Returned tt, l,
           [OfClient self (Log raw 4);
            OfClient self (SocketSend FirstRouter.Response.INVALID_REQUEST)])).
Proof.
  intros raw l self f Hf. split.
  - destruct (First_Request_new_total raw f) as [req [Hreq _]]. exists req. exact Hreq.
  - intros Hraw. destruct (First_Request_new_total raw f) as [req [Hreq Hpe]].
    specialize (Hpe Hraw).
    unfold FirstRouter.socketMessage.
    assert (Hnew : FirstRouter.on_client self (FirstRouter.Request.new raw) l
                   = (Returned req, l, [OfClient self (Log raw 4)])).
    { rewrite (FirstRouter_on_client_run l self _ f Hf). rewrite Hreq.
      unfold result, final, trace. cbn [fst snd map].
      rewrite (replace_same _ _ _ Hf). reflexivity. }
    rewrite (bind_returned _ _ _ _ _ _ Hnew). rewrite Hpe.
    rewrite (FirstRouter_on_client_run l self _ f Hf).
    unfold FirstRouter.Client.socketSend, emit, result, final, trace. cbn [fst snd map app].
    rewrite (replace_same _ _ _ Hf). reflexivity.
Qed.

Lemma first_router_decoding_witness :
  FirstRouter.socketMessage 0 "hello" [FirstRouter.Client.new]
  = (Returned tt, [FirstRouter.Client.new],
     [OfClient 0 (Log "hello" 4);
      OfClient 0 (SocketSend FirstRouter.Response.INVALID_REQUEST)]).
Proof.
  apply (proj2 (first_router_decoding_is_total "hello" [FirstRouter.Client.new] 0
                  FirstRouter.Client.new eq_refl)).
  vm_compute. reflexivity.
Defined.

(* ================================================================== *)
(** * The relay router: what a snapshot does not add *)
(* ================================================================== *)

(** The handlers of the relay router look at added documents only: a
    snapshot whose changes are all modifications or removals leaves the node
    as it is; nothing is looked up, nothing is called on any engine, nothing
    is written.  The command handler logs the snapshot once per change. *)
Theorem relay_handlers_ignore_what_is_not_added :
  forall (node : RelayRouter.Globals) (snapshot : list RelayRouter.change)
         (n : RelayRouter.t),
    Forall not_added snapshot ->
    RelayRouter.SignalManager.handleOffer snapshot n = (Returned tt, n, [])
    /\ RelayRouter.SignalManager.handleAnswer snapshot n = (Returned tt, n, [])
    /\ RelayRouter.SignalManager.handleICE snapshot n = (Returned tt, n, [])
    /\ RelayRouter.SignalManager.handleCommand node snapshot n
       = (Returned tt, n,
          repeat (NodeLog "Got command snapshot" 9) (List.length snapshot)).
Proof.
  intros node snapshot n H. rewrite Forall_forall in H.
  assert (Hnone : flat_map (fun _ : RelayRouter.change => @nil node_effect) snapshot = [])
    by (clear; induction snapshot as [|c l IH]; [reflexivity|exact IH]).
  assert (Hlog : flat_map (fun _ : RelayRouter.change => [NodeLog "Got command snapshot" 9])
                   snapshot
                 = repeat (NodeLog "Got command snapshot" 9) (List.length snapshot)).
  { clear. induction snapshot as [|c l IH]; [reflexivity|]. cbn. rewrite IH. reflexivity. }
  split; [|split; [|split]].
  - unfold RelayRouter.SignalManager.handleOffer. rewrite <- Hnone.
    apply for_each_stateless. intros c Hc. rewrite (H c Hc). reflexivity.
  - unfold RelayRouter.SignalManager.handleAnswer. rewrite <- Hnone.
    apply for_each_stateless. intros c Hc. rewrite (H c Hc). reflexivity.
  - unfold RelayRouter.SignalManager.handleICE. rewrite <- Hnone.
    apply for_each_stateless. intros c Hc. rewrite (H c Hc). reflexivity.
  - unfold RelayRouter.SignalManager.handleCommand. rewrite <- Hlog.
    apply for_each_stateless. intros c Hc. unfold bind, emit. rewrite (H c Hc). reflexivity.
Qed.

(** A modification and a removal among the offers of alice: nothing happens. *)
Lemma relay_handlers_ignore_witness :
  RelayRouter.SignalManager.handleOffer
    [{| RelayRouter.type := "modified";
        RelayRouter.doc := JS.VObject [("id", JS.VString "alice");
                                       ("offer", Scenario.sdp "offer" "v=0")] |};
     {| RelayRouter.type := "removed";
        RelayRouter.doc := JS.VObject [("id", JS.VString "alice")] |}]
    Scenario.relay_ready
  = (Returned tt, Scenario.relay_ready, []).
Proof.
  apply (proj1 (relay_handlers_ignore_what_is_not_added Scenario.relay_node _ _
                  ltac:(repeat constructor))).
Defined.

(* ================================================================== *)
(** * The relay router answers, it never offers *)
(* ================================================================== *)

Lemma waiting_on_In p l k :
  RelayRouter.ClientConnection.waiting_on p l = Some k -> In (p, k) l.
Proof.
  induction l as [|[q k'] l IH]; cbn; [discriminate|].
  destruct (Nat.eqb q p) eqn:E.
  - intros H. injection H as ->. apply Nat.eqb_eq in E. subst. left. reflexivity.
  - intros H. right. apply IH. exact H.
Qed.

Lemma Forall_filter {A} (R : A -> Prop) f (l : list A) :
  Forall R l -> Forall R (filter f l).
Proof.
  induction 1; cbn; [constructor|]. destruct (f x); [constructor|]; assumption.
Qed.

Section Client.
Variable i : nat.
Let Qc := fun e => quiet (OfClient i e).

Lemma await_answering call k :
  call <> CreateOffer -> answers k = true ->
  keeps answering Qc (RelayRouter.ClientConnection.await call k).
Proof.
  intros Hc Hk. unfold RelayRouter.ClientConnection.await.
  apply keeps_this. intros c [Hi Ha].
  apply keeps_bind; [apply keeps_emit|intros _; apply keeps_update].
  - unfold Qc, quiet. cbn. destruct call; try reflexivity. congruence.
  - intros s [Hi' Ha']. split; [exact Hi'|]. cbn.
    apply Forall_app. split; [exact Ha|]. constructor; [exact Hk|constructor].
Qed.

Lemma call_answering what :
  what <> CreateOffer -> keeps answering Qc (RelayRouter.ClientConnection.call what).
Proof.
  intros Hc. unfold RelayRouter.ClientConnection.call.
  apply keeps_this. intros c [Hi Ha].
  apply keeps_bind; [apply keeps_emit|intros _; apply keeps_update].
  - unfold Qc, quiet. cbn. destruct what; try reflexivity. congruence.
  - intros s [Hi' Ha']. split; [exact Hi'|]. cbn. exact Ha.
Qed.

Lemma handleOffer_answering offer :
  keeps answering Qc (RelayRouter.ClientConnection.handleOffer offer).
Proof.
  unfold RelayRouter.ClientConnection.handleOffer, RelayRouter.ClientConnection.getRtcAnswer.
  apply keeps_this. intros c _.
  repeat first [apply await_answering; [discriminate|reflexivity]
               | apply keeps_emit; reflexivity | keeps_step].
Qed.

Lemma handleAnswer_answering answer :
  keeps answering Qc (RelayRouter.ClientConnection.handleAnswer answer).
Proof.
  unfold RelayRouter.ClientConnection.handleAnswer.
  apply keeps_this. intros c _.
  repeat first [apply call_answering; discriminate
               | apply keeps_emit; reflexivity | keeps_step].
Qed.

Lemma handleIce_answering candidate :
  keeps answering Qc (RelayRouter.ClientConnection.handleIce candidate).
Proof.
  unfold RelayRouter.ClientConnection.handleIce.
  apply keeps_this. intros c _.
  repeat first [apply keeps_emit; reflexivity | keeps_step].
Qed.

Lemma sendIce_answering NODE_ID candidate :
  keeps answering Qc (RelayRouter.ClientConnection.sendIce NODE_ID candidate).
Proof.
  unfold RelayRouter.ClientConnection.sendIce, RelayRouter.ClientConnection.send.
  apply keeps_this. intros c _. apply keeps_emit. reflexivity.
Qed.

Lemma addMediaStream_answering stream :
  keeps answering Qc (RelayRouter.ClientConnection.addMediaStream stream).
Proof.
  unfold RelayRouter.ClientConnection.addMediaStream.
  destruct stream; [|apply keeps_throw].
  apply keeps_for_each. intros track. apply keeps_this. intros c _.
  repeat first [apply keeps_emit; reflexivity | keeps_step].
Qed.

Lemma renegotiateWebRTC_answering NODE_ID :
  keeps answering Qc (RelayRouter.ClientConnection.renegotiateWebRTC NODE_ID).
Proof.
  unfold RelayRouter.ClientConnection.renegotiateWebRTC, RelayRouter.ClientConnection.send.
  apply keeps_this. intros c [Hi _]. rewrite Hi. apply keeps_emit. reflexivity.
Qed.

Lemma resume_answering NODE_ID k v :
  answers k = true -> keeps answering Qc (RelayRouter.ClientConnection.resume NODE_ID k v).
Proof.
  intros Hk. unfold RelayRouter.ClientConnection.resume, RelayRouter.ClientConnection.send.
  apply keeps_this. intros c _.
  destruct k; try discriminate Hk.
  - apply await_answering; [discriminate|reflexivity].
  - apply await_answering; [discriminate|reflexivity].
  - apply keeps_emit. reflexivity.
Qed.

End Client.

Lemma on_client_answering {A} i (m : M RelayRouter.ClientConnection.t effect A) :
  keeps answering (fun e => quiet (OfClient i e)) m ->
  keeps all_answering quiet (RelayRouter.on_client i m).
Proof.
  intros H. unfold RelayRouter.on_client, all_answering.
  apply (keeps_on_nth answering quiet); [reflexivity|exact H].
Qed.

Ltac relay_step :=
  first
    [ apply keeps_emit; reflexivity
    | apply on_client_answering
    | apply handleOffer_answering | apply handleAnswer_answering
    | apply handleIce_answering | apply sendIce_answering
    | apply addMediaStream_answering | apply renegotiateWebRTC_answering
    | apply keeps_update; intros ? ?; assumption
    | keeps_step
    | apply keeps_this; intros ? ? ].

Lemma getClientById_answering id :
  keeps all_answering quiet (RelayRouter.ClientManager.getClientById id).
Proof.
  unfold RelayRouter.ClientManager.getClientById. repeat relay_step.
Qed.

Lemma addClient_answering node id :
  keeps all_answering quiet (RelayRouter.ClientManager.addClient node id false).
Proof.
  unfold RelayRouter.ClientManager.addClient.
  apply (keeps_bind_with _ _ answering).
  - unfold at_node, RelayRouter.ClientConnection.new, bind, modelled, ret.
    intros s H. unfold final, trace.
    destruct (JS.to_text id); cbn; (split; [exact H|constructor]).
  - intros s a. unfold at_node, RelayRouter.ClientConnection.new, bind, modelled, ret, result.
    destruct (JS.to_text id); cbn; [|discriminate].
    intros H. injection H as <-. split; [reflexivity|constructor].
  - intros a Ha. apply keeps_this. intros n Hn.
    apply keeps_bind; [|intros _; apply keeps_ret].
    apply keeps_update. intros s Hs. unfold all_answering in *. cbn.
    apply Forall_app. split; [exact Hs|constructor; [exact Ha|constructor]].
Qed.

Lemma connectClients_answering src dests :
  keeps all_answering quiet (RelayRouter.ConnectionManager.connectClients src dests).
Proof.
  unfold RelayRouter.ConnectionManager.connectClients.
  repeat first [apply getClientById_answering | relay_step].
Qed.

Lemma handleOffers_answering changes :
  keeps all_answering quiet (RelayRouter.SignalManager.handleOffer changes).
Proof.
  unfold RelayRouter.SignalManager.handleOffer.
  repeat first [apply getClientById_answering | relay_step].
Qed.

Lemma handleAnswers_answering changes :
  keeps all_answering quiet (RelayRouter.SignalManager.handleAnswer changes).
Proof.
  unfold RelayRouter.SignalManager.handleAnswer.
  repeat first [apply getClientById_answering | relay_step].
Qed.

Lemma handleICEs_answering changes :
  keeps all_answering quiet (RelayRouter.SignalManager.handleICE changes).
Proof.
  unfold RelayRouter.SignalManager.handleICE.
  repeat first [apply getClientById_answering | relay_step].
Qed.

Lemma handleCommand_answering node changes :
  keeps all_answering quiet (RelayRouter.SignalManager.handleCommand node changes).
Proof.
  unfold RelayRouter.SignalManager.handleCommand.
  repeat first [apply getClientById_answering | apply addClient_answering
               | apply connectClients_answering | relay_step].
Qed.

Lemma visit_answering changes :
  keeps all_answering quiet (RelayRouter.visit changes).
Proof.
  induction changes as [|c rest IH]; cbn [RelayRouter.visit]; [apply keeps_ret|].
  repeat first [exact IH | relay_step].
Qed.

Lemma startRouter_answering node :
  keeps all_answering quiet (RelayRouter.startRouter node).
Proof.
  unfold RelayRouter.startRouter, RelayRouter.SignalManager.new.
  repeat relay_step.
Qed.

Lemma handle_answering node e :
  keeps all_answering quiet (RelayRouter.handle node e).
Proof.
  destruct e; cbn [RelayRouter.handle].
  - unfold RelayRouter.snapshot. repeat relay_step.
  - unfold RelayRouter.acknowledged.
    repeat first [apply visit_answering | apply startRouter_answering | relay_step].
  - apply handleOffers_answering.
  - apply handleAnswers_answering.
  - apply handleICEs_answering.
  - apply handleCommand_answering.
  - apply on_client_answering. apply keeps_bind; [apply keeps_emit; reflexivity|intros _].
    apply keeps_update. intros c Hc. exact Hc.
  - repeat relay_step.
  - apply keeps_this. intros n _. apply on_client_answering.
    apply keeps_this. intros c [Hi Ha].
    destruct (RelayRouter.ClientConnection.waiting_on promise
                (RelayRouter.ClientConnection.awaiting c)) as [k|] eqn:Hw; [|apply keeps_ret].
    apply keeps_bind; [|intros _; apply resume_answering].
    + apply keeps_update. intros c' [Hi' Ha']. split; [exact Hi'|].
      cbn. apply Forall_filter. exact Ha'.
    + apply waiting_on_In in Hw. rewrite Forall_forall in Ha. apply (Ha _ Hw).
Qed.

(** The relay router only answers.  Over every run of events from its
    start, whatever the snapshots hold, it never asks an engine for an
    offer and never writes a document with an offer in it, and every client
    it has registered is a non-initiator: a renegotiation is always asked of
    the client, by a command document. *)
Theorem relay_router_never_starts_an_offer :
  forall (node : RelayRouter.Globals) (events : list RelayRouter.event),
    let r := RelayRouter.run node events RelayRouter.new in
    Forall (fun e => starts_offer e = false) (trace r)
    /\ Forall (fun c => RelayRouter.ClientConnection.isInitiator c = false)
              (RelayRouter.clients (final r)).
Proof.
  intros node events r.
  assert (H : keeps all_answering quiet (RelayRouter.run node events)).
  { unfold RelayRouter.run. apply keeps_for_each. intros e. apply handle_answering. }
  destruct (H RelayRouter.new) as [H1 H2]; [constructor|].
  split; [exact H2|].
  unfold all_answering in H1. eapply Forall_impl; [|exact H1].
  intros c [Hi _]. exact Hi.
Qed.

(* ================================================================== *)
(** * The relay router: an offer is answered *)
(* ================================================================== *)

Lemma relay_on_client_run {A} (n : RelayRouter.t) (i : nat)
  (m : M RelayRouter.ClientConnection.t effect A) c :
  nth_error (RelayRouter.clients n) i = Some c ->
  RelayRouter.on_client i m n =
    (result (m c), RelayRouter.set_clients (replace i (final (m c)) (RelayRouter.clients n)) n,
     map (OfClient i) (trace (m c))).
Proof. intros H. unfold RelayRouter.on_client. apply on_nth_run. exact H. Qed.

Lemma negotiating_nth n i c made l :
  nth_error (RelayRouter.clients n) i = Some c ->
  nth_error (RelayRouter.clients (negotiating n i c made l)) i
  = Some (RelayRouter.ClientConnection.with_promises
            (made + RelayRouter.ClientConnection.promises c) l c).
Proof.
  intros H. unfold negotiating. cbn. apply nth_error_replace.
  apply nth_error_Some. congruence.
Qed.

(** An offer document of a registered client that waits for nothing, in
    the relay router: set-remote-description with the offer at once, then
    create-answer, then set-local-description with the answer the engine
    gave, each when the call before is fulfilled; then one document with
    the id of the node and that answer, added to the collection of answers
    of that client.  The client is left waiting for nothing. *)
Theorem relay_offer_is_answered_in_the_collection_of_the_client :
  forall (node : RelayRouter.Globals) (n : RelayRouter.t) (i : nat)
         (c : RelayRouter.ClientConnection.t) (props : list (string * JS.value))
         (who : string) (offer answer v v' : JS.value),
    nth_error (RelayRouter.clients n) i = Some c ->
    RelayRouter.ClientManager.first_with_id (JS.own props "id") (RelayRouter.clients n) 0
    = Some (Some i) ->
    JS.to_text (RelayRouter.ClientConnection.id c) = Some who ->
    RelayRouter.ClientConnection.awaiting c = [] ->
    JS.own props "offer" = offer ->
    JS.truthy offer = true ->
    let p := RelayRouter.ClientConnection.promises c in
    RelayRouter.run node
      [RelayRouter.Offers [{| RelayRouter.type := "added"; RelayRouter.doc := JS.VObject props |}];
       RelayRouter.Fulfilled i p v;
       RelayRouter.Fulfilled i (1 + p) answer;
       RelayRouter.Fulfilled i (2 + p) v'] n
    = (Returned tt, negotiating n i c 3 [],
       [OfClient i (Log ("Got offer from '" ++ who ++ "'") 5);
        OfClient i (PeerCall p (SetRemoteDescription offer));
        OfClient i (PeerCall (1 + p) CreateAnswer);
        OfClient i (PeerCall (2 + p) (SetLocalDescription answer));
        OfClient i (DocAdd (RelayRouter.ClientConnection.answerRef c)
                      (JS.VObject [("id", RelayRouter.NODE_ID n); ("answer", answer)]))]).
Proof.
  intros node n i c props who offer answer v v' Hc Hid Hwho Haw Hoffer Htruthy p.
  assert (Hlen : i < List.length (RelayRouter.clients n))
    by (apply nth_error_Some; congruence).
  unfold RelayRouter.run. rewrite for_each_cons.
  (* the snapshot of the offers *)
  assert (H1 : RelayRouter.handle node
                 (RelayRouter.Offers [{| RelayRouter.type := "added";
                                         RelayRouter.doc := JS.VObject props |}]) n
               = (Returned tt, negotiating n i c 1 [(p, RelayRouter.AnswerAfterRemote)],
                  [OfClient i (Log ("Got offer from '" ++ who ++ "'") 5);
                   OfClient i (PeerCall p (SetRemoteDescription offer))])).
  { cbn [RelayRouter.handle]. unfold RelayRouter.SignalManager.handleOffer.
    rewrite for_each_cons. cbn [RelayRouter.type RelayRouter.doc String.eqb Ascii.eqb Bool.eqb].
    unfold RelayRouter.ClientManager.getClientById.
    unfold bind at 1. unfold bind at 1. unfold prop at 1. cbn [JS.get]. unfold ret at 1.
    unfold bind at 1. unfold bind at 1. unfold this at 1. rewrite Hid. cbn [modelled].
    unfold ret at 1. unfold bind at 1. unfold prop at 1. cbn [JS.get]. unfold ret at 1.
    rewrite Hoffer, Htruthy.
    rewrite (relay_on_client_run _ _ _ c Hc).
    unfold RelayRouter.ClientConnection.handleOffer, RelayRouter.ClientConnection.getRtcAnswer,
      RelayRouter.ClientConnection.await.
    handler. rewrite Hwho. cbn. rewrite Haw. reflexivity. }
  rewrite (bind_returned _ _ _ _ _ _ H1). clear H1.
  rewrite for_each_cons.
  assert (H2 : RelayRouter.handle node (RelayRouter.Fulfilled i p v)
                 (negotiating n i c 1 [(p, RelayRouter.AnswerAfterRemote)])
               = (Returned tt, negotiating n i c 2 [(1 + p, RelayRouter.AnswerAfterCreate)],
                  [OfClient i (PeerCall (1 + p) CreateAnswer)])).
  { cbn [RelayRouter.handle]. unfold bind at 1. unfold this at 1.
    rewrite (relay_on_client_run _ _ _ _ (negotiating_nth n i c 1 _ Hc)).
    unfold RelayRouter.ClientConnection.resume, RelayRouter.ClientConnection.await.
    handler. cbn -[Nat.eqb replace]. rewrite Nat.eqb_refl. cbn -[replace].
    rewrite Nat.eqb_refl. cbn -[replace]. unfold negotiating. cbn -[replace].
    rewrite replace_replace. reflexivity. }
  rewrite (bind_returned _ _ _ _ _ _ H2). clear H2.
  rewrite for_each_cons.
  assert (H3 : RelayRouter.handle node (RelayRouter.Fulfilled i (1 + p) answer)
                 (negotiating n i c 2 [(1 + p, RelayRouter.AnswerAfterCreate)])
               = (Returned tt,
                  negotiating n i c 3 [(2 + p, RelayRouter.AnswerAfterLocal answer)],
                  [OfClient i (PeerCall (2 + p) (SetLocalDescription answer))])).
  { cbn [RelayRouter.handle]. unfold bind at 1. unfold this at 1.
    rewrite (relay_on_client_run _ _ _ _ (negotiating_nth n i c 2 _ Hc)).
    unfold RelayRouter.ClientConnection.resume, RelayRouter.ClientConnection.await.
    handler. cbn -[Nat.eqb replace]. rewrite Nat.eqb_refl. cbn -[replace].
    rewrite Nat.eqb_refl. cbn -[replace]. unfold negotiating. cbn -[replace].
    rewrite replace_replace. reflexivity. }
  rewrite (bind_returned _ _ _ _ _ _ H3). clear H3.
  rewrite for_each_cons.
  assert (H4 : RelayRouter.handle node (RelayRouter.Fulfilled i (2 + p) v')
                 (negotiating n i c 3 [(2 + p, RelayRouter.AnswerAfterLocal answer)])
               = (Returned tt, negotiating n i c 3 [],
                  [OfClient i (DocAdd (RelayRouter.ClientConnection.answerRef c)
                                 (JS.VObject [("id", RelayRouter.NODE_ID n);
                                              ("answer", answer)]))])).
  { cbn [RelayRouter.handle]. unfold bind at 1. unfold this at 1.
    rewrite (relay_on_client_run _ _ _ _ (negotiating_nth n i c 3 _ Hc)).
    unfold RelayRouter.ClientConnection.resume, RelayRouter.ClientConnection.send.
    handler. cbn -[Nat.eqb replace]. rewrite Nat.eqb_refl. cbn -[replace].
    rewrite Nat.eqb_refl. cbn -[replace]. unfold negotiating. cbn -[replace].
    rewrite replace_replace. reflexivity. }
  rewrite (bind_returned _ _ _ _ _ _ H4). clear H4.
  reflexivity.
Qed.

(** The offer of bob on the relay router of the scenario. *)
Lemma relay_offer_witness :
  exists c,
    nth_error (RelayRouter.clients Scenario.relay_ready) 1 = Some c
    /\ RelayRouter.run Scenario.relay_node
         [RelayRouter.Offers
            [{| RelayRouter.type := "added";
                RelayRouter.doc := JS.VObject [("id", JS.VString "bob");
                                               ("offer", Scenario.sdp "offer" "v=0")] |}];
          RelayRouter.Fulfilled 1 0 JS.VUndefined;
          RelayRouter.Fulfilled 1 1 (Scenario.sdp "answer" "v=1");
          RelayRouter.Fulfilled 1 2 JS.VUndefined] Scenario.relay_ready
       = (Returned tt, negotiating Scenario.relay_ready 1 c 3 [],
          [OfClient 1 (Log "Got offer from 'bob'" 5);
           OfClient 1 (PeerCall 0 (SetRemoteDescription (Scenario.sdp "offer" "v=0")));
           OfClient 1 (PeerCall 1 CreateAnswer);
           OfClient 1 (PeerCall 2 (SetLocalDescription (Scenario.sdp "answer" "v=1")));
           OfClient 1 (DocAdd "meetings/devgroup/clients/bob/receivedAnswers"
                         (JS.VObject [("id", JS.VString "router-1");
                                      ("answer", Scenario.sdp "answer" "v=1")]))]).
Proof.
  eexists. split; [reflexivity|].
  apply (relay_offer_is_answered_in_the_collection_of_the_client Scenario.relay_node
           Scenario.relay_ready 1 _
           [("id", JS.VString "bob"); ("offer", Scenario.sdp "offer" "v=0")] "bob"
           (Scenario.sdp "offer" "v=0") (Scenario.sdp "answer" "v=1")
           JS.VUndefined JS.VUndefined eq_refl eq_refl eq_refl eq_refl eq_refl eq_refl).
Defined.

(** A candidate of the engine of a registered client, in the relay
    router: one document is added to the collection of candidates of that
    client, with the id of the node and the candidate written as JSON text;
    read as JSON, the text is the candidate.  The node is as before. *)
Theorem relay_candidate_is_written_as_text_that_reads_back :
  forall (node : RelayRouter.Globals) (n : RelayRouter.t) (i : nat)
         (c : RelayRouter.ClientConnection.t) (candidate : JS.value),
    nth_error (RelayRouter.clients n) i = Some c ->
    JS.truthy candidate = true ->
    document candidate ->
    let text := JS.JSON_stringify candidate in
    RelayRouter.handle node (RelayRouter.OnIceCandidate i candidate) n
    = (Returned tt, n,
       [OfClient i (Log "Sending ICE" 5);
        OfClient i (DocAdd (RelayRouter.ClientConnection.iceRef c)
                      (JS.VObject [("src_id", RelayRouter.NODE_ID n);
                                   ("candidate", JS.VString text)]))])
    /\ JS.JSON_parse text = Some candidate.
Proof.
  intros node n i c candidate Hc Htruthy Hdoc text. split.
  - cbn [RelayRouter.handle]. rewrite Htruthy.
    unfold RelayRouter.on_client, on_nth, RelayRouter.ClientConnection.sendIce,
      RelayRouter.ClientConnection.send.
    handler. rewrite Hc. cbn [map app].
    rewrite (replace_same _ _ _ Hc). destruct n; reflexivity.
  - apply JSON_parse_stringify. exact Hdoc.
Qed.

(** A candidate of the engine of alice. *)
Lemma relay_candidate_witness :
  exists c,
    nth_error (RelayRouter.clients Scenario.relay_ready) 0 = Some c
    /\ RelayRouter.handle Scenario.relay_node
         (RelayRouter.OnIceCandidate 0
            (JS.VObject [("candidate", JS.VString "candidate:1")]))
         Scenario.relay_ready
       = (Returned tt, Scenario.relay_ready,
          [OfClient 0 (Log "Sending ICE" 5);
           OfClient 0 (DocAdd (RelayRouter.ClientConnection.iceRef c)
                         (JS.VObject
                            [("src_id", RelayRouter.NODE_ID Scenario.relay_ready);
                             ("candidate",
                              JS.VString (dq "{'candidate':'candidate:1'}"))]))]).
Proof.
  eexists. split; [reflexivity|].
  apply (proj1 (relay_candidate_is_written_as_text_that_reads_back Scenario.relay_node
                  Scenario.relay_ready 0 _
                  (JS.VObject [("candidate", JS.VString "candidate:1")])
                  eq_refl eq_refl
                  ltac:(repeat (first [constructor | reflexivity])))).
Defined.

(* ================================================================== *)
(** * The registry of the relay router *)
(* ================================================================== *)

Lemma first_with_id_app id l c k :
  RelayRouter.ClientManager.first_with_id id (l ++ [c]) k
  = match RelayRouter.ClientManager.first_with_id id l k with
    | Some None =>
        match JS.loose_eq (RelayRouter.ClientConnection.id c) id with
        | Some true => Some (Some (k + List.length l))
        | Some false => Some None
        | None => None
        end
    | found => found
    end.
Proof.
  revert k. induction l as [|x l IH]; intros k; cbn.
  - rewrite Nat.add_0_r. destruct (JS.loose_eq _ _) as [[|]|]; reflexivity.
  - destruct (JS.loose_eq (RelayRouter.ClientConnection.id x) id) as [[|]|]; try reflexivity.
    rewrite IH. replace (S k + List.length l) with (k + S (List.length l)) by lia.
    reflexivity.
Qed.

Lemma first_with_id_bound id l k i :
  RelayRouter.ClientManager.first_with_id id l k = Some (Some i) ->
  k <= i < k + List.length l.
Proof.
  revert k. induction l as [|x l IH]; intros k; cbn; [discriminate|].
  destruct (JS.loose_eq _ _) as [[|]|]; try discriminate.
  - intros H. injection H as <-. lia.
  - intros H. apply IH in H. lia.
Qed.

Lemma addClient_run node id who n :
  JS.to_text id = Some who ->
  RelayRouter.ClientManager.addClient node id false n
  = (Returned tt,
     RelayRouter.set_clients (RelayRouter.clients n ++ [registered_as node id who]) n, []).
Proof.
  intros H. unfold RelayRouter.ClientManager.addClient, at_node,
    RelayRouter.ClientConnection.new.
  handler. rewrite H. reflexivity.
Qed.

(** The registry of the relay router never lets go of an id.  When an id
    reaches a client, registering a client, under the same id or another,
    leaves it reaching that one: the first registration wins.  Removing the
    client closes its peer connection and leaves it in the registry, where
    the id still reaches it. *)
Theorem relay_registry_keeps_the_first_client_of_an_id :
  forall (node : RelayRouter.Globals) (n : RelayRouter.t) (id : JS.value) (i : nat),
    RelayRouter.ClientManager.first_with_id id (RelayRouter.clients n) 0 = Some (Some i) ->
    (forall (id' : JS.value) (who : string),
        JS.to_text id' = Some who ->
        (RelayRouter.ClientManager.addClient node id' false ;;
         RelayRouter.ClientManager.getClientById id) n
        = (Returned (Some i),
           RelayRouter.set_clients (RelayRouter.clients n ++ [registered_as node id' who]) n,
           []))
    /\ (RelayRouter.ClientManager.removeClient id ;;
        RelayRouter.ClientManager.getClientById id) n
       = (Returned (Some i), n, [OfClient i PeerClose]).
Proof.
  intros node n id i Hi. split.
  - intros id' who Hwho.
    rewrite (bind_returned _ _ _ _ _ _ (addClient_run node id' who n Hwho)).
    unfold RelayRouter.ClientManager.getClientById. handler. cbn [RelayRouter.clients RelayRouter.set_clients].
    rewrite first_with_id_app, Hi. reflexivity.
  - assert (Hb := first_with_id_bound _ _ _ _ Hi).
    destruct (nth_error (RelayRouter.clients n) i) as [c|] eqn:Hc.
    2:{ apply nth_error_None in Hc. lia. }
    unfold RelayRouter.ClientManager.removeClient, RelayRouter.ClientManager.getClientById,
      RelayRouter.on_client, RelayRouter.ClientConnection.close, on_nth.
    handler. rewrite Hi. cbn. rewrite Hc. cbn.
    rewrite (replace_same _ _ _ Hc). destruct n; cbn in *. rewrite Hi. reflexivity.
Qed.

(** A second registration of bob: the id still reaches the first. *)
Lemma relay_registry_witness :
  (RelayRouter.ClientManager.addClient Scenario.relay_node (JS.VString "bob") false ;;
   RelayRouter.ClientManager.getClientById (JS.VString "bob")) Scenario.relay_ready
  = (Returned (Some 1),
     RelayRouter.set_clients
       (RelayRouter.clients Scenario.relay_ready
        ++ [registered_as Scenario.relay_node (JS.VString "bob") "bob"])
       Scenario.relay_ready, []).
Proof.
  apply (proj1 (relay_registry_keeps_the_first_client_of_an_id Scenario.relay_node
                  Scenario.relay_ready (JS.VString "bob") 1 eq_refl)).
  reflexivity.
Defined.

(* ================================================================== *)
(** * The initiating role of part_003 *)
(* ================================================================== *)

Lemma outbound_handle_unbound node e :
  preserves unbound (SocketRouter.handle node SocketRouter.Outbound e).
Proof.
  destruct e; cbn [SocketRouter.handle];
    unfold SocketRouter.OutboundClient.onClientMessage,
      SocketRouter.SockRequest.new, SocketRouter.settle,
      SocketRouter.OutboundClient.processAnswer, SocketRouter.OutboundClient.renegotiateWebRTC,
      SocketRouter.OutboundClient.sendOffer, SocketRouter.OutboundClient.resume, SocketRouter.OutboundClient.sendIce,
      SocketRouter.ClientConnection.onconnectionstatechange, SocketRouter.ClientConnection.ontrack,
      SocketRouter.ClientConnection.addICE, SocketRouter.ClientConnection.unknownCommand,
      SocketRouter.ClientConnection.close, SocketRouter.ClientConnection.send, SocketRouter.ClientConnection.await;
    repeat preserves_step; assumption.
Qed.

Lemma last_with_id_app id l rc k res :
  SocketRouter.Management.last_with_id id (l ++ [rc]) k res
  = match SocketRouter.Management.last_with_id id l k res with
    | Some found =>
        match JS.strict_eq (SocketRouter.ClientConnection.id (snd rc)) id with
        | Some true => Some (Some (k + List.length l))
        | Some false => Some found
        | None => None
        end
    | None => None
    end.
Proof.
  revert k res. induction l as [|[r x] l IH]; intros k res; cbn.
  - rewrite Nat.add_0_r. destruct rc as [r c]. cbn.
    destruct (JS.strict_eq _ _) as [[|]|]; reflexivity.
  - replace (k + S (List.length l)) with (S k + List.length l) by lia.
    destruct (JS.strict_eq (SocketRouter.ClientConnection.id x) id) as [[|]|];
      try apply IH.
    (* the comparison is outside the model: so is the whole lookup *)
    reflexivity.
Qed.

(** A session of the initiating role of [part_003] never has an identity:
    over every run of events its id stays null and its [id] getter gives
    the empty string.  Pushed on the list of a manager it is reached by no
    id other than the empty string: the lookup of such an id gives what it
    gave without the session. *)
Theorem initiating_session_is_never_bound :
  forall (node : SocketRouter.Globals) (events : list SocketRouter.event),
    let c := final (SocketRouter.run node SocketRouter.Outbound events
                      SocketRouter.ClientConnection.new) in
    SocketRouter.ClientConnection._id c = JS.VNull
    /\ SocketRouter.ClientConnection.id c = JS.VString ""
    /\ forall (l : list (SocketRouter.role * SocketRouter.ClientConnection.t))
              (d : string) (r : SocketRouter.role),
         d <> "" ->
         SocketRouter.Management.last_with_id (JS.VString d) (l ++ [(r, c)]) 0 None
         = SocketRouter.Management.last_with_id (JS.VString d) l 0 None.
Proof.
  intros node events c.
  assert (H : unbound c).
  { unfold c, SocketRouter.run. apply preserves_for_each; [|reflexivity].
    intros e. apply outbound_handle_unbound. }
  unfold unbound in H. split; [exact H|].
  assert (Hid : SocketRouter.ClientConnection.id c = JS.VString "").
  { unfold SocketRouter.ClientConnection.id. rewrite H. reflexivity. }
  split; [exact Hid|].
  intros l d r Hd. rewrite last_with_id_app. cbn [snd]. rewrite Hid. cbn [JS.strict_eq].
  replace (String.eqb "" d) with false.
  - destruct (SocketRouter.Management.last_with_id _ _ _ _); reflexivity.
  - symmetry. apply String.eqb_neq. congruence.
Qed.

Lemma outbound_fulfilled node c made p k v :
  SocketRouter.handle node SocketRouter.Outbound (SocketRouter.Fulfilled p v)
    (moved_on c made [(p, k)])
  = SocketRouter.OutboundClient.resume node k v (moved_on c made []).
Proof.
  cbn [SocketRouter.handle]. unfold SocketRouter.settle. handler.
  cbn [SocketRouter.ClientConnection.awaiting moved_on SocketRouter.ClientConnection.waiting_on].
  rewrite Nat.eqb_refl. unfold SocketRouter.ClientConnection.forget.
  cbn [SocketRouter.ClientConnection.awaiting SocketRouter.ClientConnection._id
         SocketRouter.ClientConnection.clientStreams SocketRouter.ClientConnection.promises
         moved_on filter fst].
  rewrite Nat.eqb_refl. cbn [negb]. unfold moved_on.
  destruct k; reflexivity.
Qed.

(** The negotiation of the initiating role of [part_003], on a session
    that waits for nothing: asked to renegotiate it has the engine create an
    offer, sets it as the local description, and sends it in an offer
    message; the answer message that comes back, which passes no gate, has
    its payload set as the remote description.  The session is left
    waiting for nothing. *)
Theorem initiating_role_offers_and_applies_the_answer :
  forall (node : SocketRouter.Globals) (c : SocketRouter.ClientConnection.t)
         (raw : string) (props : list (string * JS.value)) (offer v v' : JS.value),
    SocketRouter.ClientConnection.awaiting c = [] ->
    JS.JSON_parse raw = Some (JS.VObject props) ->
    JS.own props "action" = JS.VString "answer" ->
    let p := SocketRouter.ClientConnection.promises c in
    SocketRouter.run node SocketRouter.Outbound
      [SocketRouter.Renegotiate;
       SocketRouter.Fulfilled p offer;
       SocketRouter.Fulfilled (1 + p) v;
       SocketRouter.OnMessage raw;
       SocketRouter.Fulfilled (2 + p) v'] c
    = (Returned tt, moved_on c 3 [],
       [PeerCall p CreateOffer;
        PeerCall (1 + p) (SetLocalDescription offer);
        SocketSend (SocketRouter.SockResponse.RESP_OFFER node offer);
        Log ("Socket message: " ++ raw) 9;
        PeerCall (2 + p) (SetRemoteDescription (JS.field props "data" JS.VNull))]).
Proof.
  intros node c raw props offer v v' Haw Hparse Haction p.
  unfold SocketRouter.run. rewrite for_each_cons.
  assert (H1 : SocketRouter.handle node SocketRouter.Outbound SocketRouter.Renegotiate c
               = (Returned tt, moved_on c 1 [(p, SocketRouter.OfferAfterCreate)],
                  [PeerCall p CreateOffer])).
  { cbn [SocketRouter.handle]. unfold SocketRouter.OutboundClient.renegotiateWebRTC,
      SocketRouter.OutboundClient.sendOffer, SocketRouter.ClientConnection.await,
      SocketRouter.ClientConnection.suspend, moved_on.
    handler. rewrite Haw. reflexivity. }
  rewrite (bind_returned _ _ _ _ _ _ H1). clear H1. rewrite for_each_cons.
  assert (H2 : SocketRouter.handle node SocketRouter.Outbound (SocketRouter.Fulfilled p offer)
                 (moved_on c 1 [(p, SocketRouter.OfferAfterCreate)])
               = (Returned tt, moved_on c 2 [(1 + p, SocketRouter.OfferAfterLocal offer)],
                  [PeerCall (1 + p) (SetLocalDescription offer)])).
  { rewrite outbound_fulfilled. reflexivity. }
  rewrite (bind_returned _ _ _ _ _ _ H2). clear H2. rewrite for_each_cons.
  assert (H3 : SocketRouter.handle node SocketRouter.Outbound (SocketRouter.Fulfilled (1 + p) v)
                 (moved_on c 2 [(1 + p, SocketRouter.OfferAfterLocal offer)])
               = (Returned tt, moved_on c 2 [],
                  [SocketSend (SocketRouter.SockResponse.RESP_OFFER node offer)])).
  { rewrite outbound_fulfilled. reflexivity. }
  rewrite (bind_returned _ _ _ _ _ _ H3). clear H3. rewrite for_each_cons.
  assert (H4 : SocketRouter.handle node SocketRouter.Outbound (SocketRouter.OnMessage raw)
                 (moved_on c 2 [])
               = (Returned tt, moved_on c 3 [(2 + p, SocketRouter.AnswerApplied)],
                  [Log ("Socket message: " ++ raw) 9;
                   PeerCall (2 + p)
                     (SetRemoteDescription (JS.field props "data" JS.VNull))])).
  { cbn [SocketRouter.handle]. unfold SocketRouter.OutboundClient.onClientMessage.
    rewrite (bind_returned _ _ _ _ _ _ (SockRequest_new_object raw props _ Hparse)).
    cbn [SocketRouter.SockRequest.parseError SocketRouter.SockRequest.action
           SocketRouter.SockRequest.data].
    assert (Ha : JS.field props "action" (JS.VString "") = JS.VString "answer")
      by (unfold JS.field; rewrite Haction; reflexivity).
    rewrite !Ha. cbn [JS.is_string String.eqb Ascii.eqb Bool.eqb].
    reflexivity. }
  rewrite (bind_returned _ _ _ _ _ _ H4). clear H4. rewrite for_each_cons.
  assert (H5 : SocketRouter.handle node SocketRouter.Outbound (SocketRouter.Fulfilled (2 + p) v')
                 (moved_on c 3 [(2 + p, SocketRouter.AnswerApplied)])
               = (Returned tt, moved_on c 3 [], [])).
  { rewrite outbound_fulfilled. reflexivity. }
  rewrite (bind_returned _ _ _ _ _ _ H5). clear H5.
  reflexivity.
Qed.

(** A fresh session of the initiating role, asked to renegotiate. *)
Lemma initiating_role_negotiation_witness :
  SocketRouter.run Scenario.dev_node SocketRouter.Outbound
    [SocketRouter.Renegotiate;
     SocketRouter.Fulfilled 0 (Scenario.sdp "offer" "v=0");
     SocketRouter.Fulfilled 1 JS.VUndefined;
     SocketRouter.OnMessage (dq "{'action':'answer','data':{'type':'answer','sdp':'v=1'}}");
     SocketRouter.Fulfilled 2 JS.VUndefined] SocketRouter.ClientConnection.new
  = (Returned tt, moved_on SocketRouter.ClientConnection.new 3 [],
     [PeerCall 0 CreateOffer;
      PeerCall 1 (SetLocalDescription (Scenario.sdp "offer" "v=0"));
      SocketSend (SocketRouter.SockResponse.RESP_OFFER Scenario.dev_node
                    (Scenario.sdp "offer" "v=0"));
      Log ("Socket message: "
           ++ dq "{'action':'answer','data':{'type':'answer','sdp':'v=1'}}") 9;
      PeerCall 2 (SetRemoteDescription (Scenario.sdp "answer" "v=1"))]).
Proof.
  apply (initiating_role_offers_and_applies_the_answer Scenario.dev_node
           SocketRouter.ClientConnection.new
           (dq "{'action':'answer','data':{'type':'answer','sdp':'v=1'}}")
           [("action", JS.VString "answer"); ("data", Scenario.sdp "answer" "v=1")]
           (Scenario.sdp "offer" "v=0") JS.VUndefined JS.VUndefined
           eq_refl eq_refl eq_refl).
Defined.

(* ================================================================== *)
(** * A candidate without a payload *)
(* ================================================================== *)

(** A candidate message without a payload, in [part_003]: [data] is
    decoded as null, the handler reads [candidate] of it and throws a
    TypeError, after the log and before any call on the engine.  The
    initiating role does so for any such message, the accepting role once
    the message has passed the gate.  The session is as before. *)
Theorem candidate_without_payload_throws :
  forall (node : SocketRouter.Globals) (raw : string) (props : list (string * JS.value)),
    JS.JSON_parse raw = Some (JS.VObject props) ->
    JS.own props "action" = JS.VString "addICE" ->
    JS.is_nullish (JS.own props "data") = true ->
    (forall (c : SocketRouter.ClientConnection.t) (who : string),
        JS.to_text (SocketRouter.ClientConnection.id c) = Some who ->
        SocketRouter.OutboundClient.onClientMessage node raw c
        = (Threw (JS.TypeError "Cannot read properties of null (reading 'candidate')"), c,
           [Log ("Socket message: " ++ raw) 9; Log ("Got ICE from '" ++ who ++ "'") 5]))
    /\ (forall (c : SocketRouter.ClientConnection.t) (who : string),
          SocketRouter.ClientConnection._id c = JS.VString who ->
          JS.own props "id" = JS.VString who ->
          JS.own props "token" = JS.VString "testauth" ->
          SocketRouter.InboundClient.onClientMessage node raw c
          = (Threw (JS.TypeError "Cannot read properties of null (reading 'candidate')"), c,
             [Log ("Socket message: " ++ raw) 9; Log ("Authenticated user" ++ who) 4;
              Log ("Got ICE from '" ++ who ++ "'") 5])).
Proof.
  intros node raw props Hparse Haction Hdata.
  assert (Hd : JS.nullish_or (JS.own props "data") JS.VNull = JS.VNull).
  { unfold JS.nullish_or. rewrite Hdata. reflexivity. }
  split.
  - intros c who Hwho.
    unfold SocketRouter.OutboundClient.onClientMessage.
    rewrite (bind_returned _ _ _ _ _ _ (SockRequest_new_object raw props c Hparse)).
    cbn [SocketRouter.SockRequest.parseError SocketRouter.SockRequest.action].
    unfold JS.field. rewrite Haction. cbn [JS.nullish_or JS.is_nullish JS.is_string].
    cbn [String.eqb Ascii.eqb Bool.eqb].
    unfold SocketRouter.ClientConnection.addICE. handler. rewrite Hwho.
    cbn [SocketRouter.SockRequest.data]. unfold JS.field. rewrite Hd. reflexivity.
  - intros c who Hc Hid Htoken.
    unfold SocketRouter.InboundClient.onClientMessage.
    rewrite (bind_returned _ _ _ _ _ _ (SockRequest_new_object raw props c Hparse)).
    cbn [SocketRouter.SockRequest.parseError].
    destruct c as [i0 streams made waits]. cbn in Hc. subst i0.
    unfold SocketRouter.ClientConnection.authenticateRequest,
      SocketRouter.ClientConnection.addICE, SocketRouter.ClientConnection.id.
    handler. cbn [SocketRouter.SockRequest.id SocketRouter.SockRequest.token
                    SocketRouter.SockRequest.action SocketRouter.SockRequest.data].
    unfold JS.field. rewrite Hid, Htoken, Haction, Hd.
    cbn [JS.nullish_or JS.is_nullish JS.loose_eq JS.is_string JS.to_text
           SocketRouter.ClientConnection._id].
    rewrite String.eqb_refl. cbn. reflexivity.
Qed.

(** A candidate message without data on a fresh initiating session, and one
    with null data on the accepting session of alice. *)
Lemma candidate_without_payload_witness :
  SocketRouter.OutboundClient.onClientMessage Scenario.dev_node
    (dq "{'action':'addICE'}") SocketRouter.ClientConnection.new
  = (Threw (JS.TypeError "Cannot read properties of null (reading 'candidate')"),
     SocketRouter.ClientConnection.new,
     [Log ("Socket message: " ++ dq "{'action':'addICE'}") 9; Log "Got ICE from ''" 5])
  /\ SocketRouter.InboundClient.onClientMessage Scenario.dev_node
       (dq "{'action':'addICE','data':null,'id':'alice','token':'testauth'}")
       (snd (Scenario.bound "alice"))
     = (Threw (JS.TypeError "Cannot read properties of null (reading 'candidate')"),
        snd (Scenario.bound "alice"),
        [Log ("Socket message: "
              ++ dq "{'action':'addICE','data':null,'id':'alice','token':'testauth'}") 9;
         Log "Authenticated useralice" 4; Log "Got ICE from 'alice'" 5]).
Proof.
  split.
  - apply (proj1 (candidate_without_payload_throws Scenario.dev_node
                    (dq "{'action':'addICE'}")
                    [("action", JS.VString "addICE")] eq_refl eq_refl eq_refl)
             SocketRouter.ClientConnection.new "").
    reflexivity.
  - apply (proj2 (candidate_without_payload_throws Scenario.dev_node
                    (dq "{'action':'addICE','data':null,'id':'alice','token':'testauth'}")
                    [("action", JS.VString "addICE"); ("data", JS.VNull);
                     ("id", JS.VString "alice"); ("token", JS.VString "testauth")]
                    eq_refl eq_refl eq_refl)
             (snd (Scenario.bound "alice")) "alice"); reflexivity.
Defined.

(* ================================================================== *)
(** * The operator of part_000 *)
(* ================================================================== *)

Lemma admin_on_client_named {A} v i (m : M AdminRouter.Client.t effect A) :
  emits_only (fun e => attaches (OfClient i e) = false) m ->
  keeps (named v) (fun e => attaches e = false) (AdminRouter.on_client i m).
Proof.
  intros H. unfold AdminRouter.on_client.
  apply keeps_on_nth_frame; [intros l s Hs; exact Hs|exact H].
Qed.

Lemma adminCommands_named v req :
  JS.truthy v = false ->
  keeps (named v) (fun e => attaches e = false) (AdminRouter.adminCommands req).
Proof.
  intros Hv. unfold AdminRouter.adminCommands.
  apply keeps_bind; [apply keeps_emit; reflexivity|intros _].
  apply keeps_this. intros n Hn. unfold named in Hn. rewrite Hn, Hv.
  apply keeps_ret.
Qed.

Lemma admin_handle_named v e :
  JS.truthy v = false ->
  keeps (named v) (fun e => attaches e = false) (AdminRouter.handle e).
Proof.
  intros Hv. destruct e; cbn [AdminRouter.handle].
  - apply keeps_bind; [apply keeps_emit; reflexivity|intros _].
    apply keeps_update. intros s Hs. exact Hs.
  - unfold AdminRouter.socketMessage.
    repeat first
      [ apply adminCommands_named; exact Hv
      | apply admin_on_client_named;
        unfold AdminRouter.Request.new, AdminRouter.Client.getAuthentication,
          AdminRouter.Client.commands, AdminRouter.Client.sendAnswer,
          AdminRouter.Client.processAnswer, AdminRouter.Client.sendOffer,
          AdminRouter.Client.await;
        emits; reflexivity
      | apply keeps_this; intros n Hn
      | keeps_step ].
  - apply admin_on_client_named. emits; reflexivity.
  - destruct (JS.truthy candidate); [|apply keeps_ret].
    apply keeps_this. intros n Hn. apply admin_on_client_named.
    unfold AdminRouter.Client.sendIce, AdminRouter.Client.socketSend. emits; reflexivity.
  - apply keeps_this. intros n Hn. apply admin_on_client_named.
    unfold AdminRouter.Client.resume, AdminRouter.Client.socketSend, AdminRouter.Client.await.
    emits; reflexivity.
Qed.

(** In the router of [part_000], once the id of the node is falsy (the
    operator has set it from a message without data, or to an empty
    string), it stays what it is over every run of events, and no track is
    attached to any session again: every operator command, setting the id
    included, returns after its log. *)
Theorem operator_is_locked_out_once_the_node_id_is_unset :
  forall (events : list AdminRouter.event) (n : AdminRouter.t),
    JS.truthy (AdminRouter.NODE_ID n) = false ->
    let r := AdminRouter.run events n in
    AdminRouter.NODE_ID (final r) = AdminRouter.NODE_ID n
    /\ Forall (fun e => attaches e = false) (trace r).
Proof.
  intros events n Hn r.
  assert (H : keeps (named (AdminRouter.NODE_ID n)) (fun e => attaches e = false)
                (AdminRouter.run events)).
  { unfold AdminRouter.run. apply keeps_for_each. intros e.
    apply admin_handle_named. exact Hn. }
  apply (H n). reflexivity.
Qed.

(** After a setId without data the operator sets an id and asks for the route
    of the specification: the id stays null and nothing is routed. *)
Lemma operator_locked_out_witness :
  AdminRouter.NODE_ID
    (final (AdminRouter.run
              [AdminRouter.OnMessage 0
                 (dq "{'action':'setId','data':'node-7','id':'admin','token':'testauth'}");
               AdminRouter.OnMessage 0 Scenario.admin_route] admin_unset))
  = AdminRouter.NODE_ID admin_unset
  /\ Forall (fun e => attaches e = false)
       (trace (AdminRouter.run
                 [AdminRouter.OnMessage 0
                    (dq "{'action':'setId','data':'node-7','id':'admin','token':'testauth'}");
                  AdminRouter.OnMessage 0 Scenario.admin_route] admin_unset)).
Proof.
  apply (operator_is_locked_out_once_the_node_id_is_unset
           [AdminRouter.OnMessage 0
              (dq "{'action':'setId','data':'node-7','id':'admin','token':'testauth'}");
            AdminRouter.OnMessage 0 Scenario.admin_route] admin_unset).
  vm_compute. reflexivity.
Defined.

Lemma nth_error_replace_other {A} i j (x : A) l :
  j <> i -> nth_error (replace i x l) j = nth_error l j.
Proof.
  revert i j. induction l as [|y l IH]; intros [|i] [|j] H; cbn; try reflexivity.
  - congruence.
  - apply IH. congruence.
Qed.

Lemma keeps_on_self {A} self s n (m : M AdminRouter.Client.t effect A) :
  keeps (plain_client s) (fun _ => True) m ->
  keeps (but_for self s n) (of_session self) (AdminRouter.on_client self m).
Proof.
  intros Hm n' (Hid & Hothers & c & Hc & Hplain).
  unfold AdminRouter.on_client, on_nth, final, trace. rewrite Hc.
  destruct (Hm c Hplain) as [H1 _]. unfold final in H1.
  destruct (m c) as [[out c'] tr]. unfold but_for.
  cbn [fst snd AdminRouter.set_clients AdminRouter.clients AdminRouter.NODE_ID] in *. split.
  - split; [exact Hid|split].
    + intros j Hj. rewrite nth_error_replace_other by exact Hj. apply Hothers. exact Hj.
    + exists c'. split; [|exact H1]. apply nth_error_replace.
      apply nth_error_Some. congruence.
  - apply Forall_map. apply Forall_forall. intros e _. reflexivity.
Qed.

Lemma getAuthentication_plain req s c :
  plain_client s c -> s <> "admin" ->
  final (AdminRouter.Client.getAuthentication req c) = c.
Proof.
  intros [Hid Hadmin] Hs. destruct c as [i st ad ini pr aw]. cbn in Hid, Hadmin. subst i ad.
  unfold AdminRouter.Client.getAuthentication. handler.
  cbn [AdminRouter.Client.id_ JS.is_nullish].
  destruct (AdminRouter.Request.id req) as [| | b | l | i | l | l]; cbn; try reflexivity.
  destruct (String.eqb s i) eqn:E; cbn; [|reflexivity].
  apply String.eqb_eq in E. subst i.
  replace (String.eqb s "admin") with false by (symmetry; apply String.eqb_neq; exact Hs).
  cbn. destruct (JS.loose_eq (AdminRouter.Request.token req) (JS.VString "testauth"))
    as [[|]|]; reflexivity.
Qed.

Lemma commands_plain s req :
  keeps (plain_client s) (fun _ : effect => True) (AdminRouter.Client.commands req).
Proof.
  unfold AdminRouter.Client.commands, AdminRouter.Client.sendAnswer,
    AdminRouter.Client.processAnswer, AdminRouter.Client.sendOffer,
    AdminRouter.Client.await.
  repeat first [ apply keeps_emit; exact I
               | apply keeps_update; intros ? [? ?]; split; assumption
               | keeps_step ].
Qed.

(** In the router of [part_000] a message on the session of a client, one
    bound to an id other than admin that is no operator, touches that
    session only, whatever the text: the id of the node and every other
    session are as before, every effect is one of that session, and the
    session is still bound to its id and still no operator. *)
Theorem a_client_message_touches_its_own_session_only :
  forall (n : AdminRouter.t) (self : nat) (c : AdminRouter.Client.t) (s raw : string),
    nth_error (AdminRouter.clients n) self = Some c ->
    AdminRouter.Client.id_ c = JS.VString s ->
    AdminRouter.Client.isAdmin c = false ->
    s <> "admin" ->
    let r := AdminRouter.handle (AdminRouter.OnMessage self raw) n in
    but_for self s n (final r) /\ Forall (of_session self) (trace r).
Proof.
  intros n self c s raw Hc Hid Hadmin Hs r.
  assert (H : keeps (but_for self s n) (of_session self)
                (AdminRouter.handle (AdminRouter.OnMessage self raw))).
  { cbn [AdminRouter.handle]. unfold AdminRouter.socketMessage.
    apply keeps_bind.
    { apply keeps_on_self. unfold AdminRouter.Request.new.
      repeat first [apply keeps_emit; exact I | keeps_step]. }
    intros req. destruct (AdminRouter.Request.parseError req); [apply keeps_ret|].
    apply keeps_bind.
    { apply keeps_on_self. intros c' Hc'. split.
      - rewrite (getAuthentication_plain req s c' Hc' Hs). exact Hc'.
      - apply Forall_forall. intros e _. exact I. }
    intros ok. destruct (negb ok).
    { apply keeps_on_self. repeat first [apply keeps_emit; exact I | keeps_step]. }
    apply keeps_this. intros n' (_ & _ & c' & Hc' & _ & Hplain).
    rewrite Hc', Hplain. apply keeps_on_self. apply commands_plain. }
  apply (H n). split; [reflexivity|split; [reflexivity|]].
  exists c. split; [exact Hc|split; assumption].
Qed.

(** Bob sends the route command of the operator: only his session is touched. *)
Lemma a_client_message_witness :
  but_for 1 "bob" Scenario.admin_ready
    (final (AdminRouter.handle (AdminRouter.OnMessage 1 Scenario.admin_route)
              Scenario.admin_ready))
  /\ Forall (of_session 1)
       (trace (AdminRouter.handle (AdminRouter.OnMessage 1 Scenario.admin_route)
                 Scenario.admin_ready)).
Proof.
  refine (a_client_message_touches_its_own_session_only Scenario.admin_ready 1
            _ "bob" Scenario.admin_route eq_refl eq_refl eq_refl _).
  discriminate.
Defined.

(* ================================================================== *)
(** * The list of sessions *)
(* ================================================================== *)

Lemma removeItem_absent arr value :
  ~ In value arr -> Registry.removeItem arr value = arr.
Proof.
  unfold Registry.removeItem. intros H.
  assert (E : Registry.indexOf arr value = None).
  { induction arr as [|x l IH]; [reflexivity|]. cbn.
    destruct (Nat.eqb x value) eqn:Ex.
    - apply Nat.eqb_eq in Ex. exfalso. apply H. left. exact Ex.
    - rewrite IH; [reflexivity|]. intros Hin. apply H. right. exact Hin. }
  rewrite E. reflexivity.
Qed.

Lemma removeItem_cons x arr value :
  Registry.removeItem (x :: arr) value
  = if Nat.eqb x value then arr else x :: Registry.removeItem arr value.
Proof.
  unfold Registry.removeItem. cbn [Registry.indexOf].
  destruct (Nat.eqb x value); [reflexivity|].
  destruct (Registry.indexOf arr value); reflexivity.
Qed.

Lemma removeItem_filter arr value :
  NoDup arr ->
  Registry.removeItem arr value = filter (fun c => negb (Nat.eqb c value)) arr.
Proof.
  induction 1 as [|x l Hx Hl IH]; [reflexivity|].
  rewrite removeItem_cons. cbn [filter].
  destruct (Nat.eqb x value) eqn:E; cbn [negb].
  - apply Nat.eqb_eq in E. subst x. rewrite <- IH. symmetry.
    apply removeItem_absent. exact Hx.
  - rewrite IH. reflexivity.
Qed.

Lemma registry_handle_distinct e r :
  distinct_sessions r -> distinct_sessions (final (Registry.handle e r)).
Proof.
  intros [Hnd Hlt]. destruct e as [|c]; cbn.
  - split.
    + apply NoDup_app; [exact Hnd|repeat constructor; intros []|].
      intros x Hx [<-|[]]. rewrite Forall_forall in Hlt. apply Hlt in Hx. lia.
    + apply Forall_app. split.
      * eapply Forall_impl; [|exact Hlt]. cbn. intros; lia.
      * repeat constructor.
  - rewrite (removeItem_filter _ _ Hnd). split.
    + apply NoDup_filter. exact Hnd.
    + cbn. rewrite Forall_forall in *. intros x Hx. apply filter_In in Hx. apply Hlt, Hx.
Qed.

Lemma registry_run_distinct events r :
  distinct_sessions r -> distinct_sessions (final (Registry.run events r)).
Proof.
  revert r. induction events as [|e l IH]; intros r H; [exact H|].
  unfold Registry.run. rewrite for_each_cons.
  assert (He := registry_handle_distinct e r H).
  unfold bind, final in *. destruct (Registry.handle e r) as [[[[]| |] r1] t1] eqn:E.
  - specialize (IH r1 He). unfold Registry.run in IH.
    destruct (for_each l Registry.handle r1) as [[o r2] t2]. exact IH.
  - destruct e; discriminate E.
  - destruct e; discriminate E.
Qed.

(** The list of sessions of [part_000] and [index.ts], after any run of
    connections and closes: closing a session takes that session out, the
    others stay in the order in which they connected, and closing it again
    changes nothing. *)
Theorem closing_removes_that_session_and_no_other :
  forall (events : list Registry.event) (client : nat),
    let r := final (Registry.run events Registry.new) in
    let r' := final (Registry.handle (Registry.OnClose client) r) in
    Registry.clients r' = filter (fun c => negb (Nat.eqb c client)) (Registry.clients r)
    /\ ~ In client (Registry.clients r')
    /\ Registry.clients (final (Registry.handle (Registry.OnClose client) r'))
       = Registry.clients r'.
Proof.
  intros events client r r'.
  assert (H : distinct_sessions r).
  { apply registry_run_distinct. split; constructor. }
  assert (E : Registry.clients r'
              = filter (fun c => negb (Nat.eqb c client)) (Registry.clients r)).
  { unfold r'. cbn. apply removeItem_filter. apply H. }
  assert (Hout : ~ In client (Registry.clients r')).
  { rewrite E. intros Hin. apply filter_In in Hin. destruct Hin as [_ Hin].
    rewrite Nat.eqb_refl in Hin. discriminate. }
  split; [exact E|split; [exact Hout|]].
  cbn -[r']. apply removeItem_absent. exact Hout.
Qed.

(* ================================================================== *)
(** * Routes without a stream to pass on *)
(* ================================================================== *)

Lemma Management_last_with_id_bound id l :
  forall i r u,
    SocketRouter.Management.last_with_id id l i r = Some (Some u) ->
    r = Some u \/ i <= u < i + List.length l.
Proof.
  induction l as [|[role c] l IH]; intros i r u H; cbn in H.
  - left. congruence.
  - destruct (JS.strict_eq (SocketRouter.ClientConnection.id c) id) as [[|]|];
      [| |discriminate]; destruct (IH _ _ _ H) as [Hr|Hb]; cbn [List.length].
    + right. inversion Hr; subst. lia.
    + right. lia.
    + left. exact Hr.
    + right. lia.
Qed.

Lemma Admin_last_with_id_bound id l :
  forall i r u,
    AdminRouter.last_with_id id l i r = Some (Some u) ->
    r = Some u \/ i <= u < i + List.length l.
Proof.
  induction l as [|c l IH]; intros i r u H; cbn in H.
  - left. congruence.
  - destruct (JS.strict_eq (AdminRouter.Client.id_ c) id) as [[|]|];
      [| |discriminate]; destruct (IH _ _ _ H) as [Hr|Hb]; cbn [List.length].
    + right. inversion Hr; subst. lia.
    + right. lia.
    + left. exact Hr.
    + right. lia.
Qed.

(** A route of the manager of [part_003] whose source has no stream to
    pass on.  A source that no session has is logged and the command
    returns; a source that has received no stream makes the command throw a
    TypeError at the first destination, when that one is present, with
    nothing attached and nothing sent.  The manager is as before. *)
Theorem management_route_without_a_stream_to_pass_on :
  forall (node : SocketRouter.Globals) (m : SocketRouter.Management.t)
         (src : JS.value) (rest : list JS.value),
    (forall who,
        SocketRouter.Management.last_with_id src (SocketRouter.Management.clients m) 0 None
        = Some None ->
        JS.to_text src = Some who ->
        SocketRouter.Management.addRoute node (JS.VArray (src :: rest)) m
        = (Returned tt, m,
           [NodeLog "Routing streams" 4;
            NodeLog ("Routing error: Source client with id " ++ who ++ " does not exist") 1]))
    /\ (forall s role c d rest' u,
          SocketRouter.Management.last_with_id src (SocketRouter.Management.clients m) 0 None
          = Some (Some s) ->
          nth_error (SocketRouter.Management.clients m) s = Some (role, c) ->
          nth 0 (SocketRouter.ClientConnection.clientStreams c) None = None ->
          rest = d :: rest' ->
          SocketRouter.Management.last_with_id d (SocketRouter.Management.clients m) 0 None
          = Some (Some u) ->
          SocketRouter.Management.addRoute node (JS.VArray (src :: rest)) m
          = (Threw (JS.TypeError "Cannot read properties of undefined (reading 'getTracks')"),
             m, [NodeLog "Routing streams" 4])).
Proof.
  intros node m src rest. split.
  - intros who Hsrc Hwho. unfold SocketRouter.Management.addRoute,
      SocketRouter.Management.getClientById.
    handler. cbn [element nth]. unfold ret. rewrite Hsrc, Hwho. reflexivity.
  - intros s role c d rest' u Hsrc Hnth Hstream -> Hd.
    destruct (Management_last_with_id_bound _ _ _ _ _ Hd) as [|Hu]; [discriminate|].
    destruct (nth_error (SocketRouter.Management.clients m) u) as [[role' c']|] eqn:Hu'.
    2:{ apply nth_error_None in Hu'. lia. }
    unfold SocketRouter.Management.addRoute, SocketRouter.Management.getClientById,
      SocketRouter.Management.on_client, on_nth.
    handler. cbn [element nth length_of List.length]. unfold ret.
    rewrite Hsrc, Hnth, Hstream. cbn [Nat.sub seq for_each]. cbn [element nth].
    unfold bind, ret, this. rewrite Hd. cbn [modelled]. unfold ret. rewrite Hu'.
    cbn [fst snd SocketRouter.ClientConnection.addMediaStream]. unfold throw.
    rewrite (replace_same _ _ _ Hu'), Management_set_same. reflexivity.
Qed.

(** A route from ghost, whom no session has, and a route from bob, who has
    sent no stream, on the manager of the scenario. *)
Lemma management_route_without_stream_witness :
  SocketRouter.Management.addRoute Scenario.dev_node
    (JS.VArray [JS.VString "ghost"; JS.VString "bob"]) Scenario.manager_ready
  = (Returned tt, Scenario.manager_ready,
     [NodeLog "Routing streams" 4;
      NodeLog "Routing error: Source client with id ghost does not exist" 1])
  /\ SocketRouter.Management.addRoute Scenario.dev_node
       (JS.VArray [JS.VString "bob"; JS.VString "carol"; JS.VString "alice"])
       Scenario.manager_ready
     = (Threw (JS.TypeError "Cannot read properties of undefined (reading 'getTracks')"),
        Scenario.manager_ready, [NodeLog "Routing streams" 4]).
Proof.
  split.
  - apply (proj1 (management_route_without_a_stream_to_pass_on Scenario.dev_node
                    Scenario.manager_ready (JS.VString "ghost") [JS.VString "bob"])
             "ghost"); reflexivity.
  - apply (proj2 (management_route_without_a_stream_to_pass_on Scenario.dev_node
                    Scenario.manager_ready (JS.VString "bob")
                    [JS.VString "carol"; JS.VString "alice"])
             1 SocketRouter.Inbound (snd (Scenario.bound "bob"))
             (JS.VString "carol") [JS.VString "alice"] 2); reflexivity.
Defined.

(** What [stream.getTracks()] throws on a stream that is none. *)
Lemma admin_route_of_no_stream n src d rest' s c u what :
  AdminRouter.last_with_id src (AdminRouter.clients n) 0 None = Some (Some s) ->
  nth_error (AdminRouter.clients n) s = Some c ->
  (AdminRouter.Client.clientStream c = AdminRouter.Client.Null /\ what = "null"
   \/ AdminRouter.Client.clientStream c = AdminRouter.Client.Undefined
      /\ what = "undefined") ->
  AdminRouter.last_with_id d (AdminRouter.clients n) 0 None = Some (Some u) ->
  AdminRouter.addRoute (JS.VArray (src :: d :: rest')) n
  = (Threw (JS.TypeError ("Cannot read properties of " ++ what
                          ++ " (reading 'getTracks')")),
     n, [NodeLog "Routing streams" 4]).
Proof.
  intros Hsrc Hnth Hstream Hd.
  destruct (Admin_last_with_id_bound _ _ _ _ _ Hd) as [|Hu]; [discriminate|].
  destruct (nth_error (AdminRouter.clients n) u) as [c'|] eqn:Hu'.
  2:{ apply nth_error_None in Hu'. lia. }
  unfold AdminRouter.addRoute, AdminRouter.getClientById,
    AdminRouter.on_client, on_nth.
  handler. cbn [element nth length_of List.length]. unfold ret.
  rewrite Hsrc. cbn [modelled]. unfold ret. rewrite Hnth.
  cbn [Nat.sub seq for_each]. cbn [element nth].
  unfold bind, ret, this. rewrite Hd. cbn [modelled]. unfold ret. rewrite Hu'.
  destruct Hstream as [[-> ->]|[-> ->]];
    cbn [fst snd AdminRouter.Client.addMediaStream]; unfold throw;
    rewrite (AdminRouter_set_same _ _ _ Hu'); reflexivity.
Qed.

(** A route of the router of [part_000] whose source has no stream to pass
    on.  A source that no session has makes the command throw a TypeError
    before any destination is looked at.  A source that has received no
    track holds null, and one whose last track came in no stream holds
    undefined: either makes the command throw at the first destination,
    when that one is present, with the message of the value held.  Nothing
    is attached, nothing is sent, the node is as before. *)
Theorem admin_route_without_a_stream_to_pass_on :
  forall (n : AdminRouter.t) (src : JS.value) (rest : list JS.value),
    (AdminRouter.last_with_id src (AdminRouter.clients n) 0 None = Some None ->
     AdminRouter.addRoute (JS.VArray (src :: rest)) n
     = (Threw (JS.TypeError "Cannot read properties of null (reading 'mediaStream')"),
        n, [NodeLog "Routing streams" 4]))
    /\ (forall s c d rest' u,
          AdminRouter.last_with_id src (AdminRouter.clients n) 0 None = Some (Some s) ->
          nth_error (AdminRouter.clients n) s = Some c ->
          rest = d :: rest' ->
          AdminRouter.last_with_id d (AdminRouter.clients n) 0 None = Some (Some u) ->
          (AdminRouter.Client.clientStream c = AdminRouter.Client.Null ->
           AdminRouter.addRoute (JS.VArray (src :: rest)) n
           = (Threw (JS.TypeError "Cannot read properties of null (reading 'getTracks')"),
              n, [NodeLog "Routing streams" 4]))
          /\ (AdminRouter.Client.clientStream c = AdminRouter.Client.Undefined ->
              AdminRouter.addRoute (JS.VArray (src :: rest)) n
              = (Threw (JS.TypeError
                          "Cannot read properties of undefined (reading 'getTracks')"),
                 n, [NodeLog "Routing streams" 4])))
    /\ (forall self c,
          nth_error (AdminRouter.clients n) self = Some c ->
          nth_error (AdminRouter.clients
                       (final (AdminRouter.handle (AdminRouter.OnTrack self []) n))) self
          = Some (AdminRouter.Client.set_clientStream AdminRouter.Client.Undefined c)).
Proof.
  intros n src rest. split; [|split].
  - intros Hsrc. unfold AdminRouter.addRoute, AdminRouter.getClientById.
    handler. cbn [element nth]. unfold ret. rewrite Hsrc. reflexivity.
  - intros s c d rest' u Hsrc Hnth -> Hd. split; intros Hstream.
    + apply (admin_route_of_no_stream n src d rest' s c u "null" Hsrc Hnth); auto.
    + apply (admin_route_of_no_stream n src d rest' s c u "undefined" Hsrc Hnth); auto.
  - intros self c Hnth.
    unfold AdminRouter.handle, AdminRouter.on_client, on_nth.
    handler. rewrite Hnth. cbn. apply nth_error_replace.
    apply nth_error_Some. rewrite Hnth. discriminate.
Qed.

(** The same two routes on the router of [part_000], and the second once
    more after a track of bob has come in no stream. *)
Lemma admin_route_without_stream_witness :
  AdminRouter.addRoute (JS.VArray [JS.VString "ghost"; JS.VString "bob"])
    Scenario.admin_ready
  = (Threw (JS.TypeError "Cannot read properties of null (reading 'mediaStream')"),
     Scenario.admin_ready, [NodeLog "Routing streams" 4])
  /\ AdminRouter.addRoute
       (JS.VArray [JS.VString "bob"; JS.VString "carol"; JS.VString "alice"])
       Scenario.admin_ready
     = (Threw (JS.TypeError "Cannot read properties of null (reading 'getTracks')"),
        Scenario.admin_ready, [NodeLog "Routing streams" 4])
  /\ (let n := final (AdminRouter.handle (AdminRouter.OnTrack 1 []) Scenario.admin_ready) in
      AdminRouter.addRoute
        (JS.VArray [JS.VString "bob"; JS.VString "carol"; JS.VString "alice"]) n
      = (Threw (JS.TypeError "Cannot read properties of undefined (reading 'getTracks')"),
         n, [NodeLog "Routing streams" 4])).
Proof.
  split; [|split].
  - apply (proj1 (admin_route_without_a_stream_to_pass_on Scenario.admin_ready
                    (JS.VString "ghost") [JS.VString "bob"])).
    reflexivity.
  - apply (proj1 (proj1 (proj2 (admin_route_without_a_stream_to_pass_on Scenario.admin_ready
                    (JS.VString "bob") [JS.VString "carol"; JS.VString "alice"]))
             1 (nth 1 (AdminRouter.clients Scenario.admin_ready) AdminRouter.Client.new)
             (JS.VString "carol") [JS.VString "alice"] 2
             eq_refl eq_refl eq_refl eq_refl)); reflexivity.
  - cbv zeta.
    apply (proj2 (proj1 (proj2 (admin_route_without_a_stream_to_pass_on
                    (final (AdminRouter.handle (AdminRouter.OnTrack 1 []) Scenario.admin_ready))
                    (JS.VString "bob") [JS.VString "carol"; JS.VString "alice"]))
             1 (AdminRouter.Client.set_clientStream AdminRouter.Client.Undefined
                  (nth 1 (AdminRouter.clients Scenario.admin_ready) AdminRouter.Client.new))
             (JS.VString "carol") [JS.VString "alice"] 2
             eq_refl eq_refl eq_refl eq_refl)); reflexivity.
Defined.

(* ================================================================== *)
(** * Between two nodes *)
(* ================================================================== *)

Lemma nullish_or_document v : document v -> JS.nullish_or v JS.VNull = v.
Proof. intros H. destruct H; reflexivity. Qed.

Lemma credentialed_message_parses action payload id token :
  document payload ->
  JS.JSON_parse (JS.JSON_stringify
                   (JS.VObject [("action", JS.VString action); ("data", payload);
                                ("id", JS.VString id); ("token", JS.VString token)]))
  = Some (JS.VObject [("action", JS.VString action); ("data", payload);
                      ("id", JS.VString id); ("token", JS.VString token)]).
Proof.
  intros Hp. apply JSON_parse_stringify.
  constructor; [apply four_fields_ordered|].
  repeat (constructor; [first [exact Hp|constructor]|]). constructor.
Qed.

(** An offer between two nodes of [part_003].  What the initiating role
    of one node sends to open a negotiation is read by the accepting role
    of another, on a session not yet bound, as the offer it was: the
    session is bound to the name of the sender.  It passes the gate only
    when the token of the sender is testauth, and then set-remote-description
    is called with the offer; with any other token, the empty string
    included, the receiver tears the session down. *)
Theorem offer_of_a_node_passes_the_gate_of_another_only_with_the_fixed_token :
  forall (sender receiver : SocketRouter.Globals) (offer : JS.value)
         (c : SocketRouter.ClientConnection.t),
    document offer ->
    SocketRouter.ClientConnection._id c = JS.VNull ->
    let text := SocketRouter.SockResponse.RESP_OFFER sender offer in
    let name := SocketRouter.NODE_INSTANCE_NAME sender in
    let bound := SocketRouter.ClientConnection.set_id (JS.VString name) c in
    SocketRouter.InboundClient.onClientMessage receiver text c
    = if String.eqb (SocketRouter.NODE_AUTH sender) "testauth" then
        (Returned tt, SocketRouter.ClientConnection.suspend SocketRouter.AnswerAfterRemote bound,
         [Log ("Socket message: " ++ text) 9; Log ("Authenticated user" ++ name) 4;
          Log ("Got offer from '" ++ name ++ "'") 5;
          PeerCall (SocketRouter.ClientConnection.promises c) (SetRemoteDescription offer)])
      else
        (Returned tt, bound,
         [Log ("Socket message: " ++ text) 9; Log "Auth failed" 4; PeerClose; SocketClose]).
Proof.
  intros sender receiver offer c Hoffer Hc text name bound.
  assert (Hparse := credentialed_message_parses "offer" offer name
                      (SocketRouter.NODE_AUTH sender) Hoffer).
  unfold SocketRouter.InboundClient.onClientMessage.
  unfold text at 1, SocketRouter.SockResponse.RESP_OFFER,
    SocketRouter.SockResponse.generateGenericMessage.
  fold name.
  rewrite (bind_returned _ _ _ _ _ _ (SockRequest_new_object _ _ c Hparse)).
  cbn [SocketRouter.SockRequest.parseError].
  unfold JS.field, JS.own. cbn [JS.assoc String.eqb Ascii.eqb Bool.eqb].
  rewrite (nullish_or_document offer Hoffer).
  cbn [JS.nullish_or JS.is_nullish].
  destruct c as [i0 streams made waits]. cbn in Hc. subst i0.
  unfold SocketRouter.ClientConnection.authenticateRequest,
    SocketRouter.InboundClient.getRtcAnswer, SocketRouter.ClientConnection.await,
    SocketRouter.ClientConnection.close, SocketRouter.ClientConnection.id.
  handler. cbn [SocketRouter.SockRequest.id SocketRouter.SockRequest.token
                  SocketRouter.SockRequest.action SocketRouter.SockRequest.data
                  SocketRouter.ClientConnection._id JS.is_nullish JS.loose_eq].
  unfold text, SocketRouter.SockResponse.RESP_OFFER,
    SocketRouter.SockResponse.generateGenericMessage, bound. fold name.
  destruct (String.eqb (SocketRouter.NODE_AUTH sender) "testauth"); reflexivity.
Qed.

(** The development node offers to a node like itself: its token is empty,
    and the session is torn down. *)
Lemma offer_between_nodes_witness :
  SocketRouter.InboundClient.onClientMessage Scenario.dev_node
    (SocketRouter.SockResponse.RESP_OFFER Scenario.dev_node (Scenario.sdp "offer" "v=0"))
    SocketRouter.ClientConnection.new
  = (Returned tt,
     SocketRouter.ClientConnection.set_id (JS.VString "default-dev-id")
       SocketRouter.ClientConnection.new,
     [Log ("Socket message: "
           ++ SocketRouter.SockResponse.RESP_OFFER Scenario.dev_node
                (Scenario.sdp "offer" "v=0")) 9;
      Log "Auth failed" 4; PeerClose; SocketClose]).
Proof.
  apply (offer_of_a_node_passes_the_gate_of_another_only_with_the_fixed_token
           Scenario.dev_node Scenario.dev_node (Scenario.sdp "offer" "v=0")
           SocketRouter.ClientConnection.new).
  - repeat constructor.
  - reflexivity.
Defined.

